(** * Urho3D-Blender exporter: a shallow embedding of [export_urho.py]

    The development follows [src/io_mesh_urho/export_urho.py].

    What is embedded.  The float comparison helpers, the model, animation
    and material classes with the constructors [UrhoVertex.__init__] and
    [UrhoKeyframe.__init__], and of
    [UrhoExport] the geometry stage (lines 877-1102: buffer policy, vertex
    deduplication, index buffers, geometry centers, bone remap, index
    sizes), the morph range bookkeeping (lines 1171-1184), the animation
    stage (lines 1187-1218) and the material stage (lines 1220-1272);
    [BinaryFileWriter], [UrhoWriteModel], [UrhoWriteAnimation] and the text
    [UrhoWriteMaterialsList] writes.  The skeleton, bone volume and morph
    delta stages, [UrhoVertex.subtract] (it rests on the in-place
    subtraction of [mathutils], which is not part of the sources),
    [UrhoVertex.__eq__], [RelativeAbs] and [UrhoWriteMaterial] are not
    embedded.

    Number model.  Python floats are idealised as exact rationals ([Q]):
    comparisons, absolute values, sums and quotients are the exact ones, and
    [float("+inf")] is a separate point above every rational ([XQ]).  NaN
    and rounding are outside the model.  Python integers are unbounded, so
    element masks are [Z] with [Z.land]/[Z.lor]; list positions and bone
    indices are [nat].

    Objects.  [UrhoVertex] instances are mutated in place by the bone remap
    and can be referenced from several places, so they live in an explicit
    store ([heap]) and are named by their position there.

    Exceptions.  Code that can raise returns [Exc]; a [for] loop whose body
    can raise is [foldM].  [str.format] with a [{:s}] field raises
    [TypeError] for an argument that is not a string: the handlers that
    format an exception object this way raise it.  A run of writes of a file writer is [Written]:
    the bytes it appended to the buffer, with a packed float kept as the
    number, or the exception that stopped it. *)

From Stdlib Require Import ZArith QArith Qabs List Bool Lia Lqa Sorted Permutation.
From Stdlib.Strings Require String.
From Stdlib.Strings Require Import Byte.
Import ListNotations.
Import String.StringSyntax.
Delimit Scope string_scope with string.

Set Implicit Arguments.

(* ------------------------------------------------------------------ *)
(** ** Exceptions *)

(** The exceptions the modelled code can let escape. *)
Inductive PyExc : Type :=
| IndexError | KeyError | TypeError | AttributeError | UnboundLocalError
| StructError.

Inductive Exc (A : Type) : Type :=
| Ok (a : A)
| Raise (e : PyExc).
Arguments Ok {A} a.
Arguments Raise {A} e.

Definition bind {A B : Type} (c : Exc A) (k : A -> Exc B) : Exc B :=
  match c with
  | Ok a => k a
  | Raise e => Raise e
  end.

Notation "x <- c ;; k" := (bind c (fun x => k))
  (at level 61, c at next level, right associativity).

(** [l[i]] for a non-negative position [i]. *)
Definition getitem {A : Type} (l : list A) (i : nat) : Exc A :=
  match nth_error l i with
  | Some a => Ok a
  | None => Raise IndexError
  end.

(** [l[i] = a], used for objects of the store. *)
Fixpoint setitem {A : Type} (l : list A) (i : nat) (a : A) : list A :=
  match l, i with
  | [], _ => []
  | _ :: r, O => a :: r
  | x :: r, S j => x :: setitem r j a
  end.

(* ------------------------------------------------------------------ *)
(** ** Urho enums *)

Definition ELEMENT_POSITION : Z := 0x0001.
Definition ELEMENT_NORMAL   : Z := 0x0002.
Definition ELEMENT_COLOR    : Z := 0x0004.
Definition ELEMENT_UV1      : Z := 0x0008.
Definition ELEMENT_UV2      : Z := 0x0010.
Definition ELEMENT_CUBE_UV1 : Z := 0x0020.
Definition ELEMENT_CUBE_UV2 : Z := 0x0040.
Definition ELEMENT_TANGENT  : Z := 0x0080.
Definition ELEMENT_BWEIGHTS : Z := 0x0100.
Definition ELEMENT_BINDICES : Z := 0x0200.

Definition ELEMENT_BLEND    : Z := 0x0300.

Definition MORPH_ELEMENTS : Z :=
  Z.lor (Z.lor ELEMENT_POSITION ELEMENT_NORMAL) ELEMENT_TANGENT.

Definition TRACK_POSITION : Z := 0x0001.
Definition TRACK_ROTATION : Z := 0x0002.
Definition TRACK_SCALE    : Z := 0x0004.

Definition TRIANGLE_LIST : nat := 0.
Definition LINE_LIST     : nat := 1.

(** Max number of bones supported by HW skinning *)
Definition MAX_SKIN_MATRICES : nat := 64.

(** Truth value of a Python integer used as a condition. *)
Definition truthyZ (z : Z) : bool := negb (z =? 0)%Z.

(* ------------------------------------------------------------------ *)
(** ** Float comparison *)

(** Max difference between floats to be equal *)
Definition EPSILON : Q := 1 # 1000000.

(** A float that may be [float("+inf")]. *)
Inductive XQ : Type :=
| Fin (q : Q)
| INFINITY.

Definition Qltb (a b : Q) : bool := negb (Qle_bool b a).

Definition XQadd (a b : XQ) : XQ :=
  match a, b with
  | Fin x, Fin y => Fin (x + y)
  | _, _ => INFINITY
  end.

Definition XQsub (a b : XQ) : XQ :=
  match a, b with
  | Fin x, Fin y => Fin (x - y)
  | _, _ => INFINITY
  end.

(** [a < b] on floats; the subtrahend of [XQsub] is always finite in the
    code, so the undefined [inf - inf] never arises. *)
Definition XQltb (a b : XQ) : bool :=
  match a, b with
  | Fin x, Fin y => Qltb x y
  | Fin _, INFINITY => true
  | INFINITY, _ => false
  end.

(** The order [a <= b] with [INFINITY] on top. *)
Definition XQle (a b : XQ) : Prop :=
  match a, b with
  | Fin x, Fin y => x <= y
  | _, INFINITY => True
  | INFINITY, Fin _ => False
  end.

(** [sum(l)]: Python adds from the left, starting at 0. *)
Definition pysum (l : list Q) : Q := fold_left Qplus l 0.

(** Returns True is v1 and v2 are both None or their corresponding elements
    are almost equal *)
Definition FloatListAlmostEqual (v1 v2 : option (list Q)) : bool :=
  match v1, v2 with
  | None, None => true
  | None, Some _ => false
  | Some _, None => false
  | Some l1, Some l2 =>
      forallb (fun p => negb (Qltb EPSILON (Qabs (fst p - snd p))))
              (combine l1 l2)
  end.

Definition FloatListEqualError (v1 v2 : option (list Q)) : XQ :=
  match v1, v2 with
  | None, None => Fin 0
  | None, Some _ => INFINITY
  | Some _, None => INFINITY
  | Some l1, Some l2 =>
      Fin (pysum (map (fun p => Qabs (fst p - snd p)) (combine l1 l2)))
  end.

(** A [mathutils.Vector] of three floats. *)
Record Vector3 : Type := mkVector3 { vx : Q; vy : Q; vz : Q }.

(** A [mathutils.Vector] of four floats (tangent, [w] = handedness). *)
Record Vector4 : Type := mkVector4 { tx : Q; ty : Q; tz : Q; tw : Q }.

(** Iterating a vector yields its components. *)
Definition components (v : Vector3) : list Q := [vx v; vy v; vz v].

Definition dot (v1 v2 : Vector3) : Q :=
  vx v1 * vx v2 + vy v1 * vy v2 + vz v1 * vz v2.

Definition VectorDotProduct (v1 v2 : option Vector3) : Q :=
  match v1, v2 with
  | None, None => 1
  | None, Some _ => -1
  | Some _, None => -1
  | Some a, Some b => dot a b
  end.

(** [cos(30 / 180 * pi)] as Python evaluates it: the double
    0.8660254037844387, written as its exact ratio. *)
Definition COS_30 : Q := 7800463371553963 # 9007199254740992.

(* ------------------------------------------------------------------ *)
(** ** Python containers *)

Section Dict.
Variables (K V : Type) (eqb : K -> K -> bool).

(** A [dict] as the list of its items in insertion order. *)
Fixpoint dict_get (d : list (K * V)) (k : K) : option V :=
  match d with
  | [] => None
  | (k', v) :: r => if eqb k' k then Some v else dict_get r k
  end.

(** [d[k] = v]: an existing key keeps its place. *)
Fixpoint dict_set (d : list (K * V)) (k : K) (v : V) : list (K * V) :=
  match d with
  | [] => [(k, v)]
  | (k', v') :: r =>
      if eqb k' k then (k, v) :: r else (k', v') :: dict_set r k v
  end.
End Dict.

(** [s.add(x)] on a [set], kept as a duplicate-free list. *)
Definition set_add {A : Type} (eqb : A -> A -> bool) (s : list A) (x : A)
  : list A :=
  if existsb (eqb x) s then s else s ++ [x].

Definition pair_eqb (a b : nat * nat) : bool :=
  (fst a =? fst b)%nat && (snd a =? snd b)%nat.

(** [l.index(x)]; [None] stands for [ValueError]. *)
Fixpoint list_index (l : list nat) (x : nat) : option nat :=
  match l with
  | [] => None
  | y :: r =>
      if (y =? x)%nat then Some 0%nat
      else option_map S (list_index r x)
  end.

(* ------------------------------------------------------------------ *)
(** ** The built-in [hash] on floats *)

(** CPython hashes a number by its value as a rational [m/n] reduced modulo
    the prime [2^61 - 1]. *)
Definition HASH_MODULUS : Z := (2 ^ 61 - 1)%Z.
Definition HASH_INF : Z := 314159%Z.

Fixpoint powmod (b : Z) (e : positive) (m : Z) : Z :=
  match e with
  | xH => (b mod m)%Z
  | xO e' => let r := powmod b e' m in ((r * r) mod m)%Z
  | xI e' => let r := powmod b e' m in (((r * r) mod m * (b mod m)) mod m)%Z
  end.

Definition hash_float (x : Q) : Z :=
  let r := Qred x in
  let m := Qnum r in
  let n := Zpos (Qden r) in
  let h :=
    if (n mod HASH_MODULUS =? 0)%Z then HASH_INF
    else (((Z.abs m mod HASH_MODULUS)
           * powmod n (Z.to_pos (HASH_MODULUS - 2)) HASH_MODULUS)
          mod HASH_MODULUS)%Z in
  let h := if (m <? 0)%Z then (- h)%Z else h in
  if (h =? -1)%Z then (-2)%Z else h.

(* ------------------------------------------------------------------ *)
(** ** Model classes *)

(** Modelled from the spec: the source vertex of the intermediate
    representation (its class is declared outside [export_urho.py]), with
    the attributes the exporter reads.  A vector is always true as a
    condition, a tuple is true when it is not empty. *)
Record TVertex : Type := mkTVertex {
  tv_pos : option Vector3;
  tv_normal : option Vector3;
  tv_color : option (list Z);
  tv_uv : option (list Q);
  tv_uv2 : option (list Q);
  tv_tangent : option Vector4;
  tv_weights : option (list (nat * Q));
  tv_blenderIndex : option Z
}.

Record UrhoVertex : Type := mkUrhoVertex {
  (** Only used by morphs, original vertex index in the not morphed vertex
      buffer *)
  index : option nat;
  pos : option Vector3;
  normal : option Vector3;
  color : option (list Z);
  uv : option (list Q);
  uv2 : option (list Q);
  tangent : option Vector4;
  (** List of 4 tuples: bone index (unsigned byte), blend weight (float) *)
  weights : list (nat * Q)
}.

Record UrhoVertexBuffer : Type := mkUrhoVertexBuffer {
  (** Flags of the elements contained in every vertex of this buffer *)
  elementMask : option Z;
  morphMinIndex : option nat;
  morphMaxIndex : option nat;
  (** List of UrhoVertex, each named by its place in the store *)
  vertices : list nat
}.

Definition UrhoVertexBuffer_new : UrhoVertexBuffer :=
  mkUrhoVertexBuffer None None None [].

Record UrhoIndexBuffer : Type := mkUrhoIndexBuffer {
  (** Size of each index: 2 for 16 bits, 4 for 32 bits *)
  indexSize : nat;
  indexes : list nat
}.

Definition UrhoIndexBuffer_new : UrhoIndexBuffer := mkUrhoIndexBuffer 0 [].

Record UrhoLodLevel : Type := mkUrhoLodLevel {
  distance : Q;
  primitiveType : nat;
  (** Index of the vertex buffer used by this LOD in the model list *)
  lodVertexBuffer : nat;
  (** Index of the index buffer used by this LOD in the model list *)
  lodIndexBuffer : nat;
  startIndex : nat;
  countIndex : nat
}.

Record UrhoGeometry : Type := mkUrhoGeometry {
  boneMap : list nat;
  lodLevels : list UrhoLodLevel;
  center : Vector3
}.

Definition truthy_opt {A : Type} (o : option A) : bool :=
  match o with Some _ => true | None => false end.

Definition truthy_tuple {A : Type} (o : option (list A)) : bool :=
  match o with Some (_ :: _) => true | _ => false end.

Definition flag (b : bool) (bit : Z) (mask : Z) : Z :=
  if b then Z.lor mask bit else mask.

(** Stable sort by decreasing weight:
    [sorted(ws, key = operator.itemgetter(1), reverse = True)]. *)
Fixpoint insert_desc (t : nat * Q) (l : list (nat * Q)) : list (nat * Q) :=
  match l with
  | [] => [t]
  | u :: r => if Qltb (snd t) (snd u) then u :: insert_desc t r else t :: l
  end.

Definition sorted_desc (ws : list (nat * Q)) : list (nat * Q) :=
  fold_right insert_desc [] ws.

(** Lines 173-182: keep only the first 4 tuples, normalize weights, add at
    least 4 tuples. *)
Definition blendWeights (ws : list (nat * Q)) : list (nat * Q) :=
  let sortedList := sorted_desc ws in
  let totalWeight := pysum (map snd (firstn 4 sortedList)) in
  map (fun i =>
         if negb (Qeq_bool totalWeight 0) && (i <? length sortedList)%nat
         then let t := nth i sortedList (0%nat, 0) in
              (fst t, snd t / totalWeight)
         else (0%nat, 0))
      (seq 0 4).

(** The local [mask] that [UrhoVertex.__init__] accumulates. *)
Definition sourceMask (tVertex : TVertex) : Z :=
  let mask := 0%Z in
  let mask := flag (truthy_opt (tv_pos tVertex)) ELEMENT_POSITION mask in
  let mask := flag (truthy_opt (tv_normal tVertex)) ELEMENT_NORMAL mask in
  let mask := flag (truthy_tuple (tv_color tVertex)) ELEMENT_COLOR mask in
  let mask := flag (truthy_tuple (tv_uv tVertex)) ELEMENT_UV1 mask in
  let mask := flag (truthy_tuple (tv_uv2 tVertex)) ELEMENT_UV2 mask in
  let mask := flag (truthy_opt (tv_tangent tVertex)) ELEMENT_TANGENT mask in
  flag (truthy_opt (tv_weights tVertex)) ELEMENT_BLEND mask.

(** The attributes [UrhoVertex.__init__] sets. *)
Definition sourceFields (tVertex : TVertex) : UrhoVertex :=
  {| index := None;
     pos := tv_pos tVertex;
     normal := tv_normal tVertex;
     color := tv_color tVertex;
     uv := tv_uv tVertex;
     uv2 := tv_uv2 tVertex;
     tangent := tv_tangent tVertex;
     weights := match tv_weights tVertex with
                | Some ws => blendWeights ws
                | None => []
                end |}.

Definition set_elementMask (b : UrhoVertexBuffer) (m : option Z)
  : UrhoVertexBuffer :=
  {| elementMask := m;
     morphMinIndex := morphMinIndex b;
     morphMaxIndex := morphMaxIndex b;
     vertices := vertices b |}.

(** What the constructor leaves behind: the new object, or a [MaskError]
    carrying the three masks of its message. *)
Inductive Constructed : Type :=
| Built (v : UrhoVertex)
| MaskError (oldMask mask newMask : Z).

(** [UrhoVertex.__init__]: returns the buffer with its updated mask. *)
Definition UrhoVertex_init (tVertex : TVertex) (uVertexBuffer : UrhoVertexBuffer)
  : UrhoVertexBuffer * Constructed :=
  let mask := sourceMask tVertex in
  match elementMask uVertexBuffer with
  | None => (set_elementMask uVertexBuffer (Some mask), Built (sourceFields tVertex))
  | Some oldMask =>
      if (oldMask =? mask)%Z
      then (uVertexBuffer, Built (sourceFields tVertex))
      else (set_elementMask uVertexBuffer (Some (Z.land oldMask mask)),
            MaskError oldMask mask (Z.land oldMask mask))
  end.

Definition option_list_eqb (a b : option (list Z)) : bool :=
  match a, b with
  | None, None => true
  | Some x, Some y => if list_eq_dec Z.eq_dec x y then true else false
  | _, _ => false
  end.

Definition floats (v : option Vector3) : option (list Q) :=
  option_map components v.

(** compare position, normal, color, UV, UV2 with another vertex, returns
    True is the error is insignificant *)
Definition AlmostEqual (self other : UrhoVertex) : bool :=
  if negb (FloatListAlmostEqual (floats (pos self)) (floats (pos other)))
  then false
  else if negb (FloatListAlmostEqual (floats (normal self))
                                     (floats (normal other)))
  then false
  else if negb (option_list_eqb (color self) (color other)) then false
  else if negb (FloatListAlmostEqual (uv self) (uv other)) then false
  else if negb (FloatListAlmostEqual (uv2 self) (uv2 other)) then false
  else true.

(** compare position, normal, UV with another vertex, returns the error *)
Definition LodError (self other : UrhoVertex) : XQ :=
  if negb (FloatListAlmostEqual (floats (pos self)) (floats (pos other)))
  then INFINITY
  else
    let ncos := VectorDotProduct (normal self) (normal other) in
    if Qltb ncos COS_30 then INFINITY
    else XQsub (XQadd (FloatListEqualError (uv self) (uv other)) (Fin 1))
               (Fin ncos).

(** [hash(uVertex)]: [__hash__] is the xor of the hashes of the position
    components, and the built-in turns a result of -1 into -2. *)
Definition UrhoVertex_hash (self : UrhoVertex) : Z :=
  let hashValue :=
    match pos self with
    | Some p =>
        Z.lxor 0 (Z.lxor (Z.lxor (hash_float (vx p)) (hash_float (vy p)))
                         (hash_float (vz p)))
    | None => 0%Z
    end in
  if (hashValue =? -1)%Z then (-2)%Z else hashValue.


(** Bounding box axes aligned *)
Record BoundingBox : Type := mkBoundingBox {
  bbmin : option Vector3;
  bbmax : option Vector3
}.

Definition Qmin' (a b : Q) : Q := if Qltb a b then a else b.
Definition Qmax' (a b : Q) : Q := if Qltb b a then a else b.

(** [BoundingBox.merge]; a missing point or corner is an [AttributeError]. *)
Definition merge (self : BoundingBox) (point : option Vector3)
  : Exc BoundingBox :=
  match point, bbmin self, bbmax self with
  | None, _, _ => Raise AttributeError
  | Some p, None, _ => Ok {| bbmin := Some p; bbmax := Some p |}
  | Some p, Some mn, None => Raise AttributeError
  | Some p, Some mn, Some mx =>
      Ok {| bbmin := Some {| vx := Qmin' (vx p) (vx mn);
                             vy := Qmin' (vy p) (vy mn);
                             vz := Qmin' (vz p) (vz mn) |};
            bbmax := Some {| vx := Qmax' (vx p) (vx mx);
                             vy := Qmax' (vy p) (vy mx);
                             vz := Qmax' (vz p) (vz mx) |} |}
  end.

(* ------------------------------------------------------------------ *)
(** ** Input and options *)

(** Modelled from the spec: one LOD of the intermediate representation, a
    distance, the source vertex indices it uses (in the order the set is
    iterated) and its triangles, three source vertex indices each. *)
Record TLodLevel : Type := mkTLodLevel {
  tl_distance : Q;
  indexSet : list nat;
  triangleList : list (nat * nat * nat)
}.

(** Modelled from the spec: a geometry of the intermediate representation,
    its ordered LODs. *)
Record TGeometry : Type := mkTGeometry {
  tg_lodLevels : list TLodLevel
}.

Record UrhoExportOptions : Type := mkUrhoExportOptions {
  splitSubMeshes : bool;
  useStrictLods : bool
}.

(** The records written to [log]. *)
Inductive LogRecord : Type :=
| ErrorFirstLodDistance (geomIndex : nat) (d : Q)
| WarningIncompatibleMask (oldMask mask newMask : Z)
    (** the warning of line 964, which is never written: its message
        fails to format *)
| ErrorIndexMapConflict
| WarningNewVertices (i geomIndex : nat)
| ErrorTooManyBones (i : nat)
| WarningNoPosition.

(* ------------------------------------------------------------------ *)
(** ** State of the geometry stage of [UrhoExport] (lines 877-1093)

    [vertexBuffer] and [indexBuffer] are the objects the local variables of
    that name refer to: always the last elements of [uModel.vertexBuffers]
    and [uModel.indexBuffers].  The lists [closedVertexBuffers] and
    [closedIndexBuffers] hold the elements before them, which the stage no
    longer touches. *)
Record State : Type := mkState {
  heap : list UrhoVertex;
  closedVertexBuffers : list UrhoVertexBuffer;
  vertexBuffer : option UrhoVertexBuffer;
  closedIndexBuffers : list UrhoIndexBuffer;
  indexBuffer : option UrhoIndexBuffer;
  geometries : list UrhoGeometry;
  boundingBox : BoundingBox;
  errorsIndices : list Z;
  modelIndexMap : list (nat * list (nat * nat));
  uVerticesMap : list (Z * list nat);
  uVertex : option nat;
  log : list LogRecord
}.

Definition opt_list {A : Type} (o : option A) : list A :=
  match o with Some a => [a] | None => [] end.

(** [uModel.vertexBuffers] *)
Definition vertexBuffers (st : State) : list UrhoVertexBuffer :=
  closedVertexBuffers st ++ opt_list (vertexBuffer st).

(** [uModel.indexBuffers] *)
Definition indexBuffers (st : State) : list UrhoIndexBuffer :=
  closedIndexBuffers st ++ opt_list (indexBuffer st).

Definition initialState (errors : list Z) : State :=
  {| heap := []; closedVertexBuffers := []; vertexBuffer := None;
     closedIndexBuffers := []; indexBuffer := None; geometries := [];
     boundingBox := mkBoundingBox None None; errorsIndices := errors;
     modelIndexMap := []; uVerticesMap := []; uVertex := None; log := [] |}.

Definition set_heap (h : list UrhoVertex) (st : State) : State :=
  mkState h (closedVertexBuffers st) (vertexBuffer st) (closedIndexBuffers st)
          (indexBuffer st) (geometries st) (boundingBox st) (errorsIndices st)
          (modelIndexMap st) (uVerticesMap st) (uVertex st) (log st).

Definition set_vertexBuffer (b : UrhoVertexBuffer) (st : State) : State :=
  mkState (heap st) (closedVertexBuffers st) (Some b) (closedIndexBuffers st)
          (indexBuffer st) (geometries st) (boundingBox st) (errorsIndices st)
          (modelIndexMap st) (uVerticesMap st) (uVertex st) (log st).

Definition set_indexBuffer (b : UrhoIndexBuffer) (st : State) : State :=
  mkState (heap st) (closedVertexBuffers st) (vertexBuffer st)
          (closedIndexBuffers st) (Some b) (geometries st) (boundingBox st)
          (errorsIndices st) (modelIndexMap st) (uVerticesMap st) (uVertex st)
          (log st).

Definition set_geometries (g : list UrhoGeometry) (st : State) : State :=
  mkState (heap st) (closedVertexBuffers st) (vertexBuffer st)
          (closedIndexBuffers st) (indexBuffer st) g (boundingBox st)
          (errorsIndices st) (modelIndexMap st) (uVerticesMap st) (uVertex st)
          (log st).

Definition set_boundingBox (b : BoundingBox) (st : State) : State :=
  mkState (heap st) (closedVertexBuffers st) (vertexBuffer st)
          (closedIndexBuffers st) (indexBuffer st) (geometries st) b
          (errorsIndices st) (modelIndexMap st) (uVerticesMap st) (uVertex st)
          (log st).

Definition set_errorsIndices (e : list Z) (st : State) : State :=
  mkState (heap st) (closedVertexBuffers st) (vertexBuffer st)
          (closedIndexBuffers st) (indexBuffer st) (geometries st)
          (boundingBox st) e (modelIndexMap st) (uVerticesMap st) (uVertex st)
          (log st).

Definition set_modelIndexMap (m : list (nat * list (nat * nat))) (st : State)
  : State :=
  mkState (heap st) (closedVertexBuffers st) (vertexBuffer st)
          (closedIndexBuffers st) (indexBuffer st) (geometries st)
          (boundingBox st) (errorsIndices st) m (uVerticesMap st) (uVertex st)
          (log st).

Definition set_uVerticesMap (m : list (Z * list nat)) (st : State) : State :=
  mkState (heap st) (closedVertexBuffers st) (vertexBuffer st)
          (closedIndexBuffers st) (indexBuffer st) (geometries st)
          (boundingBox st) (errorsIndices st) (modelIndexMap st) m (uVertex st)
          (log st).

Definition set_uVertex (u : nat) (st : State) : State :=
  mkState (heap st) (closedVertexBuffers st) (vertexBuffer st)
          (closedIndexBuffers st) (indexBuffer st) (geometries st)
          (boundingBox st) (errorsIndices st) (modelIndexMap st)
          (uVerticesMap st) (Some u) (log st).

Definition add_log (r : LogRecord) (st : State) : State :=
  mkState (heap st) (closedVertexBuffers st) (vertexBuffer st)
          (closedIndexBuffers st) (indexBuffer st) (geometries st)
          (boundingBox st) (errorsIndices st) (modelIndexMap st)
          (uVerticesMap st) (uVertex st) (log st ++ [r]).

(** Lines 929-931: a new vertex buffer is appended to the model and becomes
    the current one, with a fresh [uVerticesMap]. *)
Definition newVertexBuffer (st : State) : State :=
  mkState (heap st) (vertexBuffers st) (Some UrhoVertexBuffer_new)
          (closedIndexBuffers st) (indexBuffer st) (geometries st)
          (boundingBox st) (errorsIndices st) (modelIndexMap st) []
          (uVertex st) (log st).

(** Lines 935-936. *)
Definition newIndexBuffer (st : State) : State :=
  mkState (heap st) (closedVertexBuffers st) (vertexBuffer st)
          (indexBuffers st) (Some UrhoIndexBuffer_new) (geometries st)
          (boundingBox st) (errorsIndices st) (modelIndexMap st)
          (uVerticesMap st) (uVertex st) (log st).

(** The object a buffer variable refers to; using [None] as a buffer is an
    [AttributeError]. *)
Definition deref {A : Type} (o : option A) : Exc A :=
  match o with Some a => Ok a | None => Raise AttributeError end.

(* ------------------------------------------------------------------ *)
(** ** Adding the vertices of a LOD (lines 954-1032) *)

(** Lines 959-964.  When the constructor raises [MaskError], the handler
    records [tVertex.blenderIndex] and then builds the message of its
    warning with [format], giving the exception object to a [{:s}] field:
    an exception has no [__format__] of its own, and [object.__format__]
    raises [TypeError] for a format specification that is not empty.  The
    [TypeError] leaves [UrhoExport], so nothing of the narrowed mask, of
    the recorded index or of a warning is seen afterwards. *)
Definition createVertex (tVertex : TVertex) (st : State) : Exc State :=
  vb <- deref (vertexBuffer st) ;;
  match UrhoVertex_init tVertex vb with
  | (vb', Built v) =>
      Ok (set_uVertex (length (heap st))
            (set_heap (heap st ++ [v]) (set_vertexBuffer vb' st)))
  | (vb', MaskError oldMask mask newMask) => Raise TypeError
  end.

(** [vertexBuffer.vertices[ivl]] *)
Definition vertexAt (h : list UrhoVertex) (vb : UrhoVertexBuffer) (ivl : nat)
  : Exc UrhoVertex :=
  id <- getitem (vertices vb) ivl ;; getitem h id.

(** Lines 984-987: the first vertex of the bucket almost equal to
    [uVertex]. *)
Fixpoint searchAlmostEqual (h : list UrhoVertex) (vb : UrhoVertexBuffer)
    (u : UrhoVertex) (uVerticesMapList : list nat) : Exc (option nat) :=
  match uVerticesMapList with
  | [] => Ok None
  | ivl :: r =>
      v <- vertexAt h vb ivl ;;
      if AlmostEqual v u then Ok (Some ivl) else searchAlmostEqual h vb u r
  end.

(** Lines 992-996, from the current [bestLodError] and [uVertexIndex]. *)
Fixpoint searchLod (h : list UrhoVertex) (vb : UrhoVertexBuffer)
    (u : UrhoVertex) (uVerticesMapList : list nat) (bestLodError : XQ)
    (uVertexIndex : option nat) : Exc (option nat) :=
  match uVerticesMapList with
  | [] => Ok uVertexIndex
  | ivl :: r =>
      v <- vertexAt h vb ivl ;;
      let lodError := LodError v u in
      if XQltb lodError bestLodError
      then searchLod h vb u r lodError (Some ivl)
      else searchLod h vb u r bestLodError uVertexIndex
  end.

Definition append_vertex (vb : UrhoVertexBuffer) (id : nat)
  : UrhoVertexBuffer :=
  {| elementMask := elementMask vb;
     morphMinIndex := morphMinIndex vb;
     morphMaxIndex := morphMaxIndex vb;
     vertices := vertices vb ++ [id] |}.

(** Lines 980-1004: the index of [uVertex] in the buffer, the buffer, the
    bucket and [warningNewVertices] afterwards.  [strict] is
    [i == 0 or uExportOptions.useStrictLods]; [uid] names the object
    [uVertex] in the store. *)
Definition resolveVertex (strict : bool) (i : nat) (h : list UrhoVertex)
    (vb : UrhoVertexBuffer) (uid : nat) (uVerticesMapList : list nat)
    (warningNewVertices : bool)
  : Exc (nat * UrhoVertexBuffer * list nat * bool) :=
  u <- getitem h uid ;;
  uVertexIndex <-
    (if strict then searchAlmostEqual h vb u uVerticesMapList
     else searchLod h vb u uVerticesMapList INFINITY None) ;;
  match uVertexIndex with
  | Some ix => Ok (ix, vb, uVerticesMapList, warningNewVertices)
  | None =>
      let ix := length (vertices vb) in
      Ok (ix, append_vertex vb uid, uVerticesMapList ++ [ix],
          if (i =? 0)%nat then warningNewVertices else true)
  end.

(** The body of the loop at line 954.  The accumulator carries the state,
    the LOD's [indexMap] and [warningNewVertices]. *)
Definition addVertex (verticesList : list TVertex) (strict : bool) (i : nat)
    (acc : State * list (nat * nat) * bool) (tVertexIndex : nat)
  : Exc (State * list (nat * nat) * bool) :=
  let '(st, indexMap, warningNewVertices) := acc in
  tVertex <- getitem verticesList tVertexIndex ;;
  st <- createVertex tVertex st ;;
  uid <- match uVertex st with
         | Some id => Ok id
         | None => Raise UnboundLocalError
         end ;;
  u <- getitem (heap st) uid ;;
  vb <- deref (vertexBuffer st) ;;
  let uVertexHash := UrhoVertex_hash u in
  let '(uVerticesMapList, vmap) :=
    match dict_get Z.eqb (uVerticesMap st) uVertexHash with
    | Some l => (l, uVerticesMap st)
    | None => ([], dict_set Z.eqb (uVerticesMap st) uVertexHash [])
    end in
  r <- resolveVertex strict i (heap st) vb uid uVerticesMapList
                     warningNewVertices ;;
  let '(uVertexIndex, vb, uVerticesMapList, warningNewVertices) := r in
  let st := set_uVerticesMap (dict_set Z.eqb vmap uVertexHash uVerticesMapList)
              (set_vertexBuffer vb st) in
  let '(indexMap, st) :=
    match dict_get Nat.eqb indexMap tVertexIndex with
    | None => (dict_set Nat.eqb indexMap tVertexIndex uVertexIndex, st)
    | Some ix => (indexMap,
                  if (ix =? uVertexIndex)%nat then st
                  else add_log ErrorIndexMapConflict st)
    end in
  mask <- match elementMask vb with
          | Some m => Ok m
          | None => Raise TypeError
          end ;;
  st <- (if truthyZ (Z.land mask ELEMENT_POSITION)
         then bb <- merge (boundingBox st) (pos u) ;;
              Ok (set_boundingBox bb st)
         else Ok st) ;;
  Ok (st, indexMap, warningNewVertices).

(** A [for] loop whose body can raise. *)
Fixpoint foldM {A B : Type} (f : A -> B -> Exc A) (l : list B) (a : A)
  : Exc A :=
  match l with
  | [] => Ok a
  | x :: r => a' <- f a x ;; foldM f r a'
  end.

(* ------------------------------------------------------------------ *)
(** ** One LOD of a geometry (lines 914-1088) *)

Definition vzero : Vector3 := mkVector3 0 0 0.

Definition vadd (a b : Vector3) : Vector3 :=
  mkVector3 (vx a + vx b) (vy a + vy b) (vz a + vz b).

Definition vdiv (a : Vector3) (n : nat) : Vector3 :=
  let d := inject_Z (Z.of_nat n) in
  mkVector3 (vx a / d) (vy a / d) (vz a / d).

(** Lines 1038-1049: every pair of the LOD's [indexMap] is added to the set
    the model map keeps for the old index. *)
Definition recordIndexMap (vbIndex : nat) (indexMap : list (nat * nat))
    (m : list (nat * list (nat * nat))) : list (nat * list (nat * nat)) :=
  fold_left
    (fun m p =>
       let vbviSet := match dict_get Nat.eqb m (fst p) with
                      | Some s => s
                      | None => []
                      end in
       dict_set Nat.eqb m (fst p) (set_add pair_eqb vbviSet (vbIndex, snd p)))
    indexMap m.

Definition append_index (ib : UrhoIndexBuffer) (ix : nat) : UrhoIndexBuffer :=
  {| indexSize := indexSize ib; indexes := indexes ib ++ [ix] |}.

(** The corners of the triangles in the order the nested loops at lines
    1053-1054 visit them. *)
Definition corners (triangles : list (nat * nat * nat)) : list nat :=
  flat_map (fun t => [fst (fst t); snd (fst t); snd t]) triangles.

(** Lines 1055-1060, for one corner.  The accumulator carries the state,
    [centerCount] and [center]. *)
Definition addIndex (i : nat) (indexMap : list (nat * nat))
    (acc : State * nat * Vector3) (tVertexIndex : nat)
  : Exc (State * nat * Vector3) :=
  let '(st, centerCount, center) := acc in
  uVertexIndex <- match dict_get Nat.eqb indexMap tVertexIndex with
                  | Some ix => Ok ix
                  | None => Raise KeyError
                  end ;;
  ib <- deref (indexBuffer st) ;;
  let st := set_indexBuffer (append_index ib uVertexIndex) st in
  if (i =? 0)%nat then
    vb <- deref (vertexBuffer st) ;;
    mask <- match elementMask vb with
            | Some m => Ok m
            | None => Raise TypeError
            end ;;
    if truthyZ (Z.land mask ELEMENT_POSITION) then
      v <- vertexAt (heap st) vb uVertexIndex ;;
      p <- match pos v with Some p => Ok p | None => Raise TypeError end ;;
      Ok (st, S centerCount, vadd center p)
    else Ok (st, centerCount, center)
  else Ok (st, centerCount, center).

(** Lines 1074-1088 for the weights of one vertex, from position [i] of the
    enumeration: the bone map, the rewritten weights and the errors logged. *)
Fixpoint remapWeights (bm : list nat) (i : nat) (ws : list (nat * Q))
  : list nat * list (nat * Q) * list LogRecord :=
  match ws with
  | [] => (bm, [], [])
  | (boneIndex, weight) :: r =>
      let '(bm1, t, lg) :=
        match list_index bm boneIndex with
        | Some newBoneIndex => (bm, (newBoneIndex, weight), [])
        | None =>
            let newBoneIndex := length bm in
            if (newBoneIndex <? MAX_SKIN_MATRICES)%nat
            then (bm ++ [boneIndex], (newBoneIndex, weight), [])
            else (bm, (0%nat, 0), [ErrorTooManyBones i])
        end in
      let '(bm2, ts, lgs) := remapWeights bm1 (S i) r in
      (bm2, t :: ts, lg ++ lgs)
  end.

Definition set_weights (v : UrhoVertex) (ws : list (nat * Q)) : UrhoVertex :=
  {| index := index v; pos := pos v; normal := normal v; color := color v;
     uv := uv v; uv2 := uv2 v; tangent := tangent v; weights := ws |}.

(** The body of the loop at line 1073 for the object [id]. *)
Definition remapVertex (acc : State * list nat) (id : nat)
  : Exc (State * list nat) :=
  let '(st, bm) := acc in
  vertex <- getitem (heap st) id ;;
  let '(bm, ws, lg) := remapWeights bm 0 (weights vertex) in
  let st := set_heap (setitem (heap st) id (set_weights vertex ws)) st in
  Ok (fold_left (fun s r => add_log r s) lg st, bm).

(** Lines 1070-1088. *)
Definition remapBones (bonesCount : nat) (st : State) (bm : list nat)
  : Exc (State * list nat) :=
  if (MAX_SKIN_MATRICES <? bonesCount)%nat then
    vb <- deref (vertexBuffer st) ;;
    mask <- match elementMask vb with
            | Some m => Ok m
            | None => Raise TypeError
            end ;;
    if (Z.land mask ELEMENT_BLEND =? ELEMENT_BLEND)%Z
    then foldM remapVertex (vertices vb) (st, bm)
    else Ok (st, bm)
  else Ok (st, bm).

Definition enumerate {A : Type} (l : list A) : list (nat * A) :=
  combine (seq 0 (length l)) l.

(** What is fixed while the geometries of one model are processed:
    [tData.verticesList], [len(uModel.bones)] (one bone per entry of
    [tData.bonesMap], appended by the skeleton stage at lines 855-875),
    [uExportOptions.useStrictLods] and [useOneBuffer]. *)
Record Env : Type := mkEnv {
  verticesList : list TVertex;
  bonesCount : nat;
  strictLods : bool;
  useOneBuffer : bool
}.

(** Lines 927-939: if needed add a new vertex buffer and a new index buffer
    (only for first LOD of a geometry); the result carries the LOD's
    [startIndex]. *)
Definition openBuffers (env : Env) (i : nat) (st : State) : State * nat :=
  let st := if negb (truthy_opt (vertexBuffer st))
               || ((i =? 0)%nat && negb (useOneBuffer env))
            then newVertexBuffer st else st in
  match indexBuffer st with
  | None => (newIndexBuffer st, 0%nat)
  | Some ib =>
      if (i =? 0)%nat && negb (useOneBuffer env)
      then (newIndexBuffer st, 0%nat)
      else (st, length (indexes ib))
  end.

(** The body of the loop at line 914.  The accumulator carries the state,
    [uGeometry] and the running [center] of the geometry. *)
Definition processLod (env : Env) (geomIndex : nat)
    (acc : State * UrhoGeometry * Vector3) (it : nat * TLodLevel)
  : Exc (State * UrhoGeometry * Vector3) :=
  let '(st, uGeometry, c) := acc in
  let geometryCenter := center uGeometry in
  let center := c in
  let '(i, tLodLevel) := it in
  let st := if (i =? 0)%nat && negb (Qeq_bool (tl_distance tLodLevel) 0)
            then add_log (ErrorFirstLodDistance geomIndex
                            (tl_distance tLodLevel)) st
            else st in
  let '(st, start) := openBuffers env i st in
  let uLodLevel :=
    {| distance := tl_distance tLodLevel;
       primitiveType := TRIANGLE_LIST;
       lodVertexBuffer := (length (vertexBuffers st) - 1)%nat;
       lodIndexBuffer := (length (indexBuffers st) - 1)%nat;
       startIndex := start;
       countIndex := (length (triangleList tLodLevel) * 3)%nat |} in
  r <- foldM (addVertex (verticesList env)
                        ((i =? 0)%nat || strictLods env) i)
             (indexSet tLodLevel) (st, [], false) ;;
  let '(st, indexMap, warningNewVertices) := r in
  let st := if warningNewVertices
            then add_log (WarningNewVertices i geomIndex) st else st in
  let st := set_modelIndexMap
              (recordIndexMap (lodVertexBuffer uLodLevel) indexMap
                              (modelIndexMap st)) st in
  r <- foldM (addIndex i indexMap) (corners (triangleList tLodLevel))
             (st, 0%nat, center) ;;
  let '(st, centerCount, center) := r in
  let gcenter := if (i =? 0)%nat && negb (centerCount =? 0)%nat
                 then vdiv center centerCount
                 else geometryCenter in
  r <- remapBones (bonesCount env) st (boneMap uGeometry) ;;
  let '(st, bm) := r in
  Ok (st,
      {| boneMap := bm;
         lodLevels := lodLevels uGeometry ++ [uLodLevel];
         center := gcenter |},
      center).

(** The body of the loop at line 904.  [uGeometry] is appended to
    [uModel.geometries] when it is created; nothing reads the list before
    the geometry is complete, so the model adds it at the end. *)
Definition processGeometry (env : Env) (st : State) (tGeometry : TGeometry)
  : Exc State :=
  let geomIndex := length (geometries st) in
  r <- foldM (processLod env geomIndex) (enumerate (tg_lodLevels tGeometry))
             (st, mkUrhoGeometry [] [] vzero, vzero) ;;
  let '(st, uGeometry, _) := r in
  Ok (set_geometries (geometries st ++ [uGeometry]) st).

(** Modelled from the spec: the part of the intermediate representation
    the geometry stage reads.  [td_bonesCount] is [len(tData.bonesMap)]. *)
Record TData : Type := mkTData {
  td_verticesList : list TVertex;
  td_geometriesList : list TGeometry;
  td_bonesCount : nat
}.

(** Lines 879-885. *)
Definition maxLodVertices (geometriesList : list TGeometry) : nat :=
  fold_left
    (fun m tGeometry =>
       fold_left
         (fun m tLodLevel =>
            let vertexCount := length (indexSet tLodLevel) in
            if (m <? vertexCount)%nat then vertexCount else m)
         (tg_lodLevels tGeometry) m)
    geometriesList 0%nat.

(** Lines 889-891. *)
Definition chooseOneBuffer (opts : UrhoExportOptions)
    (totalVertices maxLod : nat) : bool :=
  if splitSubMeshes opts
     || ((65535 <? Z.of_nat totalVertices)%Z
         && (Z.of_nat maxLod <=? 65535)%Z)
  then false else true.

Definition exportEnv (tData : TData) (opts : UrhoExportOptions) : Env :=
  {| verticesList := td_verticesList tData;
     bonesCount := td_bonesCount tData;
     strictLods := useStrictLods opts;
     useOneBuffer :=
       chooseOneBuffer opts (length (td_verticesList tData))
                       (maxLodVertices (td_geometriesList tData)) |}.

(** Lines 1095-1102. *)
Definition setIndexSize (uIndexBuffer : UrhoIndexBuffer) : UrhoIndexBuffer :=
  {| indexSize := if (65535 <? Z.of_nat (length (indexes uIndexBuffer)))%Z
                  then 4%nat else 2%nat;
     indexes := indexes uIndexBuffer |}.

Record UrhoModel : Type := mkUrhoModel {
  um_store : list UrhoVertex;
  um_vertexBuffers : list UrhoVertexBuffer;
  um_indexBuffers : list UrhoIndexBuffer;
  um_geometries : list UrhoGeometry;
  um_boundingBox : BoundingBox;
  um_errorsIndices : list Z;
  um_log : list LogRecord
}.

(** Lines 877-1102 of [UrhoExport]: the model's buffers and geometries. *)
Definition exportGeometries (tData : TData) (opts : UrhoExportOptions)
    (errors : list Z) : Exc UrhoModel :=
  st <- foldM (processGeometry (exportEnv tData opts))
              (td_geometriesList tData) (initialState errors) ;;
  let st :=
    match td_geometriesList tData, bbmin (boundingBox st) with
    | _ :: _, None =>
        add_log WarningNoPosition
          (set_boundingBox (mkBoundingBox (Some vzero) (Some vzero)) st)
    | _, _ => st
    end in
  Ok {| um_store := heap st;
        um_vertexBuffers := vertexBuffers st;
        um_indexBuffers := map setIndexSize (indexBuffers st);
        um_geometries := geometries st;
        um_boundingBox := boundingBox st;
        um_errorsIndices := errorsIndices st;
        um_log := log st |}.

(* ------------------------------------------------------------------ *)
(** ** Morph ranges (lines 1171-1184) and their serialization *)

Definition set_morphRange (b : UrhoVertexBuffer) (mn mx : option nat)
  : UrhoVertexBuffer :=
  {| elementMask := elementMask b;
     morphMinIndex := mn;
     morphMaxIndex := mx;
     vertices := vertices b |}.

(** Lines 1172-1178: update min and max morphed vertex index in the vertex
    buffer.  Comparing an index with [None] is a [TypeError]. *)
Definition updateMorphRange (uVertexBuffer : UrhoVertexBuffer)
    (uVertexIndex : nat) : Exc UrhoVertexBuffer :=
  match morphMinIndex uVertexBuffer with
  | None => Ok (set_morphRange uVertexBuffer (Some uVertexIndex)
                               (Some uVertexIndex))
  | Some mn =>
      if (uVertexIndex <? mn)%nat
      then Ok (set_morphRange uVertexBuffer (Some uVertexIndex)
                              (morphMaxIndex uVertexBuffer))
      else match morphMaxIndex uVertexBuffer with
           | None => Raise TypeError
           | Some mx =>
               if (mx <? uVertexIndex)%nat
               then Ok (set_morphRange uVertexBuffer (Some mn)
                                       (Some uVertexIndex))
               else Ok uVertexBuffer
           end
  end.

(** Lines 1181-1184: set to zero min and max morphed vertex index of
    buffers with no morphs. *)
Definition defaultMorphRange (uVertexBuffer : UrhoVertexBuffer)
  : UrhoVertexBuffer :=
  match morphMinIndex uVertexBuffer with
  | None => set_morphRange uVertexBuffer (Some 0%nat) (Some 0%nat)
  | Some _ => uVertexBuffer
  end.

Definition byte_of (z : Z) : byte :=
  match Byte.of_N (Z.to_N (z mod 256)) with
  | Some b => b
  | None => x00
  end.

(** [struct.pack("<I", v)]: four bytes, least significant first; a value
    outside 32 bits is a [struct.error]. *)
Definition writeUInt (v : Z) : Exc (list byte) :=
  if ((0 <=? v) && (v <? 2 ^ 32))%Z
  then Ok [byte_of v; byte_of (v / 2 ^ 8); byte_of (v / 2 ^ 16);
           byte_of (v / 2 ^ 24)]
  else Raise StructError.

(** Lines 531-534 of [UrhoWriteModel]: the morphable vertex count that is
    written for a buffer. *)
Definition morphRangeCount (buffer : UrhoVertexBuffer) : Exc Z :=
  match morphMaxIndex buffer with
  | Some 0%nat => Ok 0%Z
  | Some mx =>
      match morphMinIndex buffer with
      | Some mn => Ok (Z.of_nat mx - Z.of_nat mn + 1)%Z
      | None => Raise TypeError
      end
  | None => Raise TypeError
  end.

(** Lines 528-534: the bytes of the morph range start and of the morph
    range count of a buffer. *)
Definition writeMorphRange (buffer : UrhoVertexBuffer)
  : Exc (list byte * list byte) :=
  start <- match morphMinIndex buffer with
           | Some mn => writeUInt (Z.of_nat mn)
           | None => Raise StructError
           end ;;
  n <- morphRangeCount buffer ;;
  count <- writeUInt n ;;
  Ok (start, count).

(* ------------------------------------------------------------------ *)
(** ** Animations (lines 1187-1218) *)

(** A [mathutils.Quaternion]. *)
Record Quaternion : Type := mkQuaternion { qw : Q; qx : Q; qy : Q; qz : Q }.

(** Modelled from the spec: a keyframe of the intermediate representation;
    vectors and quaternions are always true as conditions. *)
Record TKeyframe : Type := mkTKeyframe {
  tk_time : Q;
  tk_position : option Vector3;
  tk_rotation : option Quaternion;
  tk_scale : option Vector3
}.

(** Modelled from the spec: a track of the intermediate representation. *)
Record TTrack : Type := mkTTrack {
  tt_name : String.string;
  frames : list TKeyframe
}.

(** Modelled from the spec: an animation of the intermediate
    representation. *)
Record TAnimation : Type := mkTAnimation {
  ta_name : String.string;
  ta_tracks : list TTrack
}.

Record UrhoKeyframe : Type := mkUrhoKeyframe {
  time : Q;
  position : option Vector3;
  rotation : option Quaternion;
  scale : option Vector3
}.

Record UrhoTrack : Type := mkUrhoTrack {
  trackName : String.string;
  mask : option Z;
  keyframes : list UrhoKeyframe
}.

Record UrhoAnimation : Type := mkUrhoAnimation {
  animationName : String.string;
  animationLength : option Q;
  tracks : list UrhoTrack
}.

Definition keyframeMask (tKeyframe : TKeyframe) : Z :=
  let m := 0%Z in
  let m := flag (truthy_opt (tk_position tKeyframe)) TRACK_POSITION m in
  let m := flag (truthy_opt (tk_rotation tKeyframe)) TRACK_ROTATION m in
  flag (truthy_opt (tk_scale tKeyframe)) TRACK_SCALE m.

(** The attributes [UrhoKeyframe.__init__] sets. *)
Definition sourceKeyframe (tKeyframe : TKeyframe) : UrhoKeyframe :=
  {| time := tk_time tKeyframe;
     position := tk_position tKeyframe;
     rotation := tk_rotation tKeyframe;
     scale := tk_scale tKeyframe |}.

(** [UrhoKeyframe.__init__] (lines 340-363).  When the masks differ, line
    361 reads [uTrack.elementMask], an attribute [UrhoTrack] does not have:
    the [AttributeError] is raised before the track mask is narrowed and
    before the [MaskError] of line 363 is reached. *)
Definition UrhoKeyframe_init (tKeyframe : TKeyframe) (uTrack : UrhoTrack)
  : Exc (UrhoTrack * UrhoKeyframe) :=
  let m := keyframeMask tKeyframe in
  let k := sourceKeyframe tKeyframe in
  match mask uTrack with
  | None => Ok (mkUrhoTrack (trackName uTrack) (Some m) (keyframes uTrack), k)
  | Some old =>
      if (old =? m)%Z then Ok (uTrack, k) else Raise AttributeError
  end.

(** Lines 1199-1203.  The handler catches [MaskError] only, which the
    constructor never gets to raise. *)
Definition addKeyframe (uTrack : UrhoTrack) (tFrame : TKeyframe)
  : Exc UrhoTrack :=
  r <- UrhoKeyframe_init tFrame uTrack ;;
  let '(uTrack, uKeyframe) := r in
  Ok (mkUrhoTrack (trackName uTrack) (mask uTrack)
                  (keyframes uTrack ++ [uKeyframe])).

(** Stable sort by increasing time:
    [keyframes.sort(key = operator.attrgetter('time'))]. *)
Fixpoint insert_time (k : UrhoKeyframe) (l : list UrhoKeyframe)
  : list UrhoKeyframe :=
  match l with
  | [] => [k]
  | u :: r => if Qltb (time u) (time k) then u :: insert_time k r else k :: l
  end.

Definition sort_time (l : list UrhoKeyframe) : list UrhoKeyframe :=
  fold_right insert_time [] l.

(** Lines 1194-1206: the track with its keyframes sorted. *)
Definition convertTrack (tTrack : TTrack) : Exc UrhoTrack :=
  uTrack <- foldM addKeyframe (frames tTrack)
                  (mkUrhoTrack (tt_name tTrack) None []) ;;
  Ok (mkUrhoTrack (trackName uTrack) (mask uTrack)
                  (sort_time (keyframes uTrack))).

(** The condition of line 1209. *)
Definition keepTrack (uTrack : UrhoTrack) : bool :=
  match keyframes uTrack, mask uTrack with
  | _ :: _, Some m => truthyZ m
  | _, _ => false
  end.

(** Lines 1193-1214 for one track. *)
Definition addTrack (uAnimation : UrhoAnimation) (tTrack : TTrack)
  : Exc UrhoAnimation :=
  uTrack <- convertTrack tTrack ;;
  if keepTrack uTrack then
    let len := time (last (keyframes uTrack)
                          (mkUrhoKeyframe 0 None None None)) in
    Ok {| animationName := animationName uAnimation;
          animationLength := match animationLength uAnimation with
                    | None => Some len
                    | Some l => if Qltb l len then Some len else Some l
                    end;
          tracks := tracks uAnimation ++ [uTrack] |}
  else Ok uAnimation.

(** Lines 1189-1214. *)
Definition convertAnimation (tAnimation : TAnimation) : Exc UrhoAnimation :=
  foldM addTrack (ta_tracks tAnimation)
        (mkUrhoAnimation (ta_name tAnimation) None []).

(** Lines 1187-1218: the animations appended to [uExportData.animations]. *)
Definition exportAnimations (animationsList : list TAnimation)
    (uAnimations : list UrhoAnimation) : Exc (list UrhoAnimation) :=
  foldM (fun uAnimations tAnimation =>
           uAnimation <- convertAnimation tAnimation ;;
           match tracks uAnimation with
           | [] => Ok uAnimations
           | _ :: _ => Ok (uAnimations ++ [uAnimation])
           end)
        animationsList uAnimations.

(* ------------------------------------------------------------------ *)
(** ** Predicates and inputs used in the statements *)

(** The order of a list sorted by decreasing weight. *)
Definition weightGe (a b : nat * Q) : Prop := snd b <= snd a.

(** The scenario of a vertex with six weighted bone influences. *)
Definition six_influences : TVertex :=
  mkTVertex None None None None None None
            (Some [(1%nat, 1 # 2); (2%nat, 1 # 4); (3%nat, 1 # 4);
                   (4%nat, 1 # 8); (5%nat, 1 # 2); (6%nat, 1 # 16)])
            None.

(** The four bytes of [writeUInt 0]. *)
Definition zero_uint : list byte := [x00; x00; x00; x00].

(** A vertex buffer with the given morph range. *)
Definition buffer_with_range (mn mx : nat) : UrhoVertexBuffer :=
  mkUrhoVertexBuffer (Some ELEMENT_POSITION) (Some mn) (Some mx) [].

Definition position_key (t : Q) : TKeyframe :=
  mkTKeyframe t (Some vzero) None None.

Definition position_rotation_key (t : Q) : TKeyframe :=
  mkTKeyframe t (Some vzero) (Some (mkQuaternion 1 0 0 0)) None.

(** An animation whose first track has a keyframe with a position only
    followed by one with a position and a rotation. *)
Definition mismatched_animation : TAnimation :=
  mkTAnimation "Walk"%string
    [mkTTrack "Hip"%string [position_key 0; position_rotation_key 1];
     mkTTrack "Knee"%string [position_key 0; position_key 1]].

(** The order of a list sorted by increasing time. *)
Definition timeLe (a b : UrhoKeyframe) : Prop := time a <= time b.

(** The time of the last keyframe of a track. *)
Definition finalTime (uTrack : UrhoTrack) : Q :=
  time (last (keyframes uTrack) (mkUrhoKeyframe 0 None None None)).

(** The keyframes of [uTrack] are those of the source track, sorted
    ascending by time. *)
Definition track_consolidated (tTrack : TTrack) (uTrack : UrhoTrack) : Prop :=
  Permutation (keyframes uTrack) (map sourceKeyframe (frames tTrack))
  /\ StronglySorted timeLe (keyframes uTrack).

(** [len] is the maximum final-keyframe time of the tracks [ts]; no length
    only when there is no track. *)
Definition is_max_final_time (len : option Q) (ts : list UrhoTrack) : Prop :=
  match len with
  | None => ts = []
  | Some l =>
      (exists t, In t ts /\ l = finalTime t)
      /\ forall t, In t ts -> finalTime t <= l
  end.

(** [uAnimation] keeps, in order, the converted tracks that have keyframes
    and a non-empty mask, and its length is their maximum final time. *)
Definition animation_consolidated (tAnimation : TAnimation)
    (uAnimation : UrhoAnimation) : Prop :=
  exists uTracks,
    Forall2 (fun tt ut => convertTrack tt = Ok ut /\ track_consolidated tt ut)
            (ta_tracks tAnimation) uTracks
    /\ tracks uAnimation = filter keepTrack uTracks
    /\ (forall t, In t (tracks uAnimation) ->
          keyframes t <> [] /\ exists m, mask t = Some m /\ m <> 0%Z)
    /\ is_max_final_time (animationLength uAnimation) (tracks uAnimation).

Definition has_tracks (uAnimation : UrhoAnimation) : bool :=
  match tracks uAnimation with [] => false | _ :: _ => true end.

(** The scenario of one track with keyframes at times 0.5, 0.0 and 1.2. *)
Definition scenario_animation : TAnimation :=
  mkTAnimation "Run"%string
    [mkTTrack "Root"%string
       [position_key (1 # 2); position_key 0; position_key (12 # 10)]].

(** Two positions differ by more than epsilon in some component (or one of
    them is missing). *)
Definition position_differs (a b : option Vector3) : Prop :=
  match a, b with
  | Some p, Some q =>
      EPSILON < Qabs (vx p - vx q) \/ EPSILON < Qabs (vy p - vy q)
      \/ EPSILON < Qabs (vz p - vz q)
  | None, None => False
  | _, _ => True
  end.







(** The element mask of a stored vertex: the channels it carries, as
    [UrhoVertex.__init__] computes them (the weights list is empty exactly
    when the source had no weights). *)
Definition has_weights (v : UrhoVertex) : bool :=
  match weights v with [] => false | _ :: _ => true end.

Definition vertexMask (v : UrhoVertex) : Z :=
  let mask := 0%Z in
  let mask := flag (truthy_opt (pos v)) ELEMENT_POSITION mask in
  let mask := flag (truthy_opt (normal v)) ELEMENT_NORMAL mask in
  let mask := flag (truthy_tuple (color v)) ELEMENT_COLOR mask in
  let mask := flag (truthy_tuple (uv v)) ELEMENT_UV1 mask in
  let mask := flag (truthy_tuple (uv2 v)) ELEMENT_UV2 mask in
  let mask := flag (truthy_opt (tangent v)) ELEMENT_TANGENT mask in
  flag (has_weights v) ELEMENT_BLEND mask.

(** Every channel of [m] is a channel of [vm]. *)
Definition subMask (m vm : Z) : Prop := Z.land m vm = m.

Definition is_mask_warning (r : LogRecord) : bool :=
  match r with WarningIncompatibleMask _ _ _ => true | _ => false end.

(** No [MaskError] was logged. *)
Definition no_mask_warning (lg : list LogRecord) : Prop :=
  forallb (fun r => negb (is_mask_warning r)) lg = true.

(** The buffer has a position channel. *)
Definition has_position (vb : UrhoVertexBuffer) : Prop :=
  exists m, elementMask vb = Some m
            /\ truthyZ (Z.land m ELEMENT_POSITION) = true.

(** The position of the vertex at place [ix] of a buffer. *)
Definition positionAt (h : list UrhoVertex) (vb : UrhoVertexBuffer) (ix : nat)
  : option Vector3 :=
  match nth_error (vertices vb) ix with
  | Some id => match nth_error h id with
               | Some v => pos v
               | None => None
               end
  | None => None
  end.

Definition has_lods (g : UrhoGeometry) : bool :=
  match lodLevels g with [] => false | _ :: _ => true end.

(** Two states of a vertex object: only the weights may have been
    rewritten, and there are as many of them. *)
Definition sameVertex (v v' : UrhoVertex) : Prop :=
  index v' = index v /\ pos v' = pos v /\ normal v' = normal v
  /\ color v' = color v /\ uv v' = uv v /\ uv2 v' = uv2 v
  /\ tangent v' = tangent v
  /\ length (weights v') = length (weights v).

(** [l'] has, at every place of [l], an element related to the one of
    [l]. *)
Definition listExt {A : Type} (R : A -> A -> Prop) (l l' : list A) : Prop :=
  forall k a, nth_error l k = Some a ->
              exists a', nth_error l' k = Some a' /\ R a a'.

(** The mask [o'] is [o] narrowed; a mask that is set stays set. *)
Definition maskNarrow (o o' : option Z) : Prop :=
  match o with
  | None => True
  | Some m => exists m', o' = Some m' /\ Z.land m m' = m'
  end.

(** A vertex buffer later on: vertices were appended, the mask narrowed. *)
Definition vbExt (b b' : UrhoVertexBuffer) : Prop :=
  (exists tail, vertices b' = vertices b ++ tail)
  /\ maskNarrow (elementMask b) (elementMask b').

(** An index buffer later on: indices were appended. *)
Definition ibExt (b b' : UrhoIndexBuffer) : Prop :=
  exists tail, indexes b' = indexes b ++ tail.

Definition optRel {A : Type} (R : A -> A -> Prop) (o o' : option A) : Prop :=
  match o, o' with
  | None, None => True
  | Some a, Some a' => R a a'
  | _, _ => False
  end.

(** What the loops inside one LOD can change. *)
Definition inner (st st' : State) : Prop :=
  closedVertexBuffers st' = closedVertexBuffers st
  /\ closedIndexBuffers st' = closedIndexBuffers st
  /\ geometries st' = geometries st
  /\ optRel vbExt (vertexBuffer st) (vertexBuffer st')
  /\ optRel ibExt (indexBuffer st) (indexBuffer st')
  /\ listExt sameVertex (heap st) (heap st')
  /\ exists lg, log st' = log st ++ lg.

(** What the geometry stage can change from one point to a later one. *)
Definition ext (st st' : State) : Prop :=
  listExt sameVertex (heap st) (heap st')
  /\ listExt vbExt (vertexBuffers st) (vertexBuffers st')
  /\ listExt ibExt (indexBuffers st) (indexBuffers st')
  /\ (exists gs, geometries st' = geometries st ++ gs)
  /\ exists lg, log st' = log st ++ lg.

(** The vertices of a buffer carry the channels of its mask, all of them
    and no other as long as no [MaskError] was logged. *)
Definition bufferOk (h : list UrhoVertex) (lg : list LogRecord)
    (vb : UrhoVertexBuffer) : Prop :=
  (elementMask vb = None -> vertices vb = [])
  /\ forall id, In id (vertices vb) ->
       exists v m, nth_error h id = Some v /\ elementMask vb = Some m
                   /\ subMask m (vertexMask v)
                   /\ (no_mask_warning lg -> vertexMask v = m).

(** Invariant of the geometry stage. *)
Definition Inv (st : State) : Prop :=
  (vertexBuffer st = None -> closedVertexBuffers st = [])
  /\ (indexBuffer st = None <-> vertexBuffer st = None)
  /\ length (closedIndexBuffers st) = length (closedVertexBuffers st)
  /\ (forall vb, In vb (vertexBuffers st) -> bufferOk (heap st) (log st) vb)
  /\ (forall vb m, vertexBuffer st = Some vb -> elementMask vb = Some m ->
        exists uid v, uVertex st = Some uid
                      /\ nth_error (heap st) uid = Some v
                      /\ subMask m (vertexMask v)
                      /\ (no_mask_warning (log st) -> vertexMask v = m)).
(** The state after [ixs] were appended to the current index buffer. *)
Definition append_indexes (st : State) (ixs : list nat) : State :=
  match indexBuffer st with
  | Some ib =>
      set_indexBuffer {| indexSize := indexSize ib;
                         indexes := indexes ib ++ ixs |} st
  | None => st
  end.

(** The test of line 1058 on the current vertex buffer. *)
Definition position_channel (o : option UrhoVertexBuffer) : bool :=
  match o with
  | Some vb => match elementMask vb with
               | Some m => truthyZ (Z.land m ELEMENT_POSITION)
               | None => false
               end
  | None => false
  end.
(** The center [ctr] recorded for a geometry whose first LOD is [l]: when
    the LOD's vertex buffer has a position channel and the LOD draws at
    least one index, [ctr] is the sum of the positions of the vertices its
    draw range refers to, one term per index, divided by their number. *)
Definition centerOk (h : list UrhoVertex) (vbs : list UrhoVertexBuffer)
    (ibs : list UrhoIndexBuffer) (l : UrhoLodLevel) (ctr : Vector3) : Prop :=
  exists vb ib,
    nth_error vbs (lodVertexBuffer l) = Some vb
    /\ nth_error ibs (lodIndexBuffer l) = Some ib
    /\ (startIndex l + countIndex l <= length (indexes ib))%nat
    /\ (countIndex l <> 0%nat -> elementMask vb <> None)
    /\ (has_position vb -> countIndex l <> 0%nat ->
        exists ps,
          map (positionAt h vb)
              (firstn (countIndex l) (skipn (startIndex l) (indexes ib)))
          = map Some ps
          /\ ctr = vdiv (fold_left vadd ps vzero) (countIndex l)).

(** The condition of lines 928 and 934 for opening new buffers. *)
Definition opens_buffers (env : Env) (i : nat) (st : State) : bool :=
  negb (truthy_opt (vertexBuffer st))
  || ((i =? 0)%nat && negb (useOneBuffer env)).
(** What a LOD of the model keeps of its source LOD. *)
Definition lodRel (tl : TLodLevel) (l : UrhoLodLevel) : Prop :=
  countIndex l = (length (triangleList tl) * 3)%nat
  /\ distance l = tl_distance tl.

(** The LOD refers to vertex buffer [n] and index buffer [n]. *)
Definition refers_to (n : nat) (l : UrhoLodLevel) : Prop :=
  lodVertexBuffer l = n /\ lodIndexBuffer l = n.

(** The center of a geometry is right for its first LOD. *)
Definition geometry_centered (st : State) (g : UrhoGeometry) : Prop :=
  forall l0 r, lodLevels g = l0 :: r ->
               centerOk (heap st) (vertexBuffers st) (indexBuffers st) l0
                        (center g).

(** One shared pair of buffers: there is a buffer as soon as a geometry has
    a LOD, and every LOD refers to buffer 0. *)
Definition layout_shared (n : nat) (gs : list UrhoGeometry) : Prop :=
  n = (if existsb has_lods gs then 1 else 0)%nat
  /\ Forall (fun g => Forall (refers_to 0) (lodLevels g)) gs.

(** A pair of buffers per geometry: each geometry with LODs opens the next
    buffer, and all its LODs refer to it. *)
Definition layout_split (n : nat) (gs : list UrhoGeometry) : Prop :=
  n = length (filter has_lods gs)
  /\ forall k g, nth_error gs k = Some g ->
                 Forall (refers_to (length (filter has_lods (firstn k gs))))
                        (lodLevels g).

(** The geometry of the model made from a source geometry. *)
Definition geometryRel (tg : TGeometry) (g : UrhoGeometry) : Prop :=
  Forall2 lodRel (tg_lodLevels tg) (lodLevels g).

(** Componentwise equality of vectors as numbers. *)
Definition vEq (a b : Vector3) : Prop :=
  vx a == vx b /\ vy a == vy b /\ vz a == vz b.

(** The centroid of a list of positions. *)
Definition centroid (ps : list Vector3) : Vector3 :=
  vdiv (fold_left vadd ps vzero) (length ps).

Definition default_options : UrhoExportOptions :=
  mkUrhoExportOptions false true.

(** A source vertex with a position and a normal, and one with a position
    only. *)
Definition vertex_with_normal : TVertex :=
  mkTVertex (Some (mkVector3 0 0 0)) (Some (mkVector3 0 0 1)) None None None
            None None (Some 7%Z).

Definition vertex_without_normal : TVertex :=
  mkTVertex (Some (mkVector3 1 0 0)) None None None None None None
            (Some 8%Z).

Definition mixed_masks : TData :=
  mkTData [vertex_with_normal; vertex_without_normal]
          [mkTGeometry [mkTLodLevel 0 [0; 1]%nat [(0, 1, 1)%nat]]] 0.

(** A source vertex with a position only. *)
Definition corner (x y : Q) : TVertex :=
  mkTVertex (Some (mkVector3 x y 0)) None None None None None None None.

(** Two geometries over three vertices, the second with two LODs, and the
    options with [splitSubMeshes] set. *)
Definition two_geometries : TData :=
  mkTData [corner 0 0; corner 1 0; corner 0 1]
          [mkTGeometry [mkTLodLevel 0 [0; 1; 2]%nat [(0, 1, 2)%nat]];
           mkTGeometry [mkTLodLevel 0 [0; 1; 2]%nat [(0, 1, 2)%nat];
                        mkTLodLevel 5 [0; 1; 2]%nat [(0, 1, 2)%nat]]]
          0.

Definition split_options : UrhoExportOptions :=
  mkUrhoExportOptions true true.

(** Two triangles sharing an edge: the corners (1,0) and (0,1) are used
    twice, (0,0) and (3,3) once. *)
Definition two_triangles : TData :=
  mkTData [corner 0 0; corner 1 0; corner 0 1; corner 3 3]
          [mkTGeometry [mkTLodLevel 0 [0; 1; 2; 3]%nat
                          [(0, 1, 2); (1, 2, 3)]%nat]] 0.

(** A mesh of three vertices drawn by [n] triangles. *)
Definition many_triangles (n : nat) : TData :=
  mkTData [corner 0 0; corner 1 0; corner 0 1]
          [mkTGeometry [mkTLodLevel 0 [0; 1; 2]%nat
                          (repeat (0, 1, 2)%nat n)]] 0.

(** A skeleton of 65 bones and one vertex bound to bone 64, in a geometry
    with the given LODs. *)
Definition skinned_vertex : TVertex :=
  mkTVertex (Some (mkVector3 0 0 0)) None None None None None
            (Some [(64%nat, 1)]) None.

Definition skinned (lods : list TLodLevel) : TData :=
  mkTData [skinned_vertex] [mkTGeometry lods] 65.

Definition skinned_lod (d : Q) : TLodLevel :=
  mkTLodLevel d [0%nat] [(0, 0, 0)%nat].

(* ------------------------------------------------------------------ *)
(** ** Integer writers of [BinaryFileWriter] (lines 482-488) *)

(** [struct.pack("<H", v)]: two bytes, least significant first. *)
Definition writeUShort (v : Z) : Exc (list byte) :=
  if ((0 <=? v) && (v <? 2 ^ 16))%Z
  then Ok [byte_of v; byte_of (v / 2 ^ 8)]
  else Raise StructError.

(** [struct.pack("<B", v)]: one byte. *)
Definition writeUByte (v : Z) : Exc (list byte) :=
  if ((0 <=? v) && (v <? 2 ^ 8))%Z
  then Ok [byte_of v]
  else Raise StructError.

(** The unsigned number a little-endian byte string stands for. *)
Definition le_value (bs : list byte) : Z :=
  fold_right (fun b acc => (Z.of_N (Byte.to_N b) + 256 * acc)%Z) 0%Z bs.

(** What a writer of unsigned integers of [n] bytes does with [v]. *)
Definition packs (n : nat) (v : Z) (r : Exc (list byte)) : Prop :=
  match r with
  | Ok bs => (0 <= v < 2 ^ (8 * Z.of_nat n))%Z /\ length bs = n
             /\ le_value bs = v
  | Raise e => e = StructError /\ (v < 0 \/ 2 ^ (8 * Z.of_nat n) <= v)%Z
  end.

(** A box that holds [p]. *)
Definition inside (bb : BoundingBox) (p : Vector3) : Prop :=
  exists mn mx,
    bbmin bb = Some mn /\ bbmax bb = Some mx
    /\ vx mn <= vx p /\ vx p <= vx mx
    /\ vy mn <= vy p /\ vy p <= vy mx
    /\ vz mn <= vz p /\ vz p <= vz mx.

(** Every bound of the box is the coordinate of one of the points [ps]. *)
Definition tight (bb : BoundingBox) (ps : list Vector3) : Prop :=
  exists mn mx,
    bbmin bb = Some mn /\ bbmax bb = Some mx
    /\ In (vx mn) (map vx ps) /\ In (vx mx) (map vx ps)
    /\ In (vy mn) (map vy ps) /\ In (vy mx) (map vy ps)
    /\ In (vz mn) (map vz ps) /\ In (vz mx) (map vz ps).

(** [model.boundingBox.merge(p)] for each point of a list in turn. *)
Definition mergePoints (ps : list Vector3) (bb : BoundingBox)
  : Exc BoundingBox :=
  foldM (fun b p => merge b (Some p)) ps bb.

(* ------------------------------------------------------------------ *)
(** ** What the geometry stage keeps true of the model *)

(** The box holds the position of every vertex of a buffer that has a
    position channel. *)
Definition boxHolds (bb : BoundingBox) (h : list UrhoVertex)
    (vb : UrhoVertexBuffer) : Prop :=
  has_position vb ->
  forall id, In id (vertices vb) ->
    exists v p, nth_error h id = Some v /\ pos v = Some p /\ inside bb p.

(** Every index of the index buffer is a place of the vertex buffer. *)
Definition placesOk (vb : UrhoVertexBuffer) (ib : UrhoIndexBuffer) : Prop :=
  Forall (fun ix => (ix < length (vertices vb))%nat) (indexes ib).

(** No two vertices of the buffer with the same hash are almost equal. *)
Definition distinctVertices (h : list UrhoVertex) (vb : UrhoVertexBuffer)
  : Prop :=
  forall i j vi vj,
    (i < j)%nat -> vertexAt h vb i = Ok vi -> vertexAt h vb j = Ok vj ->
    UrhoVertex_hash vi = UrhoVertex_hash vj -> AlmostEqual vi vj = false.

(** [uVerticesMap] holds places of the current buffer only, and it holds
    every place under the hash of the vertex there. *)
Definition bucketsOk (h : list UrhoVertex) (m : list (Z * list nat))
    (vb : UrhoVertexBuffer) : Prop :=
  (forall k b ivl, dict_get Z.eqb m k = Some b -> In ivl b ->
                   (ivl < length (vertices vb))%nat)
  /\ (forall ivl v, vertexAt h vb ivl = Ok v ->
        exists b, dict_get Z.eqb m (UrhoVertex_hash v) = Some b /\ In ivl b).

(** What holds between the steps of the geometry stage, besides [Inv];
    [strictAll] is [uExportOptions.useStrictLods]. *)
Definition Safe (strictAll : bool) (st : State) : Prop :=
  (bbmin (boundingBox st) = None <-> bbmax (boundingBox st) = None)
  /\ (forall vb, In vb (vertexBuffers st) ->
                 boxHolds (boundingBox st) (heap st) vb)
  /\ (forall k vb ib, nth_error (vertexBuffers st) k = Some vb ->
                      nth_error (indexBuffers st) k = Some ib ->
                      placesOk vb ib)
  /\ (forall vb, vertexBuffer st = Some vb ->
                 bucketsOk (heap st) (uVerticesMap st) vb)
  /\ (strictAll = true ->
      forall vb, In vb (vertexBuffers st) -> distinctVertices (heap st) vb).

(** A step that rewrites weights or narrows the mask of the current
    buffer, and leaves the rest alone. *)
Definition still (st st' : State) : Prop :=
  listExt sameVertex (heap st) (heap st')
  /\ closedVertexBuffers st' = closedVertexBuffers st
  /\ optRel (fun b b' => vertices b' = vertices b
                         /\ maskNarrow (elementMask b) (elementMask b'))
            (vertexBuffer st) (vertexBuffer st')
  /\ closedIndexBuffers st' = closedIndexBuffers st
  /\ indexBuffer st' = indexBuffer st
  /\ boundingBox st' = boundingBox st
  /\ uVerticesMap st' = uVerticesMap st.

(** The bucket of lines 972-978 for a hash, and the map once the bucket is
    in it. *)
Definition bucketOf (m : list (Z * list nat)) (k : Z) : list nat :=
  match dict_get Z.eqb m k with Some l => l | None => [] end.

Definition withBucket (m : list (Z * list nat)) (k : Z)
  : list (Z * list nat) :=
  match dict_get Z.eqb m k with Some _ => m | None => dict_set Z.eqb m k [] end.

(** Lines 1007-1010. *)
Definition noteIndex (indexMap : list (nat * nat)) (tVertexIndex ix : nat)
    (st : State) : list (nat * nat) * State :=
  match dict_get Nat.eqb indexMap tVertexIndex with
  | None => (dict_set Nat.eqb indexMap tVertexIndex ix, st)
  | Some ix0 => (indexMap,
                 if (ix0 =? ix)%nat then st
                 else add_log ErrorIndexMapConflict st)
  end.

(** A LOD that names vertices of the source and whose triangles use the
    LOD's own vertices only. *)
Definition lodWellFormed (n : nat) (tl : TLodLevel) : bool :=
  forallb (fun ix => (ix <? n)%nat) (indexSet tl)
  && forallb (fun c => existsb (Nat.eqb c) (indexSet tl))
             (corners (triangleList tl)).

Definition wellFormed (tData : TData) : bool :=
  forallb (fun g => forallb (lodWellFormed (length (td_verticesList tData)))
                            (tg_lodLevels g))
          (td_geometriesList tData).

(** A LOD without vertices. *)
Definition emptyLod (tl : TLodLevel) : bool :=
  match indexSet tl with [] => true | _ :: _ => false end.

(** The exceptions a LOD can make the geometry stage raise. *)
Definition lodFailure (bones n : nat) (tl : TLodLevel) (e : PyExc) : Prop :=
  ((e = IndexError \/ e = KeyError) /\ lodWellFormed n tl = false)
  \/ (e = TypeError /\ (MAX_SKIN_MATRICES < bones)%nat
      /\ emptyLod tl = true).

(** The draw range of a LOD lies in its index buffer, which belongs to its
    vertex buffer. *)
Definition lodRangeOk (vbs : list UrhoVertexBuffer)
    (ibs : list UrhoIndexBuffer) (l : UrhoLodLevel) : Prop :=
  lodIndexBuffer l = lodVertexBuffer l
  /\ exists vb ib,
       nth_error vbs (lodVertexBuffer l) = Some vb
       /\ nth_error ibs (lodIndexBuffer l) = Some ib
       /\ (startIndex l + countIndex l <= length (indexes ib))%nat.

(** The objects of a buffer are in the store. *)
Definition stored (h : list UrhoVertex) (vb : UrhoVertexBuffer) : Prop :=
  forall id, In id (vertices vb) -> exists v, nth_error h id = Some v.

(** What lines 980-1004 do with [uVertex]: it is found in the bucket, or
    appended to the buffer and to the bucket. *)
Definition resolved (strict : bool) (h : list UrhoVertex)
    (vb : UrhoVertexBuffer) (uid : nat) (u : UrhoVertex) (bucket : list nat)
    (ix : nat) (vb2 : UrhoVertexBuffer) (bucket2 : list nat) : Prop :=
  (In ix bucket /\ vb2 = vb /\ bucket2 = bucket)
  \/ (ix = length (vertices vb) /\ vb2 = append_vertex vb uid
      /\ bucket2 = bucket ++ [ix]
      /\ (strict = true ->
          forall ivl v, In ivl bucket -> vertexAt h vb ivl = Ok v ->
                        AlmostEqual v u = false)).

(** [v] may stand for [u]: it is almost equal to [u] when the search is the
    strict one, and at the position of [u] (within epsilon) when it is the
    relaxed one. *)
Definition alike (strict : bool) (v u : UrhoVertex) : Prop :=
  if strict then AlmostEqual v u = true
  else FloatListAlmostEqual (floats (pos v)) (floats (pos u)) = true.

(** The LOD's [indexMap] sends a source index to a place of the buffer
    whose vertex may stand for the source vertex. *)
Definition faithfulMap (vl : list TVertex) (strict : bool)
    (h : list UrhoVertex) (vb : UrhoVertexBuffer) (im : list (nat * nat))
  : Prop :=
  forall k ix, dict_get Nat.eqb im k = Some ix ->
    exists tv v, nth_error vl k = Some tv /\ vertexAt h vb ix = Ok v
                 /\ alike strict v (sourceFields tv).

(** What holds while the vertices of a LOD are added (lines 954-1032),
    after the source indices [done]: the LOD's [indexMap] has exactly these
    keys, it names places of the current buffer, and, as long as no
    [MaskError] was logged, the vertices there may stand for the source
    vertices. *)
Definition vertexLoopInv (s : bool) (vl : list TVertex) (strict : bool)
    (done : list nat) (acc : State * list (nat * nat) * bool) : Prop :=
  let st := fst (fst acc) in
  let im := snd (fst acc) in
  Inv st /\ Safe s st
  /\ (exists vb, vertexBuffer st = Some vb
        /\ (forall k ix, dict_get Nat.eqb im k = Some ix ->
                         (ix < length (vertices vb))%nat)
        /\ (done <> [] -> elementMask vb <> None)
        /\ (no_mask_warning (log st) ->
            faithfulMap vl strict (heap st) vb im))
  /\ (forall k, dict_get Nat.eqb im k <> None <-> In k done).

(** The test of line 1055: the corner is a key of the LOD's [indexMap]. *)
Definition hasKey (indexMap : list (nat * nat)) (c : nat) : bool :=
  match dict_get Nat.eqb indexMap c with Some _ => true | None => false end.

(** Every LOD level of every geometry of the model has its draw range in
    its buffers. *)
Definition rangesOk (st : State) (gs : list UrhoGeometry) : Prop :=
  forall g l, In g gs -> In l (lodLevels g) ->
              lodRangeOk (vertexBuffers st) (indexBuffers st) l.

(** The source vertices an index set names. *)
Definition named (vl : list TVertex) (l : list nat) (tv : TVertex) : Prop :=
  exists tix, In tix l /\ nth_error vl tix = Some tv.

(** The source vertices the LODs of a geometry name. *)
Definition usedBy (vl : list TVertex) (tg : TGeometry) (tv : TVertex)
  : Prop :=
  exists tl, In tl (tg_lodLevels tg) /\ named vl (indexSet tl) tv.

(** The source vertices the geometries of the model name. *)
Definition used (tData : TData) (tv : TVertex) : Prop :=
  exists tg, In tg (td_geometriesList tData)
             /\ usedBy (td_verticesList tData) tg tv.

(** Two source vertices among [U] whose element masks differ. *)
Definition maskClash (U : TVertex -> Prop) : Prop :=
  exists tv1 tv2, U tv1 /\ U tv2 /\ sourceMask tv1 <> sourceMask tv2.

(** The source vertices a geometry names all have one element mask. *)
Definition uniformMasks (vl : list TVertex) (tg : TGeometry) : Prop :=
  forall tv1 tv2, usedBy vl tg tv1 -> usedBy vl tg tv2 ->
                  sourceMask tv1 = sourceMask tv2.

(** The mask of the current buffer, when it has one, is the mask of a
    source vertex among [U]. *)
Definition maskSourced (U : TVertex -> Prop) (st : State) : Prop :=
  forall vb m, vertexBuffer st = Some vb -> elementMask vb = Some m ->
               exists tv, U tv /\ sourceMask tv = m.

(** The source vertices among [A] have the mask of the current buffer. *)
Definition maskOf (A : TVertex -> Prop) (st : State) : Prop :=
  forall tv, A tv ->
    exists vb, vertexBuffer st = Some vb
               /\ elementMask vb = Some (sourceMask tv).

(** The exceptions the geometries can make the stage raise. *)
Definition exportFailure (tData : TData) (e : PyExc) : Prop :=
  ((e = IndexError \/ e = KeyError) /\ wellFormed tData = false)
  \/ (e = TypeError /\ (MAX_SKIN_MATRICES < td_bonesCount tData)%nat
      /\ exists g tl, In g (td_geometriesList tData)
                      /\ In tl (tg_lodLevels g) /\ emptyLod tl = true)
  \/ (e = TypeError /\ maskClash (used tData)).

(** Two triangles given with a source vertex per corner: the corners
    (1,0) and (0,1) come twice. *)
Definition welded_square : TData :=
  mkTData [corner 0 0; corner 1 0; corner 0 1;
           corner 1 0; corner 0 1; corner 3 3]
          [mkTGeometry [mkTLodLevel 0 [0; 1; 2; 3; 4; 5]%nat
                          [(0, 1, 2); (3, 4, 5)]%nat]] 0.

(** The corners of the source LOD [tl] are drawn by the LOD level [l]: the
    index at place [n] of the draw range names a vertex that may stand for
    the source vertex of corner [n]. *)
Definition cornersOk (vl : list TVertex) (strict : bool)
    (h : list UrhoVertex) (vbs : list UrhoVertexBuffer)
    (ibs : list UrhoIndexBuffer) (tl : TLodLevel) (l : UrhoLodLevel) : Prop :=
  exists vb ib,
    nth_error vbs (lodVertexBuffer l) = Some vb
    /\ nth_error ibs (lodIndexBuffer l) = Some ib
    /\ forall n c,
         nth_error (corners (triangleList tl)) n = Some c ->
         exists ix tv v,
           nth_error (indexes ib) (startIndex l + n) = Some ix
           /\ nth_error vl c = Some tv
           /\ vertexAt h vb ix = Ok v
           /\ alike strict v (sourceFields tv).

(** The same, on the state of the geometry stage and as long as no
    [MaskError] was logged; [p] is the LOD with its number in the
    geometry, and the search is strict for LOD 0 and under
    [useStrictLods]. *)
Definition lodFaithful (env : Env) (st : State) (p : nat * TLodLevel)
    (l : UrhoLodLevel) : Prop :=
  no_mask_warning (log st) ->
  cornersOk (verticesList env) ((fst p =? 0)%nat || strictLods env)
            (heap st) (vertexBuffers st) (indexBuffers st) (snd p) l.

Definition geometryFaithful (env : Env) (st : State) (tg : TGeometry)
    (g : UrhoGeometry) : Prop :=
  Forall2 (lodFaithful env st) (enumerate (tg_lodLevels tg)) (lodLevels g).

(* ------------------------------------------------------------------ *)
(** ** What the bone remap does to a pair *)

(** The pair [new] written for the pair [old] of a vertex, with the bone
    map [bm] the vertex leaves behind: [new] is the place of the old bone
    in the map, with the old weight; or the map is full without the bone,
    and [new] is (0, 0.0). *)
Definition remapped (bm : list nat) (old new : nat * Q) : Prop :=
  (nth_error bm (fst new) = Some (fst old) /\ snd new = snd old)
  \/ (new = (0%nat, 0) /\ ~ In (fst old) bm
      /\ (MAX_SKIN_MATRICES <= length bm)%nat).

(* ------------------------------------------------------------------ *)
(** ** Materials (lines 383-428 and 1220-1272) *)

Record UrhoMaterial : Type := mkUrhoMaterial {
  (** Material name (the attribute [name]) *)
  materialName : option String.string;
  techniqueName : option String.string;
  (** Material diffuse color (r,g,b,a) *)
  diffuseColor : option (Q * Q * Q * Q);
  (** Material specular color (r,g,b,power) *)
  specularColor : option (Q * Q * Q * Q);
  diffuseTexName : option String.string;
  normalTexName : option String.string;
  specularTexName : option String.string;
  lightmapTexName : option String.string;
  twoSided : bool;
  shadeless : bool
}.

Definition UrhoMaterial_new : UrhoMaterial :=
  mkUrhoMaterial None None None None None None None None false false.

Definition getTexturesNumber (self : UrhoMaterial) : Z := 4%Z.

Definition getTextureName (self : UrhoMaterial) (index : Z)
  : option String.string :=
  if (index =? 0)%Z then diffuseTexName self
  else if (index =? 1)%Z then normalTexName self
  else if (index =? 2)%Z then specularTexName self
  else if (index =? 3)%Z then lightmapTexName self
  else None.

Definition setTextureName (self : UrhoMaterial) (index : Z)
    (name : option String.string) : UrhoMaterial :=
  if (index =? 0)%Z then
    mkUrhoMaterial (materialName self) (techniqueName self)
      (diffuseColor self) (specularColor self) name (normalTexName self)
      (specularTexName self) (lightmapTexName self) (twoSided self)
      (shadeless self)
  else if (index =? 1)%Z then
    mkUrhoMaterial (materialName self) (techniqueName self)
      (diffuseColor self) (specularColor self) (diffuseTexName self) name
      (specularTexName self) (lightmapTexName self) (twoSided self)
      (shadeless self)
  else if (index =? 2)%Z then
    mkUrhoMaterial (materialName self) (techniqueName self)
      (diffuseColor self) (specularColor self) (diffuseTexName self)
      (normalTexName self) name (lightmapTexName self) (twoSided self)
      (shadeless self)
  else if (index =? 3)%Z then
    mkUrhoMaterial (materialName self) (techniqueName self)
      (diffuseColor self) (specularColor self) (diffuseTexName self)
      (normalTexName self) (specularTexName self) name (twoSided self)
      (shadeless self)
  else self.

(** A [mathutils.Color]. *)
Record Color : Type := mkColor { cr : Q; cg : Q; cb : Q }.

(** [color * factor] *)
Definition scaleColor (c : Color) (f : Q) : Color :=
  mkColor (cr c * f) (cg c * f) (cb c * f).

(** Modelled from the spec and from the attributes lines 1220-1266 read: a
    material of the intermediate representation (its class is declared
    outside [export_urho.py]).  A color is always true as a condition, a
    number when it is not zero, a string when it is not empty. *)
Record TMaterial : Type := mkTMaterial {
  tm_name : option String.string;
  tm_opacity : option Q;
  tm_shadeless : bool;
  tm_twoSided : bool;
  tm_diffuseColor : option Color;
  tm_diffuseIntensity : Q;
  tm_specularColor : option Color;
  tm_specularIntensity : Q;
  tm_specularHardness : Q;
  tm_diffuseTexName : option String.string;
  tm_normalTexName : option String.string;
  tm_specularTexName : option String.string;
  tm_lightmapTexName : option String.string
}.

Definition truthy_str (o : option String.string) : bool :=
  match o with
  | Some (String.String _ _) => true
  | _ => false
  end.

Definition truthyQ (q : Q) : bool := negb (Qeq_bool q 0).

(** Lines 1225-1227. *)
Definition materialAlpha (tMaterial : TMaterial) : Q :=
  match tm_opacity tMaterial with
  | Some opacity => if truthyQ opacity && Qltb opacity 1 then opacity else 1
  | None => 1
  end.

(** Lines 1229-1248. *)
Definition materialTechnique (tMaterial : TMaterial) (alpha : Q)
  : String.string :=
  let technique :=
    if truthy_str (tm_diffuseTexName tMaterial) then
      let technique := "Techniques/Diff"%string in
      if tm_shadeless tMaterial
      then String.append technique "Unlit"
      else
        let technique :=
          if truthy_str (tm_normalTexName tMaterial)
          then String.append technique "Normal" else technique in
        let technique :=
          if truthy_str (tm_specularTexName tMaterial)
          then String.append technique "Spec" else technique in
        if truthy_str (tm_lightmapTexName tMaterial)
           && negb (truthy_str (tm_normalTexName tMaterial))
           && negb (truthy_str (tm_specularTexName tMaterial))
        then String.append technique "LightMap" else technique
    else
      if tm_shadeless tMaterial
      then "Techniques/NoTextureUnlit"%string
      else "Techniques/NoTexture"%string in
  if Qltb alpha 1 then String.append technique "Alpha" else technique.

(** Lines 1222-1266: the material made from a source material. *)
Definition convertMaterial (tMaterial : TMaterial) : UrhoMaterial :=
  let alpha := materialAlpha tMaterial in
  {| materialName := tm_name tMaterial;
     techniqueName := Some (materialTechnique tMaterial alpha);
     diffuseColor :=
       match tm_diffuseColor tMaterial with
       | Some c =>
           let diffuse := scaleColor c (tm_diffuseIntensity tMaterial) in
           Some (cr diffuse, cg diffuse, cb diffuse, alpha)
       | None => None
       end;
     specularColor :=
       match tm_specularColor tMaterial with
       | Some c =>
           if truthyQ (tm_specularHardness tMaterial)
              && negb (tm_shadeless tMaterial)
           then
             let specular := scaleColor c (tm_specularIntensity tMaterial) in
             Some (cr specular, cg specular, cb specular,
                   tm_specularHardness tMaterial)
           else None
       | None => None
       end;
     diffuseTexName := tm_diffuseTexName tMaterial;
     normalTexName := tm_normalTexName tMaterial;
     specularTexName := tm_specularTexName tMaterial;
     lightmapTexName := tm_lightmapTexName tMaterial;
     twoSided := tm_twoSided tMaterial;
     shadeless := false |}.

(** Lines 1220-1272: the materials appended to [uExportData.materials] and
    their indices appended to [uModel.materialsIndices]. *)
Definition exportMaterials (materialsList : list TMaterial)
    (acc : list UrhoMaterial * list nat) : list UrhoMaterial * list nat :=
  fold_left
    (fun acc tMaterial =>
       let '(uMaterials, materialsIndices) := acc in
       let uMaterial := convertMaterial tMaterial in
       let materialIndex := length uMaterials in
       (uMaterials ++ [uMaterial], materialsIndices ++ [materialIndex]))
    materialsList acc.

Definition newline : String.string :=
  String.String (Ascii.ascii_of_nat 10) String.EmptyString.

(** Lines 798-800 of [UrhoWriteMaterialsList]: the text written to the
    file. *)
Definition UrhoWriteMaterialsList (materialsIndices : list nat)
    (materialsFilenames : list String.string) : Exc String.string :=
  foldM (fun content i =>
           name <- getitem materialsFilenames i ;;
           Ok (String.append content (String.append name newline)))
        materialsIndices String.EmptyString.



(* ------------------------------------------------------------------ *)
(** ** [BinaryFileWriter] (lines 451-500) *)

(** An item of [BinaryFileWriter.buffer]: a byte, or the four bytes
    [struct.pack] makes of a float, which the number model does not look
    into and keeps as the number packed. *)
Inductive Packed : Type :=
| PByte (b : byte)
| PFloat (v : Q).

(** The number of bytes of a list of items. *)
Definition size (items : list Packed) : nat :=
  fold_right (fun p n => match p with
                         | PByte _ => S n
                         | PFloat _ => (4 + n)%nat
                         end) 0%nat items.

(** What stops a writer: an exception of the exporter, the
    [UnicodeEncodeError] of [bytes(v, "ascii")], or the [OverflowError] of
    [struct.pack] for a float that single precision cannot hold. *)
Inductive WriteExc : Type :=
| Py (e : PyExc)
| UnicodeEncodeError
| OverflowError.

(** A run of writes: the items it appended to the buffer, or the exception
    that stopped it. *)
Inductive Written : Type :=
| Wrote (items : list Packed)
| Threw (e : WriteExc).

(** One run of writes after another. *)
Definition andThen (a b : Written) : Written :=
  match a with
  | Wrote x => match b with
               | Wrote y => Wrote (x ++ y)
               | Threw e => Threw e
               end
  | Threw e => Threw e
  end.

Notation "a >> b" := (andThen a b) (at level 62, right associativity).

(** [if c: ...] around a run of writes. *)
Definition when (c : bool) (w : Written) : Written :=
  if c then w else Wrote [].

(** [for a in l: ...] around a run of writes. *)
Definition forEach {A : Type} (l : list A) (body : A -> Written) : Written :=
  fold_right (fun a r => body a >> r) (Wrote []) l.

(** A value that raising code computes, handed to the write that uses
    it. *)
Definition given {A : Type} (r : Exc A) (k : A -> Written) : Written :=
  match r with
  | Ok a => k a
  | Raise e => Threw (Py e)
  end.

(** [self.buffer.extend(...)] with the bytes of a packed integer. *)
Definition bytes (r : Exc (list byte)) : Written :=
  given r (fun bs => Wrote (map PByte bs)).

(** [len(l)] as the argument of [writeUInt]. *)
Definition writeLen {A : Type} (l : list A) : Written :=
  bytes (writeUInt (Z.of_nat (length l))).

(** [o[i]] for a tuple that can be [None]. *)
Definition subscript {A : Type} (o : option (list A)) (i : nat) : Exc A :=
  match o with
  | Some l => getitem l i
  | None => Raise TypeError
  end.

(** [mask & bit] as a condition. *)
Definition hasBit (mask bit : Z) : bool := truthyZ (Z.land mask bit).

(** [bytes(v, "ascii")]: every character has to be below 128. *)
Definition isAscii (v : String.string) : bool :=
  forallb (fun c => (Ascii.nat_of_ascii c <? 128)%nat)
          (String.list_ascii_of_string v).

(** Writes an ASCII string without terminator *)
Definition writeAsciiStr (v : String.string) : Written :=
  if isAscii v then Wrote (map PByte (String.list_byte_of_string v))
  else Threw UnicodeEncodeError.

(** The least magnitude that rounds to infinity in single precision:
    halfway between the largest single, 2^128 - 2^104, and 2^128. *)
Definition FLOAT_OVERFLOW : Q := inject_Z (2 ^ 128 - 2 ^ 103).

Definition fitsFloat (v : Q) : bool := Qltb (Qabs v) FLOAT_OVERFLOW.

(** [struct.pack] with a format of floats only. *)
Definition packFloats (vs : list Q) : Written :=
  if forallb fitsFloat vs then Wrote (map PFloat vs)
  else Threw OverflowError.

(** Writes a 32 bits float *)
Definition writeFloat (v : Q) : Written := packFloats [v].

(** Writes three 32 bits floats .x .y .z; reading them off [None] is an
    [AttributeError]. *)
Definition writeVector3 (v : option Vector3) : Written :=
  match v with
  | Some v => packFloats [vx v; vy v; vz v]
  | None => Threw (Py AttributeError)
  end.

(** [writeVector3] with a vector of four components, which writes the
    first three. *)
Definition writeVector3of4 (v : option Vector4) : Written :=
  match v with
  | Some v => packFloats [tx v; ty v; tz v]
  | None => Threw (Py AttributeError)
  end.

(** Writes four 32 bits floats .w .x .y .z *)
Definition writeQuaternion (v : option Quaternion) : Written :=
  match v with
  | Some v => packFloats [qw v; qx v; qy v; qz v]
  | None => Threw (Py AttributeError)
  end.

(* ------------------------------------------------------------------ *)
(** ** [UrhoWriteModel] (lines 503-672) *)

(** Lines 537-558: the data of one vertex. *)
Definition writeVertex (mask : Z) (vertex : UrhoVertex) : Written :=
  when (hasBit mask ELEMENT_POSITION) (writeVector3 (pos vertex)) >>
  when (hasBit mask ELEMENT_NORMAL) (writeVector3 (normal vertex)) >>
  when (hasBit mask ELEMENT_COLOR)
    (forEach (seq 0 4)
       (fun i => given (subscript (color vertex) i)
                     (fun c => bytes (writeUByte c)))) >>
  when (hasBit mask ELEMENT_UV1)
    (forEach (seq 0 2) (fun i => given (subscript (uv vertex) i) writeFloat)) >>
  when (hasBit mask ELEMENT_UV2)
    (forEach (seq 0 2) (fun i => given (subscript (uv2 vertex) i) writeFloat)) >>
  when (hasBit mask ELEMENT_TANGENT)
    (writeVector3of4 (tangent vertex) >>
     match tangent vertex with
     | Some t => writeFloat (tw t)
     | None => Threw (Py AttributeError)
     end) >>
  when (hasBit mask ELEMENT_BWEIGHTS)
    (forEach (seq 0 4)
       (fun i => given (getitem (weights vertex) i)
                     (fun t => writeFloat (snd t)))) >>
  when (hasBit mask ELEMENT_BINDICES)
    (forEach (seq 0 4)
       (fun i => given (getitem (weights vertex) i)
                     (fun t => bytes (writeUByte (Z.of_nat (fst t)))))).

(** Lines 536-558: the vertex data of a buffer, whose vertices are in the
    store [h]. *)
Definition writeVertices (h : list UrhoVertex) (mask : Z) (ids : list nat)
  : Written :=
  forEach ids (fun id => given (getitem h id) (writeVertex mask)).

(** Lines 523-558: one vertex buffer. *)
Definition writeVertexBuffer (h : list UrhoVertex) (buffer : UrhoVertexBuffer)
  : Written :=
  writeLen (vertices buffer) >>
  match elementMask buffer with
  | Some mask =>
      bytes (writeUInt mask) >>
      bytes (r <- writeMorphRange buffer ;; Ok (fst r ++ snd r)) >>
      writeVertices h mask (vertices buffer)
  | None => Threw (Py StructError)
  end.

(** Lines 564-573: one index buffer. *)
Definition writeIndexBuffer (buffer : UrhoIndexBuffer) : Written :=
  writeLen (indexes buffer) >>
  bytes (writeUInt (Z.of_nat (indexSize buffer))) >>
  forEach (indexes buffer)
          (fun i => if (indexSize buffer =? 2)%nat
                    then bytes (writeUShort (Z.of_nat i))
                    else bytes (writeUInt (Z.of_nat i))).

(** Lines 588-599: one LOD level. *)
Definition writeLodLevel (lod : UrhoLodLevel) : Written :=
  writeFloat (distance lod) >>
  bytes (writeUInt (Z.of_nat (primitiveType lod))) >>
  bytes (writeUInt (Z.of_nat (lodVertexBuffer lod))) >>
  bytes (writeUInt (Z.of_nat (lodIndexBuffer lod))) >>
  bytes (writeUInt (Z.of_nat (startIndex lod))) >>
  bytes (writeUInt (Z.of_nat (countIndex lod))).

(** Lines 579-599: one geometry. *)
Definition writeGeometry (geometry : UrhoGeometry) : Written :=
  writeLen (boneMap geometry) >>
  forEach (boneMap geometry) (fun bone => bytes (writeUInt (Z.of_nat bone))) >>
  writeLen (lodLevels geometry) >>
  forEach (lodLevels geometry) writeLodLevel.

Definition BONE_BOUNDING_SPHERE : Z := 0x0001.
Definition BONE_BOUNDING_BOX    : Z := 0x0002.

Record UrhoVertexMorph : Type := mkUrhoVertexMorph {
  (** Morph name (the attribute [name]) *)
  morphName : option String.string;
  (** Maps from 'vertex buffer index' to 'list of vertex' *)
  vertexBufferMap : list (nat * UrhoVertexBuffer)
}.

Record UrhoBone : Type := mkUrhoBone {
  (** Bone name (the attribute [name]) *)
  boneName : option String.string;
  (** Index of the parent bone in the model bones list *)
  parentIndex : option nat;
  (** Bone position in parent space (the attribute [position]) *)
  bonePosition : option Vector3;
  (** Bone rotation in parent space (the attribute [rotation]) *)
  boneRotation : option Quaternion;
  (** Bone scale (the attribute [scale]) *)
  boneScale : option Vector3;
  (** Inverse of the bone transformation in skeleton space, by rows *)
  inverseMatrix : option (list (list Q));
  collisionMask : Z;
  radius : option Q;
  (** The attribute [boundingBox] *)
  boneBoundingBox : BoundingBox
}.

(** [sorted(morph.vertexBufferMap.items())]: the keys of a dict differ, so
    the pairs are ordered by their keys. *)
Fixpoint insert_key (p : nat * UrhoVertexBuffer)
    (l : list (nat * UrhoVertexBuffer)) : list (nat * UrhoVertexBuffer) :=
  match l with
  | [] => [p]
  | q :: r => if (fst q <? fst p)%nat then q :: insert_key p r else p :: l
  end.

Definition sorted_items (d : list (nat * UrhoVertexBuffer))
  : list (nat * UrhoVertexBuffer) :=
  fold_right insert_key [] d.

(** Lines 621-631: one vertex of a morph. *)
Definition writeMorphVertex (mask : Z) (vertex : UrhoVertex) : Written :=
  match index vertex with
  | Some i => bytes (writeUInt (Z.of_nat i))
  | None => Threw (Py StructError)
  end >>
  when (hasBit mask ELEMENT_POSITION) (writeVector3 (pos vertex)) >>
  when (hasBit mask ELEMENT_NORMAL) (writeVector3 (normal vertex)) >>
  when (hasBit mask ELEMENT_TANGENT) (writeVector3of4 (tangent vertex)).

(** Lines 612-631: one vertex buffer of a morph. *)
Definition writeMorphBuffer (h : list UrhoVertex)
    (item : nat * UrhoVertexBuffer) : Written :=
  let '(morphBufferIndex, morphBuffer) := item in
  bytes (writeUInt (Z.of_nat morphBufferIndex)) >>
  match elementMask morphBuffer with
  | Some m =>
      let mask := Z.land m MORPH_ELEMENTS in
      bytes (writeUInt mask) >>
      writeLen (vertices morphBuffer) >>
      forEach (vertices morphBuffer)
              (fun id => given (getitem h id) (writeMorphVertex mask))
  | None => Threw (Py TypeError)
  end.

(** Lines 605-631: one morph; [bytes(None, "ascii")] is a [TypeError]. *)
Definition writeMorph (h : list UrhoVertex) (morph : UrhoVertexMorph)
  : Written :=
  match morphName morph with
  | Some name => writeAsciiStr name
  | None => Threw (Py TypeError)
  end >>
  bytes (writeUByte 0) >>
  writeLen (vertexBufferMap morph) >>
  forEach (sorted_items (vertexBufferMap morph)) (writeMorphBuffer h).

(** Lines 637-660: one bone. *)
Definition writeBone (bone : UrhoBone) : Written :=
  match boneName bone with
  | Some name => writeAsciiStr name
  | None => Threw (Py TypeError)
  end >>
  bytes (writeUByte 0) >>
  match parentIndex bone with
  | Some i => bytes (writeUInt (Z.of_nat i))
  | None => Threw (Py StructError)
  end >>
  writeVector3 (bonePosition bone) >>
  writeQuaternion (boneRotation bone) >>
  writeVector3 (boneScale bone) >>
  match inverseMatrix bone with
  | Some rows => forEach (firstn 3 rows) (fun row => forEach row writeFloat)
  | None => Threw (Py TypeError)
  end >>
  bytes (writeUByte (collisionMask bone)) >>
  when (hasBit (collisionMask bone) BONE_BOUNDING_SPHERE)
    (match radius bone with
     | Some r => writeFloat r
     | None => Threw (Py StructError)
     end) >>
  when (hasBit (collisionMask bone) BONE_BOUNDING_BOX)
    (writeVector3 (bbmin (boneBoundingBox bone)) >>
     writeVector3 (bbmax (boneBoundingBox bone))).

(** What a file writer leaves behind: no file after the error it logged,
    the file written by [fw.close()], or the exception that stopped it
    before. *)
Inductive Outcome : Type :=
| NoFile
| File (content : list Packed)
| Stopped (e : WriteExc).

(** [fw.close()] at the end of a run of writes. *)
Definition close (w : Written) : Outcome :=
  match w with
  | Wrote items => File items
  | Threw e => Stopped e
  end.

(** Lines 516-670: the content of the model file.  The morphs and the
    bones of the model, which the stages embedded here do not make, are
    given beside it. *)
Definition writeModel (model : UrhoModel) (morphs : list UrhoVertexMorph)
    (bones : list UrhoBone) : Written :=
  writeAsciiStr "UMDL"%string >>
  writeLen (um_vertexBuffers model) >>
  forEach (um_vertexBuffers model) (writeVertexBuffer (um_store model)) >>
  writeLen (um_indexBuffers model) >>
  forEach (um_indexBuffers model) writeIndexBuffer >>
  writeLen (um_geometries model) >>
  forEach (um_geometries model) writeGeometry >>
  writeLen morphs >>
  forEach morphs (writeMorph (um_store model)) >>
  writeLen bones >>
  forEach bones writeBone >>
  writeVector3 (bbmin (um_boundingBox model)) >>
  writeVector3 (bbmax (um_boundingBox model)) >>
  forEach (um_geometries model)
          (fun geometry => writeVector3 (Some (center geometry))).

Definition UrhoWriteModel (model : UrhoModel) (morphs : list UrhoVertexMorph)
    (bones : list UrhoBone) : Outcome :=
  match um_vertexBuffers model, um_indexBuffers model, um_geometries model with
  | _ :: _, _ :: _, _ :: _ => close (writeModel model morphs bones)
  | _, _, _ => NoFile
  end.

(* ------------------------------------------------------------------ *)
(** ** [UrhoWriteAnimation] (lines 675-723) *)

(** Lines 711-721: one keyframe. *)
Definition writeKeyframe (mask : Z) (keyframe : UrhoKeyframe) : Written :=
  writeFloat (time keyframe) >>
  when (hasBit mask TRACK_POSITION) (writeVector3 (position keyframe)) >>
  when (hasBit mask TRACK_ROTATION) (writeQuaternion (rotation keyframe)) >>
  when (hasBit mask TRACK_SCALE) (writeVector3 (scale keyframe)).

(** Lines 700-721: one track. *)
Definition writeTrack (track : UrhoTrack) : Written :=
  writeAsciiStr (trackName track) >>
  bytes (writeUByte 0) >>
  match mask track with
  | Some mask =>
      bytes (writeUByte mask) >>
      writeLen (keyframes track) >>
      forEach (keyframes track) (writeKeyframe mask)
  | None => Threw (Py StructError)
  end.

Definition UrhoWriteAnimation (animation : UrhoAnimation) : Outcome :=
  match tracks animation with
  | [] => NoFile
  | _ :: _ =>
      close (writeAsciiStr "UANI"%string >>
             writeAsciiStr (animationName animation) >>
             bytes (writeUByte 0) >>
             match animationLength animation with
             | Some len => writeFloat len
             | None => Threw (Py StructError)
             end >>
             writeLen (tracks animation) >>
             forEach (tracks animation) writeTrack)
  end.

(* ------------------------------------------------------------------ *)
(** ** What the writers are checked against *)

(** The run [w] goes through exactly when [ok], and then it appends [n]
    bytes. *)
Definition writes (w : Written) (ok : bool) (n : nat) : Prop :=
  match w with
  | Wrote items => ok = true /\ size items = n
  | Threw _ => ok = false
  end.

(** The first [n] elements of [l] are there and satisfy [p]. *)
Definition firstAll {A : Type} (n : nat) (l : list A) (p : A -> bool)
  : bool :=
  forallb (fun i => match nth_error l i with
                    | Some a => p a
                    | None => false
                    end) (seq 0 n).

(** [v] fits an unsigned integer of [n] bytes. *)
Definition fitsUInt (n : nat) (v : Z) : bool :=
  ((0 <=? v) && (v <? 2 ^ (8 * Z.of_nat n)))%Z.

(** The vector is there and its components fit single precision. *)
Definition fitsVector3 (v : option Vector3) : bool :=
  match v with
  | Some v => forallb fitsFloat [vx v; vy v; vz v]
  | None => false
  end.

Definition fitsQuaternion (v : option Quaternion) : bool :=
  match v with
  | Some v => forallb fitsFloat [qw v; qx v; qy v; qz v]
  | None => false
  end.

(** The bytes of one vertex in a buffer with the mask [mask]. *)
Definition vertexSize (mask : Z) : nat :=
  (if hasBit mask ELEMENT_POSITION then 12 else 0)
  + (if hasBit mask ELEMENT_NORMAL then 12 else 0)
  + (if hasBit mask ELEMENT_COLOR then 4 else 0)
  + (if hasBit mask ELEMENT_UV1 then 8 else 0)
  + (if hasBit mask ELEMENT_UV2 then 8 else 0)
  + (if hasBit mask ELEMENT_TANGENT then 16 else 0)
  + (if hasBit mask ELEMENT_BWEIGHTS then 16 else 0)
  + (if hasBit mask ELEMENT_BINDICES then 4 else 0).

(** The vertex has every element the mask [mask] names, as long as the
    writer reads it, and in the range of its format. *)
Definition writable (mask : Z) (v : UrhoVertex) : bool :=
  implb (hasBit mask ELEMENT_POSITION) (fitsVector3 (pos v))
  && implb (hasBit mask ELEMENT_NORMAL) (fitsVector3 (normal v))
  && implb (hasBit mask ELEMENT_COLOR)
       match color v with
       | Some c => firstAll 4 c (fitsUInt 1)
       | None => false
       end
  && implb (hasBit mask ELEMENT_UV1)
       match uv v with
       | Some l => firstAll 2 l fitsFloat
       | None => false
       end
  && implb (hasBit mask ELEMENT_UV2)
       match uv2 v with
       | Some l => firstAll 2 l fitsFloat
       | None => false
       end
  && implb (hasBit mask ELEMENT_TANGENT)
       match tangent v with
       | Some t => forallb fitsFloat [tx t; ty t; tz t; tw t]
       | None => false
       end
  && implb (hasBit mask ELEMENT_BWEIGHTS)
       (firstAll 4 (weights v) (fun t => fitsFloat (snd t)))
  && implb (hasBit mask ELEMENT_BINDICES)
       (firstAll 4 (weights v) (fun t => fitsUInt 1 (Z.of_nat (fst t)))).

(** The vertex named [id] is in the store and writable. *)
Definition writableAt (h : list UrhoVertex) (mask : Z) (id : nat) : bool :=
  match nth_error h id with
  | Some v => writable mask v
  | None => false
  end.

(** The morph range of the buffer can be written: both ends are set and
    fit 32 bits, and so does the count when the upper end is not 0. *)
Definition morphRangeFits (buffer : UrhoVertexBuffer) : bool :=
  match morphMinIndex buffer, morphMaxIndex buffer with
  | Some mn, Some mx =>
      fitsUInt 4 (Z.of_nat mn)
      && ((mx =? 0)%nat
          || fitsUInt 4 (Z.of_nat mx - Z.of_nat mn + 1))
  | _, _ => false
  end.

(** The header of the vertex buffer can be written. *)
Definition vertexHeaderFits (buffer : UrhoVertexBuffer) : bool :=
  fitsUInt 4 (Z.of_nat (length (vertices buffer)))
  && match elementMask buffer with
     | Some mask => fitsUInt 4 mask
     | None => false
     end
  && morphRangeFits buffer.

(** The width the writer gives to the indices of the buffer. *)
Definition indexWidth (buffer : UrhoIndexBuffer) : nat :=
  if (indexSize buffer =? 2)%nat then 2%nat else 4%nat.

(** The header and the indices of the buffer fit their formats. *)
Definition indexBufferFits (buffer : UrhoIndexBuffer) : bool :=
  fitsUInt 4 (Z.of_nat (length (indexes buffer)))
  && fitsUInt 4 (Z.of_nat (indexSize buffer))
  && forallb (fun i => fitsUInt (indexWidth buffer) (Z.of_nat i))
             (indexes buffer).

(* ------------------------------------------------------------------ *)
(** ** What the animation writer is checked against *)

(** The elements a keyframe carries, counted as [UrhoKeyframe.__init__]
    counts them. *)
Definition keyframeChannels (k : UrhoKeyframe) : Z :=
  let m := 0%Z in
  let m := flag (truthy_opt (position k)) TRACK_POSITION m in
  let m := flag (truthy_opt (rotation k)) TRACK_ROTATION m in
  flag (truthy_opt (scale k)) TRACK_SCALE m.

(** The track has a mask that is not empty, and every keyframe carries the
    elements of the mask, no more and no less. *)
Definition trackUniform (t : UrhoTrack) : Prop :=
  exists m, mask t = Some m /\ (1 <= m <= 7)%Z
            /\ Forall (fun k => keyframeChannels k = m) (keyframes t).

(** What holds of a track while its keyframes are added. *)
Definition trackInv (t : UrhoTrack) : Prop :=
  match mask t with
  | Some m => (0 <= m <= 7)%Z
              /\ Forall (fun k => keyframeChannels k = m) (keyframes t)
  | None => keyframes t = []
  end.

(** The bytes of one keyframe of a track with the mask [mask]. *)
Definition keyframeSize (mask : Z) : nat :=
  4 + (if hasBit mask TRACK_POSITION then 12 else 0)
  + (if hasBit mask TRACK_ROTATION then 16 else 0)
  + (if hasBit mask TRACK_SCALE then 12 else 0).

(** The floats the keyframe carries fit single precision. *)
Definition keyframeFits (k : UrhoKeyframe) : bool :=
  fitsFloat (time k)
  && match position k with Some _ => fitsVector3 (position k) | None => true end
  && match rotation k with
     | Some _ => fitsQuaternion (rotation k)
     | None => true
     end
  && match scale k with Some _ => fitsVector3 (scale k) | None => true end.

(** The name of the track is ASCII, the number of keyframes fits 32 bits
    and the keyframes fit. *)
Definition trackFits (t : UrhoTrack) : bool :=
  isAscii (trackName t)
  && fitsUInt 4 (Z.of_nat (length (keyframes t)))
  && forallb keyframeFits (keyframes t).

Definition trackSize (t : UrhoTrack) : nat :=
  String.length (trackName t) + 6
  + length (keyframes t) * match mask t with
                           | Some m => keyframeSize m
                           | None => 0
                           end.

(** The names are ASCII, the length fits single precision, the number of
    tracks fits 32 bits and the tracks fit. *)
Definition animationFits (a : UrhoAnimation) : bool :=
  isAscii (animationName a)
  && match animationLength a with Some l => fitsFloat l | None => true end
  && fitsUInt 4 (Z.of_nat (length (tracks a)))
  && forallb trackFits (tracks a).

Definition animationSize (a : UrhoAnimation) : nat :=
  String.length (animationName a) + 13 + list_sum (map trackSize (tracks a)).

(* ------------------------------------------------------------------ *)
(** ** What the model writer is checked against *)

(** The vertex can be written with the elements it carries. *)
Definition vertexOk (v : UrhoVertex) : Prop :=
  writable (vertexMask v) v = true.

(** The vertex made of a source vertex can be written with the elements
    the source vertex carries. *)
Definition sourceWritable (tVertex : TVertex) : bool :=
  writable (sourceMask tVertex) (sourceFields tVertex).

(** A source geometry without LOD levels. *)
Definition noLods (tGeometry : TGeometry) : bool :=
  match tg_lodLevels tGeometry with [] => true | _ :: _ => false end.

(* ================================================================== *)
(** * Properties *)

Example hash_float_examples :
  hash_float (1 # 2) = 1152921504606846976%Z /\ hash_float (-1) = (-2)%Z
  /\ hash_float 0 = 0%Z /\ hash_float (5 # 2) = 1152921504606846978%Z.
Proof. vm_compute. repeat split. Qed.

(* ------------------------------------------------------------------ *)
(** ** Comparisons *)

Lemma Qltb_lt (a b : Q) : Qltb a b = true <-> a < b.
Proof.
  unfold Qltb. rewrite negb_true_iff. split; intros H.
  - apply Qnot_le_lt. intros Hle. apply Qle_bool_iff in Hle. congruence.
  - destruct (Qle_bool b a) eqn:E; [|reflexivity].
    apply Qle_bool_iff in E. exfalso. apply (Qlt_not_le _ _ H E).
Qed.

Lemma Qltb_ge (a b : Q) : Qltb a b = false <-> b <= a.
Proof.
  unfold Qltb. rewrite negb_false_iff. apply Qle_bool_iff.
Qed.

Lemma XQltb_false_le (a b : XQ) : XQltb a b = false -> XQle b a.
Proof.
  destruct a as [x|], b as [y|]; simpl; intros H; try discriminate; auto.
  now apply Qltb_ge.
Qed.

Lemma XQltb_true_le (a b : XQ) : XQltb a b = true -> XQle a b.
Proof.
  destruct a as [x|], b as [y|]; simpl; intros H; try discriminate; auto.
  apply Qlt_le_weak. now apply Qltb_lt.
Qed.

Lemma XQle_refl (a : XQ) : XQle a a.
Proof. destruct a; simpl; auto. apply Qle_refl. Qed.

Lemma XQle_trans (a b c : XQ) : XQle a b -> XQle b c -> XQle a c.
Proof.
  destruct a, b, c; simpl; auto; try tauto. apply Qle_trans.
Qed.

(* ------------------------------------------------------------------ *)
(** ** Blend weights of a vertex *)


Lemma insert_desc_perm (t : nat * Q) (l : list (nat * Q)) :
  Permutation (insert_desc t l) (t :: l).
Proof.
  induction l as [|u r IH]; simpl; [reflexivity|].
  destruct (Qltb (snd t) (snd u)); [|reflexivity].
  rewrite IH. apply perm_swap.
Qed.

Lemma sorted_desc_perm (ws : list (nat * Q)) : Permutation (sorted_desc ws) ws.
Proof.
  induction ws as [|t r IH]; simpl; [reflexivity|].
  unfold sorted_desc in *. simpl. rewrite insert_desc_perm. now constructor.
Qed.

Lemma insert_desc_sorted (t : nat * Q) (l : list (nat * Q)) :
  StronglySorted weightGe l -> StronglySorted weightGe (insert_desc t l).
Proof.
  induction 1 as [|u r Hs IH Hall]; simpl.
  - repeat constructor.
  - destruct (Qltb (snd t) (snd u)) eqn:E.
    + constructor; [exact IH|].
      apply (Permutation_Forall (Permutation_sym (insert_desc_perm t r))).
      constructor; [|exact Hall].
      apply Qlt_le_weak. now apply Qltb_lt.
    + apply Qltb_ge in E. constructor.
      * now constructor.
      * constructor; [exact E|].
        eapply Forall_impl; [|exact Hall].
        intros x Hx. unfold weightGe in *. eapply Qle_trans; eassumption.
Qed.

Lemma sorted_desc_sorted (ws : list (nat * Q)) :
  StronglySorted weightGe (sorted_desc ws).
Proof.
  induction ws as [|t r IH]; [constructor|].
  unfold sorted_desc in *. simpl. now apply insert_desc_sorted.
Qed.

Lemma insert_desc_stable (w : Q) (t : nat * Q) (l : list (nat * Q)) :
  filter (fun x => Qeq_bool (snd x) w) (insert_desc t l)
  = filter (fun x => Qeq_bool (snd x) w) (t :: l).
Proof.
  induction l as [|u r IH]; [reflexivity|].
  cbn [insert_desc]. destruct (Qltb (snd t) (snd u)) eqn:E; [|reflexivity].
  cbn [filter] in *. rewrite IH.
  destruct (Qeq_bool (snd u) w) eqn:Eu, (Qeq_bool (snd t) w) eqn:Et;
    try reflexivity.
  apply Qeq_bool_eq in Eu, Et. apply Qltb_lt in E. rewrite Eu, Et in E.
  exfalso. exact (Qlt_irrefl _ E).
Qed.

(** The sort is stable: pairs of equal weight keep their order. *)
Lemma sorted_desc_stable (w : Q) (ws : list (nat * Q)) :
  filter (fun x => Qeq_bool (snd x) w) (sorted_desc ws)
  = filter (fun x => Qeq_bool (snd x) w) ws.
Proof.
  induction ws as [|t r IH]; [reflexivity|].
  unfold sorted_desc in *. cbn [fold_right].
  rewrite insert_desc_stable. cbn [filter]. now rewrite IH.
Qed.

Lemma blendWeights_cases (ws : list (nat * Q)) :
  let sortedList := sorted_desc ws in
  let totalWeight := pysum (map snd (firstn 4 sortedList)) in
  (~ totalWeight == 0 ->
     blendWeights ws
     = map (fun t => (fst t, snd t / totalWeight)) (firstn 4 sortedList)
       ++ repeat (0%nat, 0) (4 - length sortedList))
  /\ (totalWeight == 0 -> blendWeights ws = repeat (0%nat, 0) 4).
Proof.
  intros sortedList totalWeight. unfold blendWeights.
  fold sortedList. fold totalWeight.
  split; intros H.
  - destruct (Qeq_bool totalWeight 0) eqn:E.
    { apply Qeq_bool_eq in E. contradiction. }
    clearbody totalWeight. clear E H.
    destruct sortedList as [|a [|b [|c [|d r]]]]; reflexivity.
  - apply Qeq_eq_bool in H. rewrite H. reflexivity.
Qed.

Lemma normalized_sum (l : list (nat * Q)) :
  (length l <= 4)%nat ->
  let total := pysum (map snd l) in
  ~ total == 0 ->
  pysum (map snd (map (fun t => (fst t, snd t / total)) l
                  ++ repeat (0%nat, 0) (4 - length l))) == 1.
Proof.
  intros Hl total Hne. subst total.
  destruct l as [|a [|b [|c [|d [|e r]]]]]; simpl in Hl; try lia;
    unfold pysum in *; simpl in *;
    try (field; intros Hz; apply Hne; lra).
  exfalso. apply Hne. reflexivity.
Qed.


(** C5 (amended).  For a source vertex whose weights list is present, the
    constructor sorts the pairs by decreasing weight with a stable sort (the
    sorted list has the pairs of the source, in decreasing order of weight,
    and the pairs of any one weight in the order of the source), and always
    stores exactly four pairs.  When the sum of the (at most four)
    largest weights is not zero, the stored pairs are those pairs, each
    weight divided by that sum, padded with (0, 0.0) up to four, and the
    stored weights sum to 1.  When that sum is zero (an empty list, for
    one), four (0, 0.0) pairs are stored. *)
Theorem blend_weights_top4 (tVertex : TVertex) (ws : list (nat * Q)) :
  tv_weights tVertex = Some ws ->
  let stored := weights (sourceFields tVertex) in
  let sortedList := sorted_desc ws in
  let total := pysum (map snd (firstn 4 sortedList)) in
  Permutation sortedList ws /\ StronglySorted weightGe sortedList
  /\ (forall w, filter (fun t => Qeq_bool (snd t) w) sortedList
                = filter (fun t => Qeq_bool (snd t) w) ws)
  /\ length stored = 4%nat
  /\ (~ total == 0 ->
      stored = map (fun t => (fst t, snd t / total)) (firstn 4 sortedList)
               ++ repeat (0%nat, 0) (4 - length ws)
      /\ pysum (map snd stored) == 1)
  /\ (total == 0 -> stored = repeat (0%nat, 0) 4).
Proof.
  intros Hw stored sortedList total.
  assert (Hst : stored = blendWeights ws).
  { unfold stored, sourceFields. simpl. now rewrite Hw. }
  assert (Hlen : length sortedList = length ws)
    by apply Permutation_length, sorted_desc_perm.
  destruct (blendWeights_cases ws) as [Hnz Hz].
  fold sortedList in Hnz, Hz. fold total in Hnz, Hz.
  split; [apply sorted_desc_perm|].
  split; [apply sorted_desc_sorted|].
  split; [intros w; apply sorted_desc_stable|].
  split.
  { rewrite Hst. unfold blendWeights. now rewrite length_map, length_seq. }
  split.
  - intros Hne. rewrite Hst, (Hnz Hne), <- Hlen. split; [reflexivity|].
    assert (H4 : (length (firstn 4 sortedList) <= 4)%nat)
      by (rewrite length_firstn; lia).
    pose proof (normalized_sum (firstn 4 sortedList) H4 Hne) as Hs.
    fold total in Hs.
    replace (4 - length sortedList)%nat
      with (4 - length (firstn 4 sortedList))%nat; [exact Hs|].
    rewrite length_firstn. lia.
  - intros H0. rewrite Hst. exact (Hz H0).
Qed.


Lemma blend_weights_top4_witness :
  let ws := [(1%nat, 1 # 2); (2%nat, 1 # 4); (3%nat, 1 # 4);
             (4%nat, 1 # 8); (5%nat, 1 # 2); (6%nat, 1 # 16)] in
  let stored := weights (sourceFields six_influences) in
  let sortedList := sorted_desc ws in
  let total := pysum (map snd (firstn 4 sortedList)) in
  Permutation sortedList ws /\ StronglySorted weightGe sortedList
  /\ (forall w, filter (fun t => Qeq_bool (snd t) w) sortedList
                = filter (fun t => Qeq_bool (snd t) w) ws)
  /\ length stored = 4%nat
  /\ (~ total == 0 ->
      stored = map (fun t => (fst t, snd t / total)) (firstn 4 sortedList)
               ++ repeat (0%nat, 0) (4 - length ws)
      /\ pysum (map snd stored) == 1)
  /\ (total == 0 -> stored = repeat (0%nat, 0) 4).
Proof.
  exact (blend_weights_top4 six_influences eq_refl).
Defined.

(** The six influences keep bones 1, 5, 2 and 3 with weights 1/3, 1/3, 1/6
    and 1/6. *)
Example six_influences_stored :
  map fst (weights (sourceFields six_influences)) = [1; 5; 2; 3]%nat
  /\ Forall2 Qeq (map snd (weights (sourceFields six_influences)))
                 [1 # 3; 1 # 3; 1 # 6; 1 # 6].
Proof.
  split; [reflexivity|]. repeat constructor.
Qed.

(** C5 as stated fails: a vertex whose weights list is present but empty
    stores four (0, 0.0) pairs, whose sum is 0, not 1 within epsilon. *)
Lemma blend_weights_empty_list_sum :
  let tVertex := mkTVertex None None None None None None (Some []) None in
  tv_weights tVertex <> None
  /\ weights (sourceFields tVertex) = repeat (0%nat, 0) 4
  /\ ~ Qabs (pysum (map snd (weights (sourceFields tVertex))) - 1) <= EPSILON.
Proof.
  split; [discriminate|]. split; [reflexivity|].
  vm_compute. intros H. apply H. reflexivity.
Qed.

(* ------------------------------------------------------------------ *)
(** ** The morph range written for a vertex buffer *)

Lemma updateMorphRange_zero (n : nat) (b : UrhoVertexBuffer) :
  morphMinIndex b = Some 0%nat -> morphMaxIndex b = Some 0%nat ->
  foldM updateMorphRange (repeat 0%nat n) b = Ok b.
Proof.
  intros Hmin Hmax. induction n as [|n IH]; simpl; [reflexivity|].
  unfold updateMorphRange. rewrite Hmin, Hmax. simpl. exact IH.
Qed.

(* ------------------------------------------------------------------ *)
(** ** Keyframes whose channels differ from the track's *)

Lemma UrhoKeyframe_init_mismatch (tKeyframe : TKeyframe) (uTrack : UrhoTrack)
    (old : Z) :
  mask uTrack = Some old -> old <> keyframeMask tKeyframe ->
  UrhoKeyframe_init tKeyframe uTrack = Raise AttributeError.
Proof.
  intros Hm Hne. unfold UrhoKeyframe_init. rewrite Hm.
  destruct (Z.eqb_spec old (keyframeMask tKeyframe)); [contradiction|].
  reflexivity.
Qed.

(** C8 fails on the code.  On a keyframe whose channels differ from the
    track's mask the constructor raises [AttributeError]: the track mask is
    not narrowed, the keyframe is not appended, and the whole export of the
    animations stops, the second track included. *)
Theorem keyframe_mask_mismatch_aborts :
  addKeyframe (mkUrhoTrack "Hip"%string (Some TRACK_POSITION)
                           [mkUrhoKeyframe 0 (Some vzero) None None])
              (position_rotation_key 1)
  = Raise AttributeError
  /\ exportAnimations [mismatched_animation] [] = Raise AttributeError.
Proof.
  split; reflexivity.
Qed.

(* ------------------------------------------------------------------ *)
(** ** Animations *)

Lemma insert_time_perm (k : UrhoKeyframe) (l : list UrhoKeyframe) :
  Permutation (insert_time k l) (k :: l).
Proof.
  induction l as [|u r IH]; simpl; [reflexivity|].
  destruct (Qltb (time u) (time k)); [|reflexivity].
  rewrite IH. apply perm_swap.
Qed.

Lemma sort_time_perm (l : list UrhoKeyframe) : Permutation (sort_time l) l.
Proof.
  induction l as [|k r IH]; [reflexivity|].
  unfold sort_time in *. simpl. rewrite insert_time_perm. now constructor.
Qed.

Lemma insert_time_sorted (k : UrhoKeyframe) (l : list UrhoKeyframe) :
  StronglySorted timeLe l -> StronglySorted timeLe (insert_time k l).
Proof.
  induction 1 as [|u r Hs IH Hall]; simpl.
  - repeat constructor.
  - destruct (Qltb (time u) (time k)) eqn:E.
    + constructor; [exact IH|].
      apply (Permutation_Forall (Permutation_sym (insert_time_perm k r))).
      constructor; [|exact Hall].
      apply Qlt_le_weak. now apply Qltb_lt.
    + apply Qltb_ge in E. constructor.
      * now constructor.
      * constructor; [exact E|].
        eapply Forall_impl; [|exact Hall].
        intros x Hx. unfold timeLe in *. eapply Qle_trans; eassumption.
Qed.

Lemma sort_time_sorted (l : list UrhoKeyframe) :
  StronglySorted timeLe (sort_time l).
Proof.
  induction l as [|k r IH]; [constructor|].
  unfold sort_time in *. simpl. now apply insert_time_sorted.
Qed.

Lemma addKeyframe_keyframes (uTrack uTrack' : UrhoTrack) (tFrame : TKeyframe) :
  addKeyframe uTrack tFrame = Ok uTrack' ->
  keyframes uTrack' = keyframes uTrack ++ [sourceKeyframe tFrame].
Proof.
  unfold addKeyframe, UrhoKeyframe_init.
  destruct (mask uTrack) as [old|]; simpl.
  - destruct (old =? keyframeMask tFrame)%Z; simpl; [|discriminate].
    intros H. injection H as <-. reflexivity.
  - intros H. injection H as <-. reflexivity.
Qed.

Lemma foldM_addKeyframe_keyframes (fs : list TKeyframe)
    (uTrack uTrack' : UrhoTrack) :
  foldM addKeyframe fs uTrack = Ok uTrack' ->
  keyframes uTrack' = keyframes uTrack ++ map sourceKeyframe fs.
Proof.
  revert uTrack. induction fs as [|f r IH]; simpl; intros uTrack H.
  - injection H as <-. now rewrite app_nil_r.
  - destruct (addKeyframe uTrack f) as [t1|e] eqn:E; simpl in H;
      [|discriminate].
    rewrite (IH _ H), (addKeyframe_keyframes _ _ E), <- app_assoc.
    reflexivity.
Qed.

Lemma convertTrack_consolidated (tTrack : TTrack) (uTrack : UrhoTrack) :
  convertTrack tTrack = Ok uTrack -> track_consolidated tTrack uTrack.
Proof.
  unfold convertTrack. intros H.
  destruct (foldM addKeyframe (frames tTrack)
                  (mkUrhoTrack (tt_name tTrack) None [])) as [t|e] eqn:E;
    simpl in H; [|discriminate].
  injection H as <-. apply foldM_addKeyframe_keyframes in E. simpl in E.
  split; simpl.
  - rewrite <- E. apply sort_time_perm.
  - apply sort_time_sorted.
Qed.

Lemma keepTrack_true (uTrack : UrhoTrack) :
  keepTrack uTrack = true ->
  keyframes uTrack <> [] /\ exists m, mask uTrack = Some m /\ m <> 0%Z.
Proof.
  unfold keepTrack, truthyZ.
  destruct (keyframes uTrack); [discriminate|].
  destruct (mask uTrack) as [m|]; [|discriminate].
  intros H. split; [discriminate|]. exists m. split; [reflexivity|].
  destruct (Z.eqb_spec m 0); [discriminate|assumption].
Qed.

Lemma is_max_final_time_snoc (len : option Q) (ts : list UrhoTrack)
    (t : UrhoTrack) :
  is_max_final_time len ts ->
  is_max_final_time
    (match len with
     | None => Some (finalTime t)
     | Some l => if Qltb l (finalTime t) then Some (finalTime t) else Some l
     end) (ts ++ [t]).
Proof.
  destruct len as [l|]; simpl.
  - intros [[t0 [Hin Heq]] Hmax].
    destruct (Qltb l (finalTime t)) eqn:E; simpl.
    + apply Qltb_lt in E. split.
      * exists t. split; [apply in_or_app; right; now left|reflexivity].
      * intros u Hu. apply in_app_or in Hu. destruct Hu as [Hu|[<-|[]]].
        -- apply Qlt_le_weak. eapply Qle_lt_trans; [apply Hmax, Hu|exact E].
        -- apply Qle_refl.
    + apply Qltb_ge in E. split.
      * exists t0. split; [apply in_or_app; now left|exact Heq].
      * intros u Hu. apply in_app_or in Hu. destruct Hu as [Hu|[<-|[]]].
        -- now apply Hmax.
        -- exact E.
  - intros ->. simpl. split.
    + exists t. split; [now left|reflexivity].
    + intros u [<-|[]]. apply Qle_refl.
Qed.

Lemma foldM_addTrack_spec (tts : list TTrack) (ua ua' : UrhoAnimation) :
  foldM addTrack tts ua = Ok ua' ->
  (forall t, In t (tracks ua) ->
     keyframes t <> [] /\ exists m, mask t = Some m /\ m <> 0%Z) ->
  is_max_final_time (animationLength ua) (tracks ua) ->
  exists uTracks,
    Forall2 (fun tt ut => convertTrack tt = Ok ut /\ track_consolidated tt ut)
            tts uTracks
    /\ tracks ua' = tracks ua ++ filter keepTrack uTracks
    /\ (forall t, In t (tracks ua') ->
          keyframes t <> [] /\ exists m, mask t = Some m /\ m <> 0%Z)
    /\ is_max_final_time (animationLength ua') (tracks ua').
Proof.
  revert ua. induction tts as [|tt r IH]; simpl; intros ua H Hkeep Hlen.
  - injection H as <-. exists []. rewrite app_nil_r.
    split; [constructor|]. split; [reflexivity|]. split; assumption.
  - unfold addTrack at 1 in H.
    destruct (convertTrack tt) as [ut|e] eqn:E; simpl in H; [|discriminate].
    pose proof (convertTrack_consolidated _ E) as Hc.
    destruct (keepTrack ut) eqn:K; simpl in H.
    + apply IH in H; simpl.
      * destruct H as [uts [HF [Htr [Hk Hl]]]].
        exists (ut :: uts). simpl. rewrite K.
        split; [constructor; auto|].
        split; [rewrite Htr; simpl; rewrite <- app_assoc; reflexivity|].
        split; assumption.
      * intros t Ht. apply in_app_or in Ht. destruct Ht as [Ht|[<-|[]]].
        -- now apply Hkeep.
        -- now apply keepTrack_true.
      * now apply is_max_final_time_snoc.
    + apply IH in H; auto.
      destruct H as [uts [HF [Htr [Hk Hl]]]].
      exists (ut :: uts). simpl. rewrite K.
      split; [constructor; auto|]. split; [exact Htr|]. split; assumption.
Qed.

Lemma convertAnimation_consolidated (tAnimation : TAnimation)
    (uAnimation : UrhoAnimation) :
  convertAnimation tAnimation = Ok uAnimation ->
  animation_consolidated tAnimation uAnimation.
Proof.
  unfold convertAnimation. intros H.
  apply foldM_addTrack_spec in H; simpl; [|intros t []|reflexivity].
  exact H.
Qed.

(** C7.  When [exportAnimations] returns, the animations it appended are
    the converted source animations that have at least one surviving track,
    in order.  In each converted animation every track holds the source
    keyframes sorted ascending by time, the tracks without keyframes or
    with an empty mask are discarded, and the length is the maximum
    final-keyframe time of the surviving tracks.  The track with keyframes
    at 0.5, 0.0 and 1.2 comes out ordered 0.0, 0.5, 1.2 with animation
    length 1.2. *)
Theorem animations_consolidated (animationsList : list TAnimation)
    (uAnimations res : list UrhoAnimation) :
  exportAnimations animationsList uAnimations = Ok res ->
  (exists converted,
     Forall2 (fun ta ua => convertAnimation ta = Ok ua
                           /\ animation_consolidated ta ua)
             animationsList converted
     /\ res = uAnimations ++ filter has_tracks converted)
  /\ (exists out,
        exportAnimations [scenario_animation] [] = Ok [out]
        /\ map (fun t => map time (keyframes t)) (tracks out)
           = [[0; 1 # 2; 12 # 10]]
        /\ animationLength out = Some (12 # 10)).
Proof.
  intros H. split.
  - unfold exportAnimations in H. revert uAnimations H.
    induction animationsList as [|ta r IH]; simpl; intros uAnimations H.
    + injection H as <-. exists []. split; [constructor|].
      now rewrite app_nil_r.
    + destruct (convertAnimation ta) as [ua|e] eqn:E; simpl in H;
        [|discriminate].
      pose proof (convertAnimation_consolidated _ E) as Hc.
      destruct (tracks ua) as [|t ts] eqn:T; simpl in H.
      * apply IH in H. destruct H as [conv [HF ->]].
        exists (ua :: conv). split; [constructor; auto|].
        assert (Hn : has_tracks ua = false)
          by (unfold has_tracks; now rewrite T).
        simpl. now rewrite Hn.
      * apply IH in H. destruct H as [conv [HF ->]].
        exists (ua :: conv). split; [constructor; auto|].
        assert (Hn : has_tracks ua = true)
          by (unfold has_tracks; now rewrite T).
        simpl. rewrite Hn, <- app_assoc. reflexivity.
  - eexists. split; [reflexivity|]. split; reflexivity.
Qed.

Lemma animations_consolidated_witness :
  (exists converted,
     Forall2 (fun ta ua => convertAnimation ta = Ok ua
                           /\ animation_consolidated ta ua)
             [scenario_animation] converted
     /\ [mkUrhoAnimation "Run"%string (Some (12 # 10))
           [mkUrhoTrack "Root"%string (Some TRACK_POSITION)
              (map sourceKeyframe
                 [position_key 0; position_key (1 # 2);
                  position_key (12 # 10)])]]
        = [] ++ filter has_tracks converted)
  /\ (exists out,
        exportAnimations [scenario_animation] [] = Ok [out]
        /\ map (fun t => map time (keyframes t)) (tracks out)
           = [[0; 1 # 2; 12 # 10]]
        /\ animationLength out = Some (12 # 10)).
Proof.
  exact (@animations_consolidated [scenario_animation] [] _ eq_refl).
Defined.

(* ------------------------------------------------------------------ *)
(** ** Relaxed matching for later LODs *)

Lemma FloatListAlmostEqual_position (a b : option Vector3) :
  FloatListAlmostEqual (floats a) (floats b) = false <-> position_differs a b.
Proof.
  destruct a as [p|], b as [q|]; simpl; try tauto;
    try (split; [trivial|reflexivity]); [|split; [discriminate|tauto]].
  rewrite andb_true_r, !andb_false_iff, !negb_false_iff, !Qltb_lt.
  reflexivity.
Qed.

Lemma LodError_infinite (v u : UrhoVertex) :
  position_differs (pos v) (pos u)
  \/ VectorDotProduct (normal v) (normal u) < COS_30 ->
  LodError v u = INFINITY.
Proof.
  unfold LodError. intros [H|H].
  - apply FloatListAlmostEqual_position in H. now rewrite H.
  - destruct (FloatListAlmostEqual _ _); [simpl|reflexivity].
    apply Qltb_lt in H. now rewrite H.
Qed.

Lemma LodError_finite (v u : UrhoVertex) (e : Q) :
  LodError v u = Fin e ->
  ~ position_differs (pos v) (pos u)
  /\ COS_30 <= VectorDotProduct (normal v) (normal u)
  /\ exists uvError,
       FloatListEqualError (uv v) (uv u) = Fin uvError
       /\ e = uvError + 1 - VectorDotProduct (normal v) (normal u).
Proof.
  unfold LodError.
  destruct (FloatListAlmostEqual (floats (pos v)) (floats (pos u))) eqn:Ep;
    simpl; [|discriminate].
  destruct (Qltb (VectorDotProduct (normal v) (normal u)) COS_30) eqn:En;
    [discriminate|].
  apply Qltb_ge in En.
  destruct (FloatListEqualError (uv v) (uv u)) as [x|] eqn:Eu; simpl;
    [|discriminate].
  intros H. injection H as <-.
  split.
  { intros Hd. apply FloatListAlmostEqual_position in Hd. congruence. }
  split; [exact En|]. now exists x.
Qed.


(** The loop of lines 992-996 keeps the first candidate whose error is
    below the best so far. *)
Lemma searchLod_spec (h : list UrhoVertex) (vb : UrhoVertexBuffer)
    (u : UrhoVertex) (l : list nat) :
  forall (best : XQ) (cur r : option nat),
    searchLod h vb u l best cur = Ok r ->
    exists best',
      XQle best' best
      /\ (forall ivl v, In ivl l -> vertexAt h vb ivl = Ok v ->
                        XQle best' (LodError v u))
      /\ ((r = cur /\ best' = best)
          \/ exists c vc, r = Some c /\ In c l /\ vertexAt h vb c = Ok vc
                          /\ LodError vc u = best' /\ best' <> INFINITY).
Proof.
  induction l as [|ivl rest IH]; simpl; intros best cur r H.
  - injection H as <-. exists best. split; [apply XQle_refl|].
    split; [intros ? ? []|]. now left.
  - destruct (vertexAt h vb ivl) as [v|e] eqn:Ev; simpl in H; [|discriminate].
    destruct (XQltb (LodError v u) best) eqn:Elt.
    + apply IH in H. destruct H as [b' [Hle [Hall Hsel]]].
      exists b'. split.
      { eapply XQle_trans; [exact Hle|]. now apply XQltb_true_le. }
      split.
      { intros j w [<-|Hj] Hw.
        - rewrite Ev in Hw. injection Hw as <-. exact Hle.
        - exact (Hall j w Hj Hw). }
      right. destruct Hsel as [[-> ->]|[c [vc [-> [Hc [Hvc [He Hne]]]]]]].
      * exists ivl, v. split; [reflexivity|]. split; [now left|].
        split; [exact Ev|]. split; [reflexivity|].
        intros Hinf. rewrite Hinf in Elt. discriminate.
      * exists c, vc. split; [reflexivity|]. split; [now right|]. auto.
    + apply IH in H. destruct H as [b' [Hle [Hall Hsel]]].
      exists b'. split; [exact Hle|]. split.
      { intros j w [<-|Hj] Hw.
        - rewrite Ev in Hw. injection Hw as <-.
          eapply XQle_trans; [exact Hle|]. now apply XQltb_false_le.
        - exact (Hall j w Hj Hw). }
      destruct Hsel as [Hs|[c [vc [-> [Hc [Hvc [He Hne]]]]]]]; [now left|].
      right. exists c, vc. split; [reflexivity|]. split; [now right|]. auto.
Qed.





(* ------------------------------------------------------------------ *)
(** ** Loops and the relations between states *)

Lemma foldM_inv_rel {A B : Type} (f : A -> B -> Exc A) (P : A -> Prop)
    (R : A -> A -> Prop) :
  (forall a, R a a) ->
  (forall a b c, R a b -> R b c -> R a c) ->
  (forall a x a', P a -> f a x = Ok a' -> P a' /\ R a a') ->
  forall l a a', P a -> foldM f l a = Ok a' -> P a' /\ R a a'.
Proof.
  intros Hrefl Htrans Hstep. induction l as [|x r IH]; simpl; intros a a' Ha H.
  - injection H as <-. split; [exact Ha|apply Hrefl].
  - destruct (f a x) as [a1|e] eqn:E; simpl in H; [|discriminate].
    destruct (Hstep _ _ _ Ha E) as [H1 R1].
    destruct (IH _ _ H1 H) as [H2 R2].
    split; [exact H2|]. eapply Htrans; eassumption.
Qed.

Lemma sameVertex_refl (v : UrhoVertex) : sameVertex v v.
Proof. unfold sameVertex. tauto. Qed.

Lemma sameVertex_trans (a b c : UrhoVertex) :
  sameVertex a b -> sameVertex b c -> sameVertex a c.
Proof.
  unfold sameVertex. intros H1 H2.
  destruct H1 as (A1 & A2 & A3 & A4 & A5 & A6 & A7 & A8).
  destruct H2 as (B1 & B2 & B3 & B4 & B5 & B6 & B7 & B8).
  repeat split; congruence.
Qed.

Lemma sameVertex_mask (v v' : UrhoVertex) :
  sameVertex v v' -> vertexMask v' = vertexMask v.
Proof.
  intros (A1 & A2 & A3 & A4 & A5 & A6 & A7 & A8).
  unfold vertexMask, has_weights. rewrite A2, A3, A4, A5, A6, A7.
  destruct (weights v), (weights v'); simpl in A8; try discriminate;
    reflexivity.
Qed.

Lemma listExt_refl {A : Type} (R : A -> A -> Prop) (l : list A) :
  (forall a, R a a) -> listExt R l l.
Proof. intros HR k a H. exists a. split; [exact H|apply HR]. Qed.

Lemma listExt_trans {A : Type} (R : A -> A -> Prop) (l1 l2 l3 : list A) :
  (forall a b c, R a b -> R b c -> R a c) ->
  listExt R l1 l2 -> listExt R l2 l3 -> listExt R l1 l3.
Proof.
  intros HR H12 H23 k a Ha.
  destruct (H12 _ _ Ha) as [b [Hb Rab]].
  destruct (H23 _ _ Hb) as [c [Hc Rbc]].
  exists c. split; [exact Hc|]. eapply HR; eassumption.
Qed.

Lemma listExt_app {A : Type} (R : A -> A -> Prop) (l t : list A) :
  (forall a, R a a) -> listExt R l (l ++ t).
Proof.
  intros HR k a Ha. exists a. split; [|apply HR].
  rewrite nth_error_app1; [exact Ha|].
  apply nth_error_Some. congruence.
Qed.

Lemma listExt_opt_last {A : Type} (R : A -> A -> Prop) (c : list A)
    (o o' : option A) :
  (forall a, R a a) -> optRel R o o' ->
  listExt R (c ++ opt_list o) (c ++ opt_list o').
Proof.
  intros HR Ho k a Ha.
  destruct (Nat.lt_ge_cases k (length c)) as [Hk|Hk].
  - rewrite nth_error_app1 in * by exact Hk. exists a. split; [exact Ha|].
    apply HR.
  - rewrite nth_error_app2 in * by exact Hk.
    destruct o as [x|], o' as [x'|]; simpl in *; try contradiction.
    + destruct (k - length c)%nat; simpl in *.
      * injection Ha as <-. exists x'. split; [reflexivity|exact Ho].
      * destruct n; discriminate.
    + destruct (k - length c)%nat; discriminate.
Qed.

Lemma maskNarrow_refl (o : option Z) : maskNarrow o o.
Proof.
  destruct o as [m|]; simpl; [|trivial].
  exists m. split; [reflexivity|apply Z.land_diag].
Qed.

Lemma maskNarrow_trans (a b c : option Z) :
  maskNarrow a b -> maskNarrow b c -> maskNarrow a c.
Proof.
  destruct a as [m|]; simpl; [|trivial].
  intros [m' [-> H1]]. simpl. intros [m'' [-> H2]].
  exists m''. split; [reflexivity|].
  rewrite <- H2 at 1. rewrite Z.land_assoc, H1. exact H2.
Qed.

Lemma vbExt_refl (b : UrhoVertexBuffer) : vbExt b b.
Proof.
  split; [exists []; now rewrite app_nil_r|apply maskNarrow_refl].
Qed.

Lemma vbExt_trans (a b c : UrhoVertexBuffer) :
  vbExt a b -> vbExt b c -> vbExt a c.
Proof.
  intros [[t1 H1] M1] [[t2 H2] M2]. split.
  - exists (t1 ++ t2). now rewrite H2, H1, app_assoc.
  - eapply maskNarrow_trans; eassumption.
Qed.

Lemma ibExt_refl (b : UrhoIndexBuffer) : ibExt b b.
Proof. exists []. now rewrite app_nil_r. Qed.

Lemma ibExt_trans (a b c : UrhoIndexBuffer) :
  ibExt a b -> ibExt b c -> ibExt a c.
Proof.
  intros [t1 H1] [t2 H2]. exists (t1 ++ t2). now rewrite H2, H1, app_assoc.
Qed.

Lemma optRel_refl {A : Type} (R : A -> A -> Prop) (o : option A) :
  (forall a, R a a) -> optRel R o o.
Proof. intros HR. destruct o; simpl; auto. Qed.

Lemma optRel_trans {A : Type} (R : A -> A -> Prop) (a b c : option A) :
  (forall x y z, R x y -> R y z -> R x z) ->
  optRel R a b -> optRel R b c -> optRel R a c.
Proof.
  intros HR. destruct a, b, c; simpl; try tauto. apply HR.
Qed.

Lemma inner_refl (st : State) : inner st st.
Proof.
  unfold inner. repeat split; auto.
  - apply optRel_refl, vbExt_refl.
  - apply optRel_refl, ibExt_refl.
  - apply listExt_refl, sameVertex_refl.
  - exists []. now rewrite app_nil_r.
Qed.

Lemma inner_trans (a b c : State) : inner a b -> inner b c -> inner a c.
Proof.
  intros (A1 & A2 & A3 & A4 & A5 & A6 & [l1 A7])
         (B1 & B2 & B3 & B4 & B5 & B6 & [l2 B7]).
  unfold inner. repeat split; try congruence.
  - eapply optRel_trans; [apply vbExt_trans| |]; eassumption.
  - eapply optRel_trans; [apply ibExt_trans| |]; eassumption.
  - eapply listExt_trans; [apply sameVertex_trans| |]; eassumption.
  - exists (l1 ++ l2). now rewrite B7, A7, app_assoc.
Qed.

Lemma ext_refl (st : State) : ext st st.
Proof.
  unfold ext. repeat split.
  - apply listExt_refl, sameVertex_refl.
  - apply listExt_refl, vbExt_refl.
  - apply listExt_refl, ibExt_refl.
  - exists []. now rewrite app_nil_r.
  - exists []. now rewrite app_nil_r.
Qed.

Lemma ext_trans (a b c : State) : ext a b -> ext b c -> ext a c.
Proof.
  intros (A1 & A2 & A3 & [g1 A4] & [l1 A5]) (B1 & B2 & B3 & [g2 B4] & [l2 B5]).
  unfold ext. repeat split.
  - eapply listExt_trans; [apply sameVertex_trans| |]; eassumption.
  - eapply listExt_trans; [apply vbExt_trans| |]; eassumption.
  - eapply listExt_trans; [apply ibExt_trans| |]; eassumption.
  - exists (g1 ++ g2). now rewrite B4, A4, app_assoc.
  - exists (l1 ++ l2). now rewrite B5, A5, app_assoc.
Qed.

Lemma inner_ext (st st' : State) : inner st st' -> ext st st'.
Proof.
  intros (A1 & A2 & A3 & A4 & A5 & A6 & A7).
  unfold ext, vertexBuffers, indexBuffers. rewrite A1, A2, A3.
  repeat split; auto.
  - apply listExt_opt_last; [apply vbExt_refl|exact A4].
  - apply listExt_opt_last; [apply ibExt_refl|exact A5].
  - exists []. now rewrite app_nil_r.
Qed.

Lemma inner_lengths (st st' : State) :
  inner st st' ->
  length (vertexBuffers st') = length (vertexBuffers st)
  /\ length (indexBuffers st') = length (indexBuffers st).
Proof.
  intros (A1 & A2 & A3 & A4 & A5 & A6 & A7).
  unfold vertexBuffers, indexBuffers. rewrite A1, A2, !length_app.
  destruct (vertexBuffer st), (vertexBuffer st'); simpl in A4;
    try contradiction;
  destruct (indexBuffer st), (indexBuffer st'); simpl in A5;
    try contradiction; auto.
Qed.

Lemma no_mask_warning_app (l l' : list LogRecord) :
  no_mask_warning (l ++ l') -> no_mask_warning l.
Proof.
  unfold no_mask_warning. rewrite forallb_app, andb_true_iff. tauto.
Qed.

Lemma bufferOk_mono (h h' : list UrhoVertex) (lg lg' : list LogRecord)
    (vb : UrhoVertexBuffer) :
  listExt sameVertex h h' -> bufferOk h lg vb -> bufferOk h' (lg ++ lg') vb.
Proof.
  intros Hh [Hnone Hall]. split; [exact Hnone|].
  intros id Hid. destruct (Hall id Hid) as [v [m [Hv [Hm [Hsub Heq]]]]].
  destruct (Hh _ _ Hv) as [v' [Hv' Hsame]].
  apply sameVertex_mask in Hsame.
  exists v', m. rewrite Hsame. repeat split; auto.
  intros Hw. apply Heq. eapply no_mask_warning_app, Hw.
Qed.

(** A step that leaves the vertex buffers alone keeps the invariant. *)
Lemma Inv_frame (st st' : State) :
  listExt sameVertex (heap st) (heap st') ->
  closedVertexBuffers st' = closedVertexBuffers st ->
  vertexBuffer st' = vertexBuffer st ->
  closedIndexBuffers st' = closedIndexBuffers st ->
  optRel ibExt (indexBuffer st) (indexBuffer st') ->
  geometries st' = geometries st ->
  uVertex st' = uVertex st ->
  (exists lg, log st' = log st ++ lg) ->
  Inv st -> Inv st' /\ inner st st'.
Proof.
  intros Hh Hc Hv Hci Hi Hg Hu [lg Hl] (I1 & I2 & I3 & I4 & I5).
  split.
  - unfold Inv. rewrite Hc, Hv, Hci, Hu, Hl.
    split; [exact I1|]. split.
    { rewrite <- I2. destruct (indexBuffer st), (indexBuffer st'); simpl in Hi;
        try contradiction; split; intros; congruence. }
    split; [exact I3|]. split.
    + intros vb Hvb. apply bufferOk_mono with (h := heap st); [exact Hh|]. apply I4.
      unfold vertexBuffers in *. now rewrite Hc, Hv in Hvb.
    + intros vb m Hvb Hm. destruct (I5 vb m Hvb Hm) as [uid [v [U1 [U2 [U3 U4]]]]].
      destruct (Hh _ _ U2) as [v' [Hv' Hsame]].
      apply sameVertex_mask in Hsame.
      exists uid, v'. rewrite Hsame. repeat split; auto.
      intros Hw. apply U4. eapply no_mask_warning_app, Hw.
  - unfold inner. rewrite Hc, Hv, Hci, Hg. repeat split; auto.
    + apply optRel_refl, vbExt_refl.
    + now exists lg.
Qed.

Lemma blendWeights_length (ws : list (nat * Q)) :
  length (blendWeights ws) = 4%nat.
Proof. unfold blendWeights. now rewrite length_map, length_seq. Qed.

Lemma vertexMask_sourceFields (tVertex : TVertex) :
  vertexMask (sourceFields tVertex) = sourceMask tVertex.
Proof.
  unfold vertexMask, sourceMask, has_weights. simpl.
  destruct (tv_weights tVertex) as [ws|]; simpl; [|reflexivity].
  pose proof (blendWeights_length ws) as Hl.
  destruct (blendWeights ws); [discriminate|reflexivity].
Qed.

Lemma subMask_narrow (m x vm : Z) : subMask m vm -> subMask (Z.land m x) vm.
Proof.
  unfold subMask. intros H.
  rewrite <- Z.land_assoc, (Z.land_comm x vm), Z.land_assoc, H. reflexivity.
Qed.

(** Lines 959-964 keep the invariant; afterwards the buffer has a mask. *)
Lemma createVertex_inv (tVertex : TVertex) (st st' : State) :
  Inv st -> createVertex tVertex st = Ok st' -> Inv st' /\ inner st st'.
Proof.
  intros (I1 & I2 & I3 & I4 & I5) H. unfold createVertex in H.
  destruct (vertexBuffer st) as [vb|] eqn:Evb; simpl in H; [|discriminate].
  assert (Hib : indexBuffer st <> None).
  { intros Hn. apply I2 in Hn. discriminate. }
  assert (Hvbok : bufferOk (heap st) (log st) vb).
  { apply I4. unfold vertexBuffers. rewrite Evb. apply in_or_app. right.
    now left. }
  assert (Hclosed : forall b, In b (closedVertexBuffers st) ->
                              bufferOk (heap st) (log st) b).
  { intros b Hb. apply I4. unfold vertexBuffers. apply in_or_app. now left. }
  assert (Hheap : forall v, listExt sameVertex (heap st) (heap st ++ [v]))
    by (intros; apply listExt_app, sameVertex_refl).
  unfold UrhoVertex_init in H.
  destruct (elementMask vb) as [old|] eqn:Em.
  - destruct (Z.eqb_spec old (sourceMask tVertex)) as [Heq|Hne].
    + (* same mask *)
      injection H as <-. split.
      * unfold Inv, vertexBuffers. simpl.
        split; [discriminate|]. split; [split; [contradiction|discriminate]|].
        split; [exact I3|]. split.
        -- intros b Hb. rewrite <- (app_nil_r (log st)).
           apply bufferOk_mono with (h := heap st); [apply Hheap|].
           apply in_app_or in Hb. destruct Hb as [Hb|[<-|[]]]; auto.
        -- intros b m Hb Hm. injection Hb as <-.
           rewrite Em in Hm. injection Hm as <-.
           exists (length (heap st)), (sourceFields tVertex).
           rewrite nth_error_app2, Nat.sub_diag by lia. simpl.
           rewrite vertexMask_sourceFields. repeat split; auto.
           rewrite Heq. apply Z.land_diag.
      * unfold inner. simpl. rewrite Evb. simpl.
        repeat split; auto; try apply vbExt_refl.
        -- apply optRel_refl, ibExt_refl.
        -- exists []. now rewrite app_nil_r.
    + (* MaskError: the handler raises *)
      discriminate.
  - (* first vertex of the buffer *)
    injection H as <-.
    destruct Hvbok as [Hnone _]. specialize (Hnone Em).
    split.
    * unfold Inv, vertexBuffers. simpl.
      split; [discriminate|]. split; [split; [contradiction|discriminate]|].
      split; [exact I3|]. split.
      -- intros b Hb. apply in_app_or in Hb. destruct Hb as [Hb|[<-|[]]].
         ++ rewrite <- (app_nil_r (log st)).
            apply bufferOk_mono with (h := heap st); [apply Hheap|]. auto.
         ++ split; [discriminate|]. simpl. rewrite Hnone. intros id [].
      -- intros b m Hb Hm. injection Hb as <-. simpl in Hm.
         injection Hm as <-.
         exists (length (heap st)), (sourceFields tVertex).
         rewrite nth_error_app2, Nat.sub_diag by lia. simpl.
         rewrite vertexMask_sourceFields. repeat split; auto.
         apply Z.land_diag.
    * unfold inner. simpl. rewrite Evb. simpl.
      repeat split; auto.
      -- exists []. now rewrite app_nil_r.
      -- rewrite Em. exact I.
      -- apply optRel_refl, ibExt_refl.
      -- exists []. now rewrite app_nil_r.
Qed.

Ltac solve_log :=
  first [ exists []; simpl; now rewrite app_nil_r
        | eexists; simpl; reflexivity ].

Ltac solve_frame :=
  apply Inv_frame; simpl;
  [ apply listExt_refl, sameVertex_refl | reflexivity | reflexivity
  | reflexivity | apply optRel_refl, ibExt_refl | reflexivity | reflexivity
  | solve_log | ].

Lemma searchAlmostEqual_none_or_some (h : list UrhoVertex)
    (vb : UrhoVertexBuffer) (u : UrhoVertex) (l : list nat) (r : option nat) :
  searchAlmostEqual h vb u l = Ok r ->
  match r with
  | None => True
  | Some ix => exists v, vertexAt h vb ix = Ok v /\ AlmostEqual v u = true
  end.
Proof.
  induction l as [|ivl rest IH]; simpl; intros H.
  - injection H as <-. exact I.
  - destruct (vertexAt h vb ivl) as [v|e] eqn:E; simpl in H; [|discriminate].
    destruct (AlmostEqual v u) eqn:A; [|now apply IH].
    injection H as <-. now exists v.
Qed.

(** Lines 980-1004 leave the buffer as it is or append [uVertex] to it. *)
Lemma resolveVertex_buffer (strict : bool) (i : nat) (h : list UrhoVertex)
    (vb vb' : UrhoVertexBuffer) (uid ix : nat) (bucket bucket' : list nat)
    (w w' : bool) :
  resolveVertex strict i h vb uid bucket w = Ok (ix, vb', bucket', w') ->
  vb' = vb \/ vb' = append_vertex vb uid.
Proof.
  unfold resolveVertex. intros H.
  destruct (getitem h uid) as [u|e]; simpl in H; [|discriminate].
  destruct (if strict then searchAlmostEqual h vb u bucket
            else searchLod h vb u bucket INFINITY None) as [[c|]|e];
    simpl in H; try discriminate; injection H as <- <- <- <-; auto.
Qed.

Lemma placed_inv (st : State) (vb vb' : UrhoVertexBuffer) (uid : nat) (m : Z) :
  Inv st -> vertexBuffer st = Some vb -> uVertex st = Some uid ->
  vb' = vb \/ vb' = append_vertex vb uid ->
  elementMask vb' = Some m ->
  Inv (set_vertexBuffer vb' st) /\ inner st (set_vertexBuffer vb' st).
Proof.
  intros HI Hvb Hu [->| ->] Hm.
  - replace (set_vertexBuffer vb st) with st.
    + split; [exact HI|apply inner_refl].
    + destruct st. simpl in *. now subst.
  - simpl in Hm. destruct HI as (I1 & I2 & I3 & I4 & I5).
    destruct (I5 vb m Hvb Hm) as [uid' [v [U1 [U2 [U3 U4]]]]].
    rewrite Hu in U1. injection U1 as <-.
    split.
    + unfold Inv, vertexBuffers. simpl.
      split; [discriminate|]. split.
      { rewrite I2, Hvb. split; discriminate. }
      split; [exact I3|]. split.
      * intros b Hb. apply in_app_or in Hb. destruct Hb as [Hb|[<-|[]]].
        -- apply I4. unfold vertexBuffers. apply in_or_app. now left.
        -- assert (Hok : bufferOk (heap st) (log st) vb).
           { apply I4. unfold vertexBuffers. rewrite Hvb. apply in_or_app.
             right. now left. }
           destruct Hok as [_ Hall]. split; simpl; [congruence|].
           intros id Hid. apply in_app_or in Hid.
           destruct Hid as [Hid|[<-|[]]]; [now apply Hall|].
           exists v, m. auto.
      * intros b m' Hb Hm'. injection Hb as <-. simpl in Hm'.
        rewrite Hm in Hm'. injection Hm' as <-. exists uid, v. auto.
    + unfold inner. simpl. rewrite Hvb. simpl. repeat split; auto.
      * now exists [uid].
      * apply maskNarrow_refl.
      * apply optRel_refl, ibExt_refl.
      * apply listExt_refl, sameVertex_refl.
      * exists []. now rewrite app_nil_r.
Qed.

(** The body of the vertex loop keeps the invariant. *)
Lemma addVertex_inv (verticesList : list TVertex) (strict : bool) (i : nat)
    (acc acc' : State * list (nat * nat) * bool) (tVertexIndex : nat) :
  Inv (fst (fst acc)) ->
  addVertex verticesList strict i acc tVertexIndex = Ok acc' ->
  Inv (fst (fst acc')) /\ inner (fst (fst acc)) (fst (fst acc')).
Proof.
  destruct acc as [[st im] w]. simpl. intros HI H. unfold addVertex in H.
  destruct (getitem verticesList tVertexIndex) as [tVertex|e]; simpl in H;
    [|discriminate].
  destruct (createVertex tVertex st) as [st1|e] eqn:Ec; simpl in H;
    [|discriminate].
  destruct (@createVertex_inv _ _ _ HI Ec) as [HI1 Hin1].
  destruct (uVertex st1) as [uid|] eqn:Eu; simpl in H; [|discriminate].
  destruct (getitem (heap st1) uid) as [u|e] eqn:Eh; simpl in H;
    [|discriminate].
  destruct (vertexBuffer st1) as [vb|] eqn:Evb; simpl in H; [|discriminate].
  destruct (match dict_get Z.eqb (uVerticesMap st1) (UrhoVertex_hash u) with
            | Some l => (l, uVerticesMap st1)
            | None => ([], dict_set Z.eqb (uVerticesMap st1)
                                    (UrhoVertex_hash u) [])
            end) as [bucket vmap].
  destruct (resolveVertex strict i (heap st1) vb uid bucket w)
    as [[[[ix vb2] bucket2] w2]|e] eqn:Er; simpl in H; [|discriminate].
  apply resolveVertex_buffer in Er.
  destruct (elementMask vb2) as [m|] eqn:Em.
  2:{ destruct (dict_get Nat.eqb im tVertexIndex); simpl in H; discriminate. }
  destruct (@placed_inv _ _ _ _ _ HI1 Evb Eu Er Em) as [HI2 Hin2].
  set (st2 := set_vertexBuffer vb2 st1) in *.
  assert (Hgoal : forall st3, Inv st3 /\ inner st2 st3 ->
                              Inv st3 /\ inner st st3).
  { intros st3 [A B]. split; [exact A|].
    eapply inner_trans; [exact Hin1|]. eapply inner_trans; eassumption. }
  destruct (dict_get Nat.eqb im tVertexIndex) as [ix0|]; simpl in H.
  - destruct (ix0 =? ix)%nat; simpl in H;
      destruct (truthyZ (Z.land m ELEMENT_POSITION)); simpl in H;
      try (destruct (merge _ (pos u)) as [bb|e]; simpl in H; [|discriminate]);
      injection H as <-; simpl; apply Hgoal; solve_frame; exact HI2.
  - destruct (truthyZ (Z.land m ELEMENT_POSITION)); simpl in H;
      try (destruct (merge _ (pos u)) as [bb|e]; simpl in H; [|discriminate]);
      injection H as <-; simpl; apply Hgoal; solve_frame; exact HI2.
Qed.

Lemma foldM_cons {A B : Type} (f : A -> B -> Exc A) (x : B) (r : list B)
    (a : A) :
  foldM f (x :: r) a = bind (f a x) (fun a' => foldM f r a').
Proof. reflexivity. Qed.

Lemma append_indexes_nil (st : State) : append_indexes st [] = st.
Proof.
  unfold append_indexes. destruct st as [h cv v ci [ib|] g bb e m um u lg];
    simpl; [|reflexivity].
  unfold set_indexBuffer. simpl. rewrite app_nil_r. now destruct ib.
Qed.

Lemma append_indexes_cons (st : State) (ib : UrhoIndexBuffer) (ix : nat)
    (ixs : list nat) :
  indexBuffer st = Some ib ->
  append_indexes (set_indexBuffer (append_index ib ix) st) ixs
  = append_indexes st (ix :: ixs).
Proof.
  intros H. unfold append_indexes. rewrite H. simpl.
  unfold set_indexBuffer. simpl. now rewrite <- app_assoc.
Qed.

Lemma vertexAt_positionAt (h : list UrhoVertex) (vb : UrhoVertexBuffer)
    (ix : nat) (v : UrhoVertex) :
  vertexAt h vb ix = Ok v -> positionAt h vb ix = pos v.
Proof.
  unfold vertexAt, positionAt, getitem.
  destruct (nth_error (vertices vb) ix) as [id|]; simpl; [|discriminate].
  destruct (nth_error h id) as [w|]; [|discriminate].
  intros H. now injection H as <-.
Qed.

(** The triangle loop (lines 1053-1060): the corners are looked up in the
    LOD's [indexMap] and appended to the index buffer; for the first LOD of
    a geometry whose buffer has positions, each corner adds the position of
    its vertex to [center]. *)
Lemma addIndex_loop (i : nat) (im : list (nat * nat)) (cs : list nat) :
  forall (st st' : State) (cc cc' : nat) (c c' : Vector3),
    foldM (addIndex i im) cs (st, cc, c) = Ok (st', cc', c') ->
    exists ixs,
      map (dict_get Nat.eqb im) cs = map Some ixs
      /\ st' = append_indexes st ixs
      /\ (cs <> [] -> indexBuffer st <> None)
      /\ (i = 0%nat -> cs <> [] ->
          exists vb m, vertexBuffer st = Some vb /\ elementMask vb = Some m)
      /\ if (i =? 0)%nat && position_channel (vertexBuffer st)
         then exists ps,
                map (positionAt (heap st) (match vertexBuffer st with
                                           | Some vb => vb
                                           | None => UrhoVertexBuffer_new
                                           end)) ixs
                = map Some ps
                /\ cc' = (cc + length cs)%nat /\ c' = fold_left vadd ps c
         else cc' = cc /\ c' = c.
Proof.
  induction cs as [|t r IH]; intros st st' cc cc' c c' H.
  - simpl in H. injection H as <- <- <-. exists []. rewrite append_indexes_nil.
    split; [reflexivity|]. split; [reflexivity|]. split; [congruence|].
    split; [congruence|].
    destruct ((i =? 0)%nat && position_channel (vertexBuffer st)).
    + exists []. rewrite Nat.add_0_r. auto.
    + auto.
  - rewrite foldM_cons in H.
    destruct (addIndex i im (st, cc, c) t) as [[[st1 cc1] c1]|e] eqn:E;
      [|discriminate].
    change (foldM (addIndex i im) r (st1, cc1, c1) = Ok (st', cc', c')) in H.
    unfold addIndex in E.
    destruct (dict_get Nat.eqb im t) as [ix|] eqn:Ed; simpl in E;
      [|discriminate].
    destruct (indexBuffer st) as [ib|] eqn:Eib; simpl in E; [|discriminate].
    assert (Hst1 : st1 = set_indexBuffer (append_index ib ix) st
                   /\ (i = 0%nat ->
                       exists vb m, vertexBuffer st = Some vb
                                    /\ elementMask vb = Some m)
                   /\ if (i =? 0)%nat && position_channel (vertexBuffer st)
                      then exists p,
                          positionAt (heap st)
                            (match vertexBuffer st with
                             | Some vb => vb
                             | None => UrhoVertexBuffer_new
                             end) ix = Some p
                          /\ cc1 = S cc /\ c1 = vadd c p
                      else cc1 = cc /\ c1 = c).
    { destruct (Nat.eqb_spec i 0) as [Hi|Hi]; simpl in *.
      - destruct (vertexBuffer st) as [vb|]; simpl in E; [|discriminate].
        destruct (elementMask vb) as [m|] eqn:Em; simpl in E; [|discriminate].
        simpl. rewrite Em.
        assert (Hex : exists vb0 m0, Some vb = Some vb0
                                     /\ elementMask vb0 = Some m0)
          by (exists vb, m; auto).
        destruct (truthyZ (Z.land m ELEMENT_POSITION)) eqn:Et.
        + destruct (vertexAt (heap st) vb ix) as [v|e] eqn:Ev; simpl in E;
            [|discriminate].
          destruct (pos v) as [p|] eqn:Ep; simpl in E; [|discriminate].
          injection E as <- <- <-. split; [reflexivity|]. split; [auto|].
          exists p. rewrite (@vertexAt_positionAt _ _ _ _ Ev). auto.
        + injection E as <- <- <-. auto.
      - injection E as <- <- <-. split; [reflexivity|]. split; [tauto|auto]. }
    destruct Hst1 as [-> [Hmk Hc]].
    apply IH in H. destruct H as [ixs [Hm [-> [_ [_ Hrest]]]]].
    exists (ix :: ixs). simpl. rewrite Ed, Hm.
    split; [reflexivity|].
    split; [now apply append_indexes_cons|].
    split; [congruence|]. split; [auto|].
    simpl in Hrest.
    destruct ((i =? 0)%nat && position_channel (vertexBuffer st)).
    + destruct Hc as [p [Hp [-> ->]]]. destruct Hrest as [ps [Hps [-> ->]]].
      exists (p :: ps). simpl. rewrite Hp, Hps.
      split; [reflexivity|]. split; [lia|reflexivity].
    + destruct Hc as [-> ->]. exact Hrest.
Qed.

Lemma append_indexes_inv (st : State) (ixs : list nat) :
  Inv st -> Inv (append_indexes st ixs) /\ inner st (append_indexes st ixs).
Proof.
  intros HI. unfold append_indexes.
  destruct (indexBuffer st) as [ib|] eqn:E; [|split; [exact HI|apply inner_refl]].
  apply Inv_frame; simpl; auto.
  - apply listExt_refl, sameVertex_refl.
  - rewrite E. simpl. now exists ixs.
  - solve_log.
Qed.

Lemma remapWeights_length (ws : list (nat * Q)) :
  forall bm i, length (snd (fst (remapWeights bm i ws))) = length ws.
Proof.
  induction ws as [|[b w] r IH]; intros bm i; simpl; [reflexivity|].
  destruct (list_index bm b) as [n|].
  - specialize (IH bm (S i)). destruct (remapWeights bm (S i) r) as [[bm2 ts] l].
    simpl in *. now rewrite IH.
  - destruct (length bm <? MAX_SKIN_MATRICES)%nat.
    + specialize (IH (bm ++ [b]) (S i)).
      destruct (remapWeights (bm ++ [b]) (S i) r) as [[bm2 ts] l].
      simpl in *. now rewrite IH.
    + specialize (IH bm (S i)).
      destruct (remapWeights bm (S i) r) as [[bm2 ts] l].
      simpl in *. now rewrite IH.
Qed.

Lemma nth_error_setitem {A : Type} (l : list A) (i k : nat) (a : A) :
  nth_error (setitem l i a) k
  = if (k =? i)%nat then option_map (fun _ => a) (nth_error l k)
    else nth_error l k.
Proof.
  revert i k. induction l as [|x r IH]; intros i k; simpl.
  - assert (Hn : nth_error (@nil A) k = None) by now destruct k.
    destruct i; simpl; rewrite Hn; now destruct (k =? _)%nat.
  - destruct i, k; simpl; auto.
Qed.

Lemma setitem_ext (h : list UrhoVertex) (id : nat) (v v' : UrhoVertex) :
  nth_error h id = Some v -> sameVertex v v' ->
  listExt sameVertex h (setitem h id v').
Proof.
  intros Hv Hs k a Ha. rewrite nth_error_setitem.
  destruct (Nat.eqb_spec k id) as [->|Hne].
  - rewrite Ha. simpl. exists v'. split; [reflexivity|]. congruence.
  - exists a. split; [exact Ha|apply sameVertex_refl].
Qed.

Lemma fold_add_log (lg : list LogRecord) :
  forall st,
    let st' := fold_left (fun s r => add_log r s) lg st in
    heap st' = heap st /\ closedVertexBuffers st' = closedVertexBuffers st
    /\ vertexBuffer st' = vertexBuffer st
    /\ closedIndexBuffers st' = closedIndexBuffers st
    /\ indexBuffer st' = indexBuffer st /\ geometries st' = geometries st
    /\ uVertex st' = uVertex st /\ log st' = log st ++ lg.
Proof.
  induction lg as [|r rest IH]; intros st; simpl.
  - rewrite app_nil_r. repeat split.
  - specialize (IH (add_log r st)). simpl in IH.
    destruct IH as (A1 & A2 & A3 & A4 & A5 & A6 & A7 & A8).
    rewrite A1, A2, A3, A4, A5, A6, A7, A8, <- app_assoc. repeat split.
Qed.

Lemma remapVertex_inv (acc acc' : State * list nat) (id : nat) :
  Inv (fst acc) -> remapVertex acc id = Ok acc' ->
  Inv (fst acc') /\ inner (fst acc) (fst acc').
Proof.
  destruct acc as [st bm]. simpl. intros HI H. unfold remapVertex in H.
  destruct (getitem (heap st) id) as [v|e] eqn:Ev; simpl in H; [|discriminate].
  pose proof (remapWeights_length (weights v) bm 0) as Hlen.
  destruct (remapWeights bm 0 (weights v)) as [[bm' ws] lg]. simpl in Hlen.
  injection H as <-. simpl.
  destruct (fold_add_log lg
              (set_heap (setitem (heap st) id (set_weights v ws)) st))
    as (A1 & A2 & A3 & A4 & A5 & A6 & A7 & A8). simpl in *.
  apply Inv_frame; auto.
  - rewrite A1. unfold getitem in Ev.
    destruct (nth_error (heap st) id) as [v0|] eqn:En; [|discriminate].
    injection Ev as ->. eapply setitem_ext; [exact En|].
    unfold sameVertex. simpl. repeat split; auto.
  - rewrite A5. apply optRel_refl, ibExt_refl.
  - now exists lg.
Qed.

Lemma remapBones_inv (n : nat) (st st' : State) (bm bm' : list nat) :
  Inv st -> remapBones n st bm = Ok (st', bm') -> Inv st' /\ inner st st'.
Proof.
  intros HI H. unfold remapBones in H.
  destruct (MAX_SKIN_MATRICES <? n)%nat.
  2:{ injection H as <- <-. split; [exact HI|apply inner_refl]. }
  destruct (vertexBuffer st) as [vb|]; simpl in H; [|discriminate].
  destruct (elementMask vb) as [m|]; simpl in H; [|discriminate].
  destruct (Z.land m ELEMENT_BLEND =? ELEMENT_BLEND)%Z.
  2:{ injection H as <- <-. split; [exact HI|apply inner_refl]. }
  change st with (fst (st, bm)) in HI |- * at 1.
  change st' with (fst (st', bm')).
  eapply (@foldM_inv_rel _ _ remapVertex (fun a => Inv (fst a))
            (fun a b => inner (fst a) (fst b))); try eassumption.
  - intros a. apply inner_refl.
  - intros a b c. apply inner_trans.
  - intros a x a' Ha Hx. now apply remapVertex_inv with (id := x).
Qed.

Lemma has_position_narrow (b b' : UrhoVertexBuffer) :
  vbExt b b' -> elementMask b <> None -> has_position b' -> has_position b.
Proof.
  intros [_ Hn] Hm [m' [Hm' Ht]]. unfold maskNarrow in Hn.
  destruct (elementMask b) as [m|] eqn:E; [|contradiction].
  destruct Hn as [m'' [Hm'' Hl]]. rewrite Hm' in Hm''. injection Hm'' as <-.
  exists m. split; [exact E|].
  unfold truthyZ in *. rewrite negb_true_iff in *.
  apply Z.eqb_neq in Ht. apply Z.eqb_neq. intros H0. apply Ht.
  rewrite <- Hl, <- Z.land_assoc, (Z.land_comm m'), Z.land_assoc, H0.
  apply Z.land_0_l.
Qed.

Lemma positionAt_ext (h h' : list UrhoVertex) (b b' : UrhoVertexBuffer)
    (ix : nat) (p : Vector3) :
  listExt sameVertex h h' -> vbExt b b' ->
  positionAt h b ix = Some p -> positionAt h' b' ix = Some p.
Proof.
  intros Hh [[tail Hv] _]. unfold positionAt. rewrite Hv.
  destruct (nth_error (vertices b) ix) as [id|] eqn:E; [|discriminate].
  rewrite nth_error_app1 by (apply nth_error_Some; congruence). rewrite E.
  destruct (nth_error h id) as [v|] eqn:Ev; [|discriminate].
  destruct (Hh _ _ Ev) as [v' [Hv' Hs]]. rewrite Hv'.
  destruct Hs as (_ & Hp & _). now rewrite Hp.
Qed.

Lemma map_Some_ext {A B : Type} (f g : A -> option B) (l : list A)
    (ps : list B) :
  (forall x p, f x = Some p -> g x = Some p) ->
  map f l = map Some ps -> map g l = map Some ps.
Proof.
  intros Hfg. revert ps. induction l as [|x r IH]; intros [|p ps] H;
    simpl in *; try discriminate; [reflexivity|].
  injection H as Hx Hr. now rewrite (Hfg _ _ Hx), (IH _ Hr).
Qed.

(** A recorded center stays right while the stage goes on. *)
Lemma centerOk_ext (h h' : list UrhoVertex) (vbs vbs' : list UrhoVertexBuffer)
    (ibs ibs' : list UrhoIndexBuffer) (l : UrhoLodLevel) (ctr : Vector3) :
  listExt sameVertex h h' -> listExt vbExt vbs vbs' ->
  listExt ibExt ibs ibs' ->
  centerOk h vbs ibs l ctr -> centerOk h' vbs' ibs' l ctr.
Proof.
  intros Hh Hv Hi (vb & ib & Hvb & Hib & Hlen & Hmask & Hc).
  destruct (Hv _ _ Hvb) as [vb' [Hvb' Hext]].
  destruct (Hi _ _ Hib) as [ib' [Hib' [tail Htail]]].
  exists vb', ib'. split; [exact Hvb'|]. split; [exact Hib'|].
  split; [rewrite Htail, length_app; lia|].
  split.
  { intros Hn Hnone. specialize (Hmask Hn). destruct Hext as [_ Hnar].
    unfold maskNarrow in Hnar. destruct (elementMask vb); [|congruence].
    destruct Hnar as [m' [Hm' _]]. congruence. }
  intros Hp Hn.
  assert (Hp0 : has_position vb).
  { eapply has_position_narrow; eauto. }
  destruct (Hc Hp0 Hn) as [ps [Hps Hctr]].
  exists ps. split; [|exact Hctr].
  rewrite Htail, skipn_app, firstn_app.
  replace (countIndex l - length (skipn (startIndex l) (indexes ib)))%nat
    with 0%nat by (rewrite length_skipn; lia).
  rewrite firstn_0, app_nil_r.
  eapply map_Some_ext; [|exact Hps].
  intros x p Hx. eapply positionAt_ext; eassumption.
Qed.

Lemma Inv_lengths (st : State) :
  Inv st ->
  length (indexBuffers st) = length (vertexBuffers st)
  /\ (vertexBuffer st = None -> vertexBuffers st = []).
Proof.
  intros (I1 & I2 & I3 & _). unfold indexBuffers, vertexBuffers.
  rewrite !length_app, I3. split.
  - destruct (vertexBuffer st) as [vb|] eqn:Ev, (indexBuffer st) as [ib|] eqn:Ei;
      simpl; auto.
    + destruct I2 as [I2 _]. specialize (I2 eq_refl). discriminate.
    + destruct I2 as [_ I2]. specialize (I2 eq_refl). discriminate.
  - intros Hn. rewrite Hn, (I1 Hn). reflexivity.
Qed.

Lemma bufferOk_new (h : list UrhoVertex) (lg : list LogRecord) :
  bufferOk h lg UrhoVertexBuffer_new.
Proof. split; [reflexivity|]. intros id []. Qed.

(** Lines 927-939: the buffers are opened together; afterwards both exist
    and the LOD starts at the end of the index buffer. *)
Lemma openBuffers_spec (env : Env) (i : nat) (st st' : State) (start : nat) :
  Inv st -> openBuffers env i st = (st', start) ->
  Inv st' /\ ext st st' /\ geometries st' = geometries st
  /\ heap st' = heap st /\ log st' = log st
  /\ length (vertexBuffers st')
     = (length (vertexBuffers st)
        + if opens_buffers env i st then 1 else 0)%nat
  /\ exists vb ib, vertexBuffer st' = Some vb /\ indexBuffer st' = Some ib
                   /\ start = length (indexes ib).
Proof.
  intros HI H. pose proof HI as (I1 & I2 & I3 & I4 & I5).
  destruct (Inv_lengths HI) as [Hlen Hnil].
  unfold openBuffers in H. fold (opens_buffers env i st) in H.
  assert (Hnew : Inv (newIndexBuffer (newVertexBuffer st))
                 /\ ext st (newIndexBuffer (newVertexBuffer st))).
  { split.
    - unfold Inv, vertexBuffers at 1. simpl.
      split; [discriminate|]. split; [split; discriminate|].
      split; [exact Hlen|]. split.
      + intros b Hb. apply in_app_or in Hb. destruct Hb as [Hb|[<-|[]]];
          [now apply I4|apply bufferOk_new].
      + intros b m Hb Hm. injection Hb as <-. discriminate.
    - unfold ext. simpl. unfold vertexBuffers at 2, indexBuffers at 2. simpl.
      repeat split.
      + apply listExt_refl, sameVertex_refl.
      + apply listExt_app, vbExt_refl.
      + apply listExt_app, ibExt_refl.
      + exists []. now rewrite app_nil_r.
      + exists []. now rewrite app_nil_r. }
  destruct Hnew as [Hnew1 Hnew2].
  destruct (opens_buffers env i st) eqn:Eo.
  - assert (H' : (newIndexBuffer (newVertexBuffer st), 0%nat) = (st', start)).
    { simpl in H. unfold opens_buffers in Eo.
      destruct (indexBuffer st) as [ib|] eqn:Eib; [|exact H].
      destruct ((i =? 0)%nat && negb (useOneBuffer env)); [exact H|].
      rewrite orb_false_r in Eo.
      destruct (vertexBuffer st) eqn:Ev; [discriminate|].
      destruct I2 as [_ I2]. specialize (I2 eq_refl). discriminate. }
    injection H' as <- <-.
    split; [exact Hnew1|]. split; [exact Hnew2|].
    split; [reflexivity|]. split; [reflexivity|]. split; [reflexivity|].
    split.
    + unfold vertexBuffers at 1. simpl. rewrite length_app. simpl. reflexivity.
    + exists UrhoVertexBuffer_new, UrhoIndexBuffer_new. auto.
  - unfold opens_buffers in Eo. apply orb_false_iff in Eo.
    destruct Eo as [Ev Ec]. rewrite Ec in H.
    destruct (vertexBuffer st) as [vb|] eqn:Evb; [|discriminate].
    destruct (indexBuffer st) as [ib|] eqn:Eib.
    2:{ destruct I2 as [I2 _]. specialize (I2 eq_refl). discriminate. }
    injection H as <- <-.
    split; [exact HI|]. split; [apply ext_refl|].
    split; [reflexivity|]. split; [reflexivity|]. split; [reflexivity|].
    split; [lia|]. exists vb, ib. auto.
Qed.

Lemma corners_length (ts : list (nat * nat * nat)) :
  length (corners ts) = (length ts * 3)%nat.
Proof.
  unfold corners. induction ts as [|t r IH]; simpl; [reflexivity|].
  now rewrite IH.
Qed.

Lemma nth_error_last_opt {A : Type} (c : list A) (a : A) :
  nth_error (c ++ opt_list (Some a)) (length (c ++ opt_list (Some a)) - 1)
  = Some a.
Proof.
  rewrite length_app. simpl.
  rewrite nth_error_app2 by lia.
  replace (length c + 1 - 1 - length c)%nat with 0%nat by lia. reflexivity.
Qed.

Lemma position_channel_has_position (vb : UrhoVertexBuffer) :
  has_position vb -> position_channel (Some vb) = true.
Proof. intros [m [Hm Ht]]. simpl. now rewrite Hm. Qed.

Lemma createVertex_indexBuffer (tVertex : TVertex) (st st' : State) :
  createVertex tVertex st = Ok st' -> indexBuffer st' = indexBuffer st.
Proof.
  unfold createVertex. destruct (vertexBuffer st) as [vb|]; simpl;
    [|discriminate].
  destruct (UrhoVertex_init tVertex vb) as [vb' [v|o m n]]; intros H.
  - now injection H as <-.
  - discriminate.
Qed.

Lemma addVertex_indexBuffer (verticesList : list TVertex) (strict : bool)
    (i : nat) (acc acc' : State * list (nat * nat) * bool) (x : nat) :
  addVertex verticesList strict i acc x = Ok acc' ->
  indexBuffer (fst (fst acc')) = indexBuffer (fst (fst acc)).
Proof.
  destruct acc as [[st im] w]. unfold addVertex. simpl. intros H.
  destruct (getitem verticesList x) as [t|]; simpl in H; [|discriminate].
  destruct (createVertex t st) as [sa|] eqn:Ec; simpl in H; [|discriminate].
  rewrite <- (createVertex_indexBuffer _ _ Ec). clear Ec.
  destruct (uVertex sa) as [uid|]; simpl in H; [|discriminate].
  destruct (getitem (heap sa) uid) as [u|]; simpl in H; [|discriminate].
  destruct (vertexBuffer sa) as [vb|]; simpl in H; [|discriminate].
  destruct (match dict_get Z.eqb (uVerticesMap sa) (UrhoVertex_hash u) with
            | Some l => (l, uVerticesMap sa)
            | None => ([], dict_set Z.eqb (uVerticesMap sa)
                                    (UrhoVertex_hash u) [])
            end) as [bucket vmap].
  destruct (resolveVertex strict i (heap sa) vb uid bucket w)
    as [[[[ix vb2] bucket2] w2]|]; simpl in H; [|discriminate].
  destruct (elementMask vb2) as [m|].
  2:{ destruct (dict_get Nat.eqb im x); simpl in H; discriminate. }
  destruct (dict_get Nat.eqb im x) as [ix0|]; simpl in H.
  - destruct (ix0 =? ix)%nat; simpl in H;
      destruct (truthyZ (Z.land m ELEMENT_POSITION)); simpl in H;
      try (destruct (merge _ (pos u)) as [bb|]; simpl in H; [|discriminate]);
      now injection H as <-.
  - destruct (truthyZ (Z.land m ELEMENT_POSITION)); simpl in H;
      try (destruct (merge _ (pos u)) as [bb|]; simpl in H; [|discriminate]);
      now injection H as <-.
Qed.

Lemma addVertex_loop_indexBuffer (verticesList : list TVertex) (strict : bool)
    (i : nat) (l : list nat) (acc acc' : State * list (nat * nat) * bool) :
  foldM (addVertex verticesList strict i) l acc = Ok acc' ->
  indexBuffer (fst (fst acc')) = indexBuffer (fst (fst acc)).
Proof.
  revert acc. induction l as [|x r IH]; intros acc H.
  - simpl in H. now injection H as <-.
  - rewrite foldM_cons in H.
    destruct (addVertex verticesList strict i acc x) as [a1|] eqn:E;
      [|discriminate].
    simpl in H. rewrite (IH _ H). eapply addVertex_indexBuffer, E.
Qed.

(** One LOD (lines 914-1088). *)
Lemma processLod_spec (env : Env) (gi : nat) (st st' : State)
    (g g' : UrhoGeometry) (c c' : Vector3) (i : nat) (tl : TLodLevel) :
  Inv st ->
  processLod env gi (st, g, c) (i, tl) = Ok (st', g', c') ->
  Inv st' /\ ext st st' /\ geometries st' = geometries st
  /\ length (vertexBuffers st')
     = (length (vertexBuffers st)
        + if opens_buffers env i st then 1 else 0)%nat
  /\ exists l,
       lodLevels g' = lodLevels g ++ [l]
       /\ lodVertexBuffer l = (length (vertexBuffers st') - 1)%nat
       /\ lodIndexBuffer l = (length (vertexBuffers st') - 1)%nat
       /\ countIndex l = (length (triangleList tl) * 3)%nat
       /\ distance l = tl_distance tl
       /\ (i <> 0%nat -> center g' = center g)
       /\ (i = 0%nat -> c = vzero ->
           centerOk (heap st') (vertexBuffers st') (indexBuffers st') l
                    (center g')).
Proof.
  intros HI H. unfold processLod in H. cbv zeta in H.
  (* the error logged for a first LOD away from distance 0 *)
  set (stL := if (i =? 0)%nat && negb (Qeq_bool (tl_distance tl) 0)
              then add_log (ErrorFirstLodDistance gi (tl_distance tl)) st
              else st) in *.
  assert (HL : Inv stL /\ inner st stL).
  { unfold stL. destruct ((i =? 0)%nat && negb (Qeq_bool (tl_distance tl) 0)).
    - solve_frame. exact HI.
    - split; [exact HI|apply inner_refl]. }
  destruct HL as [HIL HinL].
  assert (HoL : opens_buffers env i stL = opens_buffers env i st).
  { unfold opens_buffers, stL.
    now destruct ((i =? 0)%nat && negb (Qeq_bool (tl_distance tl) 0)). }
  destruct (inner_lengths HinL) as [HlenL _].
  destruct (openBuffers env i stL) as [stB start] eqn:Eo.
  destruct (openBuffers_spec _ _ HIL Eo)
    as (HIB & HextB & HgB & HhB & HlB & HlenB & vbB & ibB & EvB & EiB & ->).
  rewrite HoL, HlenL in HlenB.
  (* the vertex loop *)
  destruct (foldM (addVertex (verticesList env)
                             ((i =? 0)%nat || strictLods env) i)
                  (indexSet tl) (stB, [], false))
    as [[[st1 im] w]|e] eqn:Ev; simpl in H; [|discriminate].
  assert (H1 : Inv st1 /\ inner stB st1).
  { apply (@foldM_inv_rel _ _
             (addVertex (verticesList env) ((i =? 0)%nat || strictLods env) i)
             (fun a => Inv (fst (fst a)))
             (fun a b => inner (fst (fst a)) (fst (fst b))))
      with (l := indexSet tl) (a := (stB, [], false)) (a' := (st1, im, w));
      auto.
    - intros a. apply inner_refl.
    - intros a b d. apply inner_trans.
    - intros a x a' Ha Hx. eapply addVertex_inv; eassumption. }
  destruct H1 as [HI1 Hin1].
  (* the warning and the model index map *)
  set (st2 := set_modelIndexMap _ _) in H.
  assert (H2 : Inv st2 /\ inner st1 st2).
  { unfold st2. destruct w; solve_frame; exact HI1. }
  destruct H2 as [HI2 Hin2].
  (* the triangle loop *)
  destruct (foldM (addIndex i im) (corners (triangleList tl)) (st2, 0%nat, c))
    as [[[st3 cc] c3]|e] eqn:Et; simpl in H; [|discriminate].
  destruct (@addIndex_loop _ _ _ _ _ _ _ _ _ Et)
    as (ixs & Hixs & -> & _ & Hmk & Hcen).
  destruct (append_indexes_inv ixs HI2) as [HI3 Hin3].
  (* the bone remap *)
  destruct (remapBones (bonesCount env) (append_indexes st2 ixs) (boneMap g))
    as [[st4 bm]|e] eqn:Er; simpl in H; [|discriminate].
  destruct (@remapBones_inv _ _ _ _ _ HI3 Er) as [HI4 Hin4].
  injection H as <- <- <-.
  assert (HinB4 : inner stB st4).
  { exact (@inner_trans _ _ _ Hin1
             (@inner_trans _ _ _ Hin2 (@inner_trans _ _ _ Hin3 Hin4))). }
  destruct (inner_lengths HinB4) as [Hlen4 Hleni4].
  split; [exact HI4|].
  split.
  { eapply ext_trans; [apply inner_ext, HinL|].
    eapply ext_trans; [exact HextB|]. apply inner_ext, HinB4. }
  split.
  { destruct HinB4 as (_ & _ & Hg & _). destruct HinL as (_ & _ & HgL & _).
    congruence. }
  split; [congruence|].
  eexists. split; [reflexivity|]. simpl.
  destruct (Inv_lengths HIB) as [HlB2 _].
  split; [congruence|]. split; [congruence|]. split; [reflexivity|].
  split; [reflexivity|]. split.
  { intros Hi. apply Nat.eqb_neq in Hi. now rewrite Hi. }
  intros -> ->. simpl.
  (* the center of a first LOD *)
  assert (Hlenixs : length ixs = (length (triangleList tl) * 3)%nat).
  { transitivity (length (map (@Some nat) ixs)); [now rewrite length_map|].
    rewrite <- Hixs, length_map. apply corners_length. }
  assert (Ev2 : exists vb2, vertexBuffer st2 = Some vb2 /\ vbExt vbB vb2).
  { assert (Hin : inner stB st2) by exact (@inner_trans _ _ _ Hin1 Hin2).
    destruct Hin as (_ & _ & _ & Hv & _). rewrite EvB in Hv.
    destruct (vertexBuffer st2) as [vb2|]; [|contradiction]. now exists vb2. }
  destruct Ev2 as [vb2 [Ev2 Hext2]].
  assert (Ei2 : indexBuffer st2 = Some ibB
                \/ exists ib2, indexBuffer st2 = Some ib2
                               /\ indexes ib2 = indexes ibB).
  { right.
    assert (Hi1 : indexBuffer st1 = indexBuffer stB)
      by exact (@addVertex_loop_indexBuffer _ _ _ _ _ _ Ev).
    exists ibB. split; [|reflexivity].
    unfold st2. destruct w; simpl; congruence. }
  assert (Ei2' : exists ib2, indexBuffer st2 = Some ib2
                             /\ indexes ib2 = indexes ibB)
    by (destruct Ei2 as [E|E]; [now exists ibB|exact E]).
  clear Ei2. destruct Ei2' as [ib2 [Ei2 Hib2]]. clearbody st2.
  (* the buffers at the end of the LOD *)
  assert (Ev4 : exists vb4, vertexBuffer st4 = Some vb4 /\ vbExt vb2 vb4).
  { assert (Hin : inner st2 st4) by exact (@inner_trans _ _ _ Hin3 Hin4).
    destruct Hin as (_ & _ & _ & Hv & _). rewrite Ev2 in Hv.
    destruct (vertexBuffer st4) as [vb4|]; [|contradiction]. now exists vb4. }
  destruct Ev4 as [vb4 [Ev4 Hext4]].
  assert (Ei4 : exists ib4, indexBuffer st4 = Some ib4
                            /\ exists tail,
                                 indexes ib4 = (indexes ibB ++ ixs) ++ tail).
  { destruct Hin4 as (_ & _ & _ & _ & Hi & _).
    unfold append_indexes in Hi. rewrite Ei2 in Hi. simpl in Hi.
    destruct (indexBuffer st4) as [ib4|]; [|contradiction].
    exists ib4. split; [reflexivity|]. destruct Hi as [tail Ht].
    simpl in Ht. exists tail. now rewrite Ht, Hib2. }
  destruct Ei4 as [ib4 [Ei4 [tail Hib4]]].
  assert (Hv4 : nth_error (vertexBuffers st4) (length (vertexBuffers stB) - 1)
                = Some vb4).
  { rewrite <- Hlen4. unfold vertexBuffers. rewrite Ev4.
    apply nth_error_last_opt. }
  assert (Hi4 : nth_error (indexBuffers st4) (length (indexBuffers stB) - 1)
                = Some ib4).
  { rewrite <- Hleni4. unfold indexBuffers. rewrite Ei4.
    apply nth_error_last_opt. }
  exists vb4, ib4. simpl.
  split; [exact Hv4|]. split; [exact Hi4|].
  rewrite Hib4, !length_app. split; [lia|].
  split.
  { intros Hn. destruct (Hmk eq_refl) as [vb0 [m0 [Hv0 Hm0]]].
    - intros Hc. apply (f_equal (@length nat)) in Hc.
      rewrite corners_length in Hc. simpl in Hc. lia.
    - rewrite Ev2 in Hv0. injection Hv0 as <-.
      destruct Hext4 as [_ Hn4]. unfold maskNarrow in Hn4. rewrite Hm0 in Hn4.
      destruct Hn4 as [m4 [Hm4 _]]. congruence. }
  intros Hp Hn.
  assert (Hm2 : elementMask vb2 <> None).
  { destruct (Hmk eq_refl) as [vb0 [m0 [Hv0 Hm0]]].
    - intros Hc. apply (f_equal (@length nat)) in Hc.
      rewrite corners_length in Hc. simpl in Hc. lia.
    - rewrite Ev2 in Hv0. injection Hv0 as <-. congruence. }
  pose proof (has_position_narrow Hext4 Hm2 Hp) as Hp2.
  rewrite Ev2, (position_channel_has_position Hp2) in Hcen. simpl in Hcen.
  destruct Hcen as [ps [Hps [-> ->]]].
  rewrite corners_length. simpl.
  destruct (Nat.eqb_spec (length (triangleList tl) * 3) 0) as [Hz|Hz];
    [contradiction|]. simpl.
  exists ps. split; [|reflexivity].
  rewrite <- app_assoc, skipn_app, skipn_all, Nat.sub_diag. simpl.
  rewrite firstn_app, <- Hlenixs, Nat.sub_diag, firstn_all. simpl.
  rewrite app_nil_r.
  eapply map_Some_ext; [|exact Hps].
  intros x p Hx. eapply positionAt_ext; [| exact Hext4 | exact Hx].
  destruct Hin3 as (_ & _ & _ & _ & _ & Hh3 & _).
  destruct Hin4 as (_ & _ & _ & _ & _ & Hh4 & _).
  eapply listExt_trans; [apply sameVertex_trans| |]; eassumption.
Qed.

Lemma vertexBuffer_none_iff (st : State) :
  Inv st -> (vertexBuffer st = None <-> length (vertexBuffers st) = 0%nat).
Proof.
  intros HI. destruct (Inv_lengths HI) as [_ Hnil]. split.
  - intros H. now rewrite (Hnil H).
  - unfold vertexBuffers. destruct (vertexBuffer st); [|reflexivity].
    rewrite length_app. simpl. lia.
Qed.

Lemma opens_buffers_count (env : Env) (i : nat) (st : State) :
  Inv st ->
  opens_buffers env i st
  = (length (vertexBuffers st) =? 0)%nat
    || ((i =? 0)%nat && negb (useOneBuffer env)).
Proof.
  intros HI. unfold opens_buffers. f_equal.
  pose proof (vertexBuffer_none_iff HI) as Hn.
  destruct (vertexBuffer st); simpl.
  - destruct (Nat.eqb_spec (length (vertexBuffers st)) 0); [|reflexivity].
    destruct Hn as [_ Hn]. specialize (Hn e). discriminate.
  - destruct Hn as [Hn _]. now rewrite (Hn eq_refl).
Qed.

Lemma geometry_centered_ext (st st' : State) (g g' : UrhoGeometry)
    (l0 : UrhoLodLevel) (r r' : list UrhoLodLevel) :
  ext st st' -> lodLevels g = l0 :: r -> lodLevels g' = l0 :: r' ->
  center g' = center g ->
  geometry_centered st g -> geometry_centered st' g'.
Proof.
  intros (Hh & Hv & Hi & _) Hg Hg' Hc Hcen l1 r1 Hl. rewrite Hg' in Hl.
  injection Hl as <- <-. rewrite Hc.
  eapply centerOk_ext; eauto.
Qed.

(** The LODs of one geometry, from position [k] of the enumeration. *)
Lemma lods_fold (env : Env) (gi : nat) (lods : list TLodLevel) :
  forall (k : nat) (st st' : State) (g g' : UrhoGeometry) (c c' : Vector3),
    Inv st ->
    (k = 0%nat -> lodLevels g = [] /\ c = vzero) ->
    (k <> 0%nat -> vertexBuffer st <> None /\ lodLevels g <> []
                   /\ geometry_centered st g) ->
    foldM (processLod env gi) (combine (seq k (length lods)) lods) (st, g, c)
    = Ok (st', g', c') ->
    Inv st' /\ ext st st' /\ geometries st' = geometries st
    /\ exists added,
         lodLevels g' = lodLevels g ++ added
         /\ Forall2 lodRel lods added
         /\ geometry_centered st' g'
         /\ (lods = [] -> length (vertexBuffers st') = length (vertexBuffers st))
         /\ (useOneBuffer env = true ->
             (lods <> [] -> length (vertexBuffers st')
                            = Nat.max (length (vertexBuffers st)) 1)
             /\ Forall (refers_to (Nat.max (length (vertexBuffers st)) 1 - 1))
                       added)
         /\ (useOneBuffer env = false ->
             (k = 0%nat ->
              (lods <> [] -> length (vertexBuffers st')
                             = S (length (vertexBuffers st)))
              /\ Forall (refers_to (length (vertexBuffers st))) added)
             /\ (k <> 0%nat ->
                 length (vertexBuffers st') = length (vertexBuffers st)
                 /\ Forall (refers_to (length (vertexBuffers st) - 1)) added)).
Proof.
  induction lods as [|tl rest IH]; intros k st st' g g' c c' HI H0 Hk H.
  - simpl in H. injection H as <- <- <-.
    split; [exact HI|]. split; [apply ext_refl|]. split; [reflexivity|].
    exists []. rewrite app_nil_r. split; [reflexivity|].
    split; [constructor|]. split.
    { destruct (Nat.eq_dec k 0) as [Hz|Hz].
      - destruct (H0 Hz) as [Hn _]. intros l0 r Hl. congruence.
      - now destruct (Hk Hz) as (_ & _ & Hc). }
    split; [reflexivity|].
    split; [intros _; split; [congruence|constructor]|].
    intros _. split; intros _; split; try congruence; constructor.
  - simpl length in H. simpl seq in H. simpl combine in H.
    rewrite foldM_cons in H.
    destruct (processLod env gi (st, g, c) (k, tl)) as [[[st1 g1] c1]|e] eqn:E;
      [|discriminate].
    simpl in H.
    destruct (@processLod_spec _ _ _ _ _ _ _ _ _ _ HI E)
      as (HI1 & Hext1 & Hg1 & Hlen1 & l & Hl & Hrv & Hri & Hcnt & Hdist
          & Hckeep & Hcnew).
    rewrite (@opens_buffers_count _ _ _ HI) in Hlen1.
    assert (Hpos1 : (1 <= length (vertexBuffers st1))%nat).
    { rewrite Hlen1.
      destruct (Nat.eqb_spec (length (vertexBuffers st)) 0); simpl; lia. }
    assert (Hcen1 : geometry_centered st1 g1).
    { destruct (Nat.eq_dec k 0) as [Hz|Hz].
      - destruct (H0 Hz) as [Hn ->]. rewrite Hn in Hl. simpl in Hl.
        intros l0 r Hl0. rewrite Hl in Hl0. injection Hl0 as <- <-.
        now apply Hcnew.
      - destruct (Hk Hz) as (_ & Hne & Hc).
        destruct (lodLevels g) as [|l0 r] eqn:Eg; [contradiction|].
        apply (@geometry_centered_ext st st1 g g1 l0 r (r ++ [l]) Hext1 Eg);
          [exact Hl|apply Hckeep, Hz|exact Hc]. }
    apply IH in H; [|exact HI1|intros Hs; discriminate|].
    2:{ intros _. split.
        - intros Hn. apply (vertexBuffer_none_iff HI1) in Hn. lia.
        - split; [|exact Hcen1]. rewrite Hl. now destruct (lodLevels g). }
    destruct H as (HI' & Hext' & Hg' & added & Hadd & HF & Hcen' & Hrest
                   & Hshared & Hsplit).
    split; [exact HI'|]. split; [eapply ext_trans; eassumption|].
    split; [congruence|].
    exists (l :: added). split; [rewrite Hadd, Hl, <- app_assoc; reflexivity|].
    split; [constructor; [split; assumption|exact HF]|].
    split; [exact Hcen'|]. split; [discriminate|].
    split.
    + intros Hone. destruct (Hshared Hone) as [Hn' Hr'].
      rewrite Hone in Hlen1. simpl in Hlen1. rewrite andb_false_r, orb_false_r in Hlen1.
      assert (Hmax : length (vertexBuffers st1)
                     = Nat.max (length (vertexBuffers st)) 1).
      { rewrite Hlen1.
        destruct (Nat.eqb_spec (length (vertexBuffers st)) 0); lia. }
      replace (Nat.max (length (vertexBuffers st1)) 1)
        with (length (vertexBuffers st1)) in * by lia.
      split.
      * intros _. destruct rest as [|t2 r2].
        -- rewrite <- Hmax. apply Hrest. reflexivity.
        -- rewrite Hn' by discriminate. exact Hmax.
      * constructor; [split; congruence|]. now rewrite <- Hmax.
    + intros Hone. destruct (Hsplit Hone) as [_ Hnz].
      destruct (Hnz (Nat.neq_succ_0 k)) as [Hn' Hr'].
      rewrite Hone in Hlen1. simpl in Hlen1. rewrite andb_true_r in Hlen1.
      split.
      * intros ->. simpl in Hlen1. rewrite orb_true_r in Hlen1.
        replace (length (vertexBuffers st1))
          with (S (length (vertexBuffers st))) in * by lia.
        split; [intros _; exact Hn'|].
        simpl in Hr'. rewrite Nat.sub_0_r in Hr'.
        constructor; [split; [rewrite Hrv|rewrite Hri]; lia|exact Hr'].
      * intros Hz. destruct (Hk Hz) as (Hvb & _).
        assert (Hn0 : length (vertexBuffers st) <> 0%nat).
        { intros Hc. apply (vertexBuffer_none_iff HI) in Hc. contradiction. }
        apply Nat.eqb_neq in Hz. rewrite Hz, orb_false_r in Hlen1.
        apply Nat.eqb_neq in Hn0. rewrite Hn0 in Hlen1.
        rewrite Nat.add_0_r in Hlen1.
        split; [congruence|].
        constructor; [split; congruence|]. now rewrite <- Hlen1.
Qed.

(** One geometry (lines 904-1088). *)
Lemma processGeometry_spec (env : Env) (st st' : State) (tg : TGeometry) :
  Inv st -> processGeometry env st tg = Ok st' ->
  Inv st' /\ ext st st'
  /\ exists g,
       geometries st' = geometries st ++ [g]
       /\ geometryRel tg g
       /\ geometry_centered st' g
       /\ (tg_lodLevels tg = [] ->
           length (vertexBuffers st') = length (vertexBuffers st))
       /\ (useOneBuffer env = true ->
           (tg_lodLevels tg <> [] ->
            length (vertexBuffers st')
            = Nat.max (length (vertexBuffers st)) 1)
           /\ Forall (refers_to (Nat.max (length (vertexBuffers st)) 1 - 1))
                     (lodLevels g))
       /\ (useOneBuffer env = false ->
           (tg_lodLevels tg <> [] ->
            length (vertexBuffers st') = S (length (vertexBuffers st)))
           /\ Forall (refers_to (length (vertexBuffers st))) (lodLevels g)).
Proof.
  intros HI H. unfold processGeometry, enumerate in H.
  destruct (foldM (processLod env (length (geometries st)))
                  (combine (seq 0 (length (tg_lodLevels tg)))
                           (tg_lodLevels tg))
                  (st, mkUrhoGeometry [] [] vzero, vzero))
    as [[[st2 g] c]|e] eqn:E; simpl in H; [|discriminate].
  injection H as <-.
  pose proof (@lods_fold env (length (geometries st)) (tg_lodLevels tg) 0
                st st2 (mkUrhoGeometry [] [] vzero) g vzero c HI
                (fun _ => conj eq_refl eq_refl)
                (fun H => match H eq_refl with end) E) as E'.
  clear E. destruct E' as (HI2 & Hext & Hg & added & Hadd & HF & Hcen & Hnil & Hsh & Hsp).
  simpl in Hadd. rewrite <- Hadd in HF.
  assert (Hfr : Inv (set_geometries (geometries st2 ++ [g]) st2)
                /\ ext st2 (set_geometries (geometries st2 ++ [g]) st2)).
  { split.
    - destruct HI2 as (I1 & I2 & I3 & I4 & I5). unfold Inv.
      split; [exact I1|]. split; [exact I2|]. split; [exact I3|].
      split; [exact I4|exact I5].
    - unfold ext. simpl. repeat split.
      + apply listExt_refl, sameVertex_refl.
      + apply listExt_refl, vbExt_refl.
      + apply listExt_refl, ibExt_refl.
      + now exists [g].
      + exists []. now rewrite app_nil_r. }
  destruct Hfr as [HI3 Hext3].
  split; [exact HI3|]. split; [eapply ext_trans; eassumption|].
  exists g. simpl. split; [now rewrite Hg|]. split; [exact HF|].
  split; [exact Hcen|]. split; [exact Hnil|].
  rewrite <- Hadd in Hsh, Hsp.
  split.
  - intros Hone. exact (Hsh Hone).
  - intros Hone. destruct (Hsp Hone) as [Hz _]. exact (Hz eq_refl).
Qed.

Lemma geometry_centered_later (st st' : State) (g : UrhoGeometry) :
  ext st st' -> geometry_centered st g -> geometry_centered st' g.
Proof.
  intros (Hh & Hv & Hi & _) Hc l0 r Hl.
  eapply centerOk_ext; eauto.
Qed.

Lemma geometryRel_has_lods (tg : TGeometry) (g : UrhoGeometry) :
  geometryRel tg g ->
  has_lods g = match tg_lodLevels tg with [] => false | _ :: _ => true end.
Proof.
  unfold geometryRel, has_lods. intros H.
  inversion H; reflexivity.
Qed.

Lemma existsb_snoc {A : Type} (f : A -> bool) (l : list A) (a : A) :
  existsb f (l ++ [a]) = existsb f l || f a.
Proof. rewrite existsb_app. simpl. now rewrite orb_false_r. Qed.

Lemma filter_snoc {A : Type} (f : A -> bool) (l : list A) (a : A) :
  filter f (l ++ [a]) = filter f l ++ (if f a then [a] else []).
Proof. rewrite filter_app. reflexivity. Qed.

(** All the geometries of a model (lines 904-1088). *)
Lemma geometries_fold (env : Env) (tgs : list TGeometry) :
  forall st st',
    Inv st ->
    Forall (geometry_centered st) (geometries st) ->
    (useOneBuffer env = true ->
     layout_shared (length (vertexBuffers st)) (geometries st)) ->
    (useOneBuffer env = false ->
     layout_split (length (vertexBuffers st)) (geometries st)) ->
    foldM (processGeometry env) tgs st = Ok st' ->
    Inv st' /\ ext st st'
    /\ Forall (geometry_centered st') (geometries st')
    /\ (useOneBuffer env = true ->
        layout_shared (length (vertexBuffers st')) (geometries st'))
    /\ (useOneBuffer env = false ->
        layout_split (length (vertexBuffers st')) (geometries st'))
    /\ exists gs, geometries st' = geometries st ++ gs
                  /\ Forall2 geometryRel tgs gs.
Proof.
  induction tgs as [|tg rest IH]; intros st st' HI Hcen Hsh Hsp H.
  - simpl in H. injection H as <-.
    split; [exact HI|]. split; [apply ext_refl|]. split; [exact Hcen|].
    split; [exact Hsh|]. split; [exact Hsp|].
    exists []. rewrite app_nil_r. split; [reflexivity|constructor].
  - rewrite foldM_cons in H.
    destruct (processGeometry env st tg) as [st1|e] eqn:E; [|discriminate].
    simpl in H.
    destruct (@processGeometry_spec _ _ _ _ HI E)
      as (HI1 & Hext1 & g & Hg & Hrel & Hgc & Hnil & Hs1 & Hp1).
    pose proof (geometryRel_has_lods Hrel) as Hhl.
    apply IH in H; [|exact HI1| | |].
    + destruct H as (HI' & Hext' & Hcen' & Hsh' & Hsp' & gs & Hgs & HF).
      split; [exact HI'|]. split; [eapply ext_trans; eassumption|].
      split; [exact Hcen'|]. split; [exact Hsh'|]. split; [exact Hsp'|].
      exists (g :: gs). split; [|constructor; assumption].
      rewrite Hgs, Hg, <- app_assoc. reflexivity.
    + rewrite Hg. apply Forall_app. split; [|constructor; [exact Hgc|constructor]].
      eapply Forall_impl; [|exact Hcen].
      intros g0. now apply geometry_centered_later.
    + intros Hone. destruct (Hsh Hone) as [Hn Hr].
      destruct (Hs1 Hone) as [Hlen Hrefs].
      assert (Hle : (length (vertexBuffers st) <= 1)%nat)
        by (rewrite Hn; destruct (existsb has_lods (geometries st)); lia).
      replace (Nat.max (length (vertexBuffers st)) 1 - 1)%nat with 0%nat
        in Hrefs by lia.
      rewrite Hg. split.
      * rewrite existsb_snoc, Hhl.
        destruct (tg_lodLevels tg) as [|t0 r0] eqn:Et.
        -- rewrite orb_false_r, (Hnil eq_refl). exact Hn.
        -- rewrite orb_true_r, Hlen by discriminate. lia.
      * apply Forall_app. split; [exact Hr|]. constructor; [exact Hrefs|].
        constructor.
    + intros Hone. destruct (Hsp Hone) as [Hn Hr].
      destruct (Hp1 Hone) as [Hlen Hrefs].
      rewrite Hg. split.
      * rewrite filter_snoc, length_app, Hhl, <- Hn.
        destruct (tg_lodLevels tg) as [|t0 r0] eqn:Et.
        -- simpl. rewrite (Hnil eq_refl). lia.
        -- simpl. rewrite Hlen by discriminate. lia.
      * intros k g0 Hk.
        destruct (Nat.lt_ge_cases k (length (geometries st))) as [Hlt|Hge].
        -- rewrite nth_error_app1 in Hk by exact Hlt.
           rewrite firstn_app.
           replace (k - length (geometries st))%nat with 0%nat by lia.
           rewrite firstn_0, app_nil_r. now apply Hr.
        -- rewrite nth_error_app2 in Hk by exact Hge.
           destruct (k - length (geometries st))%nat as [|j] eqn:Ej;
             simpl in Hk; [|destruct j; discriminate].
           injection Hk as <-.
           replace k with (length (geometries st)) by lia.
           rewrite firstn_app, Nat.sub_diag, firstn_all. simpl.
           rewrite app_nil_r, <- Hn. exact Hrefs.
Qed.

(* ------------------------------------------------------------------ *)
(** ** The exported model *)

Lemma Inv_initial (errors : list Z) : Inv (initialState errors).
Proof.
  unfold Inv, initialState, vertexBuffers. simpl.
  split; [reflexivity|]. split; [tauto|]. split; [reflexivity|].
  split; [intros vb []|]. intros vb m H. discriminate.
Qed.

Lemma setIndexSize_ext (ibs : list UrhoIndexBuffer) :
  listExt ibExt ibs (map setIndexSize ibs).
Proof.
  intros k a Ha. exists (setIndexSize a). split.
  - rewrite nth_error_map, Ha. reflexivity.
  - exists []. simpl. now rewrite app_nil_r.
Qed.

(** What lines 877-1102 leave in the model. *)
Lemma exportGeometries_spec (tData : TData) (opts : UrhoExportOptions)
    (errors : list Z) (um : UrhoModel) :
  exportGeometries tData opts errors = Ok um ->
  exists st,
    Inv st
    /\ Forall (geometry_centered st) (geometries st)
    /\ (useOneBuffer (exportEnv tData opts) = true ->
        layout_shared (length (vertexBuffers st)) (geometries st))
    /\ (useOneBuffer (exportEnv tData opts) = false ->
        layout_split (length (vertexBuffers st)) (geometries st))
    /\ Forall2 geometryRel (td_geometriesList tData) (geometries st)
    /\ um_store um = heap st
    /\ um_vertexBuffers um = vertexBuffers st
    /\ um_indexBuffers um = map setIndexSize (indexBuffers st)
    /\ um_geometries um = geometries st
    /\ exists lg, um_log um = log st ++ lg.
Proof.
  unfold exportGeometries. intros H.
  destruct (foldM (processGeometry (exportEnv tData opts))
                  (td_geometriesList tData) (initialState errors))
    as [st|e] eqn:E; simpl in H; [|discriminate].
  injection H as <-.
  apply geometries_fold in E.
  - destruct E as (HI & _ & Hcen & Hsh & Hsp & gs & Hgs & HF).
    simpl in Hgs. subst gs. exists st.
    split; [exact HI|]. split; [exact Hcen|]. split; [exact Hsh|].
    split; [exact Hsp|]. split; [exact HF|].
    destruct (td_geometriesList tData) as [|tg r];
      [|destruct (bbmin (boundingBox st))]; simpl;
      repeat (split; [reflexivity|]); solve_log.
  - apply Inv_initial.
  - constructor.
  - intros _. split; [reflexivity|constructor].
  - intros _. split; [reflexivity|]. intros k g Hk. now destruct k.
Qed.

Lemma maxLod_inner (lods : list TLodLevel) :
  forall m,
    let r := fold_left
               (fun m tLodLevel =>
                  let vertexCount := length (indexSet tLodLevel) in
                  if (m <? vertexCount)%nat then vertexCount else m)
               lods m in
    (m <= r)%nat
    /\ (forall tl, In tl lods -> (length (indexSet tl) <= r)%nat)
    /\ (r = m \/ exists tl, In tl lods /\ r = length (indexSet tl)).
Proof.
  induction lods as [|tl rest IH]; intros m; simpl.
  - split; [lia|]. split; [intros ? []|now left].
  - specialize (IH (if (m <? length (indexSet tl))%nat
                    then length (indexSet tl) else m)).
    simpl in IH. destruct IH as (A & B & C).
    destruct (Nat.ltb_spec m (length (indexSet tl))) as [Hlt|Hge].
    + split; [lia|]. split.
      * intros t [<-|Ht]; [exact A|now apply B].
      * right. destruct C as [C|[t [Ht C]]].
        -- exists tl. split; [now left|exact C].
        -- exists t. split; [now right|exact C].
    + split; [lia|]. split.
      * intros t [<-|Ht]; [lia|now apply B].
      * destruct C as [C|[t [Ht C]]]; [now left|].
        right. exists t. split; [now right|exact C].
Qed.

(** [maxLodVertices] is the largest per-LOD vertex-set size across all
    geometries (0 when there is no LOD). *)
Lemma maxLodVertices_spec (gs : list TGeometry) :
  (forall tg tl, In tg gs -> In tl (tg_lodLevels tg) ->
                 (length (indexSet tl) <= maxLodVertices gs)%nat)
  /\ (maxLodVertices gs = 0%nat
      \/ exists tg tl, In tg gs /\ In tl (tg_lodLevels tg)
                       /\ maxLodVertices gs = length (indexSet tl)).
Proof.
  unfold maxLodVertices.
  assert (G : forall m,
             let r := fold_left
                        (fun m tGeometry =>
                           fold_left
                             (fun m tLodLevel =>
                                let vertexCount :=
                                  length (indexSet tLodLevel) in
                                if (m <? vertexCount)%nat
                                then vertexCount else m)
                             (tg_lodLevels tGeometry) m)
                        gs m in
             (m <= r)%nat
             /\ (forall tg tl, In tg gs -> In tl (tg_lodLevels tg) ->
                               (length (indexSet tl) <= r)%nat)
             /\ (r = m \/ exists tg tl, In tg gs /\ In tl (tg_lodLevels tg)
                                        /\ r = length (indexSet tl))).
  { induction gs as [|tg rest IH]; intros m; simpl.
    - split; [lia|]. split; [intros ? ? []|now left].
    - destruct (maxLod_inner (tg_lodLevels tg) m) as (A1 & B1 & C1).
      simpl in A1, B1, C1.
      specialize (IH (fold_left
                        (fun m tLodLevel =>
                           if (m <? length (indexSet tLodLevel))%nat
                           then length (indexSet tLodLevel) else m)
                        (tg_lodLevels tg) m)).
      simpl in IH. destruct IH as (A & B & C).
      split; [lia|]. split.
      + intros g t [<-|Hg] Ht; [|now apply (B g t)].
        specialize (B1 t Ht). lia.
      + destruct C as [C|[g [t [Hg [Ht C]]]]].
        * destruct C1 as [C1|[t [Ht C1]]]; [left; congruence|].
          right. exists tg, t. split; [now left|]. split; [exact Ht|].
          congruence.
        * right. exists g, t. split; [now right|]. auto. }
  destruct (G 0%nat) as (_ & B & C). simpl in B, C.
  split; [exact B|exact C].
Qed.

(* ------------------------------------------------------------------ *)
(** ** Buffer sharing *)

(** The test of lines 889-891 in terms of the source: the buffers are
    split exactly when [splitSubMeshes] is set, or there are more than
    65535 source vertices and no LOD names more than 65535 of them. *)
Lemma useOneBuffer_false (tData : TData) (opts : UrhoExportOptions) :
  useOneBuffer (exportEnv tData opts) = false <->
  splitSubMeshes opts = true
  \/ ((65535 < Z.of_nat (length (td_verticesList tData)))%Z
      /\ forall tg tl, In tg (td_geometriesList tData) ->
                       In tl (tg_lodLevels tg) ->
                       (Z.of_nat (length (indexSet tl)) <= 65535)%Z).
Proof.
  cbn [useOneBuffer exportEnv]. unfold chooseOneBuffer.
  destruct (maxLodVertices_spec (td_geometriesList tData)) as [Hle Hat].
  destruct (splitSubMeshes opts); simpl; [split; auto|].
  destruct (Z.ltb_spec 65535 (Z.of_nat (length (td_verticesList tData))))
    as [Ht|Ht]; simpl.
  2:{ split; [discriminate|]. intros [Hc|[Ha _]]; [discriminate|lia]. }
  destruct (Z.leb_spec (Z.of_nat (maxLodVertices (td_geometriesList tData)))
                       65535) as [Hm|Hm]; simpl.
  - split; [|reflexivity]. intros _. right. split; [exact Ht|].
    intros tg tl Hg Hl. specialize (Hle tg tl Hg Hl). lia.
  - split; [discriminate|]. intros [Hc|[_ Hall]]; [discriminate|].
    destruct Hat as [H0|(tg & tl & Hg & Hl & Heq)]; [lia|].
    specialize (Hall tg tl Hg Hl). lia.
Qed.

(** C2.  When [splitSubMeshes] is set, or the source has more than 65535
    vertices while no LOD of any geometry names more than 65535 of them,
    every geometry with LODs opens a new vertex buffer and a new index
    buffer at its first LOD: the model has as many buffers as geometries
    with LODs, and all the LODs of a geometry refer to the buffer of that
    geometry.  Otherwise the exported model has one vertex buffer and one
    index buffer (none when no geometry has a LOD) and every LOD of every
    geometry refers to buffer 0.  There are as many index buffers as vertex
    buffers. *)
Theorem buffer_sharing_policy (tData : TData) (opts : UrhoExportOptions)
    (errors : list Z) (um : UrhoModel) :
  exportGeometries tData opts errors = Ok um ->
  let split :=
    splitSubMeshes opts = true
    \/ ((65535 < Z.of_nat (length (td_verticesList tData)))%Z
        /\ forall tg tl, In tg (td_geometriesList tData) ->
                         In tl (tg_lodLevels tg) ->
                         (Z.of_nat (length (indexSet tl)) <= 65535)%Z) in
  length (um_indexBuffers um) = length (um_vertexBuffers um)
  /\ Forall2 geometryRel (td_geometriesList tData) (um_geometries um)
  /\ (split ->
      layout_split (length (um_vertexBuffers um)) (um_geometries um))
  /\ (~ split ->
      layout_shared (length (um_vertexBuffers um)) (um_geometries um)).
Proof.
  intros H split.
  destruct (exportGeometries_spec _ _ _ H)
    as (st & HI & _ & Hsh & Hsp & HF & _ & Hv & Hi & Hg & _).
  rewrite Hv, Hi, Hg, length_map.
  split; [apply (Inv_lengths HI)|]. split; [exact HF|].
  split.
  - intros Hs. apply Hsp. now apply useOneBuffer_false.
  - intros Hs. apply Hsh.
    destruct (useOneBuffer (exportEnv tData opts)) eqn:E; [reflexivity|].
    exfalso. apply Hs. now apply useOneBuffer_false.
Qed.

Lemma buffer_sharing_policy_witness :
  exists um,
    exportGeometries two_geometries split_options [] = Ok um
    /\ let split :=
         splitSubMeshes split_options = true
         \/ ((65535 < Z.of_nat (length (td_verticesList two_geometries)))%Z
             /\ forall tg tl, In tg (td_geometriesList two_geometries) ->
                              In tl (tg_lodLevels tg) ->
                              (Z.of_nat (length (indexSet tl)) <= 65535)%Z) in
       length (um_indexBuffers um) = length (um_vertexBuffers um)
       /\ Forall2 geometryRel (td_geometriesList two_geometries)
                  (um_geometries um)
       /\ (split ->
           layout_split (length (um_vertexBuffers um)) (um_geometries um))
       /\ (~ split ->
           layout_shared (length (um_vertexBuffers um)) (um_geometries um)).
Proof.
  eexists. split; [vm_compute; reflexivity|].
  apply (@buffer_sharing_policy two_geometries split_options []).
  vm_compute. reflexivity.
Defined.

(** The two layouts differ on two geometries: without [splitSubMeshes]
    all their LODs are in buffer 0. *)
Example shared_buffers_of_two_geometries :
  exists um,
    exportGeometries two_geometries default_options [] = Ok um
    /\ length (um_vertexBuffers um) = 1%nat
    /\ map (fun g => map lodVertexBuffer (lodLevels g)) (um_geometries um)
       = [[0]; [0; 0]]%nat
    /\ map (fun g => map lodIndexBuffer (lodLevels g)) (um_geometries um)
       = [[0]; [0; 0]]%nat.
Proof.
  eexists. split; [vm_compute; reflexivity|]. repeat split.
Qed.

(** With [splitSubMeshes], two geometries get buffers 0 and 1. *)
Example split_sub_meshes_buffers :
  exists um,
    exportGeometries two_geometries split_options [] = Ok um
    /\ length (um_vertexBuffers um) = 2%nat
    /\ map (fun g => map lodVertexBuffer (lodLevels g)) (um_geometries um)
       = [[0]; [1; 1]]%nat
    /\ map (fun g => map lodIndexBuffer (lodLevels g)) (um_geometries um)
       = [[0]; [1; 1]]%nat.
Proof.
  eexists. split; [vm_compute; reflexivity|]. repeat split.
Qed.

(* ------------------------------------------------------------------ *)
(** ** Element masks *)

Lemma UrhoVertex_init_mismatch (tVertex : TVertex)
    (buffer : UrhoVertexBuffer) (old : Z) :
  elementMask buffer = Some old -> old <> sourceMask tVertex ->
  UrhoVertex_init tVertex buffer
  = (set_elementMask buffer (Some (Z.land old (sourceMask tVertex))),
     MaskError old (sourceMask tVertex) (Z.land old (sourceMask tVertex))).
Proof.
  intros Hold Hne. unfold UrhoVertex_init. rewrite Hold.
  destruct (Z.eqb_spec old (sourceMask tVertex)); [contradiction|].
  reflexivity.
Qed.

Lemma createVertex_mismatch (tVertex : TVertex) (st : State)
    (buffer : UrhoVertexBuffer) (old : Z) :
  vertexBuffer st = Some buffer -> elementMask buffer = Some old ->
  old <> sourceMask tVertex ->
  createVertex tVertex st = Raise TypeError.
Proof.
  intros Hvb Hold Hne. unfold createVertex. rewrite Hvb. cbn [deref bind].
  now rewrite (UrhoVertex_init_mismatch tVertex buffer Hold Hne).
Qed.

(** C3 fails on the code.  A vertex with a position and a normal followed
    by one with a position only: the constructor of the second raises
    [MaskError] and narrows the buffer's mask from 3 to 1, the bitwise
    intersection, as the claim says; but the handler of lines 961-964 then
    raises [TypeError] while it formats its warning, so the error is not
    recovered from and the export of the model stops. *)
Theorem mask_mismatch_aborts_export :
  UrhoVertex_init vertex_without_normal
    (mkUrhoVertexBuffer (Some 3%Z) None None [0%nat])
  = (mkUrhoVertexBuffer (Some 1%Z) None None [0%nat], MaskError 3 1 1)
  /\ createVertex vertex_without_normal
       (set_vertexBuffer (mkUrhoVertexBuffer (Some 3%Z) None None [0%nat])
          (initialState []))
     = Raise TypeError
  /\ exportGeometries mixed_masks default_options [] = Raise TypeError.
Proof.
  split; [reflexivity|]. split; reflexivity.
Qed.

(* ------------------------------------------------------------------ *)
(** ** Geometry centers *)

(** C9 (amended).  For every geometry of the exported model whose first
    LOD has a vertex buffer with a position channel and draws at least one
    index (a non-empty triangle list), the center is the mean of the
    positions of the triangle corners of that LOD: the sum, over the
    indices of its draw range, of the position of the vertex referred to,
    divided by the number of indices.  A vertex counts once per corner
    that uses it. *)
Theorem geometry_center_mean (tData : TData) (opts : UrhoExportOptions)
    (errors : list Z) (um : UrhoModel) :
  exportGeometries tData opts errors = Ok um ->
  Forall2 geometryRel (td_geometriesList tData) (um_geometries um)
  /\ forall g l0 r,
       In g (um_geometries um) -> lodLevels g = l0 :: r ->
       exists vb ib,
         nth_error (um_vertexBuffers um) (lodVertexBuffer l0) = Some vb
         /\ nth_error (um_indexBuffers um) (lodIndexBuffer l0) = Some ib
         /\ (startIndex l0 + countIndex l0 <= length (indexes ib))%nat
         /\ (has_position vb -> countIndex l0 <> 0%nat ->
             exists ps,
               map (positionAt (um_store um) vb)
                   (firstn (countIndex l0)
                           (skipn (startIndex l0) (indexes ib)))
               = map Some ps
               /\ length ps = countIndex l0
               /\ center g = vdiv (fold_left vadd ps vzero) (length ps)).
Proof.
  intros H.
  destruct (exportGeometries_spec _ _ _ H)
    as (st & HI & Hcen & _ & _ & HF & Hs & Hv & Hi & Hg & _).
  rewrite Hg. split; [exact HF|].
  intros g l0 r Hin Hl.
  rewrite Forall_forall in Hcen. specialize (Hcen g Hin l0 r Hl).
  apply (@centerOk_ext (heap st) (heap st) (vertexBuffers st)
           (vertexBuffers st) (indexBuffers st)
           (map setIndexSize (indexBuffers st))) in Hcen.
  - rewrite Hs, Hv, Hi.
    destruct Hcen as (vb & ib & A & B & C & _ & D).
    exists vb, ib. split; [exact A|]. split; [exact B|]. split; [exact C|].
    intros Hp Hn. destruct (D Hp Hn) as [ps [Hps Hc]].
    assert (Hlen : length ps = countIndex l0).
    { rewrite <- (length_map (@Some Vector3)), <- Hps, length_map,
        length_firstn, length_skipn. lia. }
    exists ps. rewrite Hlen. auto.
  - apply listExt_refl, sameVertex_refl.
  - apply listExt_refl, vbExt_refl.
  - apply setIndexSize_ext.
Qed.

Lemma geometry_center_mean_witness :
  exists um,
    exportGeometries two_triangles default_options [] = Ok um
    /\ Forall2 geometryRel (td_geometriesList two_triangles)
               (um_geometries um)
    /\ forall g l0 r,
         In g (um_geometries um) -> lodLevels g = l0 :: r ->
         exists vb ib,
           nth_error (um_vertexBuffers um) (lodVertexBuffer l0) = Some vb
           /\ nth_error (um_indexBuffers um) (lodIndexBuffer l0) = Some ib
           /\ (startIndex l0 + countIndex l0 <= length (indexes ib))%nat
           /\ (has_position vb -> countIndex l0 <> 0%nat ->
               exists ps,
                 map (positionAt (um_store um) vb)
                     (firstn (countIndex l0)
                             (skipn (startIndex l0) (indexes ib)))
                 = map Some ps
                 /\ length ps = countIndex l0
                 /\ center g = vdiv (fold_left vadd ps vzero) (length ps)).
Proof.
  eexists. split; [vm_compute; reflexivity|].
  apply (@geometry_center_mean two_triangles default_options []).
  vm_compute. reflexivity.
Defined.

(** C9 as stated fails.  For two triangles sharing an edge the center is
    (5/6, 5/6, 0), the mean of the six corners, and not (1, 1, 0), the
    centroid of the four vertex positions of the LOD. *)
Lemma shared_edge_center_not_centroid :
  exists um g vb ps,
    exportGeometries two_triangles default_options [] = Ok um
    /\ um_geometries um = [g]
    /\ um_vertexBuffers um = [vb]
    /\ has_position vb
    /\ map (positionAt (um_store um) vb) (seq 0 (length (vertices vb)))
       = map Some ps
    /\ vEq (center g) (mkVector3 (5 # 6) (5 # 6) 0)
    /\ vEq (centroid ps) (mkVector3 1 1 0)
    /\ ~ vEq (center g) (centroid ps).
Proof.
  eexists. eexists. eexists.
  exists [mkVector3 0 0 0; mkVector3 1 0 0; mkVector3 0 1 0; mkVector3 3 3 0].
  split; [vm_compute; reflexivity|].
  split; [reflexivity|]. split; [reflexivity|].
  split; [exists 1%Z; split; reflexivity|].
  split; [reflexivity|].
  split; [repeat split|]. split; [repeat split|].
  intros [Hx _]. vm_compute in Hx. discriminate.
Qed.

(* ------------------------------------------------------------------ *)
(** ** Bone remap *)

Lemma remapWeights_bound (ws : list (nat * Q)) :
  forall bm i,
    (length bm <= MAX_SKIN_MATRICES)%nat ->
    (length (fst (fst (remapWeights bm i ws))) <= MAX_SKIN_MATRICES)%nat.
Proof.
  induction ws as [|[b w] r IH]; intros bm i Hb; simpl; [exact Hb|].
  destruct (list_index bm b) as [n|].
  - specialize (IH bm (S i) Hb).
    now destruct (remapWeights bm (S i) r) as [[bm2 ts] l].
  - destruct (Nat.ltb_spec (length bm) MAX_SKIN_MATRICES) as [Hlt|Hge].
    + assert (Hb' : (length (bm ++ [b]) <= MAX_SKIN_MATRICES)%nat)
        by (rewrite length_app; simpl; lia).
      specialize (IH (bm ++ [b]) (S i) Hb').
      now destruct (remapWeights (bm ++ [b]) (S i) r) as [[bm2 ts] l].
    + specialize (IH bm (S i) Hb).
      now destruct (remapWeights bm (S i) r) as [[bm2 ts] l].
Qed.

(** C6 fails on the code.  The remap of lines 1070-1088 runs once per LOD
    over every vertex of the buffer, so weights that were already rewritten
    to local indices are looked up again as if they were global ones.  With
    one LOD the vertex bound to bone 64 gets the bone map [64; 0] and local
    index 0 for bone 64.  With two LODs the second pass turns the local
    indices 0 and 1 into the map entries 0 and 1: the bone map ends as
    [64; 0; 1], whose entry 1 is no bone of the vertex, and the vertex is
    bound to local index 1, that is to bone 0. *)
Theorem bone_remap_runs_per_lod :
  (exists um g v,
     exportGeometries (skinned [skinned_lod 0]) default_options [] = Ok um
     /\ um_geometries um = [g] /\ nth_error (um_store um) 0 = Some v
     /\ boneMap g = [64; 0]%nat
     /\ map fst (weights v) = [0; 1; 1; 1]%nat)
  /\ (exists um g v,
        exportGeometries (skinned [skinned_lod 0; skinned_lod 10])
                         default_options [] = Ok um
        /\ um_geometries um = [g] /\ nth_error (um_store um) 0 = Some v
        /\ boneMap g = [64; 0; 1]%nat
        /\ map fst (weights v) = [1; 2; 2; 2]%nat
        /\ Forall2 Qeq (map snd (weights v)) [1; 0; 0; 0]).
Proof.
  split.
  - eexists. eexists. eexists. split; [vm_compute; reflexivity|].
    repeat split.
  - eexists. eexists. eexists. split; [vm_compute; reflexivity|].
    split; [reflexivity|]. split; [reflexivity|]. split; [reflexivity|].
    split; [reflexivity|]. repeat constructor.
Qed.

(* ------------------------------------------------------------------ *)
(** ** Index size *)

(** [processLod] from the results of its stages. *)
Lemma processLod_run (env : Env) (gi : nat) (st stB st1 st3 st4 : State)
    (g : UrhoGeometry) (c c3 : Vector3) (i start cc : nat) (tl : TLodLevel)
    (im : list (nat * nat)) (w : bool) (bm : list nat) :
  openBuffers env i
    (if (i =? 0)%nat && negb (Qeq_bool (tl_distance tl) 0)
     then add_log (ErrorFirstLodDistance gi (tl_distance tl)) st else st)
  = (stB, start) ->
  foldM (addVertex (verticesList env) ((i =? 0)%nat || strictLods env) i)
        (indexSet tl) (stB, [], false) = Ok (st1, im, w) ->
  foldM (addIndex i im) (corners (triangleList tl))
        (set_modelIndexMap
           (recordIndexMap (length (vertexBuffers stB) - 1) im
              (modelIndexMap
                 (if w then add_log (WarningNewVertices i gi) st1 else st1)))
           (if w then add_log (WarningNewVertices i gi) st1 else st1),
         0%nat, c)
  = Ok (st3, cc, c3) ->
  remapBones (bonesCount env) st3 (boneMap g) = Ok (st4, bm) ->
  processLod env gi (st, g, c) (i, tl)
  = Ok (st4,
        {| boneMap := bm;
           lodLevels :=
             lodLevels g
             ++ [{| distance := tl_distance tl;
                    primitiveType := TRIANGLE_LIST;
                    lodVertexBuffer := (length (vertexBuffers stB) - 1)%nat;
                    lodIndexBuffer := (length (indexBuffers stB) - 1)%nat;
                    startIndex := start;
                    countIndex := (length (triangleList tl) * 3)%nat |}];
           center := if (i =? 0)%nat && negb (cc =? 0)%nat
                     then vdiv c3 cc else center g |},
        c3).
Proof.
  intros Ho Hv Ht Hr. unfold processLod. cbv zeta. rewrite Ho.
  cbv beta iota. rewrite Hv. cbv beta iota delta [bind lodVertexBuffer].
  rewrite Ht. cbv beta iota. rewrite Hr. reflexivity.
Qed.

(** The triangle loop over [n] copies of the triangle (0, 1, 2), from any
    index buffer, for a first LOD whose three vertices have positions. *)
Lemma many_triangles_indexes (st0 : State) (vb : UrhoVertexBuffer)
    (im : list (nat * nat)) (p0 p1 p2 : Vector3) (m : Z) :
  vertexBuffer st0 = Some vb ->
  elementMask vb = Some m ->
  truthyZ (Z.land m ELEMENT_POSITION) = true ->
  dict_get Nat.eqb im 0%nat = Some 0%nat ->
  dict_get Nat.eqb im 1%nat = Some 1%nat ->
  dict_get Nat.eqb im 2%nat = Some 2%nat ->
  positionAt (heap st0) vb 0 = Some p0 ->
  positionAt (heap st0) vb 1 = Some p1 ->
  positionAt (heap st0) vb 2 = Some p2 ->
  forall (n : nat) (ib : UrhoIndexBuffer) (cc : nat) (c : Vector3),
  exists ib' cc' c',
    foldM (addIndex 0 im) (corners (repeat (0, 1, 2)%nat n))
          (set_indexBuffer ib st0, cc, c)
    = Ok (set_indexBuffer ib' st0, cc', c')
    /\ length (indexes ib') = (length (indexes ib) + 3 * n)%nat.
Proof.
  intros Hvb Hm Ht H0 H1 H2 P0 P1 P2.
  assert (Hstep : forall t p ib cc c,
             dict_get Nat.eqb im t = Some t ->
             positionAt (heap st0) vb t = Some p ->
             addIndex 0 im (set_indexBuffer ib st0, cc, c) t
             = Ok (set_indexBuffer (append_index ib t) st0, S cc, vadd c p)).
  { intros t p ib cc c Hd Hp. unfold addIndex. rewrite Hd. simpl.
    rewrite Hvb. simpl. rewrite Hm. simpl. rewrite Ht.
    unfold positionAt in Hp. unfold vertexAt, getitem.
    destruct (nth_error (vertices vb) t) as [id|]; [|discriminate]. simpl.
    destruct (nth_error (heap st0) id) as [v|]; [|discriminate]. simpl.
    rewrite Hp. reflexivity. }
  induction n as [|n IH]; intros ib cc c.
  - exists ib, cc, c. split; [reflexivity|]. lia.
  - change (corners (repeat (0, 1, 2)%nat (S n)))
      with (0 :: 1 :: 2 :: corners (repeat (0, 1, 2)%nat n))%nat.
    rewrite foldM_cons, (Hstep _ _ _ _ _ H0 P0). cbv beta iota delta [bind].
    rewrite foldM_cons, (Hstep _ _ _ _ _ H1 P1). cbv beta iota delta [bind].
    rewrite foldM_cons, (Hstep _ _ _ _ _ H2 P2). cbv beta iota delta [bind].
    destruct (IH (append_index (append_index (append_index ib 0) 1) 2)
                 (S (S (S cc))) (vadd (vadd (vadd c p0) p1) p2))
      as (ib' & cc' & c' & Hrun & Hlen).
    exists ib', cc', c'. split; [exact Hrun|].
    rewrite Hlen. simpl. rewrite !length_app. simpl. lia.
Qed.

Lemma set_indexBuffer_same (st : State) (ib : UrhoIndexBuffer) :
  indexBuffer st = Some ib -> set_indexBuffer ib st = st.
Proof. destruct st. simpl. intros ->. reflexivity. Qed.

(** The export of [many_triangles n] returns: one vertex buffer of three
    vertices, one index buffer of [3 * n] indices. *)
Lemma many_triangles_export (n : nat) :
  exists um vb ib,
    exportGeometries (many_triangles n) default_options [] = Ok um
    /\ um_vertexBuffers um = [vb]
    /\ um_indexBuffers um = [setIndexSize ib]
    /\ length (vertices vb) = 3%nat
    /\ Z.of_nat (length (indexes ib)) = (3 * Z.of_nat n)%Z.
Proof.
  pose (env := mkEnv [corner 0 0; corner 1 0; corner 0 1] 0 true true).
  pose (tl := mkTLodLevel 0 [0; 1; 2]%nat (repeat (0, 1, 2)%nat n)).
  pose (stB := newIndexBuffer (newVertexBuffer (initialState []))).
  (* the vertex loop, evaluated *)
  let r := eval vm_compute in
            (foldM (addVertex (verticesList env) true 0) [0; 1; 2]%nat
                   (stB, [], false)) in
  assert (Ev : foldM (addVertex (verticesList env) true 0) [0; 1; 2]%nat
                     (stB, [], false) = r) by (vm_compute; reflexivity).
  match type of Ev with
  | _ = Ok (?s, ?m, _) => set (st1 := s) in *; set (im := m) in *
  end.
  set (st2 := set_modelIndexMap (recordIndexMap 0 im (modelIndexMap st1)) st1).
  (* the triangle loop *)
  destruct (@many_triangles_indexes st2
              (mkUrhoVertexBuffer (Some 1%Z) None None [0; 1; 2]%nat) im
              (mkVector3 0 0 0) (mkVector3 1 0 0) (mkVector3 0 1 0) 1%Z
              eq_refl eq_refl eq_refl eq_refl eq_refl eq_refl
              eq_refl eq_refl eq_refl n UrhoIndexBuffer_new 0%nat vzero)
    as (ib' & cc & c3 & Hrun & Hlen).
  rewrite (@set_indexBuffer_same st2 UrhoIndexBuffer_new eq_refl) in Hrun.
  (* the LOD *)
  assert (Hlod : processLod env 0 (initialState [],
                                   mkUrhoGeometry [] [] vzero, vzero) (0%nat, tl)
                 = Ok (set_indexBuffer ib' st2,
                       {| boneMap := [];
                          lodLevels :=
                            [{| distance := 0;
                                primitiveType := TRIANGLE_LIST;
                                lodVertexBuffer := 0;
                                lodIndexBuffer := 0;
                                startIndex := 0;
                                countIndex := (length (triangleList tl) * 3) |}];
                          center := if negb (cc =? 0)%nat
                                    then vdiv c3 cc else vzero |},
                       c3)).
  { apply (@processLod_run env 0 (initialState []) stB st1
             (set_indexBuffer ib' st2) (set_indexBuffer ib' st2)
             (mkUrhoGeometry [] [] vzero) vzero c3 0 0 cc tl im false []).
    - reflexivity.
    - exact Ev.
    - exact Hrun.
    - reflexivity. }
  (* the geometry and the model *)
  exists {| um_store := heap st2;
            um_vertexBuffers :=
              [mkUrhoVertexBuffer (Some 1%Z) None None [0; 1; 2]%nat];
            um_indexBuffers := [setIndexSize ib'];
            um_geometries :=
              [{| boneMap := [];
                  lodLevels :=
                    [{| distance := 0;
                        primitiveType := TRIANGLE_LIST;
                        lodVertexBuffer := 0;
                        lodIndexBuffer := 0;
                        startIndex := 0;
                        countIndex := (length (triangleList tl) * 3) |}];
                  center := if negb (cc =? 0)%nat
                            then vdiv c3 cc else vzero |}];
            um_boundingBox := boundingBox st2;
            um_errorsIndices := [];
            um_log := [] |}.
  exists (mkUrhoVertexBuffer (Some 1%Z) None None [0; 1; 2]%nat), ib'.
  split.
  - unfold exportGeometries.
    change (exportEnv (many_triangles n) default_options) with env.
    change (td_geometriesList (many_triangles n)) with [mkTGeometry [tl]].
    rewrite foldM_cons. unfold processGeometry at 1.
    change (enumerate (tg_lodLevels (mkTGeometry [tl]))) with [(0%nat, tl)].
    rewrite foldM_cons.
    change (length (geometries (initialState []))) with 0%nat.
    rewrite Hlod. reflexivity.
  - split; [reflexivity|]. split; [reflexivity|]. split; [reflexivity|].
    rewrite Hlen. change (length (indexes UrhoIndexBuffer_new)) with 0%nat.
    lia.
Qed.

(** C4 fails on the code.  The index size is chosen by the number of
    indices of the index buffer (lines 1097-1102), not by the number of
    vertices of the vertex buffer: a mesh of three vertices drawn by 21846
    triangles has 65538 indices, all of them 0, 1 or 2, and gets 4-byte
    indices. *)
Theorem index_size_by_index_count :
  exists um vb ib,
    exportGeometries (many_triangles 21846) default_options [] = Ok um
    /\ um_vertexBuffers um = [vb]
    /\ um_indexBuffers um = [ib]
    /\ (Z.of_nat (length (vertices vb)) <= 65535)%Z
    /\ indexSize ib = 4%nat.
Proof.
  destruct (many_triangles_export 21846) as (um & vb & ib & H & Hv & Hi & Hlv
                                             & Hli).
  exists um, vb, (setIndexSize ib).
  split; [exact H|]. split; [exact Hv|]. split; [exact Hi|].
  split; [rewrite Hlv; simpl; lia|].
  assert (Hn : Z.of_nat 21846 = 21846%Z) by (vm_compute; reflexivity).
  assert (Hlt : (65535 <? Z.of_nat (length (indexes ib)))%Z = true).
  { apply Z.ltb_lt. rewrite Hli, Hn. reflexivity. }
  unfold setIndexSize. simpl. now rewrite Hlt.
Qed.

(* ------------------------------------------------------------------ *)
(** ** Float lists *)

Lemma Qltb_compat (a a' b b' : Q) :
  a == a' -> b == b' -> Qltb a b = Qltb a' b'.
Proof.
  intros Ha Hb. unfold Qltb. f_equal. now rewrite Ha, Hb.
Qed.

Lemma almost_sym (a b : Q) :
  negb (Qltb EPSILON (Qabs (a - b))) = negb (Qltb EPSILON (Qabs (b - a))).
Proof.
  now rewrite Qabs_Qminus.
Qed.

Lemma almost_refl (a : Q) : negb (Qltb EPSILON (Qabs (a - a))) = true.
Proof.
  apply negb_true_iff, Qltb_ge.
  assert (H : Qabs (a - a) == 0).
  { assert (E : a - a == 0) by ring. rewrite E. reflexivity. }
  rewrite H. unfold EPSILON. discriminate.
Qed.

Lemma forallb_almost_sym (l1 : list Q) :
  forall l2,
    forallb (fun p => negb (Qltb EPSILON (Qabs (fst p - snd p))))
            (combine l1 l2)
    = forallb (fun p => negb (Qltb EPSILON (Qabs (fst p - snd p))))
              (combine l2 l1).
Proof.
  induction l1 as [|a l1 IH]; intros [|b l2];
    cbn [combine forallb fst snd]; try reflexivity.
  rewrite almost_sym. f_equal. apply IH.
Qed.

Lemma FloatListAlmostEqual_sym (v1 v2 : option (list Q)) :
  FloatListAlmostEqual v1 v2 = FloatListAlmostEqual v2 v1.
Proof.
  destruct v1 as [l1|], v2 as [l2|]; simpl; try reflexivity.
  apply forallb_almost_sym.
Qed.

Lemma forallb_almost_prefix (l r : list Q) :
  forallb (fun p => negb (Qltb EPSILON (Qabs (fst p - snd p))))
          (combine l (l ++ r)) = true.
Proof.
  induction l as [|a l IH]; cbn [combine forallb fst snd app];
    [reflexivity|].
  rewrite almost_refl. exact IH.
Qed.

Lemma FloatListAlmostEqual_refl (v : option (list Q)) :
  FloatListAlmostEqual v v = true.
Proof.
  destruct v as [l|]; simpl; [|reflexivity].
  rewrite <- (app_nil_r l) at 2. apply forallb_almost_prefix.
Qed.

Lemma combine_firstn_min {A B : Type} (l1 : list A) :
  forall (l2 : list B),
    combine (firstn (Nat.min (length l1) (length l2)) l1)
            (firstn (Nat.min (length l1) (length l2)) l2)
    = combine l1 l2.
Proof.
  induction l1 as [|a l1 IH]; intros [|b l2]; simpl; try reflexivity.
  f_equal. apply IH.
Qed.

(** X1.  [FloatListAlmostEqual] does not depend on the order of its
    arguments, and on two lists it looks at their common prefix only (the
    [zip] stops at the shorter one): the lists compare like their
    truncations to the shorter length, so a list almost equals each of its
    extensions and the empty list almost equals every list. *)
Theorem float_lists_compared_on_common_prefix
    (v1 v2 : option (list Q)) (l1 l2 r : list Q) :
  FloatListAlmostEqual v1 v2 = FloatListAlmostEqual v2 v1
  /\ FloatListAlmostEqual (Some l1) (Some l2)
     = FloatListAlmostEqual
         (Some (firstn (Nat.min (length l1) (length l2)) l1))
         (Some (firstn (Nat.min (length l1) (length l2)) l2))
  /\ FloatListAlmostEqual (Some l1) (Some (l1 ++ r)) = true
  /\ FloatListAlmostEqual (Some []) (Some r) = true.
Proof.
  split; [apply FloatListAlmostEqual_sym|].
  split; [simpl; now rewrite combine_firstn_min|].
  split; [apply forallb_almost_prefix|reflexivity].
Qed.

(* ------------------------------------------------------------------ *)
(** ** Error between float lists *)

Lemma fold_left_Qplus_acc (l : list Q) :
  forall a, fold_left Qplus l a == a + fold_left Qplus l 0.
Proof.
  induction l as [|x l IH]; intros a; simpl.
  - ring.
  - rewrite IH, (IH (0 + x)). ring.
Qed.

Lemma pysum_cons (x : Q) (l : list Q) : pysum (x :: l) == x + pysum l.
Proof.
  unfold pysum. simpl. rewrite fold_left_Qplus_acc. ring.
Qed.

Lemma equal_error_bounds (l1 : list Q) :
  forall l2,
    let e := pysum (map (fun p => Qabs (fst p - snd p)) (combine l1 l2)) in
    0 <= e
    /\ (e <= EPSILON -> FloatListAlmostEqual (Some l1) (Some l2) = true)
    /\ (FloatListAlmostEqual (Some l1) (Some l2) = true ->
        e <= inject_Z (Z.of_nat (Nat.min (length l1) (length l2))) * EPSILON).
Proof.
  induction l1 as [|a l1 IH]; intros [|b l2]; cbv zeta;
    try (simpl; unfold pysum; simpl; split; [apply Qle_refl|];
         split; [reflexivity|intros _; unfold EPSILON; discriminate]).
  specialize (IH l2). cbv zeta in IH. destruct IH as (H0 & Hle & Hge).
  change (combine (a :: l1) (b :: l2)) with ((a, b) :: combine l1 l2).
  change (map (fun p : Q * Q => Qabs (fst p - snd p))
              ((a, b) :: combine l1 l2))
    with (Qabs (a - b)
          :: map (fun p : Q * Q => Qabs (fst p - snd p)) (combine l1 l2)).
  rewrite pysum_cons.
  set (rest := pysum (map (fun p : Q * Q => Qabs (fst p - snd p))
                          (combine l1 l2))) in *.
  pose proof (Qabs_nonneg (a - b)) as Hab.
  split; [lra|]. split.
  - intros He.
    change (FloatListAlmostEqual (Some (a :: l1)) (Some (b :: l2)))
      with (negb (Qltb EPSILON (Qabs (a - b)))
            && FloatListAlmostEqual (Some l1) (Some l2)).
    apply andb_true_iff. split.
    + apply negb_true_iff, Qltb_ge. lra.
    + apply Hle. lra.
  - change (FloatListAlmostEqual (Some (a :: l1)) (Some (b :: l2)))
      with (negb (Qltb EPSILON (Qabs (a - b)))
            && FloatListAlmostEqual (Some l1) (Some l2)).
    intros H. apply andb_true_iff in H. destruct H as [H1 H2].
    apply negb_true_iff, Qltb_ge in H1. specialize (Hge H2).
    change (Nat.min (length (a :: l1)) (length (b :: l2)))
      with (S (Nat.min (length l1) (length l2))).
    rewrite Nat2Z.inj_succ. unfold Z.succ. rewrite inject_Z_plus.
    change (inject_Z 1) with 1. 
    set (n := inject_Z (Z.of_nat (Nat.min (length l1) (length l2)))) in *.
    lra.
Qed.

(** X2.  The error [FloatListEqualError] between two lists that are both
    present is a finite, non-negative number.  When it is at most epsilon
    the lists are almost equal; when the lists are almost equal it is at
    most epsilon times the length of the shorter list. *)
Theorem equal_error_and_almost_equal (l1 l2 : list Q) :
  exists e,
    FloatListEqualError (Some l1) (Some l2) = Fin e
    /\ 0 <= e
    /\ (e <= EPSILON -> FloatListAlmostEqual (Some l1) (Some l2) = true)
    /\ (FloatListAlmostEqual (Some l1) (Some l2) = true ->
        e <= inject_Z (Z.of_nat (Nat.min (length l1) (length l2))) * EPSILON).
Proof.
  eexists. split; [reflexivity|]. apply equal_error_bounds.
Qed.

(* ------------------------------------------------------------------ *)
(** ** Vertices that count as equal *)


Lemma option_list_eqb_refl (a : option (list Z)) : option_list_eqb a a = true.
Proof.
  destruct a as [x|]; simpl; [|reflexivity].
  destruct (list_eq_dec Z.eq_dec x x); congruence.
Qed.


Lemma AlmostEqual_channels (a b : UrhoVertex) :
  pos b = pos a -> normal b = normal a -> color b = color a ->
  uv b = uv a -> uv2 b = uv2 a -> AlmostEqual a b = true.
Proof.
  intros H1 H2 H3 H4 H5. unfold AlmostEqual. rewrite H1, H2, H3, H4, H5.
  now rewrite !FloatListAlmostEqual_refl, option_list_eqb_refl.
Qed.


(* ------------------------------------------------------------------ *)
(** ** Bounding boxes *)

Lemma Qmin'_spec (a b : Q) :
  Qmin' a b <= a /\ Qmin' a b <= b /\ (Qmin' a b = a \/ Qmin' a b = b).
Proof.
  unfold Qmin'. destruct (Qltb a b) eqn:E.
  - apply Qltb_lt in E. repeat split; [lra|lra|now left].
  - apply Qltb_ge in E. repeat split; [lra|lra|now right].
Qed.

Lemma Qmax'_spec (a b : Q) :
  a <= Qmax' a b /\ b <= Qmax' a b /\ (Qmax' a b = a \/ Qmax' a b = b).
Proof.
  unfold Qmax'. destruct (Qltb b a) eqn:E.
  - apply Qltb_lt in E. repeat split; [lra|lra|now left].
  - apply Qltb_ge in E. repeat split; [lra|lra|now right].
Qed.

Lemma inside_first (p : Vector3) :
  inside {| bbmin := Some p; bbmax := Some p |} p.
Proof.
  exists p, p. repeat split; apply Qle_refl.
Qed.

(** Merging a point into a box with both corners: the point is inside
    afterwards, what was inside stays inside, and every bound is an old
    bound or a coordinate of the point. *)
Lemma merge_corners (bb : BoundingBox) (mn mx p : Vector3) :
  bbmin bb = Some mn -> bbmax bb = Some mx ->
  exists bb' mn' mx',
    merge bb (Some p) = Ok bb'
    /\ bbmin bb' = Some mn' /\ bbmax bb' = Some mx'
    /\ inside bb' p
    /\ (forall q, inside bb q -> inside bb' q)
    /\ (vx mn' = vx mn \/ vx mn' = vx p) /\ (vx mx' = vx mx \/ vx mx' = vx p)
    /\ (vy mn' = vy mn \/ vy mn' = vy p) /\ (vy mx' = vy mx \/ vy mx' = vy p)
    /\ (vz mn' = vz mn \/ vz mn' = vz p) /\ (vz mx' = vz mx \/ vz mx' = vz p).
Proof.
  intros Hmn Hmx. unfold merge. rewrite Hmn, Hmx.
  destruct (Qmin'_spec (vx p) (vx mn)) as (a1 & a2 & a3).
  destruct (Qmin'_spec (vy p) (vy mn)) as (b1 & b2 & b3).
  destruct (Qmin'_spec (vz p) (vz mn)) as (c1 & c2 & c3).
  destruct (Qmax'_spec (vx p) (vx mx)) as (d1 & d2 & d3).
  destruct (Qmax'_spec (vy p) (vy mx)) as (e1 & e2 & e3).
  destruct (Qmax'_spec (vz p) (vz mx)) as (f1 & f2 & f3).
  eexists _, _, _. split; [reflexivity|]. split; [reflexivity|].
  split; [reflexivity|]. split.
  { eexists _, _. split; [reflexivity|]. split; [reflexivity|]. simpl.
    repeat split; assumption. }
  split.
  { intros q (qn & qx & Hqn & Hqx & H). rewrite Hmn in Hqn.
    rewrite Hmx in Hqx. injection Hqn as <-. injection Hqx as <-.
    eexists _, _. split; [reflexivity|]. split; [reflexivity|]. simpl.
    destruct H as (h1 & h2 & h3 & h4 & h5 & h6).
    repeat split; lra. }
  simpl. repeat split; tauto.
Qed.

Lemma tight_first (p : Vector3) :
  tight {| bbmin := Some p; bbmax := Some p |} [p].
Proof.
  exists p, p. simpl. repeat split; now left.
Qed.

Lemma In_map_app_or {A B : Type} (f : A -> B) (l : list A) (a : A) (x y : B) :
  In y (map f l) -> x = y \/ x = f a -> In x (map f (l ++ [a])).
Proof.
  intros Hy [->| ->]; rewrite map_app; apply in_or_app.
  - now left.
  - right. now left.
Qed.

Lemma mergePoints_grows (ps : list Vector3) :
  forall (qs : list Vector3) (bb : BoundingBox),
    (forall q, In q qs -> inside bb q) -> tight bb qs ->
    exists bb',
      mergePoints ps bb = Ok bb'
      /\ (forall q, In q (qs ++ ps) -> inside bb' q)
      /\ tight bb' (qs ++ ps).
Proof.
  induction ps as [|p ps IH]; intros qs bb Hin Ht.
  - exists bb. rewrite app_nil_r.
    split; [reflexivity|]. split; [exact Hin|exact Ht].
  - destruct Ht as (mn & mx & Hmn & Hmx & t1 & t2 & t3 & t4 & t5 & t6).
    destruct (@merge_corners bb mn mx p Hmn Hmx)
      as (bb1 & mn1 & mx1 & Hm & Hmn1 & Hmx1 & Hp & Hmono
          & a1 & a2 & a3 & a4 & a5 & a6).
    destruct (IH (qs ++ [p]) bb1) as (bb' & Hf & Hin' & Ht').
    + intros q Hq. apply in_app_or in Hq. destruct Hq as [Hq|[<-|[]]].
      * apply Hmono, Hin, Hq.
      * exact Hp.
    + exists mn1, mx1. split; [exact Hmn1|]. split; [exact Hmx1|].
      split; [exact (In_map_app_or vx qs p t1 a1)|].
      split; [exact (In_map_app_or vx qs p t2 a2)|].
      split; [exact (In_map_app_or vy qs p t3 a3)|].
      split; [exact (In_map_app_or vy qs p t4 a4)|].
      split; [exact (In_map_app_or vz qs p t5 a5)|].
      exact (In_map_app_or vz qs p t6 a6).
    + exists bb'. unfold mergePoints in *. cbn [foldM]. rewrite Hm.
      cbn [bind].
      rewrite <- app_assoc in Hin', Ht'.
      split; [exact Hf|]. split; [exact Hin'|exact Ht'].
Qed.

(** X4.  Merging the points of a non-empty list into an empty bounding box
    never fails and gives the smallest box that holds them: every point is
    inside it, and each of its six bounds is a coordinate of one of the
    points. *)
Theorem merged_box_is_tight (p : Vector3) (ps : list Vector3) :
  exists bb,
    mergePoints (p :: ps) (mkBoundingBox None None) = Ok bb
    /\ (forall q, In q (p :: ps) -> inside bb q)
    /\ tight bb (p :: ps).
Proof.
  destruct (@mergePoints_grows ps [p] {| bbmin := Some p; bbmax := Some p |})
    as (bb & Hf & Hin & Ht).
  - intros q [<-|[]]. apply inside_first.
  - apply tight_first.
  - exists bb. split; [exact Hf|]. split; [exact Hin|exact Ht].
Qed.

(* ------------------------------------------------------------------ *)
(** ** The morph range of a vertex buffer *)

Lemma morph_range_grows (vb : UrhoVertexBuffer) (ixs : list nat) :
  forall (seen : list nat) (mn mx : nat),
    In mn seen -> In mx seen ->
    (forall i, In i seen -> (mn <= i <= mx)%nat) ->
    exists mn' mx',
      foldM updateMorphRange ixs (set_morphRange vb (Some mn) (Some mx))
      = Ok (set_morphRange vb (Some mn') (Some mx'))
      /\ In mn' (seen ++ ixs) /\ In mx' (seen ++ ixs)
      /\ forall i, In i (seen ++ ixs) -> (mn' <= i <= mx')%nat.
Proof.
  induction ixs as [|x ixs IH]; intros seen mn mx Hmn Hmx Hall.
  - exists mn, mx. rewrite app_nil_r.
    split; [reflexivity|]. split; [exact Hmn|]. split; [exact Hmx|exact Hall].
  - assert (Hle : (mn <= mx)%nat) by (apply (Hall mn Hmn)).
    assert (Hstep : exists mn1 mx1,
               updateMorphRange (set_morphRange vb (Some mn) (Some mx)) x
               = Ok (set_morphRange vb (Some mn1) (Some mx1))
               /\ In mn1 (seen ++ [x]) /\ In mx1 (seen ++ [x])
               /\ forall i, In i (seen ++ [x]) -> (mn1 <= i <= mx1)%nat).
    { unfold updateMorphRange. cbn [morphMinIndex morphMaxIndex set_morphRange].
      destruct (x <? mn)%nat eqn:E1.
      - apply Nat.ltb_lt in E1. exists x, mx. split; [reflexivity|].
        split; [apply in_or_app; right; now left|].
        split; [apply in_or_app; now left|].
        intros i Hi. apply in_app_or in Hi. destruct Hi as [Hi|[<-|[]]].
        + specialize (Hall i Hi). lia.
        + lia.
      - apply Nat.ltb_ge in E1. destruct (mx <? x)%nat eqn:E2.
        + apply Nat.ltb_lt in E2. exists mn, x. split; [reflexivity|].
          split; [apply in_or_app; now left|].
          split; [apply in_or_app; right; now left|].
          intros i Hi. apply in_app_or in Hi. destruct Hi as [Hi|[<-|[]]].
          * specialize (Hall i Hi). lia.
          * lia.
        + apply Nat.ltb_ge in E2. exists mn, mx. split; [reflexivity|].
          split; [apply in_or_app; now left|].
          split; [apply in_or_app; now left|].
          intros i Hi. apply in_app_or in Hi. destruct Hi as [Hi|[<-|[]]].
          * apply Hall, Hi.
          * lia. }
    destruct Hstep as (mn1 & mx1 & Hs & Hmn1 & Hmx1 & Hall1).
    destruct (IH (seen ++ [x]) mn1 mx1 Hmn1 Hmx1 Hall1)
      as (mn' & mx' & Hf & H1 & H2 & H3).
    exists mn', mx'. cbn [foldM]. rewrite Hs. cbn [bind].
    rewrite <- app_assoc in H1, H2, H3.
    split; [exact Hf|]. split; [exact H1|]. split; [exact H2|exact H3].
Qed.

(** X5.  For a buffer with no morph range yet, the updates for the morphed
    vertex indices [i0], [ixs] (in any order) never fail and leave the
    smallest of them in [morphMinIndex] and the largest in [morphMaxIndex];
    the mask and the vertices of the buffer are untouched. *)
Theorem morph_range_is_min_and_max
    (vb : UrhoVertexBuffer) (i0 : nat) (ixs : list nat) :
  exists mn mx,
    foldM updateMorphRange (i0 :: ixs) (set_morphRange vb None None)
    = Ok (set_morphRange vb (Some mn) (Some mx))
    /\ In mn (i0 :: ixs) /\ In mx (i0 :: ixs)
    /\ forall i, In i (i0 :: ixs) -> (mn <= i <= mx)%nat.
Proof.
  destruct (@morph_range_grows vb ixs [i0] i0 i0)
    as (mn & mx & Hf & H1 & H2 & H3).
  - now left.
  - now left.
  - intros i [<-|[]]. lia.
  - exists mn, mx.
    split; [|split; [exact H1|split; [exact H2|exact H3]]].
    cbn [foldM]. unfold updateMorphRange at 1.
    cbn [morphMinIndex set_morphRange bind]. exact Hf.
Qed.

(* ------------------------------------------------------------------ *)
(** ** Packed integers *)

Lemma byte_of_value (z : Z) : Z.of_N (Byte.to_N (byte_of z)) = (z mod 256)%Z.
Proof.
  unfold byte_of.
  assert (Hr : (0 <= z mod 256 < 256)%Z) by (apply Z.mod_pos_bound; lia).
  destruct (Byte.of_N (Z.to_N (z mod 256))) as [b|] eqn:E.
  - apply Byte.to_of_N in E. rewrite E. apply Z2N.id. lia.
  - apply Byte.of_N_None_iff in E. lia.
Qed.

Lemma writeUInt_packs (v : Z) : packs 4 v (writeUInt v).
Proof.
  unfold writeUInt, packs.
  destruct ((0 <=? v) && (v <? 2 ^ 32))%Z eqn:E.
  - apply andb_true_iff in E. destruct E as [E1 E2].
    apply Z.leb_le in E1. apply Z.ltb_lt in E2.
    split; [change (2 ^ (8 * Z.of_nat 4))%Z with (2 ^ 32)%Z; lia|].
    split; [reflexivity|].
    unfold le_value. cbn [fold_right]. rewrite !byte_of_value.
    change (2 ^ 8)%Z with 256%Z. change (2 ^ 16)%Z with (256 * 256)%Z.
    change (2 ^ 24)%Z with (256 * 256 * 256)%Z.
    change (2 ^ 32)%Z with 4294967296%Z in E2.
    rewrite <- !Z.div_div by lia.
    pose proof (Z.div_mod v 256 ltac:(lia)).
    pose proof (Z.div_mod (v / 256) 256 ltac:(lia)).
    pose proof (Z.div_mod (v / 256 / 256) 256 ltac:(lia)).
    assert ((v / 256 / 256 / 256) mod 256 = v / 256 / 256 / 256)%Z.
    { apply Z.mod_small. split.
      - repeat apply Z.div_pos; lia.
      - repeat (apply Z.div_lt_upper_bound; [lia|]). lia. }
    lia.
  - split; [reflexivity|].
    apply andb_false_iff in E. destruct E as [E|E].
    + apply Z.leb_gt in E. now left.
    + apply Z.ltb_ge in E. right.
      change (2 ^ (8 * Z.of_nat 4))%Z with (2 ^ 32)%Z. exact E.
Qed.

Lemma writeUShort_packs (v : Z) : packs 2 v (writeUShort v).
Proof.
  unfold writeUShort, packs.
  destruct ((0 <=? v) && (v <? 2 ^ 16))%Z eqn:E.
  - apply andb_true_iff in E. destruct E as [E1 E2].
    apply Z.leb_le in E1. apply Z.ltb_lt in E2.
    split; [change (2 ^ (8 * Z.of_nat 2))%Z with (2 ^ 16)%Z; lia|].
    split; [reflexivity|].
    unfold le_value. cbn [fold_right]. rewrite !byte_of_value.
    change (2 ^ 8)%Z with 256%Z. change (2 ^ 16)%Z with 65536%Z in E2.
    pose proof (Z.div_mod v 256 ltac:(lia)).
    assert ((v / 256) mod 256 = v / 256)%Z.
    { apply Z.mod_small. split.
      - apply Z.div_pos; lia.
      - apply Z.div_lt_upper_bound; lia. }
    lia.
  - split; [reflexivity|].
    apply andb_false_iff in E. destruct E as [E|E].
    + apply Z.leb_gt in E. now left.
    + apply Z.ltb_ge in E. right.
      change (2 ^ (8 * Z.of_nat 2))%Z with (2 ^ 16)%Z. exact E.
Qed.

Lemma writeUByte_packs (v : Z) : packs 1 v (writeUByte v).
Proof.
  unfold writeUByte, packs.
  destruct ((0 <=? v) && (v <? 2 ^ 8))%Z eqn:E.
  - apply andb_true_iff in E. destruct E as [E1 E2].
    apply Z.leb_le in E1. apply Z.ltb_lt in E2.
    split; [change (2 ^ (8 * Z.of_nat 1))%Z with (2 ^ 8)%Z; lia|].
    split; [reflexivity|].
    unfold le_value. cbn [fold_right]. rewrite !byte_of_value.
    change (2 ^ 8)%Z with 256%Z in E2.
    rewrite Z.mod_small by lia. lia.
  - split; [reflexivity|].
    apply andb_false_iff in E. destruct E as [E|E].
    + apply Z.leb_gt in E. now left.
    + apply Z.ltb_ge in E. right.
      change (2 ^ (8 * Z.of_nat 1))%Z with (2 ^ 8)%Z. exact E.
Qed.

(** X6.  [writeUInt], [writeUShort] and [writeUByte] pack exactly the
    unsigned numbers of 32, 16 and 8 bits: for such a number they give 4, 2
    and 1 bytes whose little-endian value is the number, and for every other
    number they raise [struct.error]. *)
Theorem integer_writers_round_trip (v : Z) :
  packs 4 v (writeUInt v) /\ packs 2 v (writeUShort v)
  /\ packs 1 v (writeUByte v).
Proof.
  split; [apply writeUInt_packs|].
  split; [apply writeUShort_packs|apply writeUByte_packs].
Qed.

(* ------------------------------------------------------------------ *)
(** ** The morph range that is written *)

(** C10.  For a buffer with morph range [mn], [mx], the writer gives four
    bytes for the range start, whose little-endian value is [mn], and four
    bytes for the count, whose value is 0 when [mx] is 0 and [mx - mn + 1]
    otherwise; it raises [struct.error] exactly when one of the two numbers
    is not an unsigned number of 32 bits.  So a buffer whose morphs touch
    vertex 0 only gets the range [0,0] and is written with start 0 and
    count 0, the same bytes as a buffer no morph touches. *)
Theorem morph_range_count_written
    (buffer fresh : UrhoVertexBuffer) (mn mx n : nat) :
  morphMinIndex buffer = Some mn ->
  morphMaxIndex buffer = Some mx ->
  morphMinIndex fresh = None ->
  match writeMorphRange buffer with
  | Ok (start, count) =>
      length start = 4%nat /\ le_value start = Z.of_nat mn
      /\ length count = 4%nat
      /\ le_value count
         = (if (mx =? 0)%nat then 0 else Z.of_nat mx - Z.of_nat mn + 1)%Z
  | Raise e =>
      e = StructError
      /\ (2 ^ 32 <= Z.of_nat mn
          \/ ((mx =? 0)%nat = false
              /\ (Z.of_nat mx - Z.of_nat mn + 1 < 0
                  \/ 2 ^ 32 <= Z.of_nat mx - Z.of_nat mn + 1)))%Z
  end
  /\ exists touched,
       foldM updateMorphRange (repeat 0%nat (S n)) fresh = Ok touched
       /\ morphMinIndex touched = Some 0%nat
       /\ morphMaxIndex touched = Some 0%nat
       /\ writeMorphRange (defaultMorphRange touched)
          = Ok (zero_uint, zero_uint)
       /\ writeMorphRange (defaultMorphRange fresh)
          = Ok (zero_uint, zero_uint).
Proof.
  intros Hmin Hmax Hfresh. split.
  - unfold writeMorphRange, morphRangeCount. rewrite Hmin, Hmax.
    pose proof (writeUInt_packs (Z.of_nat mn)) as Hs. unfold packs in Hs.
    change (2 ^ (8 * Z.of_nat 4))%Z with (2 ^ 32)%Z in Hs.
    destruct (writeUInt (Z.of_nat mn)) as [start|e]; cbn [bind].
    2:{ destruct Hs as [-> Hs]. split; [reflexivity|]. left. lia. }
    destruct Hs as (_ & Hl & Hv).
    destruct mx as [|mx]; cbn [bind Nat.eqb].
    { split; [exact Hl|]. split; [exact Hv|]. split; reflexivity. }
    pose proof (writeUInt_packs (Z.of_nat (S mx) - Z.of_nat mn + 1)) as Hc.
    unfold packs in Hc.
    change (2 ^ (8 * Z.of_nat 4))%Z with (2 ^ 32)%Z in Hc.
    destruct (writeUInt (Z.of_nat (S mx) - Z.of_nat mn + 1)) as [count|e];
      cbn [bind].
    + destruct Hc as (_ & Hlc & Hvc). auto.
    + destruct Hc as [-> Hc]. split; [reflexivity|]. right. auto.
  - exists (set_morphRange fresh (Some 0%nat) (Some 0%nat)).
    split.
    { simpl. unfold updateMorphRange at 1. rewrite Hfresh. simpl.
      now apply updateMorphRange_zero. }
    split; [reflexivity|]. split; [reflexivity|].
    split; [reflexivity|].
    unfold defaultMorphRange. rewrite Hfresh. reflexivity.
Qed.

Lemma morph_range_count_written_witness :
  match writeMorphRange (buffer_with_range 2 4) with
  | Ok (start, count) =>
      length start = 4%nat /\ le_value start = 2%Z
      /\ length count = 4%nat /\ le_value count = (4 - 2 + 1)%Z
  | Raise e =>
      e = StructError
      /\ (2 ^ 32 <= 2
          \/ ((4 =? 0)%nat = false
              /\ (4 - 2 + 1 < 0 \/ 2 ^ 32 <= 4 - 2 + 1)))%Z
  end
  /\ exists touched,
       foldM updateMorphRange (repeat 0%nat 3) UrhoVertexBuffer_new
       = Ok touched
       /\ morphMinIndex touched = Some 0%nat
       /\ morphMaxIndex touched = Some 0%nat
       /\ writeMorphRange (defaultMorphRange touched)
          = Ok (zero_uint, zero_uint)
       /\ writeMorphRange (defaultMorphRange UrhoVertexBuffer_new)
          = Ok (zero_uint, zero_uint).
Proof.
  exact (@morph_range_count_written (buffer_with_range 2 4)
           UrhoVertexBuffer_new 2 4 2 eq_refl eq_refl eq_refl).
Defined.

(** The range [2,4] is written as start 2 and count 3. *)
Example morph_range_2_4_bytes :
  writeMorphRange (buffer_with_range 2 4)
  = Ok ([x02; x00; x00; x00], [x03; x00; x00; x00]).
Proof. reflexivity. Qed.

(* ------------------------------------------------------------------ *)
(** ** Dictionaries *)

Lemma dict_get_set_Z {V : Type} (d : list (Z * V)) (k k' : Z) (v : V) :
  dict_get Z.eqb (dict_set Z.eqb d k v) k'
  = if (k =? k')%Z then Some v else dict_get Z.eqb d k'.
Proof.
  induction d as [|[a b] r IH]; simpl.
  - reflexivity.
  - destruct (Z.eqb_spec a k) as [->|Hne]; simpl.
    + now destruct (k =? k')%Z.
    + rewrite IH. destruct (Z.eqb_spec a k') as [->|Hne'].
      * destruct (Z.eqb_spec k k') as [->|_]; [contradiction|reflexivity].
      * reflexivity.
Qed.

Lemma dict_get_set_nat {V : Type} (d : list (nat * V)) (k k' : nat) (v : V) :
  dict_get Nat.eqb (dict_set Nat.eqb d k v) k'
  = if (k =? k')%nat then Some v else dict_get Nat.eqb d k'.
Proof.
  induction d as [|[a b] r IH]; simpl.
  - reflexivity.
  - destruct (Nat.eqb_spec a k) as [->|Hne]; simpl.
    + now destruct (k =? k')%nat.
    + rewrite IH. destruct (Nat.eqb_spec a k') as [->|Hne'].
      * destruct (Nat.eqb_spec k k') as [->|_]; [contradiction|reflexivity].
      * reflexivity.
Qed.

(* ------------------------------------------------------------------ *)
(** ** Vertices whose weights were rewritten *)

Lemma sameVertex_hash (v v' : UrhoVertex) :
  sameVertex v v' -> UrhoVertex_hash v' = UrhoVertex_hash v.
Proof.
  intros (_ & A & _). unfold UrhoVertex_hash. now rewrite A.
Qed.

Lemma sameVertex_AlmostEqual (a a' b b' : UrhoVertex) :
  sameVertex a a' -> sameVertex b b' -> AlmostEqual a' b' = AlmostEqual a b.
Proof.
  intros (_ & A2 & A3 & A4 & A5 & A6 & _) (_ & B2 & B3 & B4 & B5 & B6 & _).
  unfold AlmostEqual. now rewrite A2, A3, A4, A5, A6, B2, B3, B4, B5, B6.
Qed.

Lemma sameVertex_pos (v v' : UrhoVertex) : sameVertex v v' -> pos v' = pos v.
Proof. now intros (_ & A & _). Qed.

Lemma vertexAt_fwd (h h' : list UrhoVertex) (vb : UrhoVertexBuffer) (i : nat)
    (v : UrhoVertex) :
  listExt sameVertex h h' -> vertexAt h vb i = Ok v ->
  exists v', vertexAt h' vb i = Ok v' /\ sameVertex v v'.
Proof.
  intros Hh H. unfold vertexAt, getitem in *.
  destruct (nth_error (vertices vb) i) as [id|]; simpl in *; [|discriminate].
  destruct (nth_error h id) as [w|] eqn:E; [|discriminate].
  injection H as <-. destruct (Hh _ _ E) as [v' [Hv' Hs]].
  exists v'. now rewrite Hv'.
Qed.

Lemma bufferOk_stored (h : list UrhoVertex) (lg : list LogRecord)
    (vb : UrhoVertexBuffer) : bufferOk h lg vb -> stored h vb.
Proof.
  intros [_ H] id Hid. destruct (H id Hid) as [v [m [Hv _]]]. now exists v.
Qed.

Lemma vertexAt_some (h : list UrhoVertex) (vb : UrhoVertexBuffer) (i : nat) :
  stored h vb -> (i < length (vertices vb))%nat ->
  exists v, vertexAt h vb i = Ok v.
Proof.
  intros Hs Hi. unfold vertexAt, getitem.
  destruct (nth_error (vertices vb) i) as [id|] eqn:E.
  - destruct (Hs id (nth_error_In _ _ E)) as [v Hv]. exists v. simpl.
    now rewrite Hv.
  - apply nth_error_None in E. lia.
Qed.

Lemma vertexAt_lt (h : list UrhoVertex) (vb : UrhoVertexBuffer) (i : nat)
    (v : UrhoVertex) :
  vertexAt h vb i = Ok v -> (i < length (vertices vb))%nat.
Proof.
  unfold vertexAt, getitem. intros H.
  destruct (nth_error (vertices vb) i) as [id|] eqn:E; simpl in H;
    [|discriminate].
  apply nth_error_Some. congruence.
Qed.

Lemma vertexAt_back (h h' : list UrhoVertex) (vb : UrhoVertexBuffer) (i : nat)
    (v' : UrhoVertex) :
  stored h vb -> listExt sameVertex h h' -> vertexAt h' vb i = Ok v' ->
  exists v, vertexAt h vb i = Ok v /\ sameVertex v v'.
Proof.
  intros Hs Hh H.
  destruct (@vertexAt_some h vb i Hs (@vertexAt_lt h' vb i v' H)) as [v Hv].
  destruct (@vertexAt_fwd h h' vb i v Hh Hv) as [w [Hw Hsame]].
  rewrite H in Hw. injection Hw as <-. now exists v.
Qed.

Lemma distinct_ext (h h' : list UrhoVertex) (vb : UrhoVertexBuffer) :
  stored h vb -> listExt sameVertex h h' ->
  distinctVertices h vb -> distinctVertices h' vb.
Proof.
  intros Hs Hh Hd i j vi vj Hij Hi Hj Hhash.
  destruct (@vertexAt_back h h' vb i vi Hs Hh Hi) as [wi [Hwi Si]].
  destruct (@vertexAt_back h h' vb j vj Hs Hh Hj) as [wj [Hwj Sj]].
  rewrite (@sameVertex_AlmostEqual wi vi wj vj Si Sj). apply (Hd i j); auto.
  rewrite <- (@sameVertex_hash wi vi Si), <- (@sameVertex_hash wj vj Sj).
  exact Hhash.
Qed.

Lemma boxHolds_ext (bb : BoundingBox) (h h' : list UrhoVertex)
    (vb : UrhoVertexBuffer) :
  listExt sameVertex h h' -> boxHolds bb h vb -> boxHolds bb h' vb.
Proof.
  intros Hh Hb Hp id Hid. destruct (Hb Hp id Hid) as [v [p [Hv [Hpos Hin]]]].
  destruct (Hh _ _ Hv) as [v' [Hv' Hs]]. exists v', p.
  rewrite (@sameVertex_pos v v' Hs). auto.
Qed.

Lemma bucketsOk_ext (h h' : list UrhoVertex) (m : list (Z * list nat))
    (vb : UrhoVertexBuffer) :
  stored h vb -> listExt sameVertex h h' ->
  bucketsOk h m vb -> bucketsOk h' m vb.
Proof.
  intros Hs Hh [K1 K2]. split; [exact K1|].
  intros ivl v' Hv'.
  destruct (@vertexAt_back h h' vb ivl v' Hs Hh Hv') as [v [Hv Hsame]].
  rewrite (@sameVertex_hash v v' Hsame). now apply K2.
Qed.

(* ------------------------------------------------------------------ *)
(** ** Steps that leave the vertices where they are *)

Lemma vertexAt_vertices (h : list UrhoVertex) (vb vb' : UrhoVertexBuffer)
    (i : nat) :
  vertices vb' = vertices vb -> vertexAt h vb' i = vertexAt h vb i.
Proof. intros H. unfold vertexAt. now rewrite H. Qed.

Lemma Inv_stored (st : State) (vb : UrhoVertexBuffer) :
  Inv st -> In vb (vertexBuffers st) -> stored (heap st) vb.
Proof.
  intros (_ & _ & _ & I4 & _) Hin.
  exact (@bufferOk_stored (heap st) (log st) vb (I4 vb Hin)).
Qed.

Lemma Inv_current (st : State) (vb : UrhoVertexBuffer) :
  vertexBuffer st = Some vb -> In vb (vertexBuffers st).
Proof.
  intros H. unfold vertexBuffers. rewrite H. apply in_or_app. right.
  now left.
Qed.

(** The buffers of the later state, place by place. *)
Lemma still_buffers (st st' : State) :
  still st st' ->
  forall k vb', nth_error (vertexBuffers st') k = Some vb' ->
    exists vb, nth_error (vertexBuffers st) k = Some vb
               /\ vertices vb' = vertices vb
               /\ maskNarrow (elementMask vb) (elementMask vb').
Proof.
  intros (_ & Hc & Hv & _) k vb' H. unfold vertexBuffers in *.
  rewrite Hc in H.
  destruct (Nat.lt_ge_cases k (length (closedVertexBuffers st))) as [Hk|Hk].
  - rewrite nth_error_app1 in * by exact Hk. exists vb'.
    split; [exact H|]. split; [reflexivity|].
    apply maskNarrow_refl.
  - rewrite nth_error_app2 in * by exact Hk.
    destruct (vertexBuffer st) as [b|], (vertexBuffer st') as [b'|];
      simpl in Hv; try contradiction.
    + destruct (k - length (closedVertexBuffers st))%nat as [|n]; simpl in *.
      * injection H as <-. exists b. tauto.
      * destruct n; discriminate.
    + simpl in H. destruct (k - length (closedVertexBuffers st))%nat;
        discriminate.
Qed.

Lemma Safe_still (s : bool) (st st' : State) :
  Inv st -> still st st' -> Safe s st -> Safe s st'.
Proof.
  intros HI Hst (B1 & B2 & X1 & K & D).
  pose proof (still_buffers Hst) as Hbuf.
  destruct Hst as (Hh & Hc & Hv & Hci & Hi & Hb & Hm).
  assert (Hin : forall vb', In vb' (vertexBuffers st') ->
            exists vb, In vb (vertexBuffers st)
                       /\ vertices vb' = vertices vb
                       /\ maskNarrow (elementMask vb) (elementMask vb')).
  { intros vb' H. apply In_nth_error in H. destruct H as [k Hk].
    destruct (Hbuf k vb' Hk) as [vb [A [B C]]]. exists vb.
    split; [eapply nth_error_In; exact A|auto]. }
  assert (Hib : indexBuffers st' = indexBuffers st).
  { unfold indexBuffers. now rewrite Hci, Hi. }
  unfold Safe. rewrite Hb, Hm, Hib.
  split; [exact B1|]. split.
  { intros vb' Hvb' Hp id Hid.
    destruct (Hin vb' Hvb') as [vb [A [Bv Cm]]].
    rewrite Bv in Hid.
    assert (Hok : bufferOk (heap st) (log st) vb).
    { destruct HI as (_ & _ & _ & I4 & _). now apply I4. }
    assert (Hpos : has_position vb).
    { destruct (elementMask vb) as [m|] eqn:Em.
      - apply (@has_position_narrow vb vb').
        + split; [exists []; now rewrite app_nil_r, Bv|].
          now rewrite Em.
        + congruence.
        + exact Hp.
      - destruct Hok as [Hnone _]. rewrite (Hnone Em) in Hid.
        destruct Hid. }
    apply (@boxHolds_ext (boundingBox st) (heap st) (heap st') vb Hh
             (B2 vb A) Hpos id Hid). }
  split.
  { intros k vb' ib Hk Hkb. destruct (Hbuf k vb' Hk) as [vb [A [Bv _]]].
    unfold placesOk. rewrite Bv. exact (X1 k vb ib A Hkb). }
  split.
  { intros vb' Hvb'. rewrite Hvb' in Hv.
    destruct (vertexBuffer st) as [vb|] eqn:Evb; simpl in Hv;
      [|contradiction].
    destruct Hv as [Bv _].
    assert (Hs : stored (heap st) vb)
      by (apply Inv_stored; [exact HI|now apply Inv_current]).
    destruct (@bucketsOk_ext (heap st) (heap st') (uVerticesMap st) vb Hs Hh
                (K vb eq_refl)) as [K1 K2].
    split.
    - intros k b ivl. rewrite Bv. apply K1.
    - intros ivl v. rewrite (@vertexAt_vertices (heap st') vb vb' ivl Bv).
      apply K2. }
  intros Hs vb' Hvb' i j vi vj.
  destruct (Hin vb' Hvb') as [vb [A [Bv _]]].
  rewrite !(@vertexAt_vertices (heap st') vb vb' _ Bv).
  apply (@distinct_ext (heap st) (heap st') vb).
  - now apply Inv_stored.
  - exact Hh.
  - now apply D.
Qed.

Lemma still_refl (st : State) : still st st.
Proof.
  unfold still. split; [apply listExt_refl, sameVertex_refl|].
  split; [reflexivity|]. split.
  { destruct (vertexBuffer st); simpl; [|exact I].
    split; [reflexivity|apply maskNarrow_refl]. }
  repeat split; reflexivity.
Qed.

(** A step that touches nothing [Safe] reads. *)
Lemma Safe_frame (s : bool) (st st' : State) :
  heap st' = heap st ->
  closedVertexBuffers st' = closedVertexBuffers st ->
  vertexBuffer st' = vertexBuffer st ->
  closedIndexBuffers st' = closedIndexBuffers st ->
  indexBuffer st' = indexBuffer st ->
  boundingBox st' = boundingBox st ->
  uVerticesMap st' = uVerticesMap st ->
  Safe s st -> Safe s st'.
Proof.
  intros H1 H2 H3 H4 H5 H6 H7.
  unfold Safe, vertexBuffers, indexBuffers.
  now rewrite H1, H2, H3, H4, H5, H6, H7.
Qed.

(* ------------------------------------------------------------------ *)
(** ** Creating a vertex fails only for a mask that differs *)

Lemma createVertex_still (tVertex : TVertex) (st : State)
    (vb : UrhoVertexBuffer) :
  vertexBuffer st = Some vb ->
  match createVertex tVertex st with
  | Ok st1 =>
      exists vb1,
        still st st1 /\ vertexBuffer st1 = Some vb1
        /\ elementMask vb1 = Some (sourceMask tVertex)
        /\ forall old, elementMask vb = Some old -> old = sourceMask tVertex
  | Raise e =>
      e = TypeError
      /\ exists old, elementMask vb = Some old /\ old <> sourceMask tVertex
  end.
Proof.
  intros Hvb. unfold createVertex, UrhoVertex_init. rewrite Hvb.
  cbn [deref bind].
  assert (Hh : forall v, listExt sameVertex (heap st) (heap st ++ [v]))
    by (intros; apply listExt_app, sameVertex_refl).
  destruct (elementMask vb) as [old|] eqn:Em.
  - destruct (Z.eqb_spec old (sourceMask tVertex)) as [Heq|Hne].
    + exists vb. split; [|split; [reflexivity|split; [congruence|]]].
      * unfold still. simpl. rewrite Hvb. simpl.
        split; [apply Hh|]. repeat split; try reflexivity.
        apply maskNarrow_refl.
      * intros o Ho. congruence.
    + split; [reflexivity|]. now exists old.
  - eexists. split; [|split; [reflexivity|split; [reflexivity|]]].
    + unfold still. simpl. rewrite Hvb. simpl.
      split; [apply Hh|]. repeat split; try reflexivity.
      rewrite Em. exact I.
    + intros o Ho. discriminate.
Qed.

(* ------------------------------------------------------------------ *)
(** ** Looking a vertex up never fails *)

Lemma searchAlmostEqual_total (h : list UrhoVertex) (vb : UrhoVertexBuffer)
    (u : UrhoVertex) (l : list nat) :
  (forall ivl, In ivl l -> exists v, vertexAt h vb ivl = Ok v) ->
  exists r,
    searchAlmostEqual h vb u l = Ok r
    /\ match r with
       | Some ix => In ix l
       | None => forall ivl v, In ivl l -> vertexAt h vb ivl = Ok v ->
                               AlmostEqual v u = false
       end.
Proof.
  induction l as [|a l IH]; intros Hl.
  - exists None. split; [reflexivity|]. intros ivl v [].
  - destruct (Hl a (or_introl eq_refl)) as [va Hva].
    cbn [searchAlmostEqual]. rewrite Hva. cbn [bind].
    destruct (AlmostEqual va u) eqn:E.
    + exists (Some a). split; [reflexivity|now left].
    + destruct IH as [r [Hr Hspec]].
      { intros ivl Hin. apply Hl. now right. }
      exists r. split; [exact Hr|]. destruct r as [ix|].
      * now right.
      * intros ivl v [<-|Hin] Hv.
        -- rewrite Hva in Hv. now injection Hv as <-.
        -- eapply Hspec; eassumption.
Qed.

Lemma searchLod_total (h : list UrhoVertex) (vb : UrhoVertexBuffer)
    (u : UrhoVertex) (l : list nat) :
  forall (best : XQ) (cur : option nat),
    (forall ivl, In ivl l -> exists v, vertexAt h vb ivl = Ok v) ->
    exists r,
      searchLod h vb u l best cur = Ok r
      /\ (r = cur \/ exists ix, r = Some ix /\ In ix l).
Proof.
  induction l as [|a l IH]; intros best cur Hl.
  - exists cur. split; [reflexivity|now left].
  - destruct (Hl a (or_introl eq_refl)) as [va Hva].
    cbn [searchLod]. rewrite Hva. cbn [bind].
    assert (Hl' : forall ivl, In ivl l -> exists v, vertexAt h vb ivl = Ok v)
      by (intros ivl Hin; apply Hl; now right).
    destruct (XQltb (LodError va u) best).
    + destruct (IH (LodError va u) (Some a) Hl') as [r [Hr [->|[ix [-> Hin]]]]].
      * exists (Some a). split; [exact Hr|]. right. exists a.
        split; [reflexivity|now left].
      * exists (Some ix). split; [exact Hr|]. right. exists ix.
        split; [reflexivity|now right].
    + destruct (IH best cur Hl') as [r [Hr [->|[ix [-> Hin]]]]].
      * exists cur. split; [exact Hr|now left].
      * exists (Some ix). split; [exact Hr|]. right. exists ix.
        split; [reflexivity|now right].
Qed.

Lemma resolveVertex_total (strict : bool) (i : nat) (h : list UrhoVertex)
    (vb : UrhoVertexBuffer) (uid : nat) (u : UrhoVertex) (bucket : list nat)
    (w : bool) :
  nth_error h uid = Some u ->
  (forall ivl, In ivl bucket -> exists v, vertexAt h vb ivl = Ok v) ->
  exists ix vb2 bucket2 w2,
    resolveVertex strict i h vb uid bucket w = Ok (ix, vb2, bucket2, w2)
    /\ resolved strict h vb uid u bucket ix vb2 bucket2.
Proof.
  intros Hu Hb. unfold resolveVertex, getitem. rewrite Hu. cbn [bind].
  destruct strict.
  - destruct (@searchAlmostEqual_total h vb u bucket Hb) as [r [Hr Hs]].
    rewrite Hr. cbn [bind]. destruct r as [ix|].
    + eexists _, _, _, _. split; [reflexivity|]. left. auto.
    + eexists _, _, _, _. split; [reflexivity|]. right.
      repeat split; auto.
  - destruct (@searchLod_total h vb u bucket INFINITY None Hb)
      as [r [Hr Hs]].
    rewrite Hr. cbn [bind]. destruct r as [ix|].
    + eexists _, _, _, _. split; [reflexivity|]. left.
      destruct Hs as [Hs|[ix' [Hs Hin]]]; [discriminate|].
      injection Hs as <-. auto.
    + eexists _, _, _, _. split; [reflexivity|]. right.
      repeat split; auto. discriminate.
Qed.

(* ------------------------------------------------------------------ *)
(** ** Placing a vertex *)

Lemma merge_total (bb : BoundingBox) (p : Vector3) :
  (bbmin bb = None <-> bbmax bb = None) ->
  exists bb',
    merge bb (Some p) = Ok bb'
    /\ (bbmin bb' = None <-> bbmax bb' = None)
    /\ inside bb' p
    /\ forall q, inside bb q -> inside bb' q.
Proof.
  intros B1. destruct (bbmin bb) as [mn|] eqn:Emn.
  - destruct (bbmax bb) as [mx|] eqn:Emx.
    + destruct (@merge_corners bb mn mx p Emn Emx)
        as (bb' & mn' & mx' & Hm & Hmn & Hmx & Hp & Hmono & _).
      exists bb'. split; [exact Hm|]. split; [|split; [exact Hp|exact Hmono]].
      rewrite Hmn, Hmx. split; discriminate.
    + destruct B1 as [_ B1]. specialize (B1 eq_refl). discriminate.
  - exists {| bbmin := Some p; bbmax := Some p |}. split.
    + unfold merge. now rewrite Emn.
    + split; [simpl; split; discriminate|]. split; [apply inside_first|].
      intros q (mn & mx & Hmn & _). rewrite Emn in Hmn. discriminate.
Qed.

Lemma vertexMask_even (v : UrhoVertex) :
  pos v = None -> Z.land (vertexMask v) ELEMENT_POSITION = 0%Z.
Proof.
  intros Hp. unfold vertexMask. rewrite Hp.
  destruct (truthy_opt (normal v)), (truthy_tuple (color v)),
    (truthy_tuple (uv v)), (truthy_tuple (uv2 v)), (truthy_opt (tangent v)),
    (has_weights v); reflexivity.
Qed.

Lemma subMask_pos (m : Z) (v : UrhoVertex) :
  subMask m (vertexMask v) ->
  truthyZ (Z.land m ELEMENT_POSITION) = true ->
  exists p, pos v = Some p.
Proof.
  intros Hs Ht. destruct (pos v) as [p|] eqn:Ep; [now exists p|].
  exfalso. unfold truthyZ in Ht. apply negb_true_iff, Z.eqb_neq in Ht.
  apply Ht. unfold subMask in Hs.
  rewrite <- Hs, <- Z.land_assoc, (@vertexMask_even v Ep).
  apply Z.land_0_r.
Qed.

Lemma withBucket_get (m : list (Z * list nat)) (k k' : Z) :
  dict_get Z.eqb (withBucket m k) k'
  = match dict_get Z.eqb m k' with
    | Some b => Some b
    | None => if (k =? k')%Z then Some [] else None
    end.
Proof.
  unfold withBucket. destruct (dict_get Z.eqb m k) as [b|] eqn:E.
  - destruct (dict_get Z.eqb m k') as [b'|] eqn:E'; [reflexivity|].
    destruct (Z.eqb_spec k k') as [->|_]; [congruence|reflexivity].
  - rewrite dict_get_set_Z. destruct (Z.eqb_spec k k') as [<-|_].
    + now rewrite E.
    + now destruct (dict_get Z.eqb m k').
Qed.

(** The map after line 978 and the appends of line 1002. *)
Lemma placed_get (m : list (Z * list nat)) (k k' : Z) (b2 : list nat) :
  dict_get Z.eqb (dict_set Z.eqb (withBucket m k) k b2) k'
  = if (k =? k')%Z then Some b2 else dict_get Z.eqb m k'.
Proof.
  rewrite dict_get_set_Z, withBucket_get.
  destruct (Z.eqb_spec k k') as [->|Hne]; [reflexivity|].
  now destruct (dict_get Z.eqb m k').
Qed.

Lemma bucketOf_get (m : list (Z * list nat)) (k : Z) (b : list nat) :
  dict_get Z.eqb m k = Some b -> bucketOf m k = b.
Proof. unfold bucketOf. now intros ->. Qed.

Lemma nth_error_snoc {A : Type} (c : list A) (a b : A) (k : nat) :
  nth_error (c ++ [a]) k = Some b ->
  ((k < length c)%nat /\ nth_error c k = Some b)
  \/ (k = length c /\ b = a).
Proof.
  intros H. destruct (Nat.lt_ge_cases k (length c)) as [Hk|Hk].
  - left. rewrite nth_error_app1 in H by exact Hk. auto.
  - right. rewrite nth_error_app2 in H by exact Hk.
    destruct (k - length c)%nat as [|n] eqn:E; simpl in H.
    + injection H as <-. split; [lia|reflexivity].
    + destruct n; discriminate.
Qed.

Lemma vertexAt_append_old (h : list UrhoVertex) (vb : UrhoVertexBuffer)
    (uid i : nat) :
  (i < length (vertices vb))%nat ->
  vertexAt h (append_vertex vb uid) i = vertexAt h vb i.
Proof.
  intros Hi. unfold vertexAt, getitem. simpl.
  now rewrite nth_error_app1 by exact Hi.
Qed.

Lemma vertexAt_append_new (h : list UrhoVertex) (vb : UrhoVertexBuffer)
    (uid : nat) (u : UrhoVertex) :
  nth_error h uid = Some u ->
  vertexAt h (append_vertex vb uid) (length (vertices vb)) = Ok u.
Proof.
  intros Hu. unfold vertexAt, getitem. simpl.
  rewrite nth_error_app2 by lia. rewrite Nat.sub_diag. simpl. now rewrite Hu.
Qed.

Lemma vertexAt_append_lt (h : list UrhoVertex) (vb : UrhoVertexBuffer)
    (uid i : nat) (v : UrhoVertex) :
  vertexAt h (append_vertex vb uid) i = Ok v ->
  (i < length (vertices vb))%nat \/ i = length (vertices vb).
Proof.
  intros H. apply vertexAt_lt in H. simpl in H. rewrite length_app in H.
  simpl in H. lia.
Qed.

Lemma placed_safe (s strict : bool) (st1 st3 : State)
    (vb vb2 : UrhoVertexBuffer) (m : Z) (uid ix : nat) (u : UrhoVertex)
    (bucket2 : list nat) :
  Inv st1 -> Safe s st1 ->
  vertexBuffer st1 = Some vb -> elementMask vb = Some m ->
  nth_error (heap st1) uid = Some u ->
  (truthyZ (Z.land m ELEMENT_POSITION) = true -> exists p, pos u = Some p) ->
  (s = true -> strict = true) ->
  resolved strict (heap st1) vb uid u
           (bucketOf (uVerticesMap st1) (UrhoVertex_hash u)) ix vb2 bucket2 ->
  heap st3 = heap st1 ->
  closedVertexBuffers st3 = closedVertexBuffers st1 ->
  vertexBuffer st3 = Some vb2 ->
  closedIndexBuffers st3 = closedIndexBuffers st1 ->
  indexBuffer st3 = indexBuffer st1 ->
  uVerticesMap st3
  = dict_set Z.eqb (withBucket (uVerticesMap st1) (UrhoVertex_hash u))
             (UrhoVertex_hash u) bucket2 ->
  (if truthyZ (Z.land m ELEMENT_POSITION)
   then merge (boundingBox st1) (pos u) = Ok (boundingBox st3)
   else boundingBox st3 = boundingBox st1) ->
  Safe s st3 /\ (ix < length (vertices vb2))%nat.
Proof.
  intros HI (B1 & B2 & X1 & K & D) Hvb Hm Hu Hpos Hstrict Hres
         Eh Ec Ev Eci Ei Em Ebb.
  set (k := UrhoVertex_hash u) in *.
  set (mp := uVerticesMap st1) in *.
  destruct (K vb Hvb) as [K1 K2].
  assert (Hcur : In vb (vertexBuffers st1)) by now apply Inv_current.
  assert (Hstored : stored (heap st1) vb) by now apply Inv_stored.
  assert (Hbucket : forall ivl, In ivl (bucketOf mp k) ->
                                (ivl < length (vertices vb))%nat).
  { intros ivl Hin. unfold bucketOf in Hin.
    destruct (dict_get Z.eqb mp k) as [b|] eqn:E; [|destruct Hin].
    eapply K1; eassumption. }
  (* the box *)
  assert (Hbox : (bbmin (boundingBox st3) = None
                  <-> bbmax (boundingBox st3) = None)
                 /\ (forall q, inside (boundingBox st1) q ->
                               inside (boundingBox st3) q)
                 /\ (truthyZ (Z.land m ELEMENT_POSITION) = true ->
                     exists p, pos u = Some p
                               /\ inside (boundingBox st3) p)).
  { destruct (truthyZ (Z.land m ELEMENT_POSITION)) eqn:Et.
    - destruct (Hpos eq_refl) as [p Hp]. rewrite Hp in Ebb.
      destruct (@merge_total (boundingBox st1) p B1)
        as (bb' & Hmg & Hb1 & Hin & Hmono).
      rewrite Hmg in Ebb. injection Ebb as <-.
      split; [exact Hb1|]. split; [exact Hmono|]. intros _. now exists p.
    - rewrite Ebb. split; [exact B1|]. split; [auto|discriminate]. }
  destruct Hbox as (B1' & Hmono & Hnew).
  (* the buffer *)
  assert (Hshape : elementMask vb2 = Some m
                   /\ (vb2 = vb \/ vb2 = append_vertex vb uid)).
  { destruct Hres as [(_ & -> & _)|(_ & -> & _)]; simpl; auto. }
  destruct Hshape as [Hm2 Hvb2].
  assert (Hids : forall id, In id (vertices vb2) ->
                            In id (vertices vb) \/ id = uid /\ vb2 <> vb).
  { intros id Hid. destruct Hvb2 as [->| ->]; [now left|].
    simpl in Hid. apply in_app_or in Hid. destruct Hid as [Hid|[<-|[]]].
    - now left.
    - right. split; [reflexivity|]. intros Heq.
      apply (f_equal (fun b => length (vertices b))) in Heq. simpl in Heq.
      rewrite length_app in Heq. simpl in Heq. lia. }
  assert (Hlen : (length (vertices vb) <= length (vertices vb2))%nat).
  { destruct Hvb2 as [->| ->]; simpl; [lia|]. rewrite length_app. lia. }
  assert (Hvbs : vertexBuffers st3 = closedVertexBuffers st1 ++ [vb2]).
  { unfold vertexBuffers. now rewrite Ec, Ev. }
  assert (Hvbs1 : vertexBuffers st1 = closedVertexBuffers st1 ++ [vb]).
  { unfold vertexBuffers. now rewrite Hvb. }
  assert (Hibs : indexBuffers st3 = indexBuffers st1).
  { unfold indexBuffers. now rewrite Eci, Ei. }
  split.
  2:{ destruct Hres as [(Hin & -> & _)|(-> & -> & _)].
      - now apply Hbucket.
      - simpl. rewrite length_app. simpl. lia. }
  unfold Safe. rewrite Eh, Hvbs, Hibs, Em, Ev.
  split; [exact B1'|]. split.
  { (* the box holds the positions *)
    intros vb' Hin Hp id Hid. apply in_app_or in Hin.
    destruct Hin as [Hin|[<-|[]]].
    - assert (Hin1 : In vb' (vertexBuffers st1)).
      { rewrite Hvbs1. apply in_or_app. now left. }
      destruct (B2 vb' Hin1 Hp id Hid) as [v [p [Hv [Hpv Hins]]]].
      exists v, p. auto.
    - assert (Ht : truthyZ (Z.land m ELEMENT_POSITION) = true).
      { destruct Hp as [m' [Hm' Ht]]. rewrite Hm2 in Hm'.
        now injection Hm' as <-. }
      destruct (Hids id Hid) as [Hold|[-> _]].
      + assert (Hp1 : has_position vb) by (exists m; auto).
        destruct (B2 vb Hcur Hp1 id Hold) as [v [p [Hv [Hpv Hins]]]].
        exists v, p. auto.
      + destruct (Hnew Ht) as [p [Hp' Hins]]. exists u, p. auto. }
  split.
  { (* indices are places *)
    intros n vb' ib Hn Hnb. apply nth_error_snoc in Hn.
    destruct Hn as [[Hlt Hn]|[-> ->]].
    - apply (X1 n vb' ib); [|exact Hnb].
      rewrite Hvbs1. now rewrite nth_error_app1.
    - assert (Hold : placesOk vb ib).
      { apply (X1 (length (closedVertexBuffers st1)) vb ib); [|exact Hnb].
        rewrite Hvbs1, nth_error_app2 by lia. now rewrite Nat.sub_diag. }
      unfold placesOk in *. eapply Forall_impl; [|exact Hold].
      simpl. intros a Ha. lia. }
  split.
  { (* the buckets *)
    intros vb' Hvb'. injection Hvb' as <-. split.
    - intros k' b ivl Hget Hin. rewrite placed_get in Hget.
      destruct (Z.eqb_spec k k') as [<-|Hne].
      + injection Hget as <-.
        destruct Hres as [(_ & _ & ->)|(-> & -> & -> & _)].
        * specialize (Hbucket ivl Hin). lia.
        * simpl. rewrite length_app. simpl.
          apply in_app_or in Hin. destruct Hin as [Hin|[<-|[]]]; [|lia].
          specialize (Hbucket ivl Hin). lia.
      + specialize (K1 k' b ivl Hget Hin). lia.
    - intros ivl v Hv.
      assert (Hcase : (vertexAt (heap st1) vb ivl = Ok v)
                      \/ (vb2 = append_vertex vb uid
                          /\ ivl = length (vertices vb) /\ v = u)).
      { destruct Hvb2 as [->| ->]; [now left|].
        destruct (@vertexAt_append_lt (heap st1) vb uid ivl v Hv) as [Hi|Hi].
        - left. now rewrite vertexAt_append_old in Hv.
        - right. subst ivl.
          rewrite (@vertexAt_append_new (heap st1) vb uid u Hu) in Hv.
          injection Hv as <-. auto. }
      rewrite placed_get.
      destruct Hcase as [Hold|(Happ & -> & ->)].
      + destruct (K2 ivl v Hold) as [b [Hb Hin]].
        destruct (Z.eqb_spec k (UrhoVertex_hash v)) as [Hk|Hk].
        * exists bucket2. split; [reflexivity|].
          rewrite <- Hk in Hb.
          rewrite (@bucketOf_get mp k b Hb) in Hres.
          destruct Hres as [(_ & _ & ->)|(_ & _ & -> & _)];
            [exact Hin|apply in_or_app; now left].
        * exists b. auto.
      + fold k. rewrite Z.eqb_refl. exists bucket2. split; [reflexivity|].
        destruct Hres as [(_ & Heq & _)|(-> & _ & -> & _)].
        * exfalso. rewrite Heq in Happ.
          apply (f_equal (fun b => length (vertices b))) in Happ.
          simpl in Happ. rewrite length_app in Happ. simpl in Happ. lia.
        * apply in_or_app. right. now left. }
  (* no two almost equal vertices *)
  intros Hs vb' Hin. apply in_app_or in Hin. destruct Hin as [Hin|[<-|[]]].
  - apply D; [exact Hs|]. rewrite Hvbs1. apply in_or_app. now left.
  - specialize (D Hs vb Hcur).
    destruct Hres as [(_ & -> & _)|(-> & -> & -> & Hnone)]; [exact D|].
    specialize (Hnone (Hstrict Hs)).
    intros i j vi vj Hij Hvi Hvj Hhash.
    destruct (@vertexAt_append_lt (heap st1) vb uid j vj Hvj) as [Hj|Hj].
    + rewrite vertexAt_append_old in Hvi by lia.
      rewrite vertexAt_append_old in Hvj by lia.
      now apply (D i j).
    + subst j. rewrite vertexAt_append_old in Hvi by lia.
      rewrite (@vertexAt_append_new (heap st1) vb uid u Hu) in Hvj.
      injection Hvj as <-.
      destruct (K2 i vi Hvi) as [b [Hb Hib]].
      rewrite Hhash in Hb. fold k in Hb.
      apply (Hnone i vi); [|exact Hvi].
      now rewrite (@bucketOf_get mp k b Hb).
Qed.

(* ------------------------------------------------------------------ *)
(** ** Loops that may raise *)

(** A loop whose body either keeps an invariant (indexed by the elements
    already visited) or raises for a reason the element explains. *)
Lemma foldM_total {A B : Type} (f : A -> B -> Exc A)
    (P : list B -> A -> Prop) (ok : B -> bool) (Err : B -> PyExc -> Prop)
    (l : list B) :
  (forall done x rest a,
     l = done ++ x :: rest -> P done a ->
     match f a x with
     | Ok a' => ok x = true /\ P (done ++ [x]) a'
     | Raise e => Err x e
     end) ->
  forall a, P [] a ->
    match foldM f l a with
    | Ok a' => forallb ok l = true /\ P l a'
    | Raise e => exists x, In x l /\ Err x e
    end.
Proof.
  intros Hstep.
  assert (H : forall rest done a,
             l = done ++ rest -> P done a ->
             match foldM f rest a with
             | Ok a' => forallb ok rest = true /\ P l a'
             | Raise e => exists x, In x rest /\ Err x e
             end).
  { induction rest as [|x rest IH]; intros done a Hl Ha.
    - simpl. rewrite app_nil_r in Hl. subst done. auto.
    - cbn [foldM]. specialize (Hstep done x rest a Hl Ha).
      destruct (f a x) as [a1|e]; cbn [bind].
      + destruct Hstep as [Hok Ha1].
        specialize (IH (done ++ [x]) a1).
        rewrite <- app_assoc in IH. specialize (IH Hl Ha1).
        destruct (foldM f rest a1) as [a2|e].
        * destruct IH as [Hall Ha2]. split; [|exact Ha2].
          simpl. now rewrite Hok, Hall.
        * destruct IH as [y [Hy He]]. exists y. split; [now right|exact He].
      + exists x. split; [now left|exact Hstep]. }
  intros a Ha. now apply (H l [] a).
Qed.

(* ------------------------------------------------------------------ *)
(** ** The body of the vertex loop *)

Lemma addVertex_run (vl : list TVertex) (strict : bool) (i : nat) (st : State)
    (im : list (nat * nat)) (w : bool) (tix : nat) (tVertex : TVertex)
    (st1 : State) (uid : nat) (u : UrhoVertex) (vb : UrhoVertexBuffer)
    (ix : nat) (vb2 : UrhoVertexBuffer) (bucket2 : list nat) (w2 : bool)
    (m : Z) :
  nth_error vl tix = Some tVertex ->
  createVertex tVertex st = Ok st1 ->
  uVertex st1 = Some uid -> nth_error (heap st1) uid = Some u ->
  vertexBuffer st1 = Some vb ->
  resolveVertex strict i (heap st1) vb uid
                (bucketOf (uVerticesMap st1) (UrhoVertex_hash u)) w
  = Ok (ix, vb2, bucket2, w2) ->
  elementMask vb2 = Some m ->
  addVertex vl strict i (st, im, w) tix
  = let st2 := set_uVerticesMap
                 (dict_set Z.eqb
                    (withBucket (uVerticesMap st1) (UrhoVertex_hash u))
                    (UrhoVertex_hash u) bucket2)
                 (set_vertexBuffer vb2 st1) in
    if truthyZ (Z.land m ELEMENT_POSITION)
    then bb <- merge (boundingBox st1) (pos u) ;;
         Ok (set_boundingBox bb (snd (noteIndex im tix ix st2)),
             fst (noteIndex im tix ix st2), w2)
    else Ok (snd (noteIndex im tix ix st2), fst (noteIndex im tix ix st2),
             w2).
Proof.
  intros Hv Hc Hu Hh Hvb Hr Hm. unfold addVertex, getitem.
  rewrite Hv. cbn [bind]. rewrite Hc. cbn [bind]. rewrite Hu. cbn [bind].
  rewrite Hh. cbn [bind]. rewrite Hvb. cbn [deref bind].
  unfold bucketOf in Hr. unfold withBucket. cbv zeta.
  destruct (dict_get Z.eqb (uVerticesMap st1) (UrhoVertex_hash u)) as [b|];
    rewrite Hr; cbn [bind]; rewrite Hm; cbn [bind]; unfold noteIndex;
    destruct (dict_get Nat.eqb im tix) as [ix0|];
    try destruct (ix0 =? ix)%nat;
    destruct (truthyZ (Z.land m ELEMENT_POSITION)); cbn [fst snd bind];
    try reflexivity;
    cbn [boundingBox set_uVerticesMap set_vertexBuffer add_log];
    destruct (merge (boundingBox st1) (pos u)); reflexivity.
Qed.

Lemma noteIndex_spec (im : list (nat * nat)) (tix ix : nat) (st : State) :
  let st' := snd (noteIndex im tix ix st) in
  let im' := fst (noteIndex im tix ix st) in
  heap st' = heap st
  /\ closedVertexBuffers st' = closedVertexBuffers st
  /\ vertexBuffer st' = vertexBuffer st
  /\ closedIndexBuffers st' = closedIndexBuffers st
  /\ indexBuffer st' = indexBuffer st
  /\ boundingBox st' = boundingBox st
  /\ uVerticesMap st' = uVerticesMap st
  /\ (forall k, dict_get Nat.eqb im' k
                = if (tix =? k)%nat
                  then match dict_get Nat.eqb im tix with
                       | Some x => Some x
                       | None => Some ix
                       end
                  else dict_get Nat.eqb im k)
  /\ exists lg, log st' = log st ++ lg.
Proof.
  unfold noteIndex. destruct (dict_get Nat.eqb im tix) as [ix0|] eqn:E.
  - cbn [fst snd]. destruct (ix0 =? ix)%nat; simpl; repeat split;
      try solve_log;
      intros k; destruct (Nat.eqb_spec tix k) as [<-|_]; auto.
  - cbn [fst snd]. repeat split; [|solve_log]. intros k.
    rewrite dict_get_set_nat. reflexivity.
Qed.

(** Without a [MaskError], [uVertex] is the vertex made from the source
    vertex. *)
Lemma createVertex_fresh (tVertex : TVertex) (st st1 : State) :
  createVertex tVertex st = Ok st1 -> no_mask_warning (log st1) ->
  exists uid, uVertex st1 = Some uid
              /\ nth_error (heap st1) uid = Some (sourceFields tVertex).
Proof.
  unfold createVertex, UrhoVertex_init.
  destruct (vertexBuffer st) as [vb|]; cbn [deref bind]; [|discriminate].
  assert (Hb : forall st0 : State,
             nth_error (heap st0 ++ [sourceFields tVertex]) (length (heap st0))
             = Some (sourceFields tVertex)).
  { intros st0. rewrite nth_error_app2 by lia. now rewrite Nat.sub_diag. }
  destruct (elementMask vb) as [old|].
  - destruct (old =? sourceMask tVertex)%Z.
    + intros H _. injection H as <-. eexists. split; [reflexivity|]. apply Hb.
    + discriminate.
  - intros H _. injection H as <-. eexists. split; [reflexivity|]. apply Hb.
Qed.

Lemma alike_refl (strict : bool) (u : UrhoVertex) : alike strict u u.
Proof.
  unfold alike. destruct strict.
  - now apply AlmostEqual_channels.
  - apply FloatListAlmostEqual_refl.
Qed.

Lemma alike_same (strict : bool) (v v' u : UrhoVertex) :
  sameVertex v v' -> alike strict v u -> alike strict v' u.
Proof.
  intros Hs. unfold alike. destruct strict.
  - now rewrite (@sameVertex_AlmostEqual v v' u u Hs (sameVertex_refl u)).
  - now rewrite (@sameVertex_pos v v' Hs).
Qed.

Lemma LodError_position (v u : UrhoVertex) :
  LodError v u <> INFINITY ->
  FloatListAlmostEqual (floats (pos v)) (floats (pos u)) = true.
Proof.
  unfold LodError.
  destruct (FloatListAlmostEqual (floats (pos v)) (floats (pos u)));
    [reflexivity|]. intros H. now contradiction H.
Qed.

(** The place lines 980-1004 choose holds a vertex that may stand for
    [uVertex]. *)
Lemma resolveVertex_alike (strict : bool) (i : nat) (h : list UrhoVertex)
    (vb : UrhoVertexBuffer) (uid : nat) (u : UrhoVertex) (bucket : list nat)
    (w : bool) (ix : nat) (vb2 : UrhoVertexBuffer) (bucket2 : list nat)
    (w2 : bool) :
  nth_error h uid = Some u ->
  resolveVertex strict i h vb uid bucket w = Ok (ix, vb2, bucket2, w2) ->
  exists v, vertexAt h vb2 ix = Ok v /\ alike strict v u.
Proof.
  intros Hu. unfold resolveVertex, getitem. rewrite Hu. cbn [bind].
  assert (Hnew : exists v,
             vertexAt h (append_vertex vb uid) (length (vertices vb)) = Ok v
             /\ alike strict v u).
  { exists u. split; [now apply vertexAt_append_new|apply alike_refl]. }
  destruct strict.
  - destruct (searchAlmostEqual h vb u bucket) as [[c|]|e] eqn:Es;
      cbn [bind]; intros H; try discriminate;
      injection H as <- <- <- <-; [|exact Hnew].
    destruct (@searchAlmostEqual_none_or_some h vb u bucket (Some c) Es)
      as [v [Hv Ha]].
    now exists v.
  - destruct (searchLod h vb u bucket INFINITY None) as [[c|]|e] eqn:Es;
      cbn [bind]; intros H; try discriminate;
      injection H as <- <- <- <-; [|exact Hnew].
    destruct (@searchLod_spec h vb u bucket INFINITY None (Some c) Es)
      as (best & _ & _ & [[Hc _]|(c' & vc & Hc & _ & Hv & He & Hfin)]);
      [discriminate|].
    injection Hc as <-. exists vc. split; [exact Hv|]. unfold alike.
    apply LodError_position. congruence.
Qed.

Lemma vertexAt_grow (h h' : list UrhoVertex) (vb vb' : UrhoVertexBuffer)
    (ix : nat) (v : UrhoVertex) :
  listExt sameVertex h h' ->
  (exists tail, vertices vb' = vertices vb ++ tail) ->
  vertexAt h vb ix = Ok v ->
  exists v', vertexAt h' vb' ix = Ok v' /\ sameVertex v v'.
Proof.
  intros Hh [tail Ht] Hv.
  assert (Hlt : (ix < length (vertices vb))%nat)
    by exact (@vertexAt_lt h vb ix v Hv).
  destruct (@vertexAt_fwd h h' vb ix v Hh Hv) as [v' [Hv' Hs]].
  exists v'. split; [|exact Hs].
  unfold vertexAt in *. rewrite Ht. unfold getitem in *.
  now rewrite nth_error_app1.
Qed.

Lemma faithfulMap_grow (vl : list TVertex) (strict : bool)
    (h h' : list UrhoVertex) (vb vb' : UrhoVertexBuffer)
    (im : list (nat * nat)) :
  listExt sameVertex h h' ->
  (exists tail, vertices vb' = vertices vb ++ tail) ->
  faithfulMap vl strict h vb im -> faithfulMap vl strict h' vb' im.
Proof.
  intros Hh Ht Hf k ix Hk. destruct (Hf k ix Hk) as (tv & v & A & B & C).
  destruct (@vertexAt_grow h h' vb vb' ix v Hh Ht B) as [v' [Hv' Hs]].
  exists tv, v'. split; [exact A|]. split; [exact Hv'|].
  exact (@alike_same strict v v' _ Hs C).
Qed.

Lemma addVertex_step (s strict : bool) (i : nat) (vl : list TVertex)
    (done : list nat) (acc : State * list (nat * nat) * bool) (tix : nat) :
  (s = true -> strict = true) ->
  vertexLoopInv s vl strict done acc ->
  match addVertex vl strict i acc tix with
  | Ok acc' =>
      (tix <? length vl)%nat = true
      /\ vertexLoopInv s vl strict (done ++ [tix]) acc'
      /\ exists tv vb',
           nth_error vl tix = Some tv
           /\ vertexBuffer (fst (fst acc')) = Some vb'
           /\ elementMask vb' = Some (sourceMask tv)
           /\ forall vb0 old,
                vertexBuffer (fst (fst acc)) = Some vb0 ->
                elementMask vb0 = Some old -> old = sourceMask tv
  | Raise e =>
      (e = IndexError /\ (tix <? length vl)%nat = false)
      \/ (e = TypeError
          /\ exists tv vb0 old,
               nth_error vl tix = Some tv
               /\ vertexBuffer (fst (fst acc)) = Some vb0
               /\ elementMask vb0 = Some old /\ old <> sourceMask tv)
  end.
Proof.
  intros Hstrict. destruct acc as [[st im] w].
  intros (HI & HS & (vb0 & Hvb0 & Him & Hmask0 & Hfaith) & Hkeys).
  cbn [fst snd] in *.
  destruct (nth_error vl tix) as [tVertex|] eqn:Ev.
  2:{ unfold addVertex, getitem. rewrite Ev. cbn [bind]. left.
      split; [reflexivity|]. apply Nat.ltb_ge. now apply nth_error_None. }
  assert (Hlt : (tix <? length vl)%nat = true).
  { apply Nat.ltb_lt, nth_error_Some. congruence. }
  pose proof (@createVertex_still tVertex st vb0 Hvb0) as Hcs.
  destruct (createVertex tVertex st) as [st1|e] eqn:Hc.
  2:{ destruct Hcs as (-> & old & Ho & Hne).
      assert (Hr : addVertex vl strict i (st, im, w) tix = Raise TypeError).
      { unfold addVertex, getitem. rewrite Ev. cbn [bind]. rewrite Hc.
        reflexivity. }
      rewrite Hr. right. split; [reflexivity|].
      exists tVertex, vb0, old. auto. }
  destruct Hcs as (vb1 & Hstill & Hvb1 & Hm1 & Hold1).
  set (m1 := sourceMask tVertex) in *.
  destruct (@createVertex_inv tVertex st st1 HI Hc) as [HI1 Hin01].
  pose proof (@Safe_still s st st1 HI Hstill HS) as HS1.
  assert (Hv01 : vertices vb1 = vertices vb0).
  { destruct Hstill as (_ & _ & Hv & _). rewrite Hvb0, Hvb1 in Hv.
    simpl in Hv. tauto. }
  pose proof HI1 as (_ & _ & _ & _ & I5).
  destruct (I5 vb1 m1 Hvb1 Hm1) as (uid & u & Hu & Hh & Hsub & _).
  pose proof HS1 as (B1 & _ & _ & K & _).
  destruct (K vb1 Hvb1) as [K1 _].
  assert (Hstored : stored (heap st1) vb1).
  { apply Inv_stored; [exact HI1|now apply Inv_current]. }
  assert (Hb : forall ivl,
             In ivl (bucketOf (uVerticesMap st1) (UrhoVertex_hash u)) ->
             exists v, vertexAt (heap st1) vb1 ivl = Ok v).
  { intros ivl Hin. apply vertexAt_some; [exact Hstored|].
    unfold bucketOf in Hin.
    destruct (dict_get Z.eqb (uVerticesMap st1) (UrhoVertex_hash u))
      as [b|] eqn:E; [|destruct Hin].
    eapply K1; eassumption. }
  destruct (@resolveVertex_total strict i (heap st1) vb1 uid u _ w Hh Hb)
    as (ix & vb2 & bucket2 & w2 & Hr & Hres).
  assert (Hm2 : elementMask vb2 = Some m1).
  { destruct Hres as [(_ & -> & _)|(_ & -> & _)]; simpl; auto. }
  assert (Hpos : truthyZ (Z.land m1 ELEMENT_POSITION) = true ->
                 exists p, pos u = Some p)
    by (apply subMask_pos; exact Hsub).
  pose proof (@addVertex_run vl strict i st im w tix tVertex st1 uid u vb1
                ix vb2 bucket2 w2 m1 Ev Hc Hu Hh Hvb1 Hr Hm2) as Hrun.
  cbv zeta in Hrun.
  set (st2 := set_uVerticesMap
                (dict_set Z.eqb
                   (withBucket (uVerticesMap st1) (UrhoVertex_hash u))
                   (UrhoVertex_hash u) bucket2)
                (set_vertexBuffer vb2 st1)) in *.
  destruct (noteIndex_spec im tix ix st2)
    as (N1 & N2 & N3 & N4 & N5 & N6 & N7 & N8 & N9).
  set (st2' := snd (noteIndex im tix ix st2)) in *.
  set (im' := fst (noteIndex im tix ix st2)) in *.
  (* the state the body ends in *)
  assert (Hend : exists st3,
             addVertex vl strict i (st, im, w) tix = Ok (st3, im', w2)
             /\ heap st3 = heap st1
             /\ closedVertexBuffers st3 = closedVertexBuffers st1
             /\ vertexBuffer st3 = Some vb2
             /\ closedIndexBuffers st3 = closedIndexBuffers st1
             /\ indexBuffer st3 = indexBuffer st1
             /\ uVerticesMap st3
                = dict_set Z.eqb
                    (withBucket (uVerticesMap st1) (UrhoVertex_hash u))
                    (UrhoVertex_hash u) bucket2
             /\ (if truthyZ (Z.land m1 ELEMENT_POSITION)
                 then merge (boundingBox st1) (pos u) = Ok (boundingBox st3)
                 else boundingBox st3 = boundingBox st1)
             /\ log st3 = log st2').
  { rewrite Hrun. destruct (truthyZ (Z.land m1 ELEMENT_POSITION)) eqn:Et.
    - destruct (Hpos eq_refl) as [p Hp]. rewrite Hp.
      destruct (@merge_total (boundingBox st1) p B1) as (bb & Hmg & _).
      rewrite Hmg. cbn [bind]. eexists. split; [reflexivity|].
      cbn [heap closedVertexBuffers vertexBuffer closedIndexBuffers
           indexBuffer uVerticesMap boundingBox log set_boundingBox].
      rewrite N1, N2, N3, N4, N5, N7. unfold st2. simpl. repeat split.
    - eexists. split; [reflexivity|].
      rewrite N1, N2, N3, N4, N5, N6, N7. unfold st2. simpl. repeat split. }
  destruct Hend as (st3 & Hadd & E1 & E2 & E3 & E4 & E5 & E6 & E7 & E8).
  rewrite Hadd. split; [exact Hlt|]. cbn [fst]. split.
  2:{ exists tVertex, vb2. split; [reflexivity|]. split; [exact E3|].
      split; [exact Hm2|]. intros vb0' old Hv Ho.
      rewrite Hvb0 in Hv. injection Hv as <-. exact (Hold1 old Ho). }
  destruct (@placed_safe s strict st1 st3 vb1 vb2 m1 uid ix u bucket2
              HI1 HS1 Hvb1 Hm1 Hh Hpos Hstrict Hres E1 E2 E3 E4 E5 E6 E7)
    as [HS3 Hix].
  destruct (@addVertex_inv vl strict i (st, im, w) (st3, im', w2) tix HI Hadd)
    as [HI3 _].
  assert (Htail : exists tail, vertices vb2 = vertices vb0 ++ tail).
  { rewrite <- Hv01.
    destruct Hres as [(_ & -> & _)|(_ & -> & _)]; simpl.
    - exists []. now rewrite app_nil_r.
    - now exists [uid]. }
  assert (Hlen : (length (vertices vb0) <= length (vertices vb2))%nat).
  { destruct Htail as [tail ->]. rewrite length_app. lia. }
  unfold vertexLoopInv. cbn [fst snd].
  split; [exact HI3|]. split; [exact HS3|]. split.
  { exists vb2. split; [exact E3|]. split.
    { intros k x Hk. rewrite N8 in Hk.
      destruct (Nat.eqb_spec tix k) as [<-|Hne].
      + destruct (dict_get Nat.eqb im tix) as [x0|] eqn:E0.
        * injection Hk as <-. specialize (Him tix x0 E0). lia.
        * now injection Hk as <-.
      + specialize (Him k x Hk). lia. }
    split; [intros _; congruence|].
    (* the map stays faithful *)
    intros Hnw.
    assert (Hlog1 : exists lg, log st3 = log st1 ++ lg).
    { rewrite E8. destruct N9 as [lg N9]. exists lg. rewrite N9.
      reflexivity. }
    assert (Hnw1 : no_mask_warning (log st1)).
    { destruct Hlog1 as [lg Hl]. rewrite Hl in Hnw.
      eapply no_mask_warning_app, Hnw. }
    assert (Hnw0 : no_mask_warning (log st)).
    { destruct Hin01 as (_ & _ & _ & _ & _ & _ & lg & Hl).
      rewrite Hl in Hnw1. eapply no_mask_warning_app, Hnw1. }
    assert (Hold : faithfulMap vl strict (heap st3) vb2 im).
    { apply (@faithfulMap_grow vl strict (heap st) (heap st3) vb0 vb2 im).
      - rewrite E1. destruct Hstill as (A & _). exact A.
      - exact Htail.
      - exact (Hfaith Hnw0). }
    intros k x Hk. rewrite N8 in Hk.
    destruct (Nat.eqb_spec tix k) as [<-|Hne]; [|exact (Hold k x Hk)].
    destruct (dict_get Nat.eqb im tix) as [x0|] eqn:E0.
    - injection Hk as <-. exact (Hold tix x0 E0).
    - injection Hk as <-.
      destruct (@createVertex_fresh tVertex st st1 Hc Hnw1)
        as (uid' & Hu' & Hh').
      rewrite Hu in Hu'. injection Hu' as <-.
      rewrite Hh in Hh'. injection Hh' as ->.
      destruct (@resolveVertex_alike strict i (heap st1) vb1 uid _ _ w ix vb2
                  bucket2 w2 Hh Hr) as [v [Hv Ha]].
      exists tVertex, v. rewrite E1. auto. }
  intros k. rewrite N8. destruct (Nat.eqb_spec tix k) as [<-|Hne].
  - split.
    + intros _. apply in_or_app. right. now left.
    + intros _. destruct (dict_get Nat.eqb im tix); discriminate.
  - rewrite Hkeys. split.
    + intros H. apply in_or_app. now left.
    + intros H. apply in_app_or in H. destruct H as [H|[H|[]]]; [exact H|].
      contradiction.
Qed.

(** The vertex loop of a LOD (lines 954-1032): it raises for a source
    index beyond the vertices list, with an [IndexError], and for a source
    vertex whose mask is not the mask of the buffer, with the [TypeError]
    of the handler's message. *)
Lemma addVertex_loop_total (s strict : bool) (i : nat) (vl : list TVertex)
    (l : list nat) (st : State) (vb : UrhoVertexBuffer) (w : bool)
    (U A : TVertex -> Prop) :
  (s = true -> strict = true) ->
  Inv st -> Safe s st -> vertexBuffer st = Some vb ->
  maskSourced U st -> maskOf A st ->
  (forall tv, named vl l tv -> U tv) ->
  match foldM (addVertex vl strict i) l (st, [], w) with
  | Ok acc' => forallb (fun ix => (ix <? length vl)%nat) l = true
               /\ vertexLoopInv s vl strict l acc'
               /\ maskSourced U (fst (fst acc'))
               /\ maskOf (fun tv => A tv \/ named vl l tv) (fst (fst acc'))
  | Raise e => (e = IndexError
                /\ forallb (fun ix => (ix <? length vl)%nat) l = false)
               \/ (e = TypeError /\ maskClash U)
  end.
Proof.
  intros Hstrict HI HS Hvb HQ HA HU.
  pose proof (@foldM_total _ _ (addVertex vl strict i)
                (fun done acc =>
                   vertexLoopInv s vl strict done acc
                   /\ maskSourced U (fst (fst acc))
                   /\ maskOf (fun tv => A tv \/ named vl done tv)
                             (fst (fst acc)))
                (fun ix => (ix <? length vl)%nat)
                (fun x e => (e = IndexError /\ (x <? length vl)%nat = false)
                            \/ (e = TypeError /\ maskClash U))
                l) as H.
  cbv beta in H.
  assert (Hstep : forall done x rest (a : State * list (nat * nat) * bool),
             l = done ++ x :: rest ->
             vertexLoopInv s vl strict done a
             /\ maskSourced U (fst (fst a))
             /\ maskOf (fun tv => A tv \/ named vl done tv) (fst (fst a)) ->
             match addVertex vl strict i a x with
             | Ok a' =>
                 (x <? length vl)%nat = true
                 /\ vertexLoopInv s vl strict (done ++ [x]) a'
                 /\ maskSourced U (fst (fst a'))
                 /\ maskOf (fun tv => A tv \/ named vl (done ++ [x]) tv)
                           (fst (fst a'))
             | Raise e =>
                 (e = IndexError /\ (x <? length vl)%nat = false)
                 \/ (e = TypeError /\ maskClash U)
             end).
  { intros done x rest a Hl (Hv & Hq & Hm).
    pose proof (@addVertex_step s strict i vl done a x Hstrict Hv) as Hs.
    assert (Hx : In x l) by (rewrite Hl; apply in_or_app; right; now left).
    destruct (addVertex vl strict i a x) as [a'|e].
    - destruct Hs as (Hok & Hv' & tv & vb' & Etv & Evb & Em & Hold).
      split; [exact Hok|]. split; [exact Hv'|].
      assert (Utv : U tv) by (apply HU; now exists x).
      split.
      + intros vb2 m E2 M2. rewrite Evb in E2. injection E2 as <-.
        rewrite Em in M2. injection M2 as <-. now exists tv.
      + intros tv' Htv'. exists vb'. split; [exact Evb|]. rewrite Em.
        assert (Hprev : A tv' \/ named vl done tv' -> sourceMask tv'
                                                     = sourceMask tv).
        { intros Hp. destruct (Hm tv' Hp) as (vb0 & E0 & M0).
          exact (Hold vb0 _ E0 M0). }
        destruct Htv' as [Ha|(tix & Hin & Hn)].
        * now rewrite Hprev by now left.
        * apply in_app_or in Hin. destruct Hin as [Hin|[<-|[]]].
          -- rewrite Hprev; [reflexivity|]. right. now exists tix.
          -- congruence.
    - destruct Hs as [Hs|(-> & tv & vb0 & old & Etv & Evb & Em & Hne)];
        [now left|].
      right. split; [reflexivity|].
      destruct (Hq vb0 old Evb Em) as (tv0 & U0 & M0).
      exists tv0, tv. split; [exact U0|]. split; [apply HU; now exists x|].
      congruence. }
  specialize (H Hstep (st, [], w)).
  assert (H0 : vertexLoopInv s vl strict [] (st, [], w)).
  { unfold vertexLoopInv. cbn [fst snd].
    split; [exact HI|]. split; [exact HS|]. split.
    - exists vb. split; [exact Hvb|]. split.
      + intros k ix Hk. discriminate.
      + split; [intros Hn; now contradiction Hn|].
        intros _ k ix Hk. discriminate.
    - intros k. simpl. tauto. }
  assert (H1 : maskOf (fun tv => A tv \/ named vl [] tv) st).
  { intros tv [Ha|(tix & [] & _)]. exact (HA tv Ha). }
  specialize (H (conj H0 (conj HQ H1))).
  destruct (foldM (addVertex vl strict i) l (st, [], w)) as [acc'|e].
  - destruct H as (Hall & Hv & Hq & Hm). auto.
  - destruct H as [x [Hin [[-> Hx]|Hc]]]; [left|now right].
    split; [reflexivity|]. apply not_true_is_false. intros Hall.
    rewrite forallb_forall in Hall. specialize (Hall x Hin). congruence.
Qed.

(* ------------------------------------------------------------------ *)
(** ** The triangle loop *)

Lemma append_indexes_fields (st : State) (ixs : list nat) :
  heap (append_indexes st ixs) = heap st
  /\ closedVertexBuffers (append_indexes st ixs) = closedVertexBuffers st
  /\ vertexBuffer (append_indexes st ixs) = vertexBuffer st
  /\ closedIndexBuffers (append_indexes st ixs) = closedIndexBuffers st
  /\ boundingBox (append_indexes st ixs) = boundingBox st
  /\ uVerticesMap (append_indexes st ixs) = uVerticesMap st
  /\ indexBuffer (append_indexes st ixs)
     = option_map (fun ib => {| indexSize := indexSize ib;
                                indexes := indexes ib ++ ixs |})
                  (indexBuffer st).
Proof.
  unfold append_indexes. destruct (indexBuffer st) as [ib|] eqn:E; simpl;
    rewrite ?E; repeat split.
Qed.

Lemma append_one (st : State) (ib : UrhoIndexBuffer) (ix : nat) :
  indexBuffer st = Some ib ->
  set_indexBuffer (append_index ib ix) st = append_indexes st [ix].
Proof. intros H. unfold append_indexes. now rewrite H. Qed.

Lemma addIndex_step_total (i : nat) (im : list (nat * nat)) (st : State)
    (cc : nat) (c : Vector3) (t : nat) (vb : UrhoVertexBuffer) :
  Inv st -> vertexBuffer st = Some vb ->
  (forall k ix, dict_get Nat.eqb im k = Some ix ->
                (ix < length (vertices vb))%nat) ->
  match addIndex i im (st, cc, c) t with
  | Ok acc' => hasKey im t = true
               /\ exists ix, fst (fst acc') = append_indexes st [ix]
  | Raise e => e = KeyError /\ hasKey im t = false
  end.
Proof.
  intros HI Hvb Him. unfold addIndex, hasKey.
  destruct (dict_get Nat.eqb im t) as [ix|] eqn:Ed; cbn [bind];
    [|split; reflexivity].
  pose proof HI as (_ & I2 & _ & I4 & _).
  destruct (indexBuffer st) as [ib|] eqn:Eib.
  2:{ destruct I2 as [I2 _]. specialize (I2 eq_refl). congruence. }
  cbn [deref bind]. rewrite (@append_one st ib ix Eib).
  destruct (i =? 0)%nat.
  2:{ split; [reflexivity|]. now exists ix. }
  destruct (append_indexes_fields st [ix]) as (F1 & _ & F3 & _).
  rewrite F3, Hvb. cbn [deref bind].
  specialize (Him t ix Ed).
  assert (Hok : bufferOk (heap st) (log st) vb)
    by (apply I4; now apply Inv_current).
  destruct (@vertexAt_some (heap st) vb ix
              (@bufferOk_stored _ _ _ Hok) Him) as [v Hv].
  assert (Hmask : exists m, elementMask vb = Some m
                            /\ subMask m (vertexMask v)).
  { unfold vertexAt, getitem in Hv.
    destruct (nth_error (vertices vb) ix) as [id|] eqn:En; simpl in Hv;
      [|discriminate].
    destruct Hok as [_ Hall].
    destruct (Hall id (nth_error_In _ _ En)) as (v' & m & Hv' & Hm & Hs & _).
    rewrite Hv' in Hv. injection Hv as <-. now exists m. }
  destruct Hmask as (m & Hm & Hsub). rewrite Hm. cbn [bind].
  destruct (truthyZ (Z.land m ELEMENT_POSITION)) eqn:Et.
  - rewrite F1, Hv. cbn [bind].
    destruct (@subMask_pos m v Hsub Et) as [p Hp]. rewrite Hp. cbn [bind].
    split; [reflexivity|]. now exists ix.
  - split; [reflexivity|]. now exists ix.
Qed.

Lemma append_indexes_app (st : State) (a b : list nat) :
  append_indexes (append_indexes st a) b = append_indexes st (a ++ b).
Proof.
  unfold append_indexes at 2 3.
  destruct (indexBuffer st) as [ib|] eqn:E.
  - unfold append_indexes. simpl. unfold set_indexBuffer. simpl.
    now rewrite app_assoc.
  - unfold append_indexes. now rewrite E.
Qed.

(** The triangle loop of a LOD (lines 1053-1060): it raises exactly for a
    corner that is not a key of [indexMap], with a [KeyError]. *)
Lemma addIndex_loop_total (i : nat) (im : list (nat * nat)) (cs : list nat)
    (st : State) (cc : nat) (c : Vector3) (vb : UrhoVertexBuffer) :
  Inv st -> vertexBuffer st = Some vb ->
  (forall k ix, dict_get Nat.eqb im k = Some ix ->
                (ix < length (vertices vb))%nat) ->
  match foldM (addIndex i im) cs (st, cc, c) with
  | Ok acc' => forallb (hasKey im) cs = true
  | Raise e => e = KeyError /\ forallb (hasKey im) cs = false
  end.
Proof.
  intros HI Hvb Him.
  pose proof (@foldM_total _ _ (addIndex i im)
                (fun _ acc => exists ixs,
                     fst (fst acc) = append_indexes st ixs)
                (hasKey im)
                (fun x e => e = KeyError /\ hasKey im x = false) cs) as H.
  assert (Hstep : forall (done : list nat) (x : nat) (rest : list nat)
                    (a : State * nat * Vector3),
             cs = done ++ x :: rest ->
             (exists ixs, fst (fst a) = append_indexes st ixs) ->
             match addIndex i im a x with
             | Ok a' => hasKey im x = true
                        /\ exists ixs, fst (fst a') = append_indexes st ixs
             | Raise e => e = KeyError /\ hasKey im x = false
             end).
  { intros done x rest [[sa ca] va] _ [ixs Hsa]. cbn [fst] in Hsa.
    assert (HIa : Inv sa).
    { rewrite Hsa. apply append_indexes_inv, HI. }
    assert (Hva : vertexBuffer sa = Some vb).
    { rewrite Hsa. destruct (append_indexes_fields st ixs) as (_ & _ & F & _).
      now rewrite F. }
    pose proof (@addIndex_step_total i im sa ca va x vb HIa Hva Him) as Hs.
    destruct (addIndex i im (sa, ca, va) x) as [a'|e]; [|exact Hs].
    destruct Hs as [Hk [ix Hix]]. split; [exact Hk|].
    exists (ixs ++ [ix]). rewrite Hix, Hsa. apply append_indexes_app. }
  specialize (H Hstep (st, cc, c)).
  destruct (foldM (addIndex i im) cs (st, cc, c)) as [a'|e].
  - apply H. exists []. cbn [fst]. now rewrite append_indexes_nil.
  - destruct H as [x [Hin [-> Hx]]].
    + exists []. cbn [fst]. now rewrite append_indexes_nil.
    + split; [reflexivity|]. apply not_true_is_false. intros Hall.
      rewrite forallb_forall in Hall. specialize (Hall x Hin). congruence.
Qed.

Lemma Safe_append_indexes (s : bool) (st : State) (vb : UrhoVertexBuffer)
    (ixs : list nat) :
  Inv st -> Safe s st -> vertexBuffer st = Some vb ->
  Forall (fun ix => (ix < length (vertices vb))%nat) ixs ->
  Safe s (append_indexes st ixs).
Proof.
  intros HI (B1 & B2 & X1 & K & D) Hvb Hix.
  destruct (append_indexes_fields st ixs)
    as (F1 & F2 & F3 & F4 & F5 & F6 & F7).
  pose proof HI as (_ & I2 & I3 & _).
  destruct (indexBuffer st) as [ib|] eqn:Eib.
  2:{ destruct I2 as [I2 _]. specialize (I2 eq_refl). congruence. }
  simpl in F7.
  assert (Hvbs : vertexBuffers (append_indexes st ixs) = vertexBuffers st).
  { unfold vertexBuffers. now rewrite F2, F3. }
  unfold Safe. rewrite F1, F5, F6, Hvbs, F3.
  split; [exact B1|]. split; [exact B2|]. split; [|split; [exact K|exact D]].
  intros k vb' ib' Hk Hkb. unfold indexBuffers in Hkb.
  rewrite F4, F7 in Hkb. simpl in Hkb. apply nth_error_snoc in Hkb.
  destruct Hkb as [[Hlt Hkb]|[-> ->]].
  - apply (X1 k vb' ib' Hk). unfold indexBuffers.
    now rewrite nth_error_app1.
  - unfold vertexBuffers in Hk. rewrite Hvb, I3 in Hk. simpl in Hk.
    rewrite nth_error_app2, Nat.sub_diag in Hk by lia.
    injection Hk as <-.
    assert (Hold : placesOk vb ib).
    { apply (X1 (length (closedIndexBuffers st)) vb ib).
      - unfold vertexBuffers. rewrite Hvb, I3. simpl.
        rewrite nth_error_app2, Nat.sub_diag by lia. reflexivity.
      - unfold indexBuffers. rewrite Eib. simpl.
        rewrite nth_error_app2, Nat.sub_diag by lia. reflexivity. }
    unfold placesOk in *. simpl. apply Forall_app. auto.
Qed.

(* ------------------------------------------------------------------ *)
(** ** The bone remap *)

Lemma fold_add_log_more (lg : list LogRecord) :
  forall st,
    boundingBox (fold_left (fun s r => add_log r s) lg st) = boundingBox st
    /\ uVerticesMap (fold_left (fun s r => add_log r s) lg st)
       = uVerticesMap st.
Proof.
  induction lg as [|r rest IH]; intros st; simpl; [auto|].
  destruct (IH (add_log r st)) as [A B]. rewrite A, B. auto.
Qed.

Lemma still_trans_heap (st st1 st2 : State) :
  still st st1 ->
  listExt sameVertex (heap st1) (heap st2) ->
  closedVertexBuffers st2 = closedVertexBuffers st1 ->
  vertexBuffer st2 = vertexBuffer st1 ->
  closedIndexBuffers st2 = closedIndexBuffers st1 ->
  indexBuffer st2 = indexBuffer st1 ->
  boundingBox st2 = boundingBox st1 ->
  uVerticesMap st2 = uVerticesMap st1 ->
  still st st2.
Proof.
  intros (A1 & A2 & A3 & A4 & A5 & A6 & A7) H1 H2 H3 H4 H5 H6 H7.
  unfold still. rewrite H2, H3, H4, H5, H6, H7.
  split; [|tauto]. eapply listExt_trans; [|exact A1|exact H1].
  intros a b c. apply sameVertex_trans.
Qed.

Lemma remapVertex_still (st0 st : State) (bm : list nat) (id : nat)
    (vb : UrhoVertexBuffer) :
  stored (heap st0) vb -> In id (vertices vb) -> still st0 st ->
  exists st' bm', remapVertex (st, bm) id = Ok (st', bm') /\ still st0 st'.
Proof.
  intros Hs Hid Hst. destruct (Hs id Hid) as [v0 Hv0].
  pose proof Hst as (Hh & _).
  destruct (Hh _ _ Hv0) as [v [Hv _]].
  unfold remapVertex, getitem. rewrite Hv. cbn [bind].
  pose proof (remapWeights_length (weights v) bm 0) as Hlen.
  destruct (remapWeights bm 0 (weights v)) as [[bm' ws] lg]. simpl in Hlen.
  eexists _, _. split; [reflexivity|].
  destruct (fold_add_log lg
              (set_heap (setitem (heap st) id (set_weights v ws)) st))
    as (A1 & A2 & A3 & A4 & A5 & _).
  destruct (fold_add_log_more lg
              (set_heap (setitem (heap st) id (set_weights v ws)) st))
    as (A6 & A7).
  simpl in *.
  apply (@still_trans_heap st0 st); auto.
  rewrite A1. apply (@setitem_ext (heap st) id v (set_weights v ws) Hv).
  unfold sameVertex. simpl. repeat split; auto.
Qed.

(** Lines 1070-1088 rewrite bone indices only; they raise only when the
    current buffer has no mask yet and there are more than 64 bones. *)
Lemma remapBones_total (n : nat) (st : State) (bm : list nat)
    (vb : UrhoVertexBuffer) :
  Inv st -> vertexBuffer st = Some vb ->
  match remapBones n st bm with
  | Ok r => still st (fst r)
  | Raise e => e = TypeError /\ (MAX_SKIN_MATRICES < n)%nat
               /\ elementMask vb = None
  end.
Proof.
  intros HI Hvb. unfold remapBones.
  destruct (MAX_SKIN_MATRICES <? n)%nat eqn:En; [|apply still_refl].
  apply Nat.ltb_lt in En. rewrite Hvb. cbn [deref bind].
  destruct (elementMask vb) as [m|] eqn:Em; cbn [bind]; [|auto].
  destruct (Z.land m ELEMENT_BLEND =? ELEMENT_BLEND)%Z; [|apply still_refl].
  assert (Hs : stored (heap st) vb)
    by (apply Inv_stored; [exact HI|now apply Inv_current]).
  pose proof (@foldM_total _ _ remapVertex
                (fun _ acc => still st (fst acc)) (fun _ => true)
                (fun _ _ => False) (vertices vb)) as H.
  assert (Hstep : forall (done : list nat) (x : nat) (rest : list nat)
                    (a : State * list nat),
             vertices vb = done ++ x :: rest -> still st (fst a) ->
             match remapVertex a x with
             | Ok a' => true = true /\ still st (fst a')
             | Raise _ => False
             end).
  { intros done x rest [sa ba] Hl Ha. cbn [fst] in Ha.
    assert (Hin : In x (vertices vb)).
    { rewrite Hl. apply in_or_app. right. now left. }
    destruct (@remapVertex_still st sa ba x vb Hs Hin Ha)
      as (st' & bm' & Hr & Hst').
    rewrite Hr. auto. }
  specialize (H Hstep (st, bm) (still_refl st)).
  destruct (foldM remapVertex (vertices vb) (st, bm)) as [r|e].
  - apply H.
  - destruct H as [x [_ []]].
Qed.

(* ------------------------------------------------------------------ *)
(** ** Opening buffers *)

Lemma openBuffers_cases (env : Env) (i : nat) (st : State) :
  Inv st ->
  openBuffers env i st = (newIndexBuffer (newVertexBuffer st), 0%nat)
  \/ exists ib, indexBuffer st = Some ib
                /\ openBuffers env i st = (st, length (indexes ib)).
Proof.
  intros (_ & I2 & _). unfold openBuffers.
  destruct (vertexBuffer st) as [vb|] eqn:Ev.
  - destruct (indexBuffer st) as [ib|] eqn:Ei.
    2:{ destruct I2 as [I2 _]. specialize (I2 eq_refl). discriminate. }
    cbn [truthy_opt negb orb].
    destruct ((i =? 0)%nat && negb (useOneBuffer env)).
    + left. cbn [newVertexBuffer indexBuffer]. now rewrite Ei.
    + right. exists ib. now rewrite Ei.
  - destruct (indexBuffer st) as [ib|] eqn:Ei.
    { destruct I2 as [_ I2]. specialize (I2 eq_refl). discriminate. }
    left. cbn [truthy_opt negb orb newVertexBuffer indexBuffer].
    now rewrite Ei.
Qed.

Lemma Safe_new (s : bool) (st : State) :
  Inv st -> Safe s st -> Safe s (newIndexBuffer (newVertexBuffer st)).
Proof.
  intros HI (B1 & B2 & X1 & K & D).
  destruct (Inv_lengths HI) as [Hlen _].
  unfold Safe, newIndexBuffer, newVertexBuffer, vertexBuffers, indexBuffers.
  cbn [heap closedVertexBuffers vertexBuffer closedIndexBuffers indexBuffer
       boundingBox uVerticesMap opt_list].
  fold (vertexBuffers st). fold (indexBuffers st).
  split; [exact B1|]. split.
  { intros vb Hin. apply in_app_or in Hin. destruct Hin as [Hin|[<-|[]]].
    - now apply B2.
    - intros _ id []. }
  split.
  { intros k vb ib Hk Hkb. apply nth_error_snoc in Hk.
    apply nth_error_snoc in Hkb.
    destruct Hk as [[Hlt Hk]|[-> ->]], Hkb as [[Hlt' Hkb]|[Hk' ->]];
      try lia.
    - now apply (X1 k vb ib).
    - constructor. }
  split.
  { intros vb Hvb. injection Hvb as <-. split.
    - intros k b ivl Hget. discriminate.
    - intros ivl v Hv. apply vertexAt_lt in Hv. simpl in Hv. lia. }
  intros Hs vb Hin. apply in_app_or in Hin. destruct Hin as [Hin|[<-|[]]].
  - now apply D.
  - intros i j vi vj _ Hvi. apply vertexAt_lt in Hvi. simpl in Hvi. lia.
Qed.

Lemma openBuffers_safe (s : bool) (env : Env) (i : nat) (st st' : State)
    (start : nat) :
  Inv st -> Safe s st -> openBuffers env i st = (st', start) -> Safe s st'.
Proof.
  intros HI HS H.
  destruct (@openBuffers_cases env i st HI) as [E|[ib [_ E]]];
    rewrite E in H; injection H as <- <-.
  - now apply Safe_new.
  - exact HS.
Qed.

(* ------------------------------------------------------------------ *)
(** ** One LOD *)

Lemma Inv_frame_only (st st' : State) :
  listExt sameVertex (heap st) (heap st') ->
  closedVertexBuffers st' = closedVertexBuffers st ->
  vertexBuffer st' = vertexBuffer st ->
  closedIndexBuffers st' = closedIndexBuffers st ->
  optRel ibExt (indexBuffer st) (indexBuffer st') ->
  geometries st' = geometries st ->
  uVertex st' = uVertex st ->
  (exists lg, log st' = log st ++ lg) ->
  Inv st -> Inv st'.
Proof.
  intros H1 H2 H3 H4 H5 H6 H7 H8 HI.
  exact (proj1 (@Inv_frame st st' H1 H2 H3 H4 H5 H6 H7 H8 HI)).
Qed.

Ltac solve_inv st0 :=
  apply (@Inv_frame_only st0); simpl;
  [ apply listExt_refl, sameVertex_refl | reflexivity | reflexivity
  | reflexivity | apply optRel_refl, ibExt_refl | reflexivity | reflexivity
  | solve_log | ].

Lemma hasKey_keys (im : list (nat * nat)) (l cs : list nat) :
  (forall k, dict_get Nat.eqb im k <> None <-> In k l) ->
  forallb (hasKey im) cs
  = forallb (fun c => existsb (Nat.eqb c) l) cs.
Proof.
  intros Hk. induction cs as [|c cs IH]; simpl; [reflexivity|].
  rewrite IH. f_equal. unfold hasKey.
  destruct (existsb (Nat.eqb c) l) eqn:E.
  - apply existsb_exists in E. destruct E as [x [Hx Heq]].
    apply Nat.eqb_eq in Heq. subst x. apply Hk in Hx.
    destruct (dict_get Nat.eqb im c); [reflexivity|contradiction].
  - destruct (dict_get Nat.eqb im c) as [ix|] eqn:Ed; [|reflexivity].
    assert (Hin : In c l) by (apply Hk; congruence).
    assert (Ht : existsb (Nat.eqb c) l = true).
    { apply existsb_exists. exists c. split; [exact Hin|].
      apply Nat.eqb_refl. }
    congruence.
Qed.

Lemma map_Some_bound (im : list (nat * nat)) (n : nat) (cs ixs : list nat) :
  (forall k ix, dict_get Nat.eqb im k = Some ix -> (ix < n)%nat) ->
  map (dict_get Nat.eqb im) cs = map Some ixs ->
  Forall (fun ix => (ix < n)%nat) ixs.
Proof.
  intros Hb. revert ixs. induction cs as [|c cs IH]; intros [|x ixs] H;
    simpl in H; try discriminate; constructor.
  - injection H as H _. eapply Hb, H.
  - injection H as _ H. now apply IH.
Qed.

Lemma map_Some_nth {A B : Type} (f : A -> option B) (cs : list A)
    (ixs : list B) (n : nat) (c : A) :
  map f cs = map Some ixs -> nth_error cs n = Some c ->
  exists ix, nth_error ixs n = Some ix /\ f c = Some ix.
Proof.
  intros Hm Hc.
  pose proof (f_equal (fun l => nth_error l n) Hm) as Hn. simpl in Hn.
  rewrite !nth_error_map, Hc in Hn. simpl in Hn.
  destruct (nth_error ixs n) as [ix|]; simpl in Hn; [|discriminate].
  exists ix. split; [reflexivity|]. now injection Hn.
Qed.

Lemma remapVertex_vertexBuffer (acc acc' : State * list nat) (id : nat) :
  remapVertex acc id = Ok acc' ->
  vertexBuffer (fst acc') = vertexBuffer (fst acc).
Proof.
  destruct acc as [st bm]. unfold remapVertex. intros H.
  destruct (getitem (heap st) id) as [v|e]; simpl in H; [|discriminate].
  destruct (remapWeights bm 0 (weights v)) as [[bm' ws] lg].
  injection H as <-. simpl.
  destruct (fold_add_log lg
              (set_heap (setitem (heap st) id (set_weights v ws)) st))
    as (_ & _ & A3 & _).
  simpl in A3. exact A3.
Qed.

(** The bone remap keeps the current vertex buffer. *)
Lemma remapBones_vertexBuffer (n : nat) (st st' : State)
    (bm bm' : list nat) :
  remapBones n st bm = Ok (st', bm') -> vertexBuffer st' = vertexBuffer st.
Proof.
  intros H. unfold remapBones in H.
  destruct (MAX_SKIN_MATRICES <? n)%nat; [|now injection H as <- <-].
  destruct (vertexBuffer st) as [vb|] eqn:E; simpl in H; [|discriminate].
  destruct (elementMask vb) as [m|]; simpl in H; [|discriminate].
  destruct (Z.land m ELEMENT_BLEND =? ELEMENT_BLEND)%Z;
    [|injection H as <- <-; exact E].
  rewrite <- E.
  refine (proj2 (@foldM_inv_rel _ _ remapVertex (fun _ => True)
                   (fun a b => vertexBuffer (fst b) = vertexBuffer (fst a))
                   _ _ _ (vertices vb) (st, bm) (st', bm') I H)).
  - reflexivity.
  - intros a b d H1 H2. congruence.
  - intros a x a' _ Hx. split; [exact I|].
    exact (@remapVertex_vertexBuffer a a' x Hx).
Qed.

(** A buffer that is opened has no mask yet; it is opened for the first
    LOD of a geometry, or when there is none. *)
Lemma openBuffers_masks (env : Env) (i : nat) (st : State)
    (U A : TVertex -> Prop) :
  maskSourced U st -> maskOf A st ->
  ((i =? 0)%nat = true -> forall tv, ~ A tv) ->
  maskSourced U (fst (openBuffers env i st))
  /\ maskOf A (fst (openBuffers env i st)).
Proof.
  intros HQ HA H0.
  assert (Hnew : forall st0, (forall tv, ~ A tv) ->
             vertexBuffer st0 = Some UrhoVertexBuffer_new ->
             maskSourced U st0 /\ maskOf A st0).
  { intros st0 Hn E. split.
    - intros vb m E0 M. rewrite E in E0. injection E0 as <-. discriminate.
    - intros tv Ht. now destruct (Hn tv). }
  unfold openBuffers.
  destruct (vertexBuffer st) as [vb|] eqn:Ev; cbn [truthy_opt negb orb].
  - destruct ((i =? 0)%nat && negb (useOneBuffer env)) eqn:Ec.
    + apply andb_true_iff in Ec. destruct Ec as [Ei _].
      cbn [newVertexBuffer indexBuffer].
      destruct (indexBuffer st); cbn [fst]; apply Hnew; auto.
    + destruct (indexBuffer st) as [ib|]; cbn [fst]; [auto|].
      split.
      * intros vb0 m E0 M. apply (HQ vb0 m); [|exact M].
        simpl in E0. congruence.
      * intros tv Ht. destruct (HA tv Ht) as (vb0 & E0 & M).
        exists vb0. split; [|exact M]. simpl. congruence.
  - assert (Hn : forall tv, ~ A tv).
    { intros tv Ht. destruct (HA tv Ht) as (vb0 & E0 & _). congruence. }
    cbn [newVertexBuffer indexBuffer].
    destruct (indexBuffer st);
      [destruct ((i =? 0)%nat && negb (useOneBuffer env))|];
      cbn [fst]; apply Hnew; auto.
Qed.

(** One LOD (lines 914-1088): when it returns, the LOD is well formed, the
    guarantees still hold, the source vertices of the LOD have the mask of
    the buffer, the new LOD level has its draw range in its buffers and
    draws the corners of the source LOD; when it raises, the LOD explains
    the exception, or two source vertices have different masks. *)
Lemma processLod_total (s : bool) (env : Env) (gi : nat) (st : State)
    (g : UrhoGeometry) (c : Vector3) (i : nat) (tl : TLodLevel)
    (U Added : TVertex -> Prop) :
  (s = true -> strictLods env = true) ->
  Inv st -> Safe s st ->
  maskSourced U st -> maskOf Added st ->
  ((i =? 0)%nat = true -> forall tv, ~ Added tv) ->
  (forall tv, named (verticesList env) (indexSet tl) tv -> U tv) ->
  match processLod env gi (st, g, c) (i, tl) with
  | Ok r =>
      lodWellFormed (length (verticesList env)) tl = true
      /\ Safe s (fst (fst r))
      /\ maskSourced U (fst (fst r))
      /\ maskOf (fun tv => Added tv \/ named (verticesList env) (indexSet tl) tv)
                (fst (fst r))
      /\ exists l,
           lodLevels (snd (fst r)) = lodLevels g ++ [l]
           /\ lodRangeOk (vertexBuffers (fst (fst r)))
                         (indexBuffers (fst (fst r))) l
           /\ lodFaithful env (fst (fst r)) (i, tl) l
  | Raise e =>
      lodFailure (bonesCount env) (length (verticesList env)) tl e
      \/ (e = TypeError /\ maskClash U)
  end.
Proof.
  intros Hstrict HI HS HQ HA Hi0 HU. unfold processLod. cbv zeta.
  set (stL := if (i =? 0)%nat && negb (Qeq_bool (tl_distance tl) 0)
              then add_log (ErrorFirstLodDistance gi (tl_distance tl)) st
              else st).
  assert (HL : Inv stL /\ Safe s stL).
  { unfold stL. destruct ((i =? 0)%nat && negb (Qeq_bool (tl_distance tl) 0)).
    - split; [solve_inv st; exact HI|].
      apply (@Safe_frame s st); auto.
    - auto. }
  destruct HL as [HIL HSL].
  assert (HML : maskSourced U stL /\ maskOf Added stL).
  { unfold stL. destruct ((i =? 0)%nat && negb (Qeq_bool (tl_distance tl) 0));
      auto. }
  destruct HML as [HQL HAL].
  destruct (@openBuffers_masks env i stL U Added HQL HAL Hi0) as [HQB HAB].
  destruct (openBuffers env i stL) as [stB start] eqn:Eo.
  cbn [fst] in HQB, HAB.
  destruct (@openBuffers_spec env i stL stB start HIL Eo)
    as (HIB & _ & _ & _ & _ & _ & vbB & ibB & EvB & EiB & ->).
  pose proof (@openBuffers_safe s env i stL stB _ HIL HSL Eo) as HSB.
  destruct (Inv_lengths HIB) as [HlenB _].
  (* the vertex loop *)
  assert (Hst' : s = true -> (i =? 0)%nat || strictLods env = true).
  { intros Hs. rewrite (Hstrict Hs). apply orb_true_r. }
  pose proof (@addVertex_loop_total s ((i =? 0)%nat || strictLods env) i
                (verticesList env) (indexSet tl) stB vbB false U Added
                Hst' HIB HSB EvB HQB HAB HU) as Hv.
  destruct (foldM (addVertex (verticesList env)
                             ((i =? 0)%nat || strictLods env) i)
                  (indexSet tl) (stB, [], false))
    as [[[st1 im] w]|e] eqn:Ev; cbn [bind].
  2:{ destruct Hv as [[-> Hv]|Hc]; [|now right].
      left. left. split; [now left|].
      unfold lodWellFormed. now rewrite Hv. }
  destruct Hv
    as (Hwf1 & (HI1 & HS1 & (vb1 & Ev1 & Him & Hmask1 & Hfaith) & Hkeys)
        & HQ1 & HA1).
  cbn [fst snd] in *.
  assert (Hin1 : inner stB st1).
  { apply (@foldM_inv_rel _ _
             (addVertex (verticesList env) ((i =? 0)%nat || strictLods env) i)
             (fun a => Inv (fst (fst a)))
             (fun a b => inner (fst (fst a)) (fst (fst b))))
      with (l := indexSet tl) (a := (stB, [], false)) (a' := (st1, im, w));
      auto.
    - intros a. apply inner_refl.
    - intros a b d. apply inner_trans.
    - intros a x a' Ha Hx. eapply addVertex_inv; eassumption. }
  assert (Ei1 : indexBuffer st1 = Some ibB).
  { rewrite <- EiB.
    exact (@addVertex_loop_indexBuffer _ _ _ _ _ _ Ev). }
  (* the warning and the model index map *)
  cbv beta iota. cbn [lodVertexBuffer].
  set (st2 := set_modelIndexMap _ _).
  assert (H2 : (Inv st2 /\ inner st1 st2) /\ Safe s st2
               /\ vertexBuffer st2 = Some vb1
               /\ indexBuffer st2 = Some ibB
               /\ closedVertexBuffers st2 = closedVertexBuffers st1
               /\ closedIndexBuffers st2 = closedIndexBuffers st1).
  { unfold st2. destruct w.
    - split; [solve_frame; exact HI1|].
      split; [apply (@Safe_frame s st1); auto|]. simpl. auto.
    - split; [solve_frame; exact HI1|].
      split; [apply (@Safe_frame s st1); auto|]. simpl. auto. }
  destruct H2 as ((HI2 & Hin12) & HS2 & Ev2 & Ei2 & Ec2 & Eci2).
  clearbody st2.
  (* the triangle loop *)
  pose proof (@addIndex_loop_total i im (corners (triangleList tl)) st2 0%nat
                c vb1 HI2 Ev2 Him) as Ht.
  destruct (foldM (addIndex i im) (corners (triangleList tl)) (st2, 0%nat, c))
    as [[[st3 cc] c3]|e] eqn:Et; cbn [bind].
  2:{ destruct Ht as [-> Ht]. left. left. split; [now right|].
      unfold lodWellFormed.
      rewrite <- (@hasKey_keys im (indexSet tl) _ Hkeys), Ht.
      apply andb_false_r. }
  destruct (@addIndex_loop _ _ _ _ _ _ _ _ _ Et) as (ixs & Hixs & -> & _).
  destruct (append_indexes_inv ixs HI2) as [HI3 Hin23].
  pose proof (@map_Some_bound im (length (vertices vb1)) _ ixs Him Hixs)
    as Hbound.
  pose proof (@Safe_append_indexes s st2 vb1 ixs HI2 HS2 Ev2 Hbound) as HS3.
  destruct (append_indexes_fields st2 ixs)
    as (F1 & F2 & F3 & F4 & F5 & F6 & F7).
  rewrite Ei2 in F7. simpl in F7. rewrite Ev2 in F3.
  (* the bone remap *)
  cbv beta iota.
  pose proof (@remapBones_total (bonesCount env) (append_indexes st2 ixs)
                (boneMap g) vb1 HI3 F3) as Hr.
  destruct (remapBones (bonesCount env) (append_indexes st2 ixs) (boneMap g))
    as [[st4 bm]|e] eqn:Er; cbn [bind].
  2:{ destruct Hr as (-> & Hn & Hm). left. right. split; [reflexivity|].
      split; [exact Hn|]. unfold emptyLod.
      destruct (indexSet tl) as [|x r]; [reflexivity|].
      exfalso. apply Hmask1; [discriminate|exact Hm]. }
  cbn [fst snd] in *. cbv beta iota. cbn [fst snd lodLevels].
  pose proof (@Safe_still s _ st4 HI3 Hr HS3) as HS4.
  destruct (@remapBones_inv _ _ _ _ _ HI3 Er) as [_ Hin34].
  assert (Hin14 : inner st1 st4).
  { exact (@inner_trans _ _ _ Hin12 (@inner_trans _ _ _ Hin23 Hin34)). }
  split.
  { unfold lodWellFormed. rewrite Hwf1.
    now rewrite <- (@hasKey_keys im (indexSet tl) _ Hkeys), Ht. }
  split; [exact HS4|].
  assert (Ev4' : vertexBuffer st4 = Some vb1).
  { rewrite (@remapBones_vertexBuffer _ _ _ _ _ Er). exact F3. }
  split.
  { intros vb m E M. rewrite Ev4' in E. injection E as <-.
    exact (HQ1 vb1 m Ev1 M). }
  split.
  { intros tv Ht0. destruct (HA1 tv Ht0) as (vb & E & M).
    rewrite Ev1 in E. injection E as <-. now exists vb1. }
  eexists. split; [reflexivity|].
  destruct Hr as (_ & R2 & R3 & R4 & R5 & _).
  rewrite F3 in R3. rewrite F7 in R5. rewrite F2 in R2. rewrite F4 in R4.
  destruct (vertexBuffer st4) as [vb4|] eqn:Ev4; simpl in R3;
    [|contradiction].
  assert (Hc1 : closedVertexBuffers st1 = closedVertexBuffers stB)
    by (destruct Hin1 as (A & _); exact A).
  assert (Hci1 : closedIndexBuffers st1 = closedIndexBuffers stB)
    by (destruct Hin1 as (_ & A & _); exact A).
  assert (HlenV : length (vertexBuffers stB)
                  = S (length (closedVertexBuffers stB))).
  { unfold vertexBuffers. rewrite EvB, length_app. simpl. lia. }
  assert (HlenI : length (indexBuffers stB)
                  = S (length (closedIndexBuffers stB))).
  { unfold indexBuffers. rewrite EiB, length_app. simpl. lia. }
  assert (Hnv : nth_error (vertexBuffers st4) (length (vertexBuffers stB) - 1)
                = Some vb4).
  { rewrite HlenV. unfold vertexBuffers. rewrite Ev4, R2, Ec2, Hc1. simpl.
    rewrite Nat.sub_0_r, nth_error_app2, Nat.sub_diag by lia. reflexivity. }
  assert (Hni : nth_error (indexBuffers st4) (length (indexBuffers stB) - 1)
                = Some {| indexSize := indexSize ibB;
                          indexes := indexes ibB ++ ixs |}).
  { rewrite HlenI. unfold indexBuffers. rewrite R5, R4, Eci2, Hci1. simpl.
    rewrite Nat.sub_0_r, nth_error_app2, Nat.sub_diag by lia. reflexivity. }
  split.
  { unfold lodRangeOk.
    cbn [lodIndexBuffer lodVertexBuffer startIndex countIndex].
    split; [congruence|].
    eexists _, _. split; [exact Hnv|]. split; [exact Hni|].
    simpl. rewrite length_app.
    assert (Hlenixs : length ixs = (length (triangleList tl) * 3)%nat).
    { transitivity (length (map (@Some nat) ixs)); [now rewrite length_map|].
      rewrite <- Hixs, length_map. apply corners_length. }
    lia. }
  (* the corners *)
  intros Hnw. cbn [fst snd].
  assert (Hnw1 : no_mask_warning (log st1)).
  { destruct Hin14 as (_ & _ & _ & _ & _ & _ & lg & Hl).
    rewrite Hl in Hnw. eapply no_mask_warning_app, Hnw. }
  assert (Hf4 : faithfulMap (verticesList env)
                  ((i =? 0)%nat || strictLods env) (heap st4) vb4 im).
  { apply (@faithfulMap_grow _ _ (heap st1) (heap st4) vb1 vb4 im).
    - destruct Hin14 as (_ & _ & _ & _ & _ & A & _). exact A.
    - exists []. rewrite app_nil_r. tauto.
    - exact (Hfaith Hnw1). }
  unfold cornersOk. cbn [lodIndexBuffer lodVertexBuffer startIndex].
  eexists _, _. split; [exact Hnv|]. split; [exact Hni|].
  intros n c0 Hc0.
  destruct (@map_Some_nth _ _ (dict_get Nat.eqb im) _ ixs n c0 Hixs Hc0)
    as [ix [Hix Hd]].
  destruct (Hf4 c0 ix Hd) as (tv & v & A & B & C).
  exists ix, tv, v. split; [|auto]. simpl.
  rewrite nth_error_app2 by lia.
  now replace (length (indexes ibB) + n - length (indexes ibB))%nat with n
    by lia.
Qed.

(* ------------------------------------------------------------------ *)
(** ** The LODs of a geometry, the geometries of a model *)

Lemma lodRangeOk_ext (st st' : State) (l : UrhoLodLevel) :
  ext st st' ->
  lodRangeOk (vertexBuffers st) (indexBuffers st) l ->
  lodRangeOk (vertexBuffers st') (indexBuffers st') l.
Proof.
  intros (_ & Hv & Hi & _) (Heq & vb & ib & A & B & C).
  split; [exact Heq|].
  destruct (Hv _ _ A) as [vb' [A' _]].
  destruct (Hi _ _ B) as [ib' [B' [tail Ht]]].
  exists vb', ib'. split; [exact A'|]. split; [exact B'|].
  rewrite Ht, length_app. lia.
Qed.

Lemma rangesOk_ext (st st' : State) (gs : list UrhoGeometry) :
  ext st st' -> rangesOk st gs -> rangesOk st' gs.
Proof.
  intros He H g l Hg Hl. eapply lodRangeOk_ext; [exact He|].
  exact (H g l Hg Hl).
Qed.

Lemma lodFaithful_ext (env : Env) (st st' : State) (p : nat * TLodLevel)
    (l : UrhoLodLevel) :
  ext st st' -> lodFaithful env st p l -> lodFaithful env st' p l.
Proof.
  intros (Hh & Hv & Hi & _ & lg & Hl) Hf Hnw.
  assert (Hnw0 : no_mask_warning (log st)).
  { rewrite Hl in Hnw. eapply no_mask_warning_app, Hnw. }
  destruct (Hf Hnw0) as (vb & ib & A & B & C).
  destruct (Hv _ _ A) as [vb' [A' [Htail _]]].
  destruct (Hi _ _ B) as [ib' [B' [tail Ht]]].
  exists vb', ib'. split; [exact A'|]. split; [exact B'|].
  intros n c Hc. destruct (C n c Hc) as (ix & tv & v & D1 & D2 & D3 & D4).
  destruct (@vertexAt_grow (heap st) (heap st') vb vb' ix v Hh Htail D3)
    as [v' [Hv' Hs]].
  exists ix, tv, v'. split.
  { rewrite Ht. rewrite nth_error_app1; [exact D1|].
    apply nth_error_Some. congruence. }
  split; [exact D2|]. split; [exact Hv'|].
  exact (@alike_same _ v v' _ Hs D4).
Qed.

Lemma geometryFaithful_ext (env : Env) (st st' : State) (tg : TGeometry)
    (g : UrhoGeometry) :
  ext st st' -> geometryFaithful env st tg g -> geometryFaithful env st' tg g.
Proof.
  intros He. unfold geometryFaithful. apply Forall2_impl.
  intros p l. now apply lodFaithful_ext.
Qed.

Lemma forallb_enumerate {A : Type} (f : A -> bool) (l : list A) :
  forall k, forallb (fun p => f (snd p)) (combine (seq k (length l)) l)
            = forallb f l.
Proof.
  induction l as [|a l IH]; intros k; simpl; [reflexivity|].
  now rewrite IH.
Qed.

Lemma in_enumerate {A : Type} (l : list A) (p : nat * A) :
  In p (enumerate l) -> In (snd p) l.
Proof.
  unfold enumerate. destruct p as [i a]. intros H.
  now apply in_combine_r in H.
Qed.

Lemma enumerate_place {A : Type} (l : list A) (done : list (nat * A))
    (i : nat) (a : A) (rest : list (nat * A)) :
  enumerate l = done ++ (i, a) :: rest -> i = length done.
Proof.
  unfold enumerate.
  assert (H : forall (done : list (nat * A)) (l : list A) (k : nat),
             combine (seq k (length l)) l = done ++ (i, a) :: rest ->
             i = (k + length done)%nat).
  { clear. induction done as [|d done IH]; intros [|x l] k H; simpl in H;
      try discriminate.
    - injection H as <- _ _. simpl. lia.
    - injection H as _ H. rewrite (IH l (S k) H). simpl. lia. }
  intros E. now rewrite (H done l 0%nat E).
Qed.

Lemma enumerate_in {A : Type} (l : list A) (a : A) :
  In a l -> exists i, In (i, a) (enumerate l).
Proof.
  unfold enumerate. generalize 0%nat.
  induction l as [|x l IH]; intros k H; [destruct H|].
  simpl. destruct H as [->|H].
  - exists k. now left.
  - destruct (IH (S k) H) as [i Hi]. exists i. now right.
Qed.

(** One geometry (lines 904-1088). *)
Lemma processGeometry_total (s : bool) (env : Env) (st : State)
    (tg : TGeometry) (U : TVertex -> Prop) :
  (s = true -> strictLods env = true) ->
  Inv st -> Safe s st -> rangesOk st (geometries st) ->
  maskSourced U st ->
  (forall tv, usedBy (verticesList env) tg tv -> U tv) ->
  match processGeometry env st tg with
  | Ok st' =>
      forallb (lodWellFormed (length (verticesList env))) (tg_lodLevels tg)
      = true
      /\ Inv st' /\ Safe s st' /\ rangesOk st' (geometries st')
      /\ ext st st'
      /\ maskSourced U st'
      /\ uniformMasks (verticesList env) tg
      /\ exists g, geometries st' = geometries st ++ [g]
                   /\ geometryFaithful env st' tg g
  | Raise e =>
      (exists tl, In tl (tg_lodLevels tg)
                  /\ lodFailure (bonesCount env) (length (verticesList env))
                                tl e)
      \/ (e = TypeError /\ maskClash U)
  end.
Proof.
  intros Hstrict HI HS HR HQ HU.
  set (added := fun (done : list (nat * TLodLevel)) (tv : TVertex) =>
                  exists p, In p done
                            /\ named (verticesList env) (indexSet (snd p)) tv).
  pose proof (@foldM_total _ _ (processLod env (length (geometries st)))
                (fun done acc =>
                   Inv (fst (fst acc)) /\ Safe s (fst (fst acc))
                   /\ ext st (fst (fst acc))
                   /\ geometries (fst (fst acc)) = geometries st
                   /\ rangesOk (fst (fst acc)) [snd (fst acc)]
                   /\ Forall2 (lodFaithful env (fst (fst acc))) done
                              (lodLevels (snd (fst acc)))
                   /\ maskSourced U (fst (fst acc))
                   /\ maskOf (added done) (fst (fst acc)))
                (fun p => lodWellFormed (length (verticesList env)) (snd p))
                (fun p e => lodFailure (bonesCount env)
                                       (length (verticesList env)) (snd p) e
                            \/ (e = TypeError /\ maskClash U))
                (enumerate (tg_lodLevels tg))) as H.
  assert (Hstep : forall (done : list (nat * TLodLevel)) (x : nat * TLodLevel)
                    (rest : list (nat * TLodLevel))
                    (a : State * UrhoGeometry * Vector3),
             enumerate (tg_lodLevels tg) = done ++ x :: rest ->
             Inv (fst (fst a)) /\ Safe s (fst (fst a))
             /\ ext st (fst (fst a))
             /\ geometries (fst (fst a)) = geometries st
             /\ rangesOk (fst (fst a)) [snd (fst a)]
             /\ Forall2 (lodFaithful env (fst (fst a))) done
                        (lodLevels (snd (fst a)))
             /\ maskSourced U (fst (fst a))
             /\ maskOf (added done) (fst (fst a)) ->
             match processLod env (length (geometries st)) a x with
             | Ok a' =>
                 lodWellFormed (length (verticesList env)) (snd x) = true
                 /\ Inv (fst (fst a')) /\ Safe s (fst (fst a'))
                 /\ ext st (fst (fst a'))
                 /\ geometries (fst (fst a')) = geometries st
                 /\ rangesOk (fst (fst a')) [snd (fst a')]
                 /\ Forall2 (lodFaithful env (fst (fst a'))) (done ++ [x])
                            (lodLevels (snd (fst a')))
                 /\ maskSourced U (fst (fst a'))
                 /\ maskOf (added (done ++ [x])) (fst (fst a'))
             | Raise e =>
                 lodFailure (bonesCount env) (length (verticesList env))
                            (snd x) e
                 \/ (e = TypeError /\ maskClash U)
             end).
  { intros done [i tl] rest [[sa ga] ca] Hl
           (HIa & HSa & Hea & Hga & HRa & HFa & HQa & HAa).
    cbn [fst snd] in *.
    assert (Hi0 : (i =? 0)%nat = true -> forall tv, ~ added done tv).
    { intros Hi tv (p & Hp & _). apply Nat.eqb_eq in Hi.
      rewrite (@enumerate_place _ _ _ _ _ _ Hl) in Hi.
      destruct done; [destruct Hp|discriminate]. }
    assert (HUl : forall tv, named (verticesList env) (indexSet tl) tv ->
                             U tv).
    { intros tv Hn. apply HU. exists tl. split; [|exact Hn].
      apply (@in_enumerate _ (tg_lodLevels tg) (i, tl)).
      rewrite Hl. apply in_or_app. right. now left. }
    pose proof (@processLod_total s env (length (geometries st)) sa ga ca i tl
                  U (added done) Hstrict HIa HSa HQa HAa Hi0 HUl) as Ht.
    destruct (processLod env (length (geometries st)) (sa, ga, ca) (i, tl))
      as [[[sb gb] cb]|e] eqn:Ep; [|exact Ht].
    cbn [fst snd] in Ht.
    destruct Ht as (Hwf & HSb & HQb & HAb & l & Hl' & Hrange & Hfaith).
    destruct (@processLod_spec env (length (geometries st)) sa sb ga gb ca cb
                i tl HIa Ep) as (HIb & Heb & Hgb & _).
    cbn [fst snd]. split; [exact Hwf|]. split; [exact HIb|]. split; [exact HSb|].
    split; [eapply ext_trans; eassumption|]. split; [congruence|].
    split.
    { intros g l0 [<-|[]] Hl0. rewrite Hl' in Hl0. apply in_app_or in Hl0.
      destruct Hl0 as [Hl0|[<-|[]]]; [|exact Hrange].
      eapply lodRangeOk_ext; [exact Heb|].
      apply (HRa ga l0); [now left|exact Hl0]. }
    split.
    { rewrite Hl'. apply Forall2_app.
      - eapply Forall2_impl; [|exact HFa].
        intros p l0. now apply lodFaithful_ext.
      - constructor; [exact Hfaith|constructor]. }
    split; [exact HQb|].
    intros tv (p & Hp & Hn). apply HAb. apply in_app_or in Hp.
    destruct Hp as [Hp|[<-|[]]]; [left; now exists p|now right]. }
  specialize (H Hstep (st, mkUrhoGeometry [] [] vzero, vzero)).
  assert (H0 : Inv st /\ Safe s st /\ ext st st
               /\ geometries st = geometries st
               /\ rangesOk st [mkUrhoGeometry [] [] vzero]
               /\ Forall2 (lodFaithful env st) []
                          (lodLevels (mkUrhoGeometry [] [] vzero))
               /\ maskSourced U st /\ maskOf (added []) st).
  { split; [exact HI|]. split; [exact HS|].
    split; [apply ext_refl|]. split; [reflexivity|].
    split; [intros g l [<-|[]] []|]. split; [constructor|].
    split; [exact HQ|]. intros tv (p & [] & _). }
  specialize (H H0).
  unfold processGeometry.
  destruct (foldM (processLod env (length (geometries st)))
                  (enumerate (tg_lodLevels tg))
                  (st, mkUrhoGeometry [] [] vzero, vzero))
    as [[[st' g'] c']|e]; cbn [bind].
  - destruct H as (Hall & HI' & HS' & He' & Hg' & HR' & HF' & HQ' & HA').
    cbn [fst snd] in *.
    split.
    { unfold enumerate in Hall. now rewrite forallb_enumerate in Hall. }
    split; [exact HI'|]. split; [exact HS'|].
    assert (Hvb : vertexBuffers (set_geometries (geometries st' ++ [g']) st')
                  = vertexBuffers st') by reflexivity.
    assert (Hib : indexBuffers (set_geometries (geometries st' ++ [g']) st')
                  = indexBuffers st') by reflexivity.
    split.
    { intros g l Hg Hl. rewrite Hvb, Hib. simpl in Hg.
      apply in_app_or in Hg. destruct Hg as [Hg|[<-|[]]].
      + rewrite Hg' in Hg. eapply lodRangeOk_ext; [exact He'|].
        exact (HR g l Hg Hl).
      + apply (HR' g' l); [now left|exact Hl]. }
    split.
    { destruct He' as (E1 & E2 & E3 & _ & E5).
      split; [exact E1|]. split; [exact E2|]. split; [exact E3|].
      split; [|exact E5]. exists [g']. simpl. now rewrite Hg'. }
    split; [exact HQ'|].
    split.
    { assert (Hm : forall tv, usedBy (verticesList env) tg tv ->
                     exists vb, vertexBuffer st' = Some vb
                                /\ elementMask vb = Some (sourceMask tv)).
      { intros tv (tl & Htl & Hn). apply HA'.
        destruct (@enumerate_in _ _ _ Htl) as [i Hi]. now exists (i, tl). }
      intros tv1 tv2 H1 H2.
      destruct (Hm tv1 H1) as (vb1 & E1 & M1).
      destruct (Hm tv2 H2) as (vb2 & E2 & M2). congruence. }
    exists g'. split; [simpl; now rewrite Hg'|]. exact HF'.
  - destruct H as [[i tl] [Hin [He|He]]]; [left|now right].
    exists tl. split; [|exact He].
    apply (@in_enumerate _ (tg_lodLevels tg) (i, tl) Hin).
Qed.

Lemma Safe_initial (s : bool) (errors : list Z) :
  Safe s (initialState errors).
Proof.
  unfold Safe, initialState, vertexBuffers, indexBuffers. simpl.
  split; [tauto|]. split; [intros vb []|]. split.
  { intros k vb ib Hk. destruct k; discriminate. }
  split; [intros vb H; discriminate|]. intros _ vb [].
Qed.

(** What lines 877-1102 do, for every input: they return a model that
    keeps the guarantees, from geometries of one mask each, or raise for a
    reason the input explains. *)
Lemma exportGeometries_outcome (tData : TData) (opts : UrhoExportOptions)
    (errors : list Z) :
  match exportGeometries tData opts errors with
  | Ok um =>
      wellFormed tData = true
      /\ Forall (uniformMasks (td_verticesList tData))
                (td_geometriesList tData)
      /\ exists st,
           Inv st /\ Safe (useStrictLods opts) st
           /\ rangesOk st (geometries st)
           /\ um_store um = heap st
           /\ um_vertexBuffers um = vertexBuffers st
           /\ um_indexBuffers um = map setIndexSize (indexBuffers st)
           /\ um_geometries um = geometries st
           /\ (forall p, inside (boundingBox st) p ->
                         inside (um_boundingBox um) p)
           /\ (exists lg, um_log um = log st ++ lg)
           /\ Forall2 (geometryFaithful (exportEnv tData opts) st)
                      (td_geometriesList tData) (geometries st)
  | Raise e => exportFailure tData e
  end.
Proof.
  set (s := useStrictLods opts). set (env := exportEnv tData opts).
  assert (Hstrict : s = true -> strictLods env = true) by (intros H; exact H).
  pose proof (@foldM_total _ _ (processGeometry env)
                (fun done st => Inv st /\ Safe s st
                                /\ rangesOk st (geometries st)
                                /\ Forall2 (geometryFaithful env st) done
                                           (geometries st)
                                /\ maskSourced (used tData) st
                                /\ Forall (uniformMasks (verticesList env))
                                          done)
                (fun tg => forallb (lodWellFormed (length (verticesList env)))
                                   (tg_lodLevels tg))
                (fun tg e =>
                   (exists tl, In tl (tg_lodLevels tg)
                               /\ lodFailure (bonesCount env)
                                             (length (verticesList env)) tl e)
                   \/ (e = TypeError /\ maskClash (used tData)))
                (td_geometriesList tData)) as H.
  assert (Hstep : forall (done : list TGeometry) (x : TGeometry)
                    (rest : list TGeometry) (a : State),
             td_geometriesList tData = done ++ x :: rest ->
             Inv a /\ Safe s a /\ rangesOk a (geometries a)
             /\ Forall2 (geometryFaithful env a) done (geometries a)
             /\ maskSourced (used tData) a
             /\ Forall (uniformMasks (verticesList env)) done ->
             match processGeometry env a x with
             | Ok a' =>
                 forallb (lodWellFormed (length (verticesList env)))
                         (tg_lodLevels x) = true
                 /\ Inv a' /\ Safe s a' /\ rangesOk a' (geometries a')
                 /\ Forall2 (geometryFaithful env a') (done ++ [x])
                            (geometries a')
                 /\ maskSourced (used tData) a'
                 /\ Forall (uniformMasks (verticesList env)) (done ++ [x])
             | Raise e =>
                 (exists tl, In tl (tg_lodLevels x)
                             /\ lodFailure (bonesCount env)
                                           (length (verticesList env)) tl e)
                 \/ (e = TypeError /\ maskClash (used tData))
             end).
  { intros done x rest a Hl (HIa & HSa & HRa & HFa & HQa & HUa).
    assert (HU : forall tv, usedBy (verticesList env) x tv -> used tData tv).
    { intros tv Hu. exists x. split; [|exact Hu].
      rewrite Hl. apply in_or_app. right. now left. }
    pose proof (@processGeometry_total s env a x (used tData)
                  Hstrict HIa HSa HRa HQa HU) as Ht.
    destruct (processGeometry env a x) as [a'|e]; [|exact Ht].
    destruct Ht as (Hwf & HI' & HS' & HR' & He' & HQ' & Hun & g & Hg & HF').
    split; [exact Hwf|]. split; [exact HI'|]. split; [exact HS'|].
    split; [exact HR'|]. split.
    { rewrite Hg. apply Forall2_app.
      - eapply Forall2_impl; [|exact HFa].
        intros tg g0. now apply geometryFaithful_ext.
      - constructor; [exact HF'|constructor]. }
    split; [exact HQ'|].
    apply Forall_app. split; [exact HUa|]. constructor; [exact Hun|constructor]. }
  specialize (H Hstep (initialState errors)).
  assert (H0 : Inv (initialState errors) /\ Safe s (initialState errors)
               /\ rangesOk (initialState errors)
                           (geometries (initialState errors))
               /\ Forall2 (geometryFaithful env (initialState errors)) []
                          (geometries (initialState errors))
               /\ maskSourced (used tData) (initialState errors)
               /\ Forall (uniformMasks (verticesList env)) []).
  { split; [apply Inv_initial|]. split; [apply Safe_initial|].
    split; [intros g l []|]. split; [constructor|].
    split; [|constructor]. intros vb m E. discriminate. }
  specialize (H H0).
  unfold exportGeometries. fold env.
  destruct (foldM (processGeometry env) (td_geometriesList tData)
                  (initialState errors)) as [st|e]; cbn [bind].
  - destruct H as (Hall & HI & HS & HR & HF & _ & Hun).
    split; [exact Hall|]. split; [exact Hun|]. exists st.
    split; [exact HI|]. split; [exact HS|]. split; [exact HR|].
    destruct (td_geometriesList tData) as [|tg r] eqn:Eg; simpl;
      [repeat split; auto; solve_log|].
    destruct (bbmin (boundingBox st)) as [mn|] eqn:Eb; simpl;
      repeat split; auto; try solve_log.
    intros p (mn & mx & Hmn & _). congruence.
  - unfold exportFailure.
    destruct H as [tg [Hin [[tl [Htl He]]|Hc]]]; [|right; now right].
    destruct He as [[He Hwf]|(He & Hn & Hempty)].
    + left. split; [exact He|]. unfold wellFormed.
      apply not_true_is_false. intros Hall.
      rewrite forallb_forall in Hall. specialize (Hall tg Hin).
      rewrite forallb_forall in Hall. specialize (Hall tl Htl).
      unfold env in Hwf. simpl in Hwf. congruence.
    + right. left. split; [exact He|]. split; [exact Hn|]. now exists tg, tl.
Qed.

Lemma exportGeometries_total (tData : TData) (opts : UrhoExportOptions)
    (errors : list Z) :
  match exportGeometries tData opts errors with
  | Ok um =>
      wellFormed tData = true
      /\ exists st,
           Inv st /\ Safe (useStrictLods opts) st
           /\ rangesOk st (geometries st)
           /\ um_store um = heap st
           /\ um_vertexBuffers um = vertexBuffers st
           /\ um_indexBuffers um = map setIndexSize (indexBuffers st)
           /\ um_geometries um = geometries st
           /\ (forall p, inside (boundingBox st) p ->
                         inside (um_boundingBox um) p)
           /\ (exists lg, um_log um = log st ++ lg)
           /\ Forall2 (geometryFaithful (exportEnv tData opts) st)
                      (td_geometriesList tData) (geometries st)
  | Raise e => exportFailure tData e
  end.
Proof.
  pose proof (exportGeometries_outcome tData opts errors) as H.
  destruct (exportGeometries tData opts errors) as [um|e]; [|exact H].
  destruct H as (Hwf & _ & H). auto.
Qed.

(* ------------------------------------------------------------------ *)
(** ** Guarantees of the exported model *)

(** X7.  The geometry stage returns only for well-formed input whose
    geometries have one element mask each: every entry of a LOD's index set
    is a position of the vertices list, every triangle corner is in the
    index set of its LOD, and the source vertices that the LODs of one
    geometry name all have the same element mask.  When it raises, it
    raises [IndexError] or [KeyError] and the input is not well formed, or
    it raises [TypeError] and either there are more than 64 bones and some
    LOD has an empty index set, or two source vertices named by the
    geometries have different element masks (the handler of [MaskError]
    fails to format its warning). *)
Theorem geometry_stage_raises_only_for_malformed_input
    (tData : TData) (opts : UrhoExportOptions) (errors : list Z) :
  match exportGeometries tData opts errors with
  | Ok _ =>
      wellFormed tData = true
      /\ forall tg, In tg (td_geometriesList tData) ->
                    uniformMasks (td_verticesList tData) tg
  | Raise e => exportFailure tData e
  end.
Proof.
  pose proof (exportGeometries_outcome tData opts errors) as H.
  destruct (exportGeometries tData opts errors) as [um|e]; [|exact H].
  destruct H as (Hwf & Hun & _). split; [exact Hwf|].
  now apply Forall_forall.
Qed.

(** X8.  In an exported model every LOD level refers to a vertex buffer
    and an index buffer that exist and have the same number, its draw range
    lies inside the index buffer, and every index of that buffer is the
    place of a vertex of the vertex buffer, which is in the store. *)
Theorem lod_draw_ranges_are_valid (tData : TData) (opts : UrhoExportOptions)
    (errors : list Z) (um : UrhoModel) :
  exportGeometries tData opts errors = Ok um ->
  forall g l,
    In g (um_geometries um) -> In l (lodLevels g) ->
    lodIndexBuffer l = lodVertexBuffer l
    /\ exists vb ib,
         nth_error (um_vertexBuffers um) (lodVertexBuffer l) = Some vb
         /\ nth_error (um_indexBuffers um) (lodIndexBuffer l) = Some ib
         /\ (startIndex l + countIndex l <= length (indexes ib))%nat
         /\ forall ix, In ix (indexes ib) ->
              exists id v, nth_error (vertices vb) ix = Some id
                           /\ nth_error (um_store um) id = Some v.
Proof.
  intros H g l Hg Hl.
  pose proof (exportGeometries_total tData opts errors) as Ht.
  rewrite H in Ht.
  destruct Ht as (_ & st & HI & HS & HR & Es & Ev & Ei & Eg & _).
  rewrite Eg in Hg. destruct (HR g l Hg Hl) as (Heq & vb & ib & A & B & C).
  split; [exact Heq|]. exists vb, (setIndexSize ib).
  rewrite Es, Ev, Ei. split; [exact A|].
  split; [now rewrite nth_error_map, B|]. split; [exact C|].
  intros ix Hix. simpl in Hix.
  destruct HS as (_ & _ & X1 & _). rewrite Heq in B.
  pose proof (X1 _ vb ib A B) as Hp. unfold placesOk in Hp.
  rewrite Forall_forall in Hp. specialize (Hp ix Hix).
  destruct (nth_error (vertices vb) ix) as [id|] eqn:En.
  - assert (Hs : stored (heap st) vb).
    { apply Inv_stored; [exact HI|]. eapply nth_error_In; exact A. }
    destruct (Hs id (nth_error_In _ _ En)) as [v Hv]. now exists id, v.
  - apply nth_error_None in En. lia.
Qed.

Lemma lod_draw_ranges_are_valid_witness :
  exists um,
    exportGeometries two_triangles default_options [] = Ok um
    /\ forall g l,
         In g (um_geometries um) -> In l (lodLevels g) ->
         lodIndexBuffer l = lodVertexBuffer l
         /\ exists vb ib,
              nth_error (um_vertexBuffers um) (lodVertexBuffer l) = Some vb
              /\ nth_error (um_indexBuffers um) (lodIndexBuffer l) = Some ib
              /\ (startIndex l + countIndex l <= length (indexes ib))%nat
              /\ forall ix, In ix (indexes ib) ->
                   exists id v, nth_error (vertices vb) ix = Some id
                                /\ nth_error (um_store um) id = Some v.
Proof.
  eexists. split; [vm_compute; reflexivity|].
  apply (@lod_draw_ranges_are_valid two_triangles default_options []).
  vm_compute. reflexivity.
Defined.

(** X9.  The bounding box of an exported model holds the position of every
    vertex of every vertex buffer that has a position channel. *)
Theorem bounding_box_holds_every_position (tData : TData)
    (opts : UrhoExportOptions) (errors : list Z) (um : UrhoModel) :
  exportGeometries tData opts errors = Ok um ->
  forall vb id,
    In vb (um_vertexBuffers um) -> has_position vb -> In id (vertices vb) ->
    exists v p, nth_error (um_store um) id = Some v /\ pos v = Some p
                /\ inside (um_boundingBox um) p.
Proof.
  intros H vb id Hvb Hp Hid.
  pose proof (exportGeometries_total tData opts errors) as Ht.
  rewrite H in Ht.
  destruct Ht as (_ & st & HI & HS & _ & Es & Ev & _ & _ & Hbox & _).
  rewrite Ev in Hvb. destruct HS as (_ & B2 & _).
  destruct (B2 vb Hvb Hp id Hid) as (v & p & Hv & Hpv & Hin).
  exists v, p. rewrite Es. auto.
Qed.

Lemma bounding_box_holds_every_position_witness :
  exists um,
    exportGeometries two_triangles default_options [] = Ok um
    /\ forall vb id,
         In vb (um_vertexBuffers um) -> has_position vb ->
         In id (vertices vb) ->
         exists v p, nth_error (um_store um) id = Some v /\ pos v = Some p
                     /\ inside (um_boundingBox um) p.
Proof.
  eexists. split; [vm_compute; reflexivity|].
  apply (@bounding_box_holds_every_position two_triangles default_options []).
  vm_compute. reflexivity.
Defined.

(** X10.  With [useStrictLods] set, no vertex buffer of an exported model
    holds two vertices with the same hash (so none with the same position)
    that are almost equal: a vertex is stored once. *)
Theorem strict_lods_store_a_vertex_once (tData : TData)
    (opts : UrhoExportOptions) (errors : list Z) (um : UrhoModel) :
  useStrictLods opts = true ->
  exportGeometries tData opts errors = Ok um ->
  forall vb i j vi vj,
    In vb (um_vertexBuffers um) -> (i < j)%nat ->
    vertexAt (um_store um) vb i = Ok vi ->
    vertexAt (um_store um) vb j = Ok vj ->
    (UrhoVertex_hash vi = UrhoVertex_hash vj -> AlmostEqual vi vj = false)
    /\ (pos vi = pos vj -> AlmostEqual vi vj = false).
Proof.
  intros Hs H vb i j vi vj Hvb Hij Hi Hj.
  pose proof (exportGeometries_total tData opts errors) as Ht.
  rewrite H in Ht.
  destruct Ht as (_ & st & _ & HS & _ & Es & Ev & _).
  rewrite Ev in Hvb. rewrite Es in Hi, Hj.
  destruct HS as (_ & _ & _ & _ & D).
  assert (Hd : UrhoVertex_hash vi = UrhoVertex_hash vj ->
               AlmostEqual vi vj = false).
  { intros Hh. exact (D Hs vb Hvb i j vi vj Hij Hi Hj Hh). }
  split; [exact Hd|]. intros Hp. apply Hd. unfold UrhoVertex_hash.
  now rewrite Hp.
Qed.

Lemma strict_lods_store_a_vertex_once_witness :
  exists um,
    exportGeometries welded_square default_options [] = Ok um
    /\ forall vb i j vi vj,
         In vb (um_vertexBuffers um) -> (i < j)%nat ->
         vertexAt (um_store um) vb i = Ok vi ->
         vertexAt (um_store um) vb j = Ok vj ->
         (UrhoVertex_hash vi = UrhoVertex_hash vj ->
          AlmostEqual vi vj = false)
         /\ (pos vi = pos vj -> AlmostEqual vi vj = false).
Proof.
  eexists. split; [vm_compute; reflexivity|].
  apply (@strict_lods_store_a_vertex_once welded_square default_options []).
  - reflexivity.
  - vm_compute. reflexivity.
Defined.

(** X11.  As long as no [MaskError] was logged, an exported model draws
    every triangle corner with a vertex that stands for the corner's source
    vertex: for LOD number [i] of a geometry, the index at place [n] of the
    LOD level's draw range names a stored vertex that is almost equal to
    the vertex made from the source vertex of corner [n] when [i] is 0 or
    [useStrictLods] is set, and that is at its position (within epsilon)
    otherwise. *)
Theorem corners_drawn_with_their_source_vertices (tData : TData)
    (opts : UrhoExportOptions) (errors : list Z) (um : UrhoModel) :
  exportGeometries tData opts errors = Ok um ->
  no_mask_warning (um_log um) ->
  Forall2
    (fun tg g =>
       Forall2
         (fun p l =>
            cornersOk (td_verticesList tData)
                      ((fst p =? 0)%nat || useStrictLods opts)
                      (um_store um) (um_vertexBuffers um)
                      (um_indexBuffers um) (snd p) l)
         (enumerate (tg_lodLevels tg)) (lodLevels g))
    (td_geometriesList tData) (um_geometries um).
Proof.
  intros H Hnw.
  pose proof (exportGeometries_total tData opts errors) as Ht.
  rewrite H in Ht.
  destruct Ht as (_ & st & _ & _ & _ & Es & Ev & Ei & Eg & _ & [lg Hl] & HF).
  assert (Hnw0 : no_mask_warning (log st)).
  { rewrite Hl in Hnw. eapply no_mask_warning_app, Hnw. }
  rewrite Eg, Es, Ev, Ei.
  eapply Forall2_impl; [|exact HF].
  intros tg g Hg. unfold geometryFaithful in Hg.
  eapply Forall2_impl; [|exact Hg].
  intros p l Hf. destruct (Hf Hnw0) as (vb & ib & A & B & C).
  exists vb, (setIndexSize ib). split; [exact A|].
  split; [now rewrite nth_error_map, B|]. exact C.
Qed.

Lemma corners_drawn_with_their_source_vertices_witness :
  exists um,
    exportGeometries welded_square default_options [] = Ok um
    /\ Forall2
         (fun tg g =>
            Forall2
              (fun p l =>
                 cornersOk (td_verticesList welded_square)
                           ((fst p =? 0)%nat || useStrictLods default_options)
                           (um_store um) (um_vertexBuffers um)
                           (um_indexBuffers um) (snd p) l)
              (enumerate (tg_lodLevels tg)) (lodLevels g))
         (td_geometriesList welded_square) (um_geometries um).
Proof.
  eexists. split; [vm_compute; reflexivity|].
  apply (@corners_drawn_with_their_source_vertices welded_square
           default_options []).
  - vm_compute. reflexivity.
  - vm_compute. reflexivity.
Defined.

(* ------------------------------------------------------------------ *)
(** ** The bone remap of one vertex *)

Lemma list_index_some (l : list nat) (x n : nat) :
  list_index l x = Some n -> nth_error l n = Some x.
Proof.
  revert n. induction l as [|y r IH]; simpl; intros n H; [discriminate|].
  destruct (Nat.eqb_spec y x) as [->|Hne].
  - now injection H as <-.
  - destruct (list_index r x) as [k|]; simpl in H; [|discriminate].
    injection H as <-. simpl. now apply IH.
Qed.

Lemma list_index_none (l : list nat) (x : nat) :
  list_index l x = None -> ~ In x l.
Proof.
  induction l as [|y r IH]; simpl; intros H; [tauto|].
  destruct (Nat.eqb_spec y x) as [->|Hne]; [discriminate|].
  destruct (list_index r x) as [k|]; simpl in H; [discriminate|].
  intros [Hy|Hin]; [contradiction|]. now apply IH.
Qed.

Lemma remapWeights_full (ws : list (nat * Q)) :
  forall bm i,
    (MAX_SKIN_MATRICES <= length bm)%nat ->
    fst (fst (remapWeights bm i ws)) = bm.
Proof.
  induction ws as [|[b w] r IH]; intros bm i Hfull; simpl; [reflexivity|].
  destruct (list_index bm b) as [n|].
  - specialize (IH bm (S i) Hfull).
    now destruct (remapWeights bm (S i) r) as [[bm2 ts] l].
  - destruct (Nat.ltb_spec (length bm) MAX_SKIN_MATRICES) as [Hlt|Hge];
      [lia|].
    specialize (IH bm (S i) Hfull).
    now destruct (remapWeights bm (S i) r) as [[bm2 ts] l].
Qed.

Lemma remapped_grow (bm added : list nat) (old new : nat * Q) :
  nth_error bm (fst new) = Some (fst old) -> snd new = snd old ->
  remapped (bm ++ added) old new.
Proof.
  intros Hn Hw. left. split; [|exact Hw].
  rewrite nth_error_app1; [exact Hn|]. apply nth_error_Some. congruence.
Qed.

Lemma NoDup_snoc (l : list nat) (x : nat) :
  NoDup l -> ~ In x l -> NoDup (l ++ [x]).
Proof.
  intros Hl Hx. apply NoDup_app; [exact Hl|repeat constructor; tauto|].
  intros a Ha [<-|[]]. contradiction.
Qed.

Lemma remapWeights_spec (ws : list (nat * Q)) :
  forall (bm : list nat) (i : nat),
    let bm' := fst (fst (remapWeights bm i ws)) in
    let ws' := snd (fst (remapWeights bm i ws)) in
    (exists added, bm' = bm ++ added)
    /\ ((length bm <= MAX_SKIN_MATRICES)%nat ->
        (length bm' <= MAX_SKIN_MATRICES)%nat)
    /\ (NoDup bm -> NoDup bm')
    /\ Forall2 (remapped bm') ws ws'.
Proof.
  induction ws as [|[b w] r IH]; intros bm i; cbv zeta.
  - simpl. split; [exists []; now rewrite app_nil_r|].
    split; [auto|]. split; [auto|constructor].
  - cbn [remapWeights].
    destruct (list_index bm b) as [n|] eqn:Ei.
    + (* the bone is in the map *)
      specialize (IH bm (S i)). cbv zeta in IH.
      destruct (remapWeights bm (S i) r) as [[bm2 ts] lg].
      cbn [fst snd] in *. destruct IH as ([added Ha] & Hb & Hd & Hf).
      split; [now exists added|]. split; [exact Hb|]. split; [exact Hd|].
      constructor; [|exact Hf]. rewrite Ha.
      apply remapped_grow; [|reflexivity]. now apply list_index_some.
    + destruct (Nat.ltb_spec (length bm) MAX_SKIN_MATRICES) as [Hlt|Hge].
      * (* a new bone, and room for it *)
        specialize (IH (bm ++ [b]) (S i)). cbv zeta in IH.
        destruct (remapWeights (bm ++ [b]) (S i) r) as [[bm2 ts] lg].
        cbn [fst snd] in *. destruct IH as ([added Ha] & Hb & Hd & Hf).
        split; [exists (b :: added); now rewrite Ha, <- app_assoc|].
        split.
        { intros _. apply Hb. rewrite length_app. simpl. lia. }
        split.
        { intros Hn. apply Hd, NoDup_snoc; [exact Hn|].
          now apply list_index_none. }
        constructor; [|exact Hf]. rewrite Ha.
        apply remapped_grow; [|reflexivity]. cbn [fst].
        rewrite nth_error_app2 by lia. now rewrite Nat.sub_diag.
      * (* a new bone, and no room *)
        pose proof (@remapWeights_full r bm (S i) Hge) as Hfull.
        specialize (IH bm (S i)). cbv zeta in IH.
        destruct (remapWeights bm (S i) r) as [[bm2 ts] lg].
        cbn [fst snd] in *. subst bm2.
        destruct IH as (Ha & Hb & Hd & Hf).
        split; [exact Ha|]. split; [exact Hb|]. split; [exact Hd|].
        constructor; [|exact Hf]. right. split; [reflexivity|].
        split; [now apply list_index_none|exact Hge].
Qed.

(** X12.  Lines 1074-1088 for the weights of one vertex, from a bone map
    [bm]: the map is only extended (a bone keeps its local index) and gets
    no repeated entry; it stays within 64 entries if it was; and each pair
    is rewritten either to the place of its bone in the new map, with its
    weight unchanged, or, when the map is full and does not hold the bone,
    to (0, 0.0). *)
Theorem bone_remap_of_a_vertex (ws : list (nat * Q)) :
  forall (bm : list nat) (i : nat),
    let bm' := fst (fst (remapWeights bm i ws)) in
    let ws' := snd (fst (remapWeights bm i ws)) in
    (exists added, bm' = bm ++ added)
    /\ ((length bm <= MAX_SKIN_MATRICES)%nat ->
        (length bm' <= MAX_SKIN_MATRICES)%nat)
    /\ (NoDup bm -> NoDup bm')
    /\ Forall2 (remapped bm') ws ws'.
Proof. exact (remapWeights_spec ws). Qed.

(* ------------------------------------------------------------------ *)
(** ** Materials *)

(** X13.  The four texture slots of a material: after [setTextureName]
    with an index from 0 to 3, [getTextureName] gives the new name for that
    index and the old names for the others; for any other index
    [setTextureName] changes nothing and [getTextureName] gives [None]. *)
Theorem texture_slots_round_trip (m : UrhoMaterial) (i j : Z)
    (name : option String.string) :
  getTextureName (setTextureName m i name) j
  = (if (i =? j)%Z && (0 <=? i)%Z && (i <=? 3)%Z then name
     else getTextureName m j)
  /\ ((i < 0 \/ 3 < i)%Z ->
      setTextureName m i name = m /\ getTextureName m i = None).
Proof.
  split.
  - unfold setTextureName, getTextureName.
    destruct (Z.eqb_spec i 0) as [->|H0].
    { destruct (Z.eqb_spec 0 j) as [<-|Hj]; simpl; [reflexivity|].
      destruct (Z.eqb_spec j 0); [congruence|reflexivity]. }
    destruct (Z.eqb_spec i 1) as [->|H1].
    { destruct (Z.eqb_spec 1 j) as [<-|Hj]; simpl; [reflexivity|].
      destruct (Z.eqb_spec j 1); [congruence|reflexivity]. }
    destruct (Z.eqb_spec i 2) as [->|H2].
    { destruct (Z.eqb_spec 2 j) as [<-|Hj]; simpl; [reflexivity|].
      destruct (Z.eqb_spec j 2); [congruence|reflexivity]. }
    destruct (Z.eqb_spec i 3) as [->|H3].
    { destruct (Z.eqb_spec 3 j) as [<-|Hj]; simpl; [reflexivity|].
      destruct (Z.eqb_spec j 3); [congruence|reflexivity]. }
    destruct (Z.eqb_spec i j) as [<-|Hj]; simpl; [|reflexivity].
    destruct (Z.leb_spec 0 i), (Z.leb_spec i 3); simpl; try reflexivity.
    lia.
  - intros Hout. unfold setTextureName, getTextureName.
    destruct (Z.eqb_spec i 0); [lia|]. destruct (Z.eqb_spec i 1); [lia|].
    destruct (Z.eqb_spec i 2); [lia|]. destruct (Z.eqb_spec i 3); [lia|].
    split; reflexivity.
Qed.



Lemma exportMaterials_spec (ms : list TMaterial) :
  forall (us : list UrhoMaterial) (ix : list nat),
    exportMaterials ms (us, ix)
    = (us ++ map convertMaterial ms, ix ++ seq (length us) (length ms)).
Proof.
  unfold exportMaterials.
  induction ms as [|m ms IH]; intros us ix; simpl.
  - now rewrite !app_nil_r.
  - rewrite IH, length_app. simpl. rewrite <- !app_assoc. simpl.
    now rewrite Nat.add_1_r.
Qed.

Lemma writeList_seq (fs : list String.string) :
  forall (pre : list String.string) (content : String.string),
    foldM (fun content i =>
             name <- getitem (pre ++ fs) i ;;
             Ok (String.append content (String.append name newline)))
          (seq (length pre) (length fs)) content
    = Ok (fold_left (fun c f => String.append c (String.append f newline))
                    fs content).
Proof.
  induction fs as [|f fs IH]; intros pre content; simpl; [reflexivity|].
  unfold getitem at 1. rewrite nth_error_app2 by lia.
  rewrite Nat.sub_diag. simpl.
  specialize (IH (pre ++ [f])). rewrite <- app_assoc in IH. simpl in IH.
  rewrite length_app in IH. simpl in IH. rewrite Nat.add_1_r in IH.
  apply IH.
Qed.

(** X15.  The materials stage appends one material per source material, in
    order, and gives the model their indices in [uExportData.materials];
    with the file names of these materials, [UrhoWriteMaterialsList] then
    never fails and writes the names in the order of the source materials,
    one per line. *)
Theorem materials_list_follows_the_source
    (ms : list TMaterial) (us : list UrhoMaterial) (ix : list nat)
    (filename : UrhoMaterial -> String.string) :
  fst (exportMaterials ms (us, ix)) = us ++ map convertMaterial ms
  /\ snd (exportMaterials ms (us, ix)) = ix ++ seq (length us) (length ms)
  /\ UrhoWriteMaterialsList (snd (exportMaterials ms ([], [])))
                            (map filename (fst (exportMaterials ms ([], []))))
     = Ok (fold_left
             (fun c m => String.append
                           c (String.append (filename (convertMaterial m))
                                            newline))
             ms String.EmptyString).
Proof.
  rewrite !exportMaterials_spec. cbn [fst snd app length].
  split; [reflexivity|]. split; [reflexivity|].
  unfold UrhoWriteMaterialsList.
  pose proof (@writeList_seq (map filename (map convertMaterial ms)) []
                String.EmptyString) as H.
  cbn [app length] in H. rewrite !length_map in H. rewrite H.
  apply f_equal. rewrite map_map. clear H.
  generalize String.EmptyString.
  induction ms as [|m ms IH]; intros c; [reflexivity|].
  cbn [map fold_left]. apply IH.
Qed.

(* ------------------------------------------------------------------ *)
(** ** The file writers *)

Lemma size_app (a b : list Packed) : (size (a ++ b) = size a + size b)%nat.
Proof.
  induction a as [|[c|q] a IH]; simpl; [reflexivity| |]; rewrite IH; lia.
Qed.

Lemma size_bytes (bs : list byte) : size (map PByte bs) = length bs.
Proof. induction bs as [|b bs IH]; simpl; [reflexivity|now rewrite IH]. Qed.

Lemma size_floats (vs : list Q) : (size (map PFloat vs) = 4 * length vs)%nat.
Proof. induction vs as [|v vs IH]; simpl; [reflexivity|rewrite IH; lia]. Qed.

Lemma writes_ext (w : Written) (ok ok' : bool) (n n' : nat) :
  writes w ok n -> ok = ok' -> n = n' -> writes w ok' n'.
Proof. now intros H <- <-. Qed.

Lemma writes_nothing : writes (Wrote []) true 0.
Proof. now split. Qed.

Lemma writes_andThen (a b : Written) (oa ob : bool) (na nb : nat) :
  writes a oa na -> writes b ob nb -> writes (a >> b) (oa && ob) (na + nb).
Proof.
  destruct a as [x|e], b as [y|e']; simpl.
  - intros [-> <-] [-> <-]. split; [reflexivity|apply size_app].
  - now intros [-> _] ->.
  - now intros ->.
  - now intros ->.
Qed.

Lemma writes_when (c : bool) (w : Written) (ok : bool) (n : nat) :
  writes w ok n -> writes (when c w) (implb c ok) (if c then n else 0%nat).
Proof. destruct c; simpl; [trivial|now split]. Qed.

Lemma writes_forEach_sum {A : Type} (l : list A) (body : A -> Written)
    (okf : A -> bool) (sz : A -> nat) :
  (forall a, In a l -> writes (body a) (okf a) (sz a)) ->
  writes (forEach l body) (forallb okf l) (list_sum (map sz l)).
Proof.
  induction l as [|a l IH]; intros H; [exact writes_nothing|].
  cbn [forEach fold_right forallb map list_sum].
  apply writes_andThen; [apply H; now left|].
  apply IH. intros b Hb. apply H. now right.
Qed.

Lemma list_sum_const {A : Type} (l : list A) (s : nat) :
  list_sum (map (fun _ => s) l) = (length l * s)%nat.
Proof. induction l as [|a l IH]; simpl; [reflexivity|now rewrite IH]. Qed.

Lemma writes_forEach {A : Type} (l : list A) (body : A -> Written)
    (okf : A -> bool) (s : nat) :
  (forall a, writes (body a) (okf a) s) ->
  writes (forEach l body) (forallb okf l) (length l * s).
Proof.
  intros H. rewrite <- list_sum_const.
  apply writes_forEach_sum. intros a _. apply H.
Qed.

Lemma writes_packed (n : nat) (v : Z) (r : Exc (list byte)) :
  packs n v r -> writes (bytes r) (fitsUInt n v) n.
Proof.
  unfold packs, fitsUInt, bytes, given, writes.
  destruct r as [bs|e].
  - intros [Hv [Hl _]]. split; [|now rewrite size_bytes].
    apply andb_true_iff. split; [apply Z.leb_le|apply Z.ltb_lt]; lia.
  - intros [_ Hv]. apply andb_false_iff.
    destruct Hv as [Hv|Hv]; [left; apply Z.leb_gt|right; apply Z.ltb_ge]; lia.
Qed.

Lemma writes_UInt (v : Z) : writes (bytes (writeUInt v)) (fitsUInt 4 v) 4.
Proof. apply writes_packed, writeUInt_packs. Qed.

Lemma writes_UShort (v : Z) : writes (bytes (writeUShort v)) (fitsUInt 2 v) 2.
Proof. apply writes_packed, writeUShort_packs. Qed.

Lemma writes_UByte (v : Z) : writes (bytes (writeUByte v)) (fitsUInt 1 v) 1.
Proof. apply writes_packed, writeUByte_packs. Qed.

Lemma writes_packFloats (vs : list Q) :
  writes (packFloats vs) (forallb fitsFloat vs) (4 * length vs).
Proof.
  unfold packFloats. destruct (forallb fitsFloat vs); simpl; [|reflexivity].
  split; [reflexivity|apply size_floats].
Qed.

Lemma writes_Float (v : Q) : writes (writeFloat v) (fitsFloat v) 4.
Proof.
  eapply writes_ext; [apply writes_packFloats| |reflexivity].
  simpl. apply andb_true_r.
Qed.

Lemma writes_Vector3 (v : option Vector3) :
  writes (writeVector3 v) (fitsVector3 v) 12.
Proof.
  destruct v as [v|]; [apply writes_packFloats|reflexivity].
Qed.

Lemma writes_Quaternion (v : option Quaternion) :
  writes (writeQuaternion v) (fitsQuaternion v) 16.
Proof.
  destruct v as [v|]; [apply writes_packFloats|reflexivity].
Qed.

Lemma writes_AsciiStr (v : String.string) :
  writes (writeAsciiStr v) (isAscii v) (String.length v).
Proof.
  unfold writeAsciiStr. destruct (isAscii v); simpl; [|reflexivity].
  split; [reflexivity|]. rewrite size_bytes.
  unfold String.list_byte_of_string. rewrite length_map.
  induction v as [|c v IH]; simpl; [reflexivity|now rewrite IH].
Qed.

Lemma writes_first {A : Type} (n : nat) (l : list A) (k : A -> Written)
    (p : A -> bool) (s : nat) :
  (forall a, writes (k a) (p a) s) ->
  writes (forEach (seq 0 n) (fun i => given (getitem l i) k))
         (firstAll n l p) (n * s).
Proof.
  intros H. unfold firstAll.
  eapply writes_ext;
    [apply writes_forEach with (s := s)| reflexivity
    | now rewrite length_seq].
  intros i. unfold getitem. destruct (nth_error l i); simpl; [apply H|].
  reflexivity.
Qed.

Lemma writes_first_opt {A : Type} (n : nat) (o : option (list A))
    (k : A -> Written) (p : A -> bool) (s : nat) :
  (forall a, writes (k a) (p a) s) -> (0 < n)%nat ->
  writes (forEach (seq 0 n) (fun i => given (subscript o i) k))
         match o with Some l => firstAll n l p | None => false end (n * s).
Proof.
  intros H Hn. destruct o as [l|]; [now apply writes_first|].
  destruct n as [|n]; [lia|]. reflexivity.
Qed.

Lemma writes_Vertex (mask : Z) (vertex : UrhoVertex) :
  writes (writeVertex mask vertex) (writable mask vertex) (vertexSize mask).
Proof.
  unfold writeVertex, writable, vertexSize.
  rewrite <- !andb_assoc, <- !Nat.add_assoc.
  repeat apply writes_andThen.
  - apply writes_when, writes_Vector3.
  - apply writes_when, writes_Vector3.
  - apply (@writes_when _ _ _ 4).
    apply (@writes_first_opt Z 4 (color vertex) _ (fitsUInt 1) 1);
      [intros a; apply writes_UByte|lia].
  - apply (@writes_when _ _ _ 8).
    apply (@writes_first_opt Q 2 (uv vertex) _ fitsFloat 4);
      [intros a; apply writes_Float|lia].
  - apply (@writes_when _ _ _ 8).
    apply (@writes_first_opt Q 2 (uv2 vertex) _ fitsFloat 4);
      [intros a; apply writes_Float|lia].
  - apply (@writes_when _ _ _ 16).
    destruct (tangent vertex) as [t|]; [|reflexivity].
    eapply writes_ext;
      [apply writes_andThen; [apply writes_packFloats|apply writes_Float]
      | |reflexivity].
    cbn [forallb]. now rewrite !andb_true_r, <- !andb_assoc.
  - apply (@writes_when _ _ _ 16).
    apply (@writes_first (nat * Q) 4 (weights vertex) _
             (fun t => fitsFloat (snd t)) 4).
    intros a; apply writes_Float.
  - apply (@writes_when _ _ _ 4).
    apply (@writes_first (nat * Q) 4 (weights vertex) _
             (fun t => fitsUInt 1 (Z.of_nat (fst t))) 1).
    intros a; apply writes_UByte.
Qed.

Lemma writes_Vertices (h : list UrhoVertex) (mask : Z) (ids : list nat) :
  writes (writeVertices h mask ids) (forallb (writableAt h mask) ids)
         (length ids * vertexSize mask).
Proof.
  apply writes_forEach. intros id. unfold writableAt, getitem.
  destruct (nth_error h id) as [v|]; [apply writes_Vertex|reflexivity].
Qed.

Lemma writes_MorphRange (buffer : UrhoVertexBuffer) :
  writes (bytes (r <- writeMorphRange buffer ;; Ok (fst r ++ snd r)))
         (morphRangeFits buffer) 8.
Proof.
  unfold writeMorphRange, morphRangeFits, morphRangeCount.
  destruct (morphMinIndex buffer) as [mn|]; [|reflexivity].
  pose proof (writeUInt_packs (Z.of_nat mn)) as Hmn.
  unfold packs in Hmn. fold (fitsUInt 4 (Z.of_nat mn)).
  destruct (writeUInt (Z.of_nat mn)) as [b1|e] eqn:E1.
  - assert (F1 : fitsUInt 4 (Z.of_nat mn) = true).
    { unfold fitsUInt. apply andb_true_iff.
      split; [apply Z.leb_le|apply Z.ltb_lt]; lia. }
    rewrite F1. cbn [bind andb].
    destruct (morphMaxIndex buffer) as [[|mx]|]; [| |reflexivity].
    + cbn [bind Nat.eqb orb]. change (writeUInt 0) with (Ok zero_uint).
      cbn [bind fst snd bytes given writes]. split; [reflexivity|].
      rewrite size_bytes, length_app. destruct Hmn as [_ [-> _]].
      reflexivity.
    + cbn [bind Nat.eqb orb].
      pose proof (writeUInt_packs (Z.of_nat (S mx) - Z.of_nat mn + 1)) as Hc.
      unfold packs in Hc.
      destruct (writeUInt (Z.of_nat (S mx) - Z.of_nat mn + 1)) as [b2|e2].
      * cbn [bind fst snd bytes given writes]. split.
        -- unfold fitsUInt. apply andb_true_iff.
           split; [apply Z.leb_le|apply Z.ltb_lt]; lia.
        -- rewrite size_bytes, length_app.
           destruct Hmn as [_ [-> _]], Hc as [_ [-> _]]. reflexivity.
      * cbn [bind bytes given writes]. unfold fitsUInt.
        apply andb_false_iff.
        destruct Hc as [_ [Hc|Hc]];
          [left; apply Z.leb_gt|right; apply Z.ltb_ge]; lia.
  - cbn [bind bytes given writes].
    assert (F1 : fitsUInt 4 (Z.of_nat mn) = false).
    { unfold fitsUInt. apply andb_false_iff.
      destruct Hmn as [_ [H|H]];
        [left; apply Z.leb_gt|right; apply Z.ltb_ge]; lia. }
    destruct (morphMaxIndex buffer); [rewrite F1|]; reflexivity.
Qed.

(** X16.  [UrhoWriteModel] writes the data of a vertex without an
    exception exactly when the vertex has every element the buffer's mask
    names, as far as the writer reads it (a position, a normal and a
    tangent; four color bytes from 0 to 255; two floats of each UV; four
    weights with bone indices below 256) and every float fits single
    precision; the data then takes a number of bytes that only depends on
    the mask.  The data of a list of vertices is written exactly when each
    one is, and takes the vertex count times the vertex size. *)
Theorem vertex_data_is_count_times_size
    (h : list UrhoVertex) (mask : Z) (vertex : UrhoVertex) (ids : list nat) :
  writes (writeVertex mask vertex) (writable mask vertex) (vertexSize mask)
  /\ writes (writeVertices h mask ids) (forallb (writableAt h mask) ids)
            (length ids * vertexSize mask).
Proof.
  split; [apply writes_Vertex|apply writes_Vertices].
Qed.

Lemma writes_VertexBuffer (h : list UrhoVertex) (buffer : UrhoVertexBuffer) :
  writes (writeVertexBuffer h buffer)
         (vertexHeaderFits buffer
          && match elementMask buffer with
             | Some mask => forallb (writableAt h mask) (vertices buffer)
             | None => false
             end)
         (16 + length (vertices buffer)
               * match elementMask buffer with
                 | Some mask => vertexSize mask
                 | None => 0
                 end).
Proof.
  unfold writeVertexBuffer, vertexHeaderFits, writeLen.
  destruct (elementMask buffer) as [mask|].
  - eapply writes_ext.
    + apply writes_andThen; [apply writes_UInt|].
      apply writes_andThen; [apply writes_UInt|].
      apply writes_andThen; [apply writes_MorphRange|].
      apply writes_Vertices.
    + set (a := fitsUInt 4 (Z.of_nat (length (vertices buffer)))).
      set (b := fitsUInt 4 mask). set (c := morphRangeFits buffer).
      set (d := forallb (writableAt h mask) (vertices buffer)).
      now destruct a, b, c, d.
    + lia.
  - set (a := fitsUInt 4 (Z.of_nat (length (vertices buffer)))).
    set (c := morphRangeFits buffer).
    destruct (bytes (writeUInt (Z.of_nat (length (vertices buffer)))));
      simpl; now destruct a, c.
Qed.

Lemma writes_IndexBuffer (buffer : UrhoIndexBuffer) :
  writes (writeIndexBuffer buffer) (indexBufferFits buffer)
         (8 + length (indexes buffer) * indexWidth buffer).
Proof.
  unfold writeIndexBuffer, indexBufferFits, writeLen.
  rewrite <- andb_assoc.
  change 8%nat with (4 + 4)%nat. rewrite <- Nat.add_assoc.
  apply writes_andThen; [apply writes_UInt|].
  apply writes_andThen; [apply writes_UInt|].
  apply writes_forEach. intros i. unfold indexWidth.
  destruct (indexSize buffer =? 2)%nat;
    [apply writes_UShort|apply writes_UInt].
Qed.

(* ------------------------------------------------------------------ *)
(** ** The model of the geometry stage and its writer *)

Lemma hasBit_sub (m vm bit : Z) :
  subMask m vm -> hasBit m bit = true -> hasBit vm bit = true.
Proof.
  unfold subMask, hasBit, truthyZ. intros Hs H.
  apply negb_true_iff, Z.eqb_neq in H. apply negb_true_iff, Z.eqb_neq.
  intros Hz. apply H. rewrite <- Hs, <- Z.land_assoc, Hz.
  apply Z.land_0_r.
Qed.

Lemma implb_sub (a b c : bool) :
  (a = true -> b = true) -> implb b c = true -> implb a c = true.
Proof. destruct a, b, c; simpl; intros H1 H2; auto. Qed.

Lemma writable_sub (m vm : Z) (v : UrhoVertex) :
  subMask m vm -> writable vm v = true -> writable m v = true.
Proof.
  intros Hs. unfold writable. rewrite !andb_true_iff.
  intros [[[[[[[H1 H2] H3] H4] H5] H6] H7] H8].
  repeat split;
    (eapply implb_sub; [apply (@hasBit_sub m vm _ Hs)|eassumption]).
Qed.

Lemma Forall_setitem {A : Type} (P : A -> Prop) (l : list A) (i : nat)
    (a : A) :
  Forall P l -> P a -> Forall P (setitem l i a).
Proof.
  intros Hl Ha. revert i. induction Hl as [|x r Hx Hr IH]; intros i.
  - destruct i; constructor.
  - destruct i; simpl; constructor; auto.
Qed.

Lemma heap_fold_add_log (lg : list LogRecord) :
  forall st, heap (fold_left (fun s r => add_log r s) lg st) = heap st.
Proof.
  induction lg as [|r lg IH]; intros st; simpl; [reflexivity|].
  now rewrite IH.
Qed.

Lemma firstAll_Forall2 {A : Type} (R : A -> A -> Prop) (p q : A -> bool)
    (n : nat) (l l' : list A) :
  Forall2 R l l' ->
  (forall a b, R a b -> p a = true -> q b = true) ->
  firstAll n l p = true -> firstAll n l' q = true.
Proof.
  intros HF Hpq. unfold firstAll. rewrite !forallb_forall.
  intros H i Hi. specialize (H i Hi).
  destruct (nth_error l i) as [a|] eqn:Ea; [|discriminate].
  assert (Hl : exists b, nth_error l' i = Some b /\ R a b).
  { clear H Hi. revert i Ea.
    induction HF as [|x y r r' Hxy HF IH]; intros i Ea.
    - now destruct i.
    - destruct i as [|i]; simpl in *.
      + injection Ea as <-. now exists y.
      + now apply IH. }
  destruct Hl as [b [-> Hb]]. eapply Hpq; eassumption.
Qed.

Lemma fitsFloat_0 : fitsFloat 0 = true.
Proof. reflexivity. Qed.

Lemma fitsByte_small (n : nat) :
  (n < 256)%nat -> fitsUInt 1 (Z.of_nat n) = true.
Proof.
  intros H. unfold fitsUInt. apply andb_true_iff.
  split; [apply Z.leb_le|apply Z.ltb_lt]; simpl; lia.
Qed.

Lemma remapped_vertexOk (v : UrhoVertex) (bm : list nat)
    (ws' : list (nat * Q)) :
  (length bm <= MAX_SKIN_MATRICES)%nat ->
  Forall2 (remapped bm) (weights v) ws' ->
  vertexOk v -> vertexOk (set_weights v ws').
Proof.
  intros Hb HF. unfold vertexOk.
  assert (Hs : sameVertex v (set_weights v ws')).
  { unfold sameVertex, set_weights. simpl. repeat split; try reflexivity.
    symmetry. exact (Forall2_length HF). }
  rewrite (sameVertex_mask Hs). unfold writable. rewrite !andb_true_iff.
  cbn [set_weights pos normal color uv uv2 tangent weights].
  intros [[[[[[[H1 H2] H3] H4] H5] H6] H7] H8].
  repeat split; try assumption.
  - destruct (hasBit (vertexMask v) ELEMENT_BWEIGHTS); [|reflexivity].
    simpl in *.
    apply (@firstAll_Forall2 _ (remapped bm) (fun t => fitsFloat (snd t))
             (fun t => fitsFloat (snd t)) 4 (weights v) ws' HF);
      [|exact H7].
    intros a b [[_ Hw]|[-> _]] Ha; [now rewrite Hw|reflexivity].
  - destruct (hasBit (vertexMask v) ELEMENT_BINDICES); [|reflexivity].
    simpl in *.
    apply (@firstAll_Forall2 _ (remapped bm)
             (fun t => fitsUInt 1 (Z.of_nat (fst t)))
             (fun t => fitsUInt 1 (Z.of_nat (fst t))) 4 (weights v) ws' HF);
      [|exact H8].
    intros a b [[Hn _]|[-> _]] _; [|reflexivity].
    apply fitsByte_small.
    assert (Hlt : (fst b < length bm)%nat)
      by (apply nth_error_Some; congruence).
    unfold MAX_SKIN_MATRICES in Hb. lia.
Qed.

(** Case analysis on the conditions a step went through. *)
Ltac crunch H :=
  unfold bind in H;
  repeat match type of H with
         | context [match ?x with _ => _ end] =>
             lazymatch x with
             | context [match _ with _ => _ end] => fail
             | _ => destruct x; cbv beta iota zeta in H;
                    try discriminate H
             end
         end.

Lemma createVertex_store (tVertex : TVertex) (st st' : State) :
  createVertex tVertex st = Ok st' ->
  sourceWritable tVertex = true ->
  Forall vertexOk (heap st) -> Forall vertexOk (heap st').
Proof.
  unfold createVertex. intros H Hs Hh.
  destruct (vertexBuffer st) as [vb|]; cbn [deref bind] in H; [|discriminate].
  destruct (UrhoVertex_init tVertex vb) as [vb' [v|a b c]] eqn:E.
  - injection H as <-. cbn. apply Forall_app. split; [exact Hh|].
    constructor; [|constructor].
    assert (Hv : v = sourceFields tVertex).
    { unfold UrhoVertex_init in E. destruct (elementMask vb) as [old|].
      - destruct (old =? sourceMask tVertex)%Z; congruence.
      - congruence. }
    subst v. unfold vertexOk. now rewrite vertexMask_sourceFields.
  - discriminate.
Qed.

Lemma addVertex_store (vl : list TVertex) (strict : bool) (i : nat)
    (acc acc' : State * list (nat * nat) * bool) (tix : nat) :
  addVertex vl strict i acc tix = Ok acc' ->
  forallb sourceWritable vl = true ->
  Forall vertexOk (heap (fst (fst acc))) ->
  Forall vertexOk (heap (fst (fst acc'))).
Proof.
  destruct acc as [[st im] w]. unfold addVertex, getitem. intros H Hvl Hh.
  cbn [fst] in Hh.
  destruct (nth_error vl tix) as [tv|] eqn:Ev; cbn [bind] in H;
    [|discriminate].
  destruct (createVertex tv st) as [st1|] eqn:Ec; cbn [bind] in H;
    [|discriminate].
  assert (H1 : Forall vertexOk (heap st1)).
  { apply (@createVertex_store tv st st1 Ec); [|exact Hh].
    rewrite forallb_forall in Hvl. apply Hvl.
    eapply nth_error_In; exact Ev. }
  clear Ec Hh.
  destruct (uVertex st1) as [uid|]; cbn [bind] in H; [|discriminate].
  destruct (nth_error (heap st1) uid) as [u|]; cbn [bind] in H;
    [|discriminate].
  destruct (vertexBuffer st1) as [vb|]; cbn [deref bind] in H;
    [|discriminate].
  crunch H;
    injection H as <-; cbn [fst];
    repeat match goal with
           | |- context [if ?c then _ else _] => destruct c
           end;
    exact H1.
Qed.

Lemma addIndex_heap (i : nat) (im : list (nat * nat))
    (acc acc' : State * nat * Vector3) (tix : nat) :
  addIndex i im acc tix = Ok acc' ->
  heap (fst (fst acc')) = heap (fst (fst acc)).
Proof.
  destruct acc as [[st n] c]. unfold addIndex, deref. intros H.
  crunch H;
    injection H as <-; reflexivity.
Qed.

Lemma foldM_keeps {A B : Type} (f : A -> B -> Exc A) (P : A -> Prop) :
  (forall a x a', P a -> f a x = Ok a' -> P a') ->
  forall l a a', P a -> foldM f l a = Ok a' -> P a'.
Proof.
  intros Hstep l a a' Ha H.
  refine (proj1 (@foldM_inv_rel _ _ f P (fun _ _ => True) (fun _ => I)
                   (fun _ _ _ _ _ => I) _ l a a' Ha H)).
  intros b x b' Hb Hx. split; [exact (Hstep b x b' Hb Hx)|exact I].
Qed.

Lemma remapVertex_store (acc acc' : State * list nat) (id : nat) :
  remapVertex acc id = Ok acc' ->
  Forall vertexOk (heap (fst acc))
  /\ (length (snd acc) <= MAX_SKIN_MATRICES)%nat ->
  Forall vertexOk (heap (fst acc'))
  /\ (length (snd acc') <= MAX_SKIN_MATRICES)%nat.
Proof.
  destruct acc as [st bm]. unfold remapVertex, getitem. cbn [fst snd].
  intros H [Hh Hb].
  destruct (nth_error (heap st) id) as [v|] eqn:Ev; cbn [bind] in H;
    [|discriminate].
  pose proof (@remapWeights_spec (weights v) bm 0%nat) as Hspec.
  cbv zeta in Hspec.
  destruct (remapWeights bm 0 (weights v)) as [[bm' ws'] lg].
  cbn [fst snd] in Hspec. destruct Hspec as (_ & Hb' & _ & HF).
  injection H as <-. cbn [fst snd]. split; [|now apply Hb'].
  rewrite heap_fold_add_log. cbn [heap set_heap].
  apply Forall_setitem; [exact Hh|].
  apply (@remapped_vertexOk v bm' ws'); [now apply Hb'|exact HF|].
  rewrite Forall_forall in Hh. apply Hh. eapply nth_error_In; exact Ev.
Qed.

Lemma remapBones_store (n : nat) (st st' : State) (bm bm' : list nat) :
  remapBones n st bm = Ok (st', bm') ->
  Forall vertexOk (heap st) -> (length bm <= MAX_SKIN_MATRICES)%nat ->
  Forall vertexOk (heap st') /\ (length bm' <= MAX_SKIN_MATRICES)%nat.
Proof.
  unfold remapBones. intros H Hh Hb.
  destruct (MAX_SKIN_MATRICES <? n)%nat;
    [|injection H as <- <-; now split].
  destruct (vertexBuffer st) as [vb|]; cbn [deref bind] in H; [|discriminate].
  destruct (elementMask vb) as [m|]; cbn [bind] in H; [|discriminate].
  destruct (Z.land m ELEMENT_BLEND =? ELEMENT_BLEND)%Z;
    [|injection H as <- <-; now split].
  exact (@foldM_keeps _ _ remapVertex
           (fun a => Forall vertexOk (heap (fst a))
                     /\ (length (snd a) <= MAX_SKIN_MATRICES)%nat)
           (fun a x a' Ha Hx => @remapVertex_store a a' x Hx Ha)
           (vertices vb) (st, bm) (st', bm') (conj Hh Hb) H).
Qed.

Lemma openBuffers_heap (env : Env) (i : nat) (st : State) :
  heap (fst (openBuffers env i st)) = heap st.
Proof.
  unfold openBuffers.
  destruct (negb (truthy_opt (vertexBuffer st))
            || (i =? 0)%nat && negb (useOneBuffer env));
    [destruct (indexBuffer (newVertexBuffer st))
    |destruct (indexBuffer st)];
    try destruct ((i =? 0)%nat && negb (useOneBuffer env)); reflexivity.
Qed.

Lemma processLod_store (env : Env) (gi : nat)
    (acc acc' : State * UrhoGeometry * Vector3) (it : nat * TLodLevel) :
  processLod env gi acc it = Ok acc' ->
  forallb sourceWritable (verticesList env) = true ->
  Forall vertexOk (heap (fst (fst acc)))
  /\ (length (boneMap (snd (fst acc))) <= MAX_SKIN_MATRICES)%nat ->
  Forall vertexOk (heap (fst (fst acc')))
  /\ (length (boneMap (snd (fst acc'))) <= MAX_SKIN_MATRICES)%nat.
Proof.
  destruct acc as [[st g] c], it as [i tl]. unfold processLod.
  cbn [fst snd]. intros H Hvl [Hh Hb].
  set (st0 := if (i =? 0)%nat && negb (Qeq_bool (tl_distance tl) 0)
              then add_log (ErrorFirstLodDistance gi (tl_distance tl)) st
              else st) in H.
  assert (H0 : heap st0 = heap st) by (unfold st0; now destruct (_ && _)).
  pose proof (openBuffers_heap env i st0) as Ho.
  destruct (openBuffers env i st0) as [stB start]. cbn [fst] in Ho.
  cbv zeta in H.
  destruct (foldM (addVertex (verticesList env)
                             ((i =? 0)%nat || strictLods env) i)
                  (indexSet tl) (stB, [], false)) as [[[st1 im] w]|e] eqn:E1;
    cbn [bind] in H; [|discriminate].
  assert (H1 : Forall vertexOk (heap st1)).
  { refine (@foldM_keeps _ _ (addVertex (verticesList env)
                                ((i =? 0)%nat || strictLods env) i)
              (fun a => Forall vertexOk (heap (fst (fst a))))
              _ (indexSet tl) (stB, [], false) (st1, im, w) _ E1).
    - intros a x a' Ha Hx. exact (@addVertex_store _ _ _ a a' x Hx Hvl Ha).
    - cbn [fst]. now rewrite Ho, H0. }
  match type of H with
  | context [foldM (addIndex i im) _ (?s, _, _)] => set (st2 := s) in H
  end.
  assert (H2 : heap st2 = heap st1)
    by (unfold st2; now destruct w).
  destruct (foldM (addIndex i im) (corners (triangleList tl))
                  (st2, 0%nat, c)) as [[[st3 n] c3]|e] eqn:E2;
    cbn [bind] in H; [|discriminate].
  assert (H3 : heap st3 = heap st2).
  { exact (@foldM_keeps _ _ (addIndex i im)
             (fun a => heap (fst (fst a)) = heap st2)
             (fun a x a' Ha Hx => eq_trans (@addIndex_heap i im a a' x Hx) Ha)
             (corners (triangleList tl)) (st2, 0%nat, c) (st3, n, c3)
             eq_refl E2). }
  destruct (remapBones (bonesCount env) st3 (boneMap g)) as [[st4 bm]|e]
    eqn:E3; cbn [bind] in H; [|discriminate].
  injection H as <-. cbn [fst snd boneMap].
  apply (@remapBones_store _ st3 st4 (boneMap g) bm E3); [|exact Hb].
  now rewrite H3, H2.
Qed.

Lemma processGeometry_store (env : Env) (st st' : State) (tg : TGeometry) :
  processGeometry env st tg = Ok st' ->
  forallb sourceWritable (verticesList env) = true ->
  Forall vertexOk (heap st) -> Forall vertexOk (heap st').
Proof.
  unfold processGeometry. intros H Hvl Hh.
  destruct (foldM (processLod env (length (geometries st)))
                  (enumerate (tg_lodLevels tg))
                  (st, mkUrhoGeometry [] [] vzero, vzero))
    as [[[st1 g] c]|e] eqn:E; cbn [bind] in H; [|discriminate].
  injection H as <-. cbn [heap set_geometries].
  refine (proj1 (@foldM_keeps _ _ (processLod env (length (geometries st)))
                   (fun a => Forall vertexOk (heap (fst (fst a)))
                             /\ (length (boneMap (snd (fst a)))
                                 <= MAX_SKIN_MATRICES)%nat)
                   _ (enumerate (tg_lodLevels tg))
                   (st, mkUrhoGeometry [] [] vzero, vzero) (st1, g, c) _ E)).
  - intros a x a' Ha Hx. exact (@processLod_store env _ a a' x Hx Hvl Ha).
  - cbn [fst snd boneMap length]. split; [exact Hh|]. apply Nat.le_0_l.
Qed.

Lemma exportGeometries_store (tData : TData) (opts : UrhoExportOptions)
    (errors : list Z) (um : UrhoModel) :
  exportGeometries tData opts errors = Ok um ->
  forallb sourceWritable (td_verticesList tData) = true ->
  Forall vertexOk (um_store um).
Proof.
  unfold exportGeometries. intros H Hvl.
  destruct (foldM (processGeometry (exportEnv tData opts))
                  (td_geometriesList tData) (initialState errors))
    as [st|e] eqn:E; cbn [bind] in H; [|discriminate].
  assert (Hs : Forall vertexOk (heap st)).
  { refine (@foldM_keeps _ _ (processGeometry (exportEnv tData opts))
              (fun a => Forall vertexOk (heap a)) _
              (td_geometriesList tData) (initialState errors) st _ E).
    - intros a x a' Ha Hx.
      exact (@processGeometry_store _ a a' x Hx Hvl Ha).
    - constructor. }
  injection H as <-. cbn [um_store].
  destruct (td_geometriesList tData); [exact Hs|].
  destruct (bbmin (boundingBox st)); exact Hs.
Qed.

(** X17.  When every vertex made of a source vertex can be written with
    the elements the source vertex carries (four color bytes from 0 to
    255, two floats per UV, bone indices below 256, floats that fit single
    precision), so can every vertex of every buffer of the model of the
    geometry stage with the elements of the buffer's mask: the vertex data
    of the buffer is written without an exception and takes the vertex
    count times the vertex size of the mask. *)
Theorem vertex_buffers_of_a_model_are_written
    (tData : TData) (opts : UrhoExportOptions) (errors : list Z)
    (um : UrhoModel) (vb : UrhoVertexBuffer) (m : Z) :
  exportGeometries tData opts errors = Ok um ->
  forallb sourceWritable (td_verticesList tData) = true ->
  In vb (um_vertexBuffers um) -> elementMask vb = Some m ->
  exists items,
    writeVertices (um_store um) m (vertices vb) = Wrote items
    /\ size items = (length (vertices vb) * vertexSize m)%nat.
Proof.
  intros H Hvl Hvb Hm.
  pose proof (@exportGeometries_store tData opts errors um H Hvl) as Hs.
  pose proof (exportGeometries_total tData opts errors) as Ht.
  rewrite H in Ht.
  destruct Ht as (_ & st & HI & _ & _ & Es & Ev & _).
  rewrite Ev in Hvb. rewrite Es in *.
  destruct HI as (_ & _ & _ & I4 & _).
  destruct (I4 vb Hvb) as [_ Hb].
  pose proof (writes_Vertices (heap st) m (vertices vb)) as W.
  assert (Hall : forallb (writableAt (heap st) m) (vertices vb) = true).
  { apply forallb_forall. intros id Hid.
    destruct (Hb id Hid) as (v & m' & Hv & Hm' & Hsub & _).
    assert (m' = m) by congruence. subst m'.
    unfold writableAt. rewrite Hv.
    apply (@writable_sub m (vertexMask v) v Hsub).
    rewrite Forall_forall in Hs. apply Hs. eapply nth_error_In; exact Hv. }
  rewrite Hall in W. unfold writes in W.
  destruct (writeVertices (heap st) m (vertices vb)) as [items|e].
  - exists items. split; [reflexivity|exact (proj2 W)].
  - discriminate.
Qed.

Lemma vertex_buffers_of_a_model_are_written_witness :
  exists um vb m,
    exportGeometries welded_square default_options [] = Ok um
    /\ In vb (um_vertexBuffers um) /\ elementMask vb = Some m
    /\ exists items,
         writeVertices (um_store um) m (vertices vb) = Wrote items
         /\ size items = (length (vertices vb) * vertexSize m)%nat.
Proof.
  eexists. eexists. eexists.
  split; [vm_compute; reflexivity|].
  split; [left; reflexivity|]. split; [reflexivity|].
  eapply (@vertex_buffers_of_a_model_are_written welded_square
            default_options []).
  - vm_compute. reflexivity.
  - vm_compute. reflexivity.
  - left. reflexivity.
  - reflexivity.
Defined.

(* ------------------------------------------------------------------ *)
(** ** Index buffers and the file of a model *)

Lemma threw_andThen (a b : Written) (e : WriteExc) :
  a >> b = Threw e -> a = Threw e \/ b = Threw e.
Proof.
  destruct a as [x|ea], b as [y|eb]; simpl; intros H; try discriminate;
    auto.
Qed.

Lemma threw_forEach {A : Type} (l : list A) (body : A -> Written)
    (e : WriteExc) :
  forEach l body = Threw e -> exists a, In a l /\ body a = Threw e.
Proof.
  induction l as [|a l IH]; cbn [forEach fold_right]; intros H;
    [discriminate|].
  destruct (@threw_andThen _ _ e H) as [Ha|Hl].
  - exists a. split; [now left|exact Ha].
  - destruct (IH Hl) as [b [Hb Hbe]]. exists b. split; [now right|exact Hbe].
Qed.

Lemma threw_packed (n : nat) (v : Z) (r : Exc (list byte)) (e : WriteExc) :
  packs n v r -> bytes r = Threw e -> e = Py StructError.
Proof.
  unfold packs, bytes, given. destruct r as [bs|e0]; [discriminate|].
  intros [-> _] H. now injection H as <-.
Qed.

(** X18.  [UrhoWriteModel] writes an index buffer without an exception
    exactly when the index count and the index size fit 32 bits and every
    index fits its width, which is 16 bits when the index size is 2 and 32
    bits for any other index size; the buffer then takes 8 bytes and the
    index count times the width.  The only exception is [struct.error]. *)
Theorem index_data_is_count_times_width (buffer : UrhoIndexBuffer) :
  writes (writeIndexBuffer buffer) (indexBufferFits buffer)
         (8 + length (indexes buffer) * indexWidth buffer)
  /\ forall e, writeIndexBuffer buffer = Threw e -> e = Py StructError.
Proof.
  split; [apply writes_IndexBuffer|].
  unfold writeIndexBuffer, writeLen. intros e H.
  destruct (@threw_andThen _ _ e H) as [H1|H1];
    [exact (@threw_packed 4 _ _ e (writeUInt_packs _) H1)|].
  destruct (@threw_andThen _ _ e H1) as [H2|H2];
    [exact (@threw_packed 4 _ _ e (writeUInt_packs _) H2)|].
  destruct (@threw_forEach _ _ _ e H2) as [i [_ Hi]].
  destruct (indexSize buffer =? 2)%nat;
    [exact (@threw_packed 2 _ _ e (writeUShort_packs _) Hi)
    |exact (@threw_packed 4 _ _ e (writeUInt_packs _) Hi)].
Qed.

(** X19.  In the model of the geometry stage an index buffer with fewer
    than 2^32 indices is written without an exception when its vertex
    buffer has at most 65536 vertices, or when it has more than 65535
    indices and its vertex buffer at most 2^32 vertices: every index then
    fits the width chosen from the index count.  The buffer takes 8 bytes
    and the index count times its index size. *)
Theorem index_buffers_of_a_model_are_written
    (tData : TData) (opts : UrhoExportOptions) (errors : list Z)
    (um : UrhoModel) (k : nat) (vb : UrhoVertexBuffer)
    (ib : UrhoIndexBuffer) :
  exportGeometries tData opts errors = Ok um ->
  nth_error (um_vertexBuffers um) k = Some vb ->
  nth_error (um_indexBuffers um) k = Some ib ->
  (Z.of_nat (length (indexes ib)) < 2 ^ 32)%Z ->
  ((Z.of_nat (length (vertices vb)) <= 65536)%Z
   \/ ((65535 < Z.of_nat (length (indexes ib)))%Z
       /\ (Z.of_nat (length (vertices vb)) <= 2 ^ 32)%Z)) ->
  exists items,
    writeIndexBuffer ib = Wrote items
    /\ size items = (8 + length (indexes ib) * indexSize ib)%nat.
Proof.
  intros H Hvb Hib Hn Hv.
  pose proof (exportGeometries_total tData opts errors) as Ht.
  rewrite H in Ht.
  destruct Ht as (_ & st & _ & HS & _ & _ & Ev & Ei & _).
  rewrite Ev in Hvb. rewrite Ei, nth_error_map in Hib.
  destruct (nth_error (indexBuffers st) k) as [ib0|] eqn:E0;
    [|discriminate]. injection Hib as <-.
  destruct HS as (_ & _ & Hp & _).
  pose proof (Hp k vb ib0 Hvb E0) as Hplaces. unfold placesOk in Hplaces.
  rewrite Forall_forall in Hplaces.
  pose proof (writes_IndexBuffer (setIndexSize ib0)) as W.
  unfold indexBufferFits, indexWidth, setIndexSize in *.
  cbn [indexSize indexes] in *.
  assert (F1 : fitsUInt 4 (Z.of_nat (length (indexes ib0))) = true).
  { unfold fitsUInt. apply andb_true_iff.
    split; [apply Z.leb_le|apply Z.ltb_lt]; simpl; lia. }
  destruct (Z.ltb_spec 65535 (Z.of_nat (length (indexes ib0)))) as [Hl|Hl].
  - change (fitsUInt 4 (Z.of_nat 4)) with true in W.
    change (4 =? 2)%nat with false in W. cbv iota in W.
    rewrite F1 in W. cbn [andb] in W.
    assert (F2 : forallb (fun i => fitsUInt 4 (Z.of_nat i)) (indexes ib0)
                 = true).
    { apply forallb_forall. intros i Hi. specialize (Hplaces i Hi).
      unfold fitsUInt. apply andb_true_iff.
      split; [apply Z.leb_le|apply Z.ltb_lt]; simpl; lia. }
    rewrite F2 in W. unfold writes in W.
    destruct (writeIndexBuffer _) as [items|e]; [|discriminate].
    exists items. split; [reflexivity|exact (proj2 W)].
  - change (fitsUInt 4 (Z.of_nat 2)) with true in W.
    change (2 =? 2)%nat with true in W. cbv iota in W.
    rewrite F1 in W. cbn [andb] in W.
    assert (F2 : forallb (fun i => fitsUInt 2 (Z.of_nat i)) (indexes ib0)
                 = true).
    { apply forallb_forall. intros i Hi. specialize (Hplaces i Hi).
      unfold fitsUInt. apply andb_true_iff.
      split; [apply Z.leb_le|apply Z.ltb_lt]; simpl; lia. }
    rewrite F2 in W. unfold writes in W.
    destruct (writeIndexBuffer _) as [items|e]; [|discriminate].
    exists items. split; [reflexivity|exact (proj2 W)].
Qed.

Lemma index_buffers_of_a_model_are_written_witness :
  exists um vb ib,
    exportGeometries two_triangles default_options [] = Ok um
    /\ nth_error (um_vertexBuffers um) 0 = Some vb
    /\ nth_error (um_indexBuffers um) 0 = Some ib
    /\ exists items,
         writeIndexBuffer ib = Wrote items
         /\ size items = (8 + length (indexes ib) * indexSize ib)%nat.
Proof.
  eexists. eexists. eexists.
  split; [vm_compute; reflexivity|].
  split; [reflexivity|]. split; [reflexivity|].
  eapply (@index_buffers_of_a_model_are_written two_triangles
            default_options [] _ 0%nat).
  - vm_compute. reflexivity.
  - reflexivity.
  - reflexivity.
  - vm_compute. reflexivity.
  - left. vm_compute. discriminate.
Defined.

Lemma no_lods_iff (tgs : list TGeometry) (gs : list UrhoGeometry) :
  Forall2 geometryRel tgs gs ->
  existsb has_lods gs = negb (forallb noLods tgs).
Proof.
  induction 1 as [|tg g tgs gs Hr HF IH]; [reflexivity|].
  cbn [existsb forallb]. rewrite IH, (geometryRel_has_lods Hr).
  unfold noLods. now destruct (tg_lodLevels tg).
Qed.

Lemma filter_nil_existsb {A : Type} (f : A -> bool) (l : list A) :
  length (filter f l) = 0%nat <-> existsb f l = false.
Proof.
  induction l as [|a l IH]; simpl; [tauto|].
  destruct (f a); simpl; [split; discriminate|exact IH].
Qed.

(** X20.  For the model of the geometry stage [UrhoWriteModel] logs its
    error and writes no file exactly when no source geometry has a LOD
    level; a source with geometries that all lack LOD levels gets no
    file. *)
Theorem model_file_needs_a_lod
    (tData : TData) (opts : UrhoExportOptions) (errors : list Z)
    (um : UrhoModel) (morphs : list UrhoVertexMorph) (bones : list UrhoBone) :
  exportGeometries tData opts errors = Ok um ->
  (UrhoWriteModel um morphs bones = NoFile
   <-> forallb noLods (td_geometriesList tData) = true).
Proof.
  intros H.
  destruct (exportGeometries_spec _ _ _ H)
    as (st & HI & _ & Hsh & Hsp & HF & _ & Hv & Hi & Hg & _).
  pose proof (no_lods_iff HF) as Hn.
  destruct (Inv_lengths HI) as [Hlen _].
  assert (Hz : length (vertexBuffers st) = 0%nat
               <-> existsb has_lods (geometries st) = false).
  { destruct (useOneBuffer (exportEnv tData opts)).
    - destruct (Hsh eq_refl) as [-> _].
      destruct (existsb has_lods (geometries st)); split; auto;
        discriminate.
    - destruct (Hsp eq_refl) as [-> _]. apply filter_nil_existsb. }
  unfold UrhoWriteModel. rewrite Hv, Hi, Hg.
  destruct (forallb noLods (td_geometriesList tData)); cbn [negb] in Hn.
  - apply Hz in Hn. destruct (vertexBuffers st); [|discriminate].
    split; reflexivity.
  - assert (Hne : length (vertexBuffers st) <> 0%nat).
    { intros Hc. apply Hz in Hc. congruence. }
    destruct (vertexBuffers st) as [|vb vbs]; [now elim Hne|].
    destruct (indexBuffers st) as [|ib ibs]; [discriminate|].
    destruct (geometries st) as [|g gs]; [discriminate|].
    cbn [map]. split; [|discriminate].
    destruct (writeModel _ _ _); discriminate.
Qed.

Lemma model_file_needs_a_lod_witness :
  exists um,
    exportGeometries two_triangles default_options [] = Ok um
    /\ (UrhoWriteModel um [] [] = NoFile
        <-> forallb noLods (td_geometriesList two_triangles) = true).
Proof.
  eexists. split; [vm_compute; reflexivity|].
  apply (@model_file_needs_a_lod two_triangles default_options []).
  vm_compute. reflexivity.
Defined.

(* ------------------------------------------------------------------ *)
(** ** Animations and their writer *)

Lemma keyframeMask_range (tk : TKeyframe) : (0 <= keyframeMask tk <= 7)%Z.
Proof.
  unfold keyframeMask, flag, truthy_opt.
  destruct (tk_position tk), (tk_rotation tk), (tk_scale tk);
    vm_compute; split; discriminate.
Qed.

Lemma addKeyframe_inv (uTrack uTrack' : UrhoTrack) (tFrame : TKeyframe) :
  addKeyframe uTrack tFrame = Ok uTrack' -> trackInv uTrack ->
  trackInv uTrack'.
Proof.
  unfold addKeyframe, UrhoKeyframe_init, trackInv.
  destruct (mask uTrack) as [old|] eqn:Em; cbn [bind].
  - destruct (Z.eqb_spec old (keyframeMask tFrame)) as [->|]; [|discriminate].
    cbn [bind]. intros H [Hr Hall]. injection H as <-. cbn [mask keyframes].
    rewrite Em. split; [exact Hr|].
    apply Forall_app. split; [exact Hall|]. now repeat constructor.
  - intros H Hnil. injection H as <-. cbn [mask keyframes]. rewrite Hnil.
    split; [apply keyframeMask_range|]. now repeat constructor.
Qed.

Lemma convertTrack_inv (tTrack : TTrack) (uTrack : UrhoTrack) :
  convertTrack tTrack = Ok uTrack -> trackInv uTrack.
Proof.
  unfold convertTrack. intros H.
  destruct (foldM addKeyframe (frames tTrack)
                  (mkUrhoTrack (tt_name tTrack) None [])) as [t|e] eqn:E;
    cbn [bind] in H; [|discriminate].
  injection H as <-.
  assert (Ht : trackInv t).
  { refine (proj1 (@foldM_inv_rel _ _ addKeyframe trackInv (fun _ _ => True)
                     _ _ _ (frames tTrack) _ t _ E)); auto.
    - intros a x a' Ha Hx. split; [|exact I].
      exact (@addKeyframe_inv a a' x Hx Ha).
    - reflexivity. }
  unfold trackInv in *. cbn [mask keyframes].
  destruct (mask t) as [m|].
  - destruct Ht as [Hr Hall]. split; [exact Hr|].
    exact (Permutation_Forall (Permutation_sym (sort_time_perm _)) Hall).
  - now rewrite Ht.
Qed.

Lemma keepTrack_uniform (uTrack : UrhoTrack) :
  keepTrack uTrack = true -> trackInv uTrack -> trackUniform uTrack.
Proof.
  intros Hk Hi. destruct (keepTrack_true _ Hk) as [_ [m [Hm Hne]]].
  unfold trackInv in Hi. rewrite Hm in Hi. destruct Hi as [Hr Hall].
  exists m. split; [exact Hm|]. split; [lia|exact Hall].
Qed.

Lemma addTrack_uniform (tts : list TTrack) (ua ua' : UrhoAnimation) :
  foldM addTrack tts ua = Ok ua' ->
  Forall trackUniform (tracks ua) -> Forall trackUniform (tracks ua').
Proof.
  intros H Hu.
  refine (proj1 (@foldM_inv_rel _ _ addTrack
                   (fun a => Forall trackUniform (tracks a))
                   (fun _ _ => True) _ _ _ tts ua ua' Hu H)); auto.
  intros a x a' Ha Hx. split; [|exact I].
  unfold addTrack in Hx.
  destruct (convertTrack x) as [ut|e] eqn:E; cbn [bind] in Hx; [|discriminate].
  destruct (keepTrack ut) eqn:K; injection Hx as <-; [|exact Ha].
  cbn [tracks]. apply Forall_app. split; [exact Ha|].
  constructor; [|constructor].
  apply keepTrack_uniform; [exact K|]. exact (@convertTrack_inv x ut E).
Qed.

Lemma exportAnimations_from (animationsList : list TAnimation) :
  forall (uAnimations res : list UrhoAnimation) (a : UrhoAnimation),
    exportAnimations animationsList uAnimations = Ok res -> In a res ->
    In a uAnimations
    \/ exists ta, In ta animationsList /\ convertAnimation ta = Ok a
                  /\ tracks a <> [].
Proof.
  unfold exportAnimations.
  induction animationsList as [|ta r IH]; cbn [foldM];
    intros uAnimations res a H Ha.
  - injection H as <-. now left.
  - destruct (convertAnimation ta) as [ua|e] eqn:E; cbn [bind] in H;
      [|discriminate].
    destruct (tracks ua) as [|t ts] eqn:T; cbn [bind] in H.
    + destruct (IH _ _ a H Ha) as [Hin|[ta' [Hin [Hc Hn]]]]; [now left|].
      right. exists ta'. split; [now right|now split].
    + destruct (IH _ _ a H Ha) as [Hin|[ta' [Hin [Hc Hn]]]].
      * apply in_app_or in Hin. destruct Hin as [Hin|[<-|[]]]; [now left|].
        right. exists ta. split; [now left|]. split; [exact E|].
        now rewrite T.
      * right. exists ta'. split; [now right|now split].
Qed.

(** X21.  In every animation the animation stage appends, every track has
    a mask between 1 and 7, and each of its keyframes carries exactly the
    elements of that mask: a position, a rotation and a scale are present
    in one keyframe of the track exactly when they are present in all. *)
Theorem keyframes_carry_the_track_mask (animationsList : list TAnimation)
    (uAnimations : list UrhoAnimation) (a : UrhoAnimation) (t : UrhoTrack) :
  exportAnimations animationsList [] = Ok uAnimations ->
  In a uAnimations -> In t (tracks a) ->
  exists m,
    mask t = Some m /\ (1 <= m <= 7)%Z
    /\ forall k, In k (keyframes t) ->
         (truthy_opt (position k) = hasBit m TRACK_POSITION)
         /\ (truthy_opt (rotation k) = hasBit m TRACK_ROTATION)
         /\ (truthy_opt (scale k) = hasBit m TRACK_SCALE).
Proof.
  intros H Ha Ht.
  destruct (@exportAnimations_from animationsList [] uAnimations a H Ha)
    as [[]|[ta [_ [Hc _]]]].
  pose proof (@addTrack_uniform (ta_tracks ta)
                (mkUrhoAnimation (ta_name ta) None []) a Hc
                (Forall_nil _)) as Hu.
  rewrite Forall_forall in Hu. destruct (Hu t Ht) as [m [Hm [Hr Hall]]].
  exists m. split; [exact Hm|]. split; [exact Hr|].
  intros k Hk. rewrite Forall_forall in Hall. specialize (Hall k Hk).
  subst m. unfold keyframeChannels, flag, hasBit.
  destruct (position k), (rotation k), (scale k); now vm_compute.
Qed.

Lemma keyframes_carry_the_track_mask_witness :
  exists a t,
    In a [mkUrhoAnimation "Run"%string (Some (12 # 10))
            [mkUrhoTrack "Root"%string (Some TRACK_POSITION)
               (map sourceKeyframe
                  [position_key 0; position_key (1 # 2);
                   position_key (12 # 10)])]]
    /\ In t (tracks a)
    /\ exists m,
         mask t = Some m /\ (1 <= m <= 7)%Z
         /\ forall k, In k (keyframes t) ->
              (truthy_opt (position k) = hasBit m TRACK_POSITION)
              /\ (truthy_opt (rotation k) = hasBit m TRACK_ROTATION)
              /\ (truthy_opt (scale k) = hasBit m TRACK_SCALE).
Proof.
  eexists. eexists. split; [left; reflexivity|].
  split; [left; reflexivity|].
  eapply (@keyframes_carry_the_track_mask [scenario_animation]).
  - vm_compute. reflexivity.
  - left. reflexivity.
  - left. reflexivity.
Defined.

Lemma channels_bits (k : UrhoKeyframe) :
  hasBit (keyframeChannels k) TRACK_POSITION = truthy_opt (position k)
  /\ hasBit (keyframeChannels k) TRACK_ROTATION = truthy_opt (rotation k)
  /\ hasBit (keyframeChannels k) TRACK_SCALE = truthy_opt (scale k).
Proof.
  unfold keyframeChannels, flag, hasBit.
  destruct (position k), (rotation k), (scale k); now vm_compute.
Qed.

Lemma writes_when_opt {A : Type} (o : option A) (w : Written) (ok : bool)
    (n : nat) :
  writes w ok n ->
  writes (when (truthy_opt o) w)
         match o with Some _ => ok | None => true end
         (if truthy_opt o then n else 0%nat).
Proof. destruct o; simpl; [trivial|now split]. Qed.

Lemma writes_Keyframe (m : Z) (k : UrhoKeyframe) :
  keyframeChannels k = m ->
  writes (writeKeyframe m k) (keyframeFits k) (keyframeSize m).
Proof.
  intros <-. unfold writeKeyframe, keyframeFits, keyframeSize.
  destruct (channels_bits k) as [-> [-> ->]].
  rewrite <- !andb_assoc, <- !Nat.add_assoc.
  apply writes_andThen; [apply writes_Float|].
  apply writes_andThen; [apply writes_when_opt, writes_Vector3|].
  apply writes_andThen; [apply writes_when_opt, writes_Quaternion|].
  apply writes_when_opt, writes_Vector3.
Qed.

Lemma writes_Track (t : UrhoTrack) :
  trackUniform t -> writes (writeTrack t) (trackFits t) (trackSize t).
Proof.
  intros [m [Hm [Hr Hall]]]. unfold writeTrack, trackFits, trackSize.
  rewrite Hm.
  eapply writes_ext.
  - apply writes_andThen; [apply writes_AsciiStr|].
    apply writes_andThen; [apply writes_UByte|].
    apply writes_andThen; [apply writes_UByte|].
    apply writes_andThen; [apply writes_UInt|].
    apply (@writes_forEach_sum _ (keyframes t) (writeKeyframe m)
             keyframeFits (fun _ => keyframeSize m)).
    intros k Hk. apply writes_Keyframe.
    rewrite Forall_forall in Hall. now apply Hall.
  - assert (F : fitsUInt 1 m = true).
    { unfold fitsUInt. apply andb_true_iff.
      split; [apply Z.leb_le|apply Z.ltb_lt]; simpl; lia. }
    rewrite F. cbn [andb]. change (fitsUInt 1 0) with true.
    cbn [andb]. now rewrite andb_assoc.
  - rewrite list_sum_const. lia.
Qed.

Lemma convertAnimation_length (ta : TAnimation) (a : UrhoAnimation) :
  convertAnimation ta = Ok a -> tracks a <> [] ->
  exists l, animationLength a = Some l.
Proof.
  intros Hc Hn. destruct (convertAnimation_consolidated _ Hc)
    as [_ [_ [_ [_ Hl]]]].
  unfold is_max_final_time in Hl.
  destruct (animationLength a) as [l|]; [now exists l|contradiction].
Qed.

(** X22.  [UrhoWriteAnimation] writes a file for every animation the
    animation stage appends, unless a name is not ASCII, a float does not
    fit single precision or a count does not fit 32 bits: no track is
    without a mask and no keyframe lacks an element of its track's mask.
    The file takes 13 bytes and the animation name, and for each track 6
    bytes, its name and the keyframe size of its mask for each keyframe. *)
Theorem exported_animations_are_written (animationsList : list TAnimation)
    (uAnimations : list UrhoAnimation) (a : UrhoAnimation) :
  exportAnimations animationsList [] = Ok uAnimations ->
  In a uAnimations ->
  match UrhoWriteAnimation a with
  | File content => animationFits a = true /\ size content = animationSize a
  | Stopped _ => animationFits a = false
  | NoFile => False
  end.
Proof.
  intros H Ha.
  destruct (@exportAnimations_from animationsList [] uAnimations a H Ha)
    as [[]|[ta [_ [Hc Hn]]]].
  pose proof (@addTrack_uniform (ta_tracks ta)
                (mkUrhoAnimation (ta_name ta) None []) a Hc
                (Forall_nil _)) as Hu.
  destruct (@convertAnimation_length ta a Hc Hn) as [l Hl].
  assert (W : writes (writeAsciiStr "UANI"%string >>
                      writeAsciiStr (animationName a) >>
                      bytes (writeUByte 0) >>
                      match animationLength a with
                      | Some len => writeFloat len
                      | None => Threw (Py StructError)
                      end >>
                      writeLen (tracks a) >>
                      forEach (tracks a) writeTrack)
                     (animationFits a) (animationSize a)).
  { unfold animationFits, animationSize, writeLen. rewrite Hl.
    eapply writes_ext.
    - apply writes_andThen; [apply writes_AsciiStr|].
      apply writes_andThen; [apply writes_AsciiStr|].
      apply writes_andThen; [apply writes_UByte|].
      apply writes_andThen; [apply writes_Float|].
      apply writes_andThen; [apply writes_UInt|].
      apply (@writes_forEach_sum _ (tracks a) writeTrack trackFits
               trackSize).
      intros t Ht. apply writes_Track.
      rewrite Forall_forall in Hu. now apply Hu.
    - change (isAscii "UANI"%string) with true. change (fitsUInt 1 0) with true.
      cbn [andb]. now rewrite !andb_assoc.
    - cbn [String.length]. lia. }
  unfold UrhoWriteAnimation.
  destruct (tracks a) as [|t ts] eqn:T; [now apply Hn|].
  unfold writes in W.
  match goal with
  | |- match close ?w with _ => _ end => destruct w; exact W
  end.
Qed.

Lemma exported_animations_are_written_witness :
  exists a,
    In a [mkUrhoAnimation "Run"%string (Some (12 # 10))
            [mkUrhoTrack "Root"%string (Some TRACK_POSITION)
               (map sourceKeyframe
                  [position_key 0; position_key (1 # 2);
                   position_key (12 # 10)])]]
    /\ match UrhoWriteAnimation a with
       | File content =>
           animationFits a = true /\ size content = animationSize a
       | Stopped _ => animationFits a = false
       | NoFile => False
       end.
Proof.
  eexists. split; [left; reflexivity|].
  eapply (@exported_animations_are_written [scenario_animation]).
  - vm_compute. reflexivity.
  - left. reflexivity.
Defined.
